(** * Butex: the futex-like wait/wake primitive of bthread

    A shallow embedding of [src/bthread/butex.cpp].  Memory is a store of
    butexes, waiter records and task records indexed by address; every
    region the source runs under [waiter_lock] is one atomic state
    transformer; calls into the scheduler, the timer thread, the kernel
    futex and the logger are recorded, in program order, in a trace. *)

From Stdlib Require Import ZArith Lia.
From stdpp Require Import base decidable option list functions numbers.

Open Scope Z_scope.

(** ** Data model *)

(** Addresses.  A pointer that may be NULL is an [option ptr]. *)
Definition ptr := Z.

(** [bthread_t]: tids of pthreads are 0. *)
Definition bthread_t := Z.

(** If a thread would suspend for less than so many microseconds, return
    ETIMEDOUT directly. *)
Definition LEAST_SLEEP_US : Z := 1.

Inductive WaiterState :=
| WAITER_STATE_NONE
| WAITER_STATE_TIMED
| WAITER_STATE_CANCELLED
| WAITER_STATE_TIMEDOUT.

#[global] Instance WaiterState_eq_dec : EqDecision WaiterState.
Proof. solve_decision. Defined.

(** enum BUTEX_PTHREAD_SIGNAL *)
Definition NOT_SIGNALLED : Z := 0.
Definition SIGNALLED : Z := 1.
Definition SAFE_TO_DESTROY : Z := 2.

(** Modelled from the spec: the error kinds of section 7.  Their numeric
    values live in <errno.h> and bthread/errno.h, which are not part of
    the source at hand; EWOULDBLOCK is EAGAIN on Linux. *)
Definition EWOULDBLOCK : Z := 11.
Definition ETIMEDOUT : Z := 110.
Definition ESTOP : Z := -20.

(** [ButexWaiter] with both of its subclasses laid out flat: [tid] and
    [container] are the base class, [sig] is [ButexPthreadWaiter], the
    remaining fields are [ButexBthreadWaiter].  The source tells the two
    apart by [tid] alone ([static_cast] after testing [tid == 0]). *)
Record ButexWaiter := mkButexWaiter {
  tid : bthread_t;
  container : option ptr;
  task_meta : ptr;
  sleep_id : Z;
  waiter_state : WaiterState;
  expected_value : Z;
  initial_butex : ptr;
  control : ptr;
  sig : Z
}.

(** [struct Butex].  [waiter_lock] has no field: a locked region is an
    atomic transformer.  [waiters] is the intrusive list, head first. *)
Record Butex := mkButex {
  value : Z;
  unlock_nref : Z;
  waiters : list ptr
}.

(** Modelled from the spec: [TaskMeta] is declared outside the source at
    hand; section 3 has the task record provide [interruptible], [stop]
    and [current_waiter], the three fields this file touches. *)
Record TaskMeta := mkTaskMeta {
  interruptible : bool;
  stop : bool;
  current_waiter : option ptr
}.

(** Modelled from the spec: [TaskGroup] is declared outside the source
    at hand; these are the four queries this file makes of it
    ([current_task()], [current_tid()], [is_current_pthread_task()],
    [control()]; section 6). *)
Record TaskGroup := mkTaskGroup {
  current_task : ptr;
  current_tid : bthread_t;
  is_current_pthread_task : bool;
  group_control : ptr
}.

(** Calls that leave this file, and actions with no effect on the store. *)
Inductive Event :=
| futex_wake_private (addr : ptr) (n : Z)
| timer_unschedule (id : Z)
| timer_schedule (arg : ptr) (id : Z)
| TaskGroup_exchange (g : ptr) (t : bthread_t)
| ready_to_run (g : ptr) (t : bthread_t)
| ready_to_run_nosignal (g : ptr) (t : bthread_t)
| flush_nosignal_tasks (g : ptr)
| set_remained_and_sched (g : ptr) (arg : ptr)
| atomic_thread_fence_acquire
| LOG_WARNING
| cpu_relax
| Butex_destructor (b : ptr)
| operator_delete (p : ptr).

#[global] Instance Event_eq_dec : EqDecision Event.
Proof. solve_decision. Defined.

Record State := mkState {
  butex_at : ptr -> Butex;
  waiter_at : ptr -> ButexWaiter;
  task_at : ptr -> TaskMeta;
  group_at : ptr -> TaskGroup;
  errno : Z;
  butex_waiter_count : Z;
  trace : list Event
}.

(** ** Field updates *)

Definition with_butex (b : ptr) (f : Butex -> Butex) (s : State) : State :=
  mkState (<[b := f (butex_at s b)]> (butex_at s)) (waiter_at s) (task_at s)
          (group_at s) (errno s) (butex_waiter_count s) (trace s).

Definition with_waiter (w : ptr) (f : ButexWaiter -> ButexWaiter) (s : State) : State :=
  mkState (butex_at s) (<[w := f (waiter_at s w)]> (waiter_at s)) (task_at s)
          (group_at s) (errno s) (butex_waiter_count s) (trace s).

Definition with_task (t : ptr) (f : TaskMeta -> TaskMeta) (s : State) : State :=
  mkState (butex_at s) (waiter_at s) (<[t := f (task_at s t)]> (task_at s))
          (group_at s) (errno s) (butex_waiter_count s) (trace s).

Definition set_errno (e : Z) (s : State) : State :=
  mkState (butex_at s) (waiter_at s) (task_at s) (group_at s) e
          (butex_waiter_count s) (trace s).

Definition add_waiter_count (d : Z) (s : State) : State :=
  mkState (butex_at s) (waiter_at s) (task_at s) (group_at s) (errno s)
          (butex_waiter_count s + d) (trace s).

Definition set_value (v : Z) (B : Butex) : Butex :=
  mkButex v (unlock_nref B) (waiters B).
Definition set_unlock_nref (n : Z) (B : Butex) : Butex :=
  mkButex (value B) n (waiters B).
Definition set_waiters (l : list ptr) (B : Butex) : Butex :=
  mkButex (value B) (unlock_nref B) l.

Definition set_tid (t : bthread_t) (W : ButexWaiter) : ButexWaiter :=
  mkButexWaiter t (container W) (task_meta W) (sleep_id W) (waiter_state W)
                (expected_value W) (initial_butex W) (control W) (sig W).
Definition set_container (c : option ptr) (W : ButexWaiter) : ButexWaiter :=
  mkButexWaiter (tid W) c (task_meta W) (sleep_id W) (waiter_state W)
                (expected_value W) (initial_butex W) (control W) (sig W).
Definition set_sleep_id (i : Z) (W : ButexWaiter) : ButexWaiter :=
  mkButexWaiter (tid W) (container W) (task_meta W) i (waiter_state W)
                (expected_value W) (initial_butex W) (control W) (sig W).
Definition set_waiter_state (st : WaiterState) (W : ButexWaiter) : ButexWaiter :=
  mkButexWaiter (tid W) (container W) (task_meta W) (sleep_id W) st
                (expected_value W) (initial_butex W) (control W) (sig W).
Definition set_sig (x : Z) (W : ButexWaiter) : ButexWaiter :=
  mkButexWaiter (tid W) (container W) (task_meta W) (sleep_id W) (waiter_state W)
                (expected_value W) (initial_butex W) (control W) x.

Definition set_current_waiter (c : option ptr) (T : TaskMeta) : TaskMeta :=
  mkTaskMeta (interruptible T) (stop T) c.
Definition set_interruptible (i : bool) (T : TaskMeta) : TaskMeta :=
  mkTaskMeta i (stop T) (current_waiter T).

(** ** The intrusive waiter list

    Modelled from the spec: base/containers/linked_list.h is not part of
    the source at hand.  Section 3 gives the list as an "intrusive
    doubly-linked list of waiter records - insertion at tail, removal from
    any position in O(1)".  A node unlinks itself without naming its list,
    so [RemoveFromList] takes the node out of whichever list holds it. *)

Definition RemoveFromList (w : ptr) (s : State) : State :=
  mkState (fun b => set_waiters (filter (fun x => x <> w) (waiters (butex_at s b)))
                                (butex_at s b))
          (waiter_at s) (task_at s) (group_at s) (errno s)
          (butex_waiter_count s) (trace s).

Definition Append (b : ptr) (w : ptr) (s : State) : State :=
  with_butex b (fun B => set_waiters (waiters B ++ [w]) B) s.

(** [offsetof(Butex, value) == 0] (BAIDU_CASSERT), so the handle handed to
    users, the address of [value], and the address of the butex differ by
    this offset. *)
Definition offsetof_Butex_value : Z := 0.
Definition address_of_value (b : ptr) : ptr := b + offsetof_Butex_value.
Definition container_of_value (arg : ptr) : ptr := arg - offsetof_Butex_value.

(** [std::atomic<int>] arithmetic wraps in two's complement. *)
Definition wrap32 (z : Z) : Z := (z + 2 ^ 31) mod 2 ^ 32 - 2 ^ 31.

(** ** Operations *)

Section Runtime.

(** What the collaborators answer: [TimerThread::unschedule] (positive
    when the callback is running; the answer may depend on what has
    happened so far), [TaskControl::choose_one_group], and the value
    [errno] holds once an outside call has returned. *)
Variable unschedule : list Event -> Z -> Z.
Variable choose_one_group : ptr -> ptr.
Variable errno_after : Event -> Z -> Z.

(** An outside call: recorded, and free to overwrite [errno]. *)
Definition call (e : Event) (s : State) : State :=
  mkState (butex_at s) (waiter_at s) (task_at s) (group_at s)
          (errno_after e (errno s)) (butex_waiter_count s) (trace s ++ [e]).

(** An action on no modelled memory (fence, pause): recorded only. *)
Definition note (e : Event) (s : State) : State :=
  mkState (butex_at s) (waiter_at s) (task_at s) (group_at s)
          (errno s) (butex_waiter_count s) (trace s ++ [e]).

Definition wakeup_pthread (pw : ptr) (s : State) : State :=
  call (futex_wake_private pw 1) (with_waiter pw (set_sig SAFE_TO_DESTROY) s).

(** Returns 0 when no need to unschedule or successfully unscheduled,
    -1 otherwise. *)
Definition unsleep_if_necessary (w : ptr) (s : State) : Z * State :=
  let id := sleep_id (waiter_at s w) in
  if decide (id = 0) then (0, s)
  else
    let s1 := call (timer_unschedule id) s in
    if decide (unschedule (trace s) id > 0) then (-1, s1)
    else (0, with_waiter w (set_sleep_id 0) s1).

(** [tls] is the calling thread's [tls_task_group]. *)
Definition get_task_group (tls : option ptr) (c : ptr) : ptr :=
  match tls with
  | Some g => g
  | None => choose_one_group c
  end.

(** The scoped-lock block shared by [butex_wake] and
    [butex_wake_and_remove_ref]. *)
Definition butex_wake_locked (b : ptr) (s : State) : option ptr * State :=
  match waiters (butex_at s b) with
  | [] => (None, s)
  | front :: _ =>
      (Some front, with_waiter front (set_container None) (RemoveFromList front s))
  end.

(** The tail that [butex_wake], [butex_wake_and_remove_ref] and
    [butex_requeue] each spell out for a bthread waiter. *)
Definition resume_bthread (tls : option ptr) (bbw : ptr) (s : State) : State :=
  let s1 := snd (unsleep_if_necessary bbw s) in
  match tls with
  | Some g => call (TaskGroup_exchange g (tid (waiter_at s1 bbw))) s1
  | None =>
      call (ready_to_run (choose_one_group (control (waiter_at s1 bbw)))
                         (tid (waiter_at s1 bbw))) s1
  end.

Definition dispatch_front (tls : option ptr) (front : ptr) (s : State) : State :=
  if decide (tid (waiter_at s front) = 0) then wakeup_pthread front s
  else resume_bthread tls front s.

Definition butex_wake (tls : option ptr) (arg : ptr) (s : State) : Z * State :=
  let b := container_of_value arg in
  match butex_wake_locked b s with
  | (None, s1) => (0, s1)
  | (Some front, s1) => (1, dispatch_front tls front s1)
  end.

Definition butex_add_ref_before_wake (arg : ptr) (s : State) : State :=
  with_butex (container_of_value arg)
             (fun B => set_unlock_nref (wrap32 (unlock_nref B + 1)) B) s.

Definition butex_remove_ref (arg : ptr) (s : State) : State :=
  with_butex (container_of_value arg)
             (fun B => set_unlock_nref (wrap32 (unlock_nref B - 1)) B) s.

Definition butex_wake_and_remove_ref (tls : option ptr) (arg : ptr) (s : State)
  : Z * State :=
  let b := container_of_value arg in
  match butex_wake_locked b s with
  | (None, s1) => (0, butex_remove_ref arg s1)
  | (Some front, s1) => (1, dispatch_front tls front (butex_remove_ref arg s1))
  end.

(** The first loop of [butex_wake_all]; one unit of [fuel] per turn. *)
Fixpoint wake_all_drain (fuel : nat) (b : ptr) (s : State)
         (bthread_waiters pthread_waiters : list ptr)
  : State * list ptr * list ptr :=
  match fuel with
  | O => (s, bthread_waiters, pthread_waiters)
  | S fuel' =>
      match waiters (butex_at s b) with
      | [] => (s, bthread_waiters, pthread_waiters)
      | bw :: _ =>
          let s1 := with_waiter bw (set_container None) (RemoveFromList bw s) in
          if decide (tid (waiter_at s1 bw) <> 0)
          then wake_all_drain fuel' b s1 (bthread_waiters ++ [bw]) pthread_waiters
          else wake_all_drain fuel' b s1 bthread_waiters (pthread_waiters ++ [bw])
      end
  end.

(** [while (!pthread_waiters.empty())]: head first. *)
Fixpoint wake_pthread_waiters (pthread_waiters : list ptr) (nwakeup : Z) (s : State)
  : Z * State :=
  match pthread_waiters with
  | [] => (nwakeup, s)
  | bw :: rest => wake_pthread_waiters rest (nwakeup + 1) (wakeup_pthread bw s)
  end.

(** "pop reversely": the argument is the local list, tail first. *)
Fixpoint ready_nosignal_each (g : ptr) (from_tail : list ptr) (nwakeup : Z) (s : State)
  : Z * State :=
  match from_tail with
  | [] => (nwakeup, s)
  | w :: rest =>
      let s1 := snd (unsleep_if_necessary w s) in
      let s2 := call (ready_to_run_nosignal g (tid (waiter_at s1 w))) s1 in
      ready_nosignal_each g rest (nwakeup + 1) s2
  end.

Definition butex_wake_all_impl (tls : option ptr) (arg : ptr) (remove_ref : bool)
           (s : State) : Z * State :=
  let b := container_of_value arg in
  let '(s1, bthread_waiters, pthread_waiters) :=
    wake_all_drain (length (waiters (butex_at s b))) b s [] [] in
  let s2 := if remove_ref then butex_remove_ref arg s1 else s1 in
  let '(nwakeup, s3) := wake_pthread_waiters pthread_waiters 0 s2 in
  match bthread_waiters with
  | [] => (nwakeup, s3)
  | next :: others =>
      let s4 := snd (unsleep_if_necessary next s3) in
      let nwakeup := nwakeup + 1 in
      let g := get_task_group tls (control (waiter_at s4 next)) in
      let saved_nwakeup := nwakeup in
      let '(nwakeup, s5) := ready_nosignal_each g (rev others) nwakeup s4 in
      let s6 := if decide (saved_nwakeup <> nwakeup)
                then call (flush_nosignal_tasks g) s5 else s5 in
      if decide (Some g = tls)
      then (nwakeup, call (TaskGroup_exchange g (tid (waiter_at s6 next))) s6)
      else (nwakeup, call (ready_to_run g (tid (waiter_at s6 next))) s6)
  end.

Definition butex_wake_all_and_remove_ref (tls : option ptr) (arg : ptr) (s : State) :=
  butex_wake_all_impl tls arg true s.

Definition butex_wake_all (tls : option ptr) (arg : ptr) (s : State) :=
  butex_wake_all_impl tls arg false s.

(** The first loop of [butex_wake_except]. *)
Fixpoint wake_except_drain (fuel : nat) (b : ptr) (excluded_bthread : bthread_t)
         (s : State) (bthread_waiters pthread_waiters : list ptr)
         (excluded_waiter : option ptr)
  : State * list ptr * list ptr * option ptr :=
  match fuel with
  | O => (s, bthread_waiters, pthread_waiters, excluded_waiter)
  | S fuel' =>
      match waiters (butex_at s b) with
      | [] => (s, bthread_waiters, pthread_waiters, excluded_waiter)
      | bw :: _ =>
          let s1 := RemoveFromList bw s in
          if decide (tid (waiter_at s1 bw) <> 0) then
            if decide (tid (waiter_at s1 bw) <> excluded_bthread) then
              wake_except_drain fuel' b excluded_bthread
                (with_waiter bw (set_container None) s1)
                (bthread_waiters ++ [bw]) pthread_waiters excluded_waiter
            else
              wake_except_drain fuel' b excluded_bthread s1
                bthread_waiters pthread_waiters (Some bw)
          else
            wake_except_drain fuel' b excluded_bthread
              (with_waiter bw (set_container None) s1)
              bthread_waiters (pthread_waiters ++ [bw]) excluded_waiter
      end
  end.

(** The whole scoped-lock block of [butex_wake_except]. *)
Definition wake_except_locked (b : ptr) (excluded_bthread : bthread_t) (s : State)
  : State * list ptr * list ptr :=
  let '(s1, bthread_waiters, pthread_waiters, excluded_waiter) :=
    wake_except_drain (length (waiters (butex_at s b))) b excluded_bthread s [] [] None in
  match excluded_waiter with
  | Some w => (Append b w s1, bthread_waiters, pthread_waiters)
  | None => (s1, bthread_waiters, pthread_waiters)
  end.

Definition butex_wake_except (tls : option ptr) (arg : ptr)
           (excluded_bthread : bthread_t) (s : State) : Z * State :=
  let b := container_of_value arg in
  let '(s1, bthread_waiters, pthread_waiters) :=
    wake_except_locked b excluded_bthread s in
  let '(nwakeup, s2) := wake_pthread_waiters pthread_waiters 0 s1 in
  match bthread_waiters with
  | [] => (nwakeup, s2)
  | front :: _ =>
      let g := get_task_group tls (control (waiter_at s2 front)) in
      let saved_nwakeup := nwakeup in
      let '(nwakeup, s3) := ready_nosignal_each g (rev bthread_waiters) nwakeup s2 in
      if decide (saved_nwakeup <> nwakeup)
      then (nwakeup, call (flush_nosignal_tasks g) s3)
      else (nwakeup, s3)
  end.

(** The loop of [butex_requeue] that moves what is left of [b] to [m]. *)
Fixpoint requeue_move (fuel : nat) (b m : ptr) (s : State) : State :=
  match fuel with
  | O => s
  | S fuel' =>
      match waiters (butex_at s b) with
      | [] => s
      | bw :: _ =>
          requeue_move fuel' b m
            (with_waiter bw (set_container (Some m)) (Append m bw (RemoveFromList bw s)))
      end
  end.

(** The block of [butex_requeue] that holds both locks. *)
Definition requeue_locked (b m : ptr) (s : State) : option ptr * State :=
  match waiters (butex_at s b) with
  | [] => (None, s)
  | front :: _ =>
      let s1 := with_waiter front (set_container None) (RemoveFromList front s) in
      (Some front, requeue_move (length (waiters (butex_at s1 b))) b m s1)
  end.

(** Modelled from the spec: base::double_lock is not part of the source
    at hand; section 4.5 has it take "both butexes' waiter_lock in a
    deadlock-free order (pointer-ordered double lock)".  The two locks
    are two mutexes: with [arg = arg2] there is one mutex to lock twice,
    and the call does not come back ([None]). *)
Definition butex_requeue (tls : option ptr) (arg arg2 : ptr) (s : State)
  : option (Z * State) :=
  let b := container_of_value arg in
  let m := container_of_value arg2 in
  if decide (b = m) then None
  else
    match requeue_locked b m s with
    | (None, s1) => Some (0, s1)
    | (Some front, s1) => Some (1, dispatch_front tls front s1)
    end.

(** *** Cancellation *)

(** What [erase_from_butex] does once the second load of [container]
    agrees with the first. *)
Definition erase_locked (bw : ptr) (s : State) : State :=
  let s1 := with_waiter bw (set_container None) (RemoveFromList bw s) in
  if decide (tid (waiter_at s1 bw) <> 0)
  then with_waiter bw (set_waiter_state WAITER_STATE_TIMEDOUT) s1
  else s1.

(** The [while] of [erase_from_butex].  Between the acquire load of
    [container] and the load under [b->waiter_lock] other threads may
    run: [env] lists what they do in that window, one entry per turn of
    the loop; once [env] is used up nobody interferes. *)
Fixpoint erase_from_butex_loop (env : list (State -> State)) (bw : ptr) (s : State)
  : bool * State :=
  match container (waiter_at s bw) with
  | None => (false, s)
  | Some b =>
      match env with
      | [] => (true, erase_locked bw s)
      | f :: env' =>
          let s' := f s in
          if decide (Some b = container (waiter_at s' bw))
          then (true, erase_locked bw s')
          else erase_from_butex_loop env' bw s'
      end
  end.

Definition erase_from_butex (tls : option ptr) (env : list (State -> State))
           (bw : ptr) (wakeup : bool) (s : State) : bool * State :=
  let saved_errno := errno s in
  let '(erased, s1) := erase_from_butex_loop env bw s in
  let s2 :=
    if erased && wakeup then
      if decide (tid (waiter_at s1 bw) <> 0)
      then call (ready_to_run (get_task_group tls (control (waiter_at s1 bw)))
                              (tid (waiter_at s1 bw))) s1
      else wakeup_pthread bw s1
    else s1 in
  (erased, set_errno saved_errno s2).

Definition erase_from_butex_and_wakeup (tls : option ptr) (env : list (State -> State))
           (arg : ptr) (s : State) : State :=
  snd (erase_from_butex tls env arg true s).

(** *** Wait *)

(** The "remained" function of the bthread path; it runs on the worker
    whose group is [g] (its [tls_task_group]). *)
Definition wait_for_butex (g : ptr) (bw : ptr) (s : State) : State :=
  let W := waiter_at s bw in
  let b := initial_butex W in
  let T := task_at s (task_meta W) in
  if bool_decide (value (butex_at s b) = expected_value W)
     && bool_decide (waiter_state W <> WAITER_STATE_TIMEDOUT)
     && (negb (stop T) || negb (interruptible T))
  then with_waiter bw (set_container (Some b)) (Append b bw s)
  else
    let s1 := snd (unsleep_if_necessary bw s) in
    let s2 := if decide (waiter_state (waiter_at s1 bw) <> WAITER_STATE_TIMEDOUT)
              then with_waiter bw (set_waiter_state WAITER_STATE_CANCELLED) s1
              else s1 in
    call (ready_to_run g (tid (waiter_at s2 bw))) s2.

(** Where a call to wait stands when a straight-line stretch of it ends. *)
Inductive Outcome :=
| Returned (rc : Z)
| Parked (g : ptr) (bbw : ptr)
| Sleeping (pw : ptr) (task : option ptr) (set_waiter : bool)
| Leaving (task : option ptr) (set_waiter : bool) (rc : Z).

(** [timespec] and its conversion come from base/time.h. *)
Variable timespec : Type.
Variable timespec_to_microseconds : timespec -> Z.

(** [butex_wait_from_pthread] up to the call of [wait_pthread]
    ([Sleeping]) or up to [if (task)] ([Leaving]).  [now] is what
    [gettimeofday_us] answers, [pw] the address of the on-stack waiter.
    Times are int64 microseconds; their difference is taken in Z, signed
    overflow being undefined in the source. *)
Definition butex_wait_from_pthread_enter (g : option ptr) (b : ptr) (expected_value : Z)
           (abstime : option timespec) (now : Z) (pw : ptr) (s : State)
  : Outcome * State :=
  let expired :=
    match abstime with
    | Some t => bool_decide (timespec_to_microseconds t - now <= LEAST_SLEEP_US)
    | None => false
    end in
  if expired then (Returned (-1), set_errno ETIMEDOUT s)
  else
    let s1 := with_waiter pw (fun W => set_sig NOT_SIGNALLED (set_tid 0 W)) s in
    let locked (task : option ptr) (set_waiter : bool) (s2 : State) :=
      if decide (value (butex_at s2 b) = expected_value)
      then (Sleeping pw task set_waiter,
            add_waiter_count 1
              (with_waiter pw (set_container (Some b)) (Append b pw s2)))
      else (Leaving task set_waiter (-1), set_errno EWOULDBLOCK s2) in
    match g with
    | Some gp =>
        let task := current_task (group_at s1 gp) in
        if interruptible (task_at s1 task) then
          if stop (task_at s1 task) then (Returned (-1), set_errno ESTOP s1)
          else locked (Some task) true
                      (with_task task (set_current_waiter (Some pw)) s1)
        else locked (Some task) false s1
    | None => locked None false s1
    end.

(** [BT_LOOP_WHEN(current_waiter.exchange(NULL) == NULL)]: every turn
    that finds NULL lets the stopper holding the waiter run ([env]); if
    it never gives the waiter back the loop does not end ([None]). *)
Fixpoint take_current_waiter (env : list (State -> State)) (task : ptr) (s : State)
  : option State :=
  match current_waiter (task_at s task) with
  | Some _ => Some (with_task task (set_current_waiter None) s)
  | None =>
      match env with
      | [] => None
      | f :: env' => take_current_waiter env' task (f s)
      end
  end.

(** [butex_wait_from_pthread] from [if (task)] to its end. *)
Definition butex_wait_from_pthread_leave (env : list (State -> State))
           (task : option ptr) (set_waiter : bool) (rc : Z) (s : State)
  : option (Z * State) :=
  match task with
  | Some t =>
      match (if set_waiter then take_current_waiter env t s else Some s) with
      | Some s1 =>
          if stop (task_at s1 t) then Some (-1, set_errno ESTOP s1)
          else Some (rc, s1)
      | None => None
      end
  | None => Some (rc, s)
  end.

(** [butex_wait] from [TaskGroup* g = tls_task_group] up to
    [TaskGroup::sched(&g)] on the bthread path.  [new_sleep_id] is what
    [TimerThread::schedule] answers (0 once the timer thread has
    stopped); [bbw] and [pw] are the addresses the two on-stack waiters
    would take. *)
Definition butex_wait_checked (tls : option ptr) (arg : ptr) (expected_value : Z)
           (abstime : option timespec) (now : Z) (new_sleep_id : Z)
           (bbw pw : ptr) (s : State) : Outcome * State :=
  let b := container_of_value arg in
  let from_pthread (g : option ptr) :=
    butex_wait_from_pthread_enter g b expected_value abstime now pw s in
  match tls with
  | None => from_pthread None
  | Some g =>
      if is_current_pthread_task (group_at s g) then from_pthread (Some g)
      else
        let G := group_at s g in
        let s1 := with_waiter bbw
                    (fun W => mkButexWaiter (current_tid G) None (current_task G) 0
                                WAITER_STATE_NONE expected_value b (group_control G)
                                (sig W)) s in
        let park (s2 : State) :=
          (Parked g bbw,
           call (set_remained_and_sched g bbw)
             (with_task (task_meta (waiter_at s2 bbw)) (set_current_waiter (Some bbw))
                (add_waiter_count 1 s2))) in
        match abstime with
        | Some t =>
            let s2 := with_waiter bbw (set_waiter_state WAITER_STATE_TIMED) s1 in
            if decide (timespec_to_microseconds t <= now + LEAST_SLEEP_US)
            then (Returned (-1), set_errno ETIMEDOUT s2)
            else
              let s3 := with_waiter bbw (set_sleep_id new_sleep_id)
                          (call (timer_schedule bbw new_sleep_id) s2) in
              if decide (new_sleep_id = 0)
              then (Returned (-1), set_errno ESTOP s3)
              else park s3
        | None => park s1
        end
  end.

(** [butex_wait] from its first line: the unlocked look at [value],
    then the above. *)
Definition butex_wait_enter (tls : option ptr) (arg : ptr) (expected_value : Z)
           (abstime : option timespec) (now : Z) (new_sleep_id : Z)
           (bbw pw : ptr) (s : State) : Outcome * State :=
  let b := container_of_value arg in
  if decide (value (butex_at s b) <> expected_value) then
    (Returned (-1), note atomic_thread_fence_acquire (set_errno EWOULDBLOCK s))
  else butex_wait_checked tls arg expected_value abstime now new_sleep_id bbw pw s.

(** [BT_LOOP_WHEN(unsleep_if_necessary(&bbw, ...) < 0)]: while the timer
    callback is running it, too, is given turns ([env]). *)
Fixpoint unsleep_spin (env : list (State -> State)) (bbw : ptr) (s : State)
  : option State :=
  match unsleep_if_necessary bbw s with
  | (rc, s1) =>
      if decide (rc < 0) then
        match env with
        | [] => None
        | f :: env' => unsleep_spin env' bbw (f s1)
        end
      else Some s1
  end.

(** The last statements of [butex_wait]: "ESTOP has highest priority". *)
Definition butex_wait_result (bbw : ptr) (s : State) : Z * State :=
  if stop (task_at s (task_meta (waiter_at s bbw))) then (-1, set_errno ESTOP s)
  else if decide (WAITER_STATE_TIMEDOUT = waiter_state (waiter_at s bbw))
       then (-1, set_errno ETIMEDOUT s)
       else if decide (WAITER_STATE_CANCELLED = waiter_state (waiter_at s bbw))
            then (-1, set_errno EWOULDBLOCK s)
            else (0, s).

(** [butex_wait] from the return of [TaskGroup::sched(&g)] to its end.
    [env1] and [env2] are what the timer callback and a stopper do while
    the two loops spin. *)
Definition butex_wait_resume (env1 env2 : list (State -> State)) (bbw : ptr) (s : State)
  : option (Z * State) :=
  match unsleep_spin env1 bbw s with
  | None => None
  | Some s1 =>
      match take_current_waiter env2 (task_meta (waiter_at s1 bbw)) s1 with
      | None => None
      | Some s2 => Some (butex_wait_result bbw (add_waiter_count (-1) s2))
      end
  end.

(** *** Lifecycle *)

(** [Butex() : unlock_nref(0) {}] run over storage that held [B]: the
    list and the lock are default-constructed, [unlock_nref] is set, and
    [value], which has no initialiser, keeps what the storage held. *)
Definition Butex_constructor (B : Butex) : Butex := mkButex (value B) 0 [].

(** [fresh] is what [new (std::nothrow)] answers. *)
Definition butex_create (fresh : option ptr) (s : State) : option ptr * State :=
  match fresh with
  | Some b => (Some (address_of_value b), with_butex b Butex_constructor s)
  | None => (None, s)
  end.

Definition butex_construct (butex_memory : ptr) (s : State) : ptr * State :=
  (address_of_value butex_memory, with_butex butex_memory Butex_constructor s).

(** [delete b]: the destructor runs, [~Butex() {}] with its empty body,
    and the storage is freed. *)
Definition butex_destroy (butex : option ptr) (s : State) : State :=
  match butex with
  | Some p =>
      let b := container_of_value p in
      note (operator_delete b) (note (Butex_destructor b) s)
  | None => s
  end.

(** The [while] of [butex_destruct]; [env] is what the wakers still in
    flight do between two loads of [unlock_nref]. *)
Fixpoint butex_destruct_spin (env : list (State -> State)) (b : ptr)
         (first_time : bool) (s : State) : option State :=
  if decide (unlock_nref (butex_at s b) <> 0) then
    let s1 := if first_time then note LOG_WARNING s else s in
    let s2 := note cpu_relax s1 in
    match env with
    | [] => None
    | f :: env' => butex_destruct_spin env' b false (f s2)
    end
  else Some s.

Definition butex_destruct (env : list (State -> State)) (butex_memory : option ptr)
           (s : State) : option State :=
  match butex_memory with
  | Some b =>
      match butex_destruct_spin env b true s with
      | Some s1 => Some (note (Butex_destructor b) (note atomic_thread_fence_acquire s1))
      | None => None
      end
  | None => Some s
  end.

(** *** The pthread waiter asleep *)

(** One call of [futex_wait_private(&pw.sig, expected, ptimeout)] as its
    caller sees it: what the other threads do until it comes back, what
    it returns, and the [errno] it leaves when it fails.  Nothing is
    assumed of the kernel. *)
Record FutexWait := mkFutexWait {
  meanwhile : State -> State;
  futex_rc : Z;
  futex_errno : Z
}.

Definition futex_wait_private (a : FutexWait) (s : State) : Z * State :=
  (futex_rc a,
   set_errno (if decide (futex_rc a = 0) then errno s else futex_errno a)
             (meanwhile a s)).

(** [BT_LOOP_WHEN(pw.sig.load(acquire) != SAFE_TO_DESTROY)]: the waker
    that holds [pw] is given turns ([env]); if it never stores the signal
    the loop does not end ([None]). *)
Fixpoint await_safe_to_destroy (env : list (State -> State)) (pw : ptr) (s : State)
  : option State :=
  if decide (sig (waiter_at s pw) <> SAFE_TO_DESTROY) then
    match env with
    | [] => None
    | f :: env' => await_safe_to_destroy env' pw (f s)
    end
  else Some s.

(** [wait_pthread]: one entry of [futex] per turn of [while (true)];
    [None] when the calls listed are used up and the loop has not ended.
    [erase_env] and [spin_env] are what the others do inside
    [erase_from_butex] and while [sig] is awaited. *)
Fixpoint wait_pthread (tls : option ptr) (futex : list FutexWait)
         (erase_env spin_env : list (State -> State)) (pw : ptr) (s : State)
  : option (Z * State) :=
  match futex with
  | [] => None
  | a :: futex' =>
      let '(rc, s1) := futex_wait_private a s in
      if decide (NOT_SIGNALLED <> sig (waiter_at s1 pw)) then Some (rc, s1)
      else if decide (rc <> 0 /\ errno s1 = ETIMEDOUT) then
        match erase_from_butex tls erase_env pw false s1 with
        | (true, s2) => Some (rc, s2)
        | (false, s2) =>
            match await_safe_to_destroy spin_env pw s2 with
            | Some s3 => Some (rc, s3)
            | None => None
            end
        end
      else wait_pthread tls futex' erase_env spin_env pw s1
  end.

(** *** A call to wait from its first line to its return *)

(** What the rest of the system does at the places where a call to wait
    lets others in: between the call of the scheduler and the remained
    function taking the lock; from then until the scheduler runs the task
    again; while [butex_wait] spins on its timer and on
    [current_waiter]; and, on the pthread path, around each futex call,
    inside [erase_from_butex] and while [sig] is awaited. *)
Record Others := mkOthers {
  before_enqueue : State -> State;
  while_parked : State -> State;
  timer_turns : list (State -> State);
  stopper_turns : list (State -> State);
  futex_waits : list FutexWait;
  eraser_turns : list (State -> State);
  waker_turns : list (State -> State)
}.

(** From the end of a straight-line stretch to the return. *)
Definition butex_wait_rest (tls : option ptr) (E : Others) (o : Outcome) (s : State)
  : option (Z * State) :=
  match o with
  | Returned rc => Some (rc, s)
  | Parked g bbw =>
      butex_wait_resume (timer_turns E) (stopper_turns E) bbw
        (while_parked E (wait_for_butex g bbw (before_enqueue E s)))
  | Sleeping pw task set_waiter =>
      match wait_pthread tls (futex_waits E) (eraser_turns E) (waker_turns E) pw s with
      | Some (rc, s1) =>
          butex_wait_from_pthread_leave (stopper_turns E) task set_waiter rc
            (add_waiter_count (-1) s1)
      | None => None
      end
  | Leaving task set_waiter rc =>
      butex_wait_from_pthread_leave (stopper_turns E) task set_waiter rc s
  end.

Definition butex_wait_from_pthread (g : option ptr) (b : ptr) (expected_value : Z)
           (abstime : option timespec) (now : Z) (pw : ptr) (E : Others) (s : State)
  : option (Z * State) :=
  let '(o, s1) := butex_wait_from_pthread_enter g b expected_value abstime now pw s in
  butex_wait_rest g E o s1.

Definition butex_wait (tls : option ptr) (arg : ptr) (expected_value : Z)
           (abstime : option timespec) (now : Z) (new_sleep_id : Z)
           (bbw pw : ptr) (E : Others) (s : State) : option (Z * State) :=
  let '(o, s1) :=
    butex_wait_enter tls arg expected_value abstime now new_sleep_id bbw pw s in
  butex_wait_rest tls E o s1.

Definition butex_wait_uninterruptible (tls : option ptr) (arg : ptr) (expected_value : Z)
           (abstime : option timespec) (now : Z) (new_sleep_id : Z)
           (bbw pw : ptr) (E : Others) (s : State) : option (Z * State) :=
  let '(caller, saved_interruptible, s1) :=
    match tls with
    | Some g =>
        let caller := current_task (group_at s g) in
        (Some caller, interruptible (task_at s caller),
         with_task caller (set_interruptible false) s)
    | None => (None, true, s)
    end in
  match butex_wait tls arg expected_value abstime now new_sleep_id bbw pw E s1 with
  | Some (rc, s2) =>
      Some (rc, match caller with
                | Some c => with_task c (set_interruptible saved_interruptible) s2
                | None => s2
                end)
  | None => None
  end.

(** [n] calls of [butex_wake] on the same butex, one after the other. *)
Fixpoint butex_wake_times (n : nat) (tls : option ptr) (arg : ptr) (s : State) : State :=
  match n with
  | O => s
  | S n' => butex_wake_times n' tls arg (snd (butex_wake tls arg s))
  end.

(** ** Invariants *)

(** The container invariant: a waiter is in the list of butex [b]
    exactly when its [container] points to [b]. *)
Definition container_inv (s : State) : Prop :=
  forall w b, w ∈ waiters (butex_at s b) <-> container (waiter_at s w) = Some b.

(** An intrusive node is linked at most once. *)
Definition lists_nodup (s : State) : Prop :=
  forall b, NoDup (waiters (butex_at s b)).

Definition wf (s : State) : Prop := container_inv s /\ lists_nodup s.

(** The same for every waiter but [pw], a record that does not exist
    yet: it is in no list and its [container] is not initialised. *)
Definition wf_but (pw : ptr) (s : State) : Prop :=
  (forall w b, w <> pw ->
     (w ∈ waiters (butex_at s b) <-> container (waiter_at s w) = Some b)) /\
  (forall b, pw ∉ waiters (butex_at s b)) /\
  lists_nodup s.

(** The bthread [t] has at most one waiter on [b].  Nothing is asked of
    the pthread waiters, which all carry tid 0: [t = 0] names no
    bthread. *)
Definition one_waiter_per_tid (b : ptr) (t : bthread_t) (s : State) : Prop :=
  t <> 0 ->
  forall w1 w2, w1 ∈ waiters (butex_at s b) -> w2 ∈ waiters (butex_at s b) ->
    tid (waiter_at s w1) = t -> tid (waiter_at s w2) = t -> w1 = w2.

(** A bthread waits on one butex at a time: no two waiters queued, on
    whichever butexes, carry the tid of the same bthread. *)
Definition one_wait_per_bthread (s : State) : Prop :=
  forall b1 b2 w1 w2,
    w1 ∈ waiters (butex_at s b1) -> w2 ∈ waiters (butex_at s b2) ->
    tid (waiter_at s w1) = tid (waiter_at s w2) -> tid (waiter_at s w1) <> 0 ->
    w1 = w2.

(** [s'] queues no waiter that [s] does not queue, and every waiter has
    in [s'] the tid it has in [s]. *)
Definition thins (s s' : State) : Prop :=
  (forall w, tid (waiter_at s' w) = tid (waiter_at s w)) /\
  (forall b' w, w ∈ waiters (butex_at s' b') -> exists b, w ∈ waiters (butex_at s b)).

(** [s'] holds what [s] holds, address by address. *)
Definition same_store (s s' : State) : Prop :=
  (forall b, butex_at s' b = butex_at s b) /\
  (forall w, waiter_at s' w = waiter_at s w) /\
  (forall t, task_at s' t = task_at s t) /\
  (forall g, group_at s' g = group_at s g) /\
  errno s' = errno s /\
  butex_waiter_count s' = butex_waiter_count s /\
  trace s' = trace s.

(** [s'] has the value word and the reference count of every butex as
    [s] has them. *)
Definition same_words (s s' : State) : Prop :=
  forall b, value (butex_at s' b) = value (butex_at s b) /\
            unlock_nref (butex_at s' b) = unlock_nref (butex_at s b).

(** [f] leaves the waiter [bw] alone while [bw] is on no queue. *)
Definition untouched_off_queue (bw : ptr) (f : State -> State) : Prop :=
  forall s, container (waiter_at s bw) = None -> waiter_at (f s) bw = waiter_at s bw.

(** [f] writes neither the timer handle nor the task pointer of the
    waiter [bw]: only the waiter's owner does. *)
Definition keeps_timer (bw : ptr) (f : State -> State) : Prop :=
  forall s, sleep_id (waiter_at (f s) bw) = sleep_id (waiter_at s bw) /\
            task_meta (waiter_at (f s) bw) = task_meta (waiter_at s bw).

(** [f] leaves what [field] reads of the store as it is. *)
Definition keeps {A} (field : State -> A) (f : State -> State) : Prop :=
  forall s, field (f s) = field s.

(** The timer thread is through with the callback of the timer [id]
    once [n] more outside calls have been made: from then on
    [unschedule] does not answer that the callback is running. *)
Definition callback_over_within (n : nat) (id : Z) (s : State) : Prop :=
  forall tr, (length (trace s) + n <= length tr)%nat -> unschedule tr id <= 0.

(** [f] only adds to the record of outside calls. *)
Definition adds_to_trace (f : State -> State) : Prop :=
  forall s, (length (trace s) <= length (trace (f s)))%nat.

(** [f] ends with a stopper's last step: a waiter is back in
    [current_waiter] of the task [t]. *)
Definition gives_back (t : ptr) (f : State -> State) : Prop :=
  forall s, current_waiter (task_at (f s) t) <> None.

(** [field] reads something that the list surgery, the waiter records,
    [current_waiter], [errno], the waiter counter and the trace have no
    part in. *)
Definition framed {A} (field : State -> A) : Prop :=
  (forall w f s, field (with_waiter w f s) = field s) /\
  (forall t c s, field (with_task t (set_current_waiter c) s) = field s) /\
  (forall w s, field (RemoveFromList w s) = field s) /\
  (forall b w s, field (Append b w s) = field s) /\
  (forall e s, field (call e s) = field s) /\
  (forall e s, field (note e s) = field s) /\
  (forall e s, field (set_errno e s) = field s) /\
  (forall d s, field (add_waiter_count d s) = field s).

(** [P] holds of everything the others do during a wait. *)
Definition every_turn (P : (State -> State) -> Prop) (E : Others) : Prop :=
  P (before_enqueue E) /\ P (while_parked E) /\
  Forall P (timer_turns E) /\ Forall P (stopper_turns E) /\
  Forall (fun a => P (meanwhile a)) (futex_waits E) /\
  Forall P (eraser_turns E) /\ Forall P (waker_turns E).

(** The waits a stretch of [butex_wait] leaves counted in
    [butex_waiter_count]. *)
Definition counted (o : Outcome) : Z :=
  match o with
  | Parked _ _ | Sleeping _ _ _ => 1
  | Returned _ | Leaving _ _ _ => 0
  end.

(** [unlock_nref] is a C [int]. *)
Definition is_int32 (z : Z) : Prop := - 2 ^ 31 <= z < 2 ^ 31.

(** ** A waker and a waiter side by side

    Thread A runs [value.store(v'); butex_wake(h)], thread B runs
    [butex_wait(h, v, NULL)].  A step is a stretch of one thread that no
    step of the other can split: a single atomic access, or a region
    under [waiter_lock], together with the accesses to the thread's own
    stack around it. *)

(** Modelled from the spec: the scheduler is not part of the source at
    hand.  Section 4.5: [exchange] is "a direct symmetric transfer" to
    the woken tid, [ready_to_run] marks it ready; a bthread that has been
    switched out runs again once either has named its tid. *)
Definition makes_ready (t : bthread_t) (e : Event) : bool :=
  match e with
  | TaskGroup_exchange _ t' => bool_decide (t' = t)
  | ready_to_run _ t' => bool_decide (t' = t)
  | _ => false
  end.

Definition resumed_since (n : nat) (t : bthread_t) (s : State) : bool :=
  existsb (makes_ready t) (drop n (trace s)).

(** Modelled from the spec: the kernel futex is not part of the source
    at hand (section 6: [futex_wait(addr, expected, reltimeout)],
    [futex_wake(addr, n)]).  [futex_wait] compares the word with
    [expected] and goes to sleep in one atomic step, or fails at once
    with EAGAIN; a sleeper returns 0 once [futex_wake] has been called on
    the word.  No timeout is modelled here: B passes none. *)
Definition futex_woken_since (n : nat) (addr : ptr) (s : State) : bool :=
  existsb (fun e => bool_decide (e = futex_wake_private addr 1)) (drop n (trace s)).

(** Where [wait_pthread] stands. *)
Inductive WaitPthreadPc :=
| Wp_call
| Wp_asleep (n : nat)
| Wp_back (rc : Z)
| Wp_spin (rc : Z)
| Wp_ret (rc : Z).

Definition wait_pthread_step (tls : option ptr) (pw : ptr) (pc : WaitPthreadPc)
           (s : State) : option (WaitPthreadPc * State) :=
  match pc with
  | Wp_call =>
      if decide (sig (waiter_at s pw) <> NOT_SIGNALLED)
      then Some (Wp_back (-1), set_errno EWOULDBLOCK s)
      else Some (Wp_asleep (length (trace s)), s)
  | Wp_asleep n =>
      if futex_woken_since n pw s then Some (Wp_back 0, s) else None
  | Wp_back rc =>
      if decide (NOT_SIGNALLED <> sig (waiter_at s pw)) then Some (Wp_ret rc, s)
      else if decide (rc <> 0 /\ errno s = ETIMEDOUT) then
        match erase_from_butex tls [] pw false s with
        | (true, s1) => Some (Wp_ret rc, s1)
        | (false, s1) => Some (Wp_spin rc, s1)
        end
      else Some (Wp_call, s)
  | Wp_spin rc =>
      if decide (sig (waiter_at s pw) <> SAFE_TO_DESTROY)
      then Some (Wp_spin rc, s)
      else Some (Wp_ret rc, s)
  | Wp_ret _ => None
  end.

Inductive WakerPc :=
| A_store
| A_wake
| A_dispatch (front : ptr)
| A_futex_wake (pw : ptr)
| A_done (rc : Z) (woken : option ptr).

Inductive WaiterPc :=
| B_start
| B_checked
| B_remained (g : ptr) (bbw : ptr)
| B_suspended (bbw : ptr) (n : nat)
| B_wait_pthread (pw : ptr) (task : option ptr) (set_waiter : bool) (pc : WaitPthreadPc)
| B_leaving (task : option ptr) (set_waiter : bool) (rc : Z)
| B_done (rc : Z).

Section TwoThreads.

(** A's and B's [tls_task_group], the handle, the expected and the new
    value, and the addresses of B's on-stack waiters. *)
Variables tlsA tlsB : option ptr.
Variable h : ptr.
Variables v v' : Z.
Variables bbw pw : ptr.

Definition waker_step (pc : WakerPc) (s : State) : option (WakerPc * State) :=
  match pc with
  | A_store => Some (A_wake, with_butex (container_of_value h) (set_value v') s)
  | A_wake =>
      match butex_wake_locked (container_of_value h) s with
      | (None, s1) => Some (A_done 0 None, s1)
      | (Some front, s1) => Some (A_dispatch front, s1)
      end
  | A_dispatch front =>
      if decide (tid (waiter_at s front) = 0)
      then Some (A_futex_wake front, with_waiter front (set_sig SAFE_TO_DESTROY) s)
      else Some (A_done 1 (Some front), resume_bthread tlsA front s)
  | A_futex_wake w => Some (A_done 1 (Some w), call (futex_wake_private w 1) s)
  | A_done _ _ => None
  end.

Definition after_outcome (o : Outcome) : WaiterPc :=
  match o with
  | Returned rc => B_done rc
  | Parked g w => B_remained g w
  | Sleeping w task set_waiter => B_wait_pthread w task set_waiter Wp_call
  | Leaving task set_waiter rc => B_leaving task set_waiter rc
  end.

Definition waiter_step (pc : WaiterPc) (s : State) : option (WaiterPc * State) :=
  match pc with
  | B_start =>
      if decide (value (butex_at s (container_of_value h)) <> v)
      then Some (B_done (-1),
                 note atomic_thread_fence_acquire (set_errno EWOULDBLOCK s))
      else Some (B_checked, s)
  | B_checked =>
      match butex_wait_checked tlsB h v None 0 0 bbw pw s with
      | (o, s1) => Some (after_outcome o, s1)
      end
  | B_remained g w =>
      Some (B_suspended w (length (trace s)), wait_for_butex g w s)
  | B_suspended w n =>
      if resumed_since n (tid (waiter_at s w)) s then
        match butex_wait_resume [] [] w s with
        | Some (rc, s1) => Some (B_done rc, s1)
        | None => None
        end
      else None
  | B_wait_pthread w task set_waiter (Wp_ret rc) =>
      Some (B_leaving task set_waiter rc, add_waiter_count (-1) s)
  | B_wait_pthread w task set_waiter wpc =>
      match wait_pthread_step tlsB w wpc s with
      | Some (wpc', s1) => Some (B_wait_pthread w task set_waiter wpc', s1)
      | None => None
      end
  | B_leaving task set_waiter rc =>
      match butex_wait_from_pthread_leave [] task set_waiter rc s with
      | Some (rc', s1) => Some (B_done rc', s1)
      | None => None
      end
  | B_done _ => None
  end.

(** The store, the two program counters, and each thread's [errno]. *)
Record Sys := mkSys {
  mem : State;
  pcA : WakerPc;
  pcB : WaiterPc;
  errnoA : Z;
  errnoB : Z
}.

Inductive Thread := Waker | Waiter.

Definition step (t : Thread) (c : Sys) : option Sys :=
  match t with
  | Waker =>
      match waker_step (pcA c) (set_errno (errnoA c) (mem c)) with
      | Some (pc, s) => Some (mkSys s pc (pcB c) (errno s) (errnoB c))
      | None => None
      end
  | Waiter =>
      match waiter_step (pcB c) (set_errno (errnoB c) (mem c)) with
      | Some (pc, s) => Some (mkSys s (pcA c) pc (errnoA c) (errno s))
      | None => None
      end
  end.

(** An interleaving is the order in which the threads are given a turn;
    a thread that cannot move when its turn comes is passed over. *)
Definition run (sched : list Thread) (c : Sys) : Sys :=
  foldl (fun c t => default c (step t c)) c sched.

(** Nobody can move. *)
Definition quiescent (c : Sys) : Prop :=
  step Waker c = None /\ step Waiter c = None.

Definition start (s : State) : Sys := mkSys s A_store B_start (errno s) (errno s).

(** Both calls have returned, and in one of three ways: A found the queue
    empty and B came back with EWOULDBLOCK; or A took B's waiter [w] off
    the queue and resumed it; or B's task is stopped and B came back with
    ESTOP. *)
Definition settled (stopped : bool) (w : ptr) (c : Sys) : Prop :=
  exists ra woken rb, pcA c = A_done ra woken /\ pcB c = B_done rb /\
    ((ra = 0 /\ rb = -1 /\ errnoB c = EWOULDBLOCK) \/
     (ra = 1 /\ woken = Some w) \/
     (stopped = true /\ rb = -1 /\ errnoB c = ESTOP)).

(** The same without the third way. *)
Definition settled_without_stop (w : ptr) (c : Sys) : Prop :=
  exists ra woken rb, pcA c = A_done ra woken /\ pcB c = B_done rb /\
    ((ra = 0 /\ rb = -1 /\ errnoB c = EWOULDBLOCK) \/
     (ra = 1 /\ woken = Some w)).

(** Turns enough for both threads to finish from anywhere. *)
Definition closing : list Thread := replicate 4 Waker ++ replicate 8 Waiter.

(** *** The two threads over a store of a few flags

    What a run depends on: the path B takes, the two flags of B's task,
    and whether the value word starts out equal to [v]. *)
Inductive PathB := Bthread | TaskPthread | PurePthread.

Record Setting := mkSetting {
  path : PathB;
  stopB : bool;
  intrB : bool;
  match0 : bool
}.

Inductive AWakerPc := aA_store | aA_wake | aA_dispatch | aA_futex_wake | aA_done (rc : Z).

Inductive AWp := aWp_call | aWp_asleep (woken : bool) | aWp_back (rc : Z) | aWp_ret (rc : Z).

Inductive AWaiterPc :=
| aB_start
| aB_checked
| aB_remained
| aB_suspended (ready cancelled : bool)
| aB_wp (p : AWp)
| aB_leaving (rc : Z)
| aB_done (rc : Z).

(** [stored]: A's store has happened; [queued]: B's waiter is the queue;
    [sigset]: [sig] is SAFE_TO_DESTROY; [errB]: B's [errno], when known. *)
Record Abs := mkAbs {
  apcA : AWakerPc;
  apcB : AWaiterPc;
  stored : bool;
  queued : bool;
  sigset : bool;
  errB : option Z
}.

#[global] Instance PathB_eq_dec : EqDecision PathB.
Proof. solve_decision. Defined.
#[global] Instance AWakerPc_eq_dec : EqDecision AWakerPc.
Proof. solve_decision. Defined.
#[global] Instance AWp_eq_dec : EqDecision AWp.
Proof. solve_decision. Defined.
#[global] Instance AWaiterPc_eq_dec : EqDecision AWaiterPc.
Proof. solve_decision. Defined.
#[global] Instance Abs_eq_dec : EqDecision Abs.
Proof. solve_decision. Defined.

(** A turn either cannot be taken, or leads somewhere, or is one the
    flags cannot account for. *)
Inductive Move := Stuck | Goes (a : Abs) | Unforeseen.

Definition value_is_v (k : Setting) (a : Abs) : bool := negb (stored a) && match0 k.

Definition at_A (pc : AWakerPc) (a : Abs) : Abs :=
  mkAbs pc (apcB a) (stored a) (queued a) (sigset a) (errB a).
Definition at_B (pc : AWaiterPc) (e : option Z) (a : Abs) : Abs :=
  mkAbs (apcA a) pc (stored a) (queued a) (sigset a) e.

Definition amove_waker (k : Setting) (a : Abs) : Move :=
  match apcA a with
  | aA_store => Goes (mkAbs aA_wake (apcB a) true (queued a) (sigset a) (errB a))
  | aA_wake =>
      if queued a
      then Goes (mkAbs aA_dispatch (apcB a) (stored a) false (sigset a) (errB a))
      else Goes (at_A (aA_done 0) a)
  | aA_dispatch =>
      match path k, apcB a with
      | Bthread, aB_suspended _ c =>
          Goes (mkAbs (aA_done 1) (aB_suspended true c) (stored a) (queued a)
                      (sigset a) (errB a))
      | TaskPthread, aB_wp _ | PurePthread, aB_wp _ =>
          Goes (mkAbs aA_futex_wake (apcB a) (stored a) (queued a) true (errB a))
      | _, _ => Unforeseen
      end
  | aA_futex_wake =>
      match path k, apcB a with
      | Bthread, _ => Unforeseen
      | _, aB_wp (aWp_asleep _) =>
          Goes (mkAbs (aA_done 1) (aB_wp (aWp_asleep true)) (stored a) (queued a)
                      (sigset a) (errB a))
      | _, aB_wp _ | _, aB_leaving _ | _, aB_done _ => Goes (at_A (aA_done 1) a)
      | _, _ => Unforeseen
      end
  | aA_done _ => Stuck
  end.

Definition amove_waiter (k : Setting) (a : Abs) : Move :=
  let locked :=
    if queued a then Unforeseen
    else if value_is_v k a
         then Goes (mkAbs (apcA a) (aB_wp aWp_call) (stored a) true false (errB a))
         else Goes (at_B (aB_leaving (-1)) (Some EWOULDBLOCK) a) in
  match apcB a with
  | aB_start =>
      if value_is_v k a then Goes (at_B aB_checked (errB a) a)
      else Goes (at_B (aB_done (-1)) (Some EWOULDBLOCK) a)
  | aB_checked =>
      match path k with
      | Bthread => Goes (at_B aB_remained None a)
      | TaskPthread =>
          if intrB k then
            if stopB k then Goes (at_B (aB_done (-1)) (Some ESTOP) a) else locked
          else locked
      | PurePthread => locked
      end
  | aB_remained =>
      match path k with
      | Bthread =>
          if queued a then Unforeseen
          else if value_is_v k a && (negb (stopB k) || negb (intrB k))
               then Goes (mkAbs (apcA a) (aB_suspended false false) (stored a) true
                                (sigset a) (errB a))
               else Goes (at_B (aB_suspended true true) None a)
      | _ => Unforeseen
      end
  | aB_suspended ready c =>
      if ready then
        if stopB k then Goes (at_B (aB_done (-1)) (Some ESTOP) a)
        else if c then Goes (at_B (aB_done (-1)) (Some EWOULDBLOCK) a)
             else Goes (at_B (aB_done 0) (errB a) a)
      else Stuck
  | aB_wp aWp_call =>
      if sigset a then Goes (at_B (aB_wp (aWp_back (-1))) (Some EWOULDBLOCK) a)
      else Goes (at_B (aB_wp (aWp_asleep false)) (errB a) a)
  | aB_wp (aWp_asleep woken) =>
      if woken then Goes (at_B (aB_wp (aWp_back 0)) (errB a) a) else Stuck
  | aB_wp (aWp_back rc) =>
      if sigset a then Goes (at_B (aB_wp (aWp_ret rc)) (errB a) a) else Unforeseen
  | aB_wp (aWp_ret rc) => Goes (at_B (aB_leaving rc) (errB a) a)
  | aB_leaving rc =>
      match path k with
      | PurePthread => Goes (at_B (aB_done rc) (errB a) a)
      | TaskPthread =>
          if stopB k then Goes (at_B (aB_done (-1)) (Some ESTOP) a)
          else Goes (at_B (aB_done rc) (errB a) a)
      | Bthread => Unforeseen
      end
  | aB_done _ => Stuck
  end.

Definition amove (k : Setting) (t : Thread) (a : Abs) : Move :=
  match t with
  | Waker => amove_waker k a
  | Waiter => amove_waiter k a
  end.

Definition arun (k : Setting) (sched : list Thread) (a : Abs) : Abs :=
  foldl (fun a t => match amove k t a with Goes a' => a' | _ => a end) a sched.

Definition astart : Abs := mkAbs aA_store aB_start false false false None.

(** Everything [n] rounds of turns can reach from the states in [l]. *)
Fixpoint reach (k : Setting) (n : nat) (l : list Abs) : list Abs :=
  match n with
  | O => l
  | S n' =>
      reach k n'
        (remove_dups
           (l ++ omap (fun a => match amove k Waker a with Goes a' => Some a' | _ => None end) l
              ++ omap (fun a => match amove k Waiter a with Goes a' => Some a' | _ => None end) l))
  end.

Definition reached (k : Setting) : list Abs := reach k 12 [astart].

Definition aquiescent (k : Setting) (a : Abs) : bool :=
  match amove k Waker a, amove k Waiter a with
  | Stuck, Stuck => true
  | _, _ => false
  end.

Definition asettled (k : Setting) (a : Abs) : bool :=
  match apcA a, apcB a with
  | aA_done ra, aB_done rb =>
      (bool_decide (ra = 0) && bool_decide (rb = -1)
         && bool_decide (errB a = Some EWOULDBLOCK))
      || bool_decide (ra = 1)
      || (stopB k && bool_decide (path k <> PurePthread)
            && bool_decide (rb = -1) && bool_decide (errB a = Some ESTOP))
  | _, _ => false
  end.

(** Every state reached is closed under both moves, none of which is
    unforeseen; a quiescent one is settled; and [closing] brings any of
    them to quiescence. *)
Definition explored_on (k : Setting) (l : list Abs) : bool :=
  forallb (fun a =>
    forallb (fun t =>
      match amove k t a with
      | Goes a' => bool_decide (a' ∈ l)
      | Stuck => true
      | Unforeseen => false
      end) [Waker; Waiter]
    && (negb (aquiescent k a) || asettled k a)
    && aquiescent k (arun k closing a)) l.

(** [s'] differs from [s] in nothing B's program counter is read from:
    the waiters agree but for [container], the tasks and the trace
    agree. *)
Definition same_for_B (s s' : State) : Prop :=
  (forall x, set_container None (waiter_at s' x) = set_container None (waiter_at s x)) /\
  task_at s' = task_at s /\ trace s' = trace s.

(** What an outside call [e] of A changes in B's program counter: a
    handoff naming B's tid makes a suspended B ready, a futex wake on
    B's [sig] wakes a sleeping B. *)
Definition bump (t : bthread_t) (pw : ptr) (e : Event) (pc : AWaiterPc) : AWaiterPc :=
  match pc with
  | aB_suspended ready c => aB_suspended (ready || makes_ready t e) c
  | aB_wp (aWp_asleep woken) =>
      aB_wp (aWp_asleep (woken || bool_decide (e = futex_wake_private pw 1)))
  | _ => pc
  end.

(** *** How the flags read the store *)

(** The store the two threads start from. *)
Variable s0 : State.

Definition pathB : PathB :=
  match tlsB with
  | None => PurePthread
  | Some g => if is_current_pthread_task (group_at s0 g) then TaskPthread else Bthread
  end.

Definition taskB : ptr :=
  match tlsB with
  | Some g => current_task (group_at s0 g)
  | None => 0
  end.

Definition tidB : bthread_t :=
  match tlsB with
  | Some g => if is_current_pthread_task (group_at s0 g) then 0
              else current_tid (group_at s0 g)
  | None => 0
  end.

(** B's waiter: the bthread record on the bthread path, else the pthread
    record. *)
Definition waiterB : ptr :=
  match pathB with
  | Bthread => bbw
  | _ => pw
  end.

(** The [task] and [set_waiter] locals of [butex_wait_from_pthread]. *)
Definition task_local : option ptr :=
  match tlsB with
  | Some _ => Some taskB
  | None => None
  end.

Definition set_waiter_local : bool :=
  match tlsB with
  | Some _ => interruptible (task_at s0 taskB)
  | None => false
  end.

(** B runs as, or within, a task, and the task has been stopped. *)
Definition task_stopped : bool :=
  match tlsB with
  | Some g => stop (task_at s0 (current_task (group_at s0 g)))
  | None => false
  end.

Definition setting : Setting :=
  mkSetting pathB (stop (task_at s0 taskB)) (interruptible (task_at s0 taskB))
            (bool_decide (value (butex_at s0 (container_of_value h)) = v)).

Definition concrete_pcA (pc : AWakerPc) : WakerPc :=
  match pc with
  | aA_store => A_store
  | aA_wake => A_wake
  | aA_dispatch => A_dispatch waiterB
  | aA_futex_wake => A_futex_wake waiterB
  | aA_done rc => A_done rc (if decide (rc = 0) then None else Some waiterB)
  end.

(** B's bthread record once [butex_wait] has filled it in and published
    it. *)
Definition bthread_record (s : State) (st : WaiterState) : Prop :=
  let W := waiter_at s bbw in
  tid W = tidB /\ sleep_id W = 0 /\ task_meta W = taskB /\ waiter_state W = st /\
  expected_value W = v /\ initial_butex W = container_of_value h /\
  current_waiter (task_at s taskB) = Some bbw.

Definition pthread_record (s : State) (a : Abs) : Prop :=
  let W := waiter_at s pw in
  tid W = 0 /\
  sig W = (if sigset a then SAFE_TO_DESTROY else NOT_SIGNALLED) /\
  (set_waiter_local = true -> current_waiter (task_at s taskB) = Some pw).

Definition reads_wp (s : State) (wpc : WaitPthreadPc) (p : AWp) : Prop :=
  match p with
  | aWp_call => wpc = Wp_call
  | aWp_asleep woken =>
      exists n, wpc = Wp_asleep n /\ (n <= length (trace s))%nat /\
        futex_woken_since n pw s = woken
  | aWp_back rc => wpc = Wp_back rc
  | aWp_ret rc => wpc = Wp_ret rc
  end.

Definition reads_pcB (c : Sys) (a : Abs) : Prop :=
  let s := mem c in
  match apcB a with
  | aB_start => pcB c = B_start
  | aB_checked => pcB c = B_checked
  | aB_remained =>
      exists g, tlsB = Some g /\ pcB c = B_remained g bbw /\
        bthread_record s WAITER_STATE_NONE
  | aB_suspended ready cancelled =>
      exists n, pcB c = B_suspended bbw n /\ (n <= length (trace s))%nat /\
        resumed_since n tidB s = ready /\
        bthread_record s (if cancelled then WAITER_STATE_CANCELLED
                          else WAITER_STATE_NONE)
  | aB_wp p =>
      exists wpc, pcB c = B_wait_pthread pw task_local set_waiter_local wpc /\
        reads_wp s wpc p /\ pthread_record s a
  | aB_leaving rc =>
      pcB c = B_leaving task_local set_waiter_local rc /\
      (set_waiter_local = true -> current_waiter (task_at s taskB) = Some pw)
  | aB_done rc => pcB c = B_done rc
  end.

(** [reads c a]: the flags [a] describe the system [c]. *)
Definition reads (c : Sys) (a : Abs) : Prop :=
  let s := mem c in
  group_at s = group_at s0 /\
  (forall t, stop (task_at s t) = stop (task_at s0 t) /\
             interruptible (task_at s t) = interruptible (task_at s0 t)) /\
  value (butex_at s (container_of_value h))
    = (if stored a then v' else value (butex_at s0 (container_of_value h))) /\
  waiters (butex_at s (container_of_value h)) = (if queued a then [waiterB] else []) /\
  pcA c = concrete_pcA (apcA a) /\
  (forall e, errB a = Some e -> errnoB c = e) /\
  reads_pcB c a.

End TwoThreads.

(** What holds at every turn of the draining loop of
    [butex_wake_except]: while no waiter has been set aside the store is
    well formed; once [w] has been set aside it is in no list, still
    tagged with [b], and nothing left in the queue carries its tid. *)
Definition wake_except_inv (b : ptr) (excluded_bthread : bthread_t) (s : State)
           (excluded_waiter : option ptr) : Prop :=
  match excluded_waiter with
  | Some w =>
      wf_but w s /\ container (waiter_at s w) = Some b /\
      forall x, x ∈ waiters (butex_at s b) -> tid (waiter_at s x) <> excluded_bthread
  | None => wf s /\ one_waiter_per_tid b excluded_bthread s
  end.

(** ** What a dispatch looks like from outside *)

(** The scheduler call that hands a bthread waiter [W] over. *)
Definition handoff (tls : option ptr) (W : ButexWaiter) : Event :=
  match tls with
  | Some g => TaskGroup_exchange g (tid W)
  | None => ready_to_run (choose_one_group (control W)) (tid W)
  end.

(** The timer call that precedes it when [W] has a timer armed. *)
Definition unsleep_calls (W : ButexWaiter) : list Event :=
  if decide (sleep_id W = 0) then [] else [timer_unschedule (sleep_id W)].

(** The outside calls by which waiter [front], whose record is [W], is
    resumed: a futex wake on its [sig] for a pthread, the scheduler for a
    bthread. *)
Definition resumption (tls : option ptr) (front : ptr) (W : ButexWaiter) : list Event :=
  if decide (tid W = 0) then [futex_wake_private front 1]
  else unsleep_calls W ++ [handoff tls W].

(** The calls by which a bthread waiter [w] of the store [s] is made
    ready without a signal on group [g]. *)
Definition nosignal_calls (g : ptr) (s : State) (w : ptr) : list Event :=
  unsleep_calls (waiter_at s w) ++ [ready_to_run_nosignal g (tid (waiter_at s w))].

(** The waiters of a queue [l] by kind, in queue order. *)
Definition pthread_waiters_of (s : State) (l : list ptr) : list ptr :=
  filter (fun w => tid (waiter_at s w) = 0) l.
Definition bthread_waiters_of (s : State) (l : list ptr) : list ptr :=
  filter (fun w => tid (waiter_at s w) <> 0) l.

(** What [butex_wake_all] calls when it finds the queue [l] in the store
    [s]: a futex wake for every pthread waiter, in queue order; then, with
    [next] the first bthread waiter, the other bthread waiters made ready
    last to first, one flush if there were any, and [next] handed over
    as [butex_wake] would. *)
Definition wake_all_calls (tls : option ptr) (s : State) (l : list ptr) : list Event :=
  map (fun w => futex_wake_private w 1) (pthread_waiters_of s l) ++
  match bthread_waiters_of s l with
  | [] => []
  | next :: others =>
      let g := get_task_group tls (control (waiter_at s next)) in
      unsleep_calls (waiter_at s next) ++
      flat_map (nosignal_calls g s) (rev others) ++
      match others with
      | [] => []
      | _ :: _ => [flush_nosignal_tasks g]
      end ++
      [handoff tls (waiter_at s next)]
  end.

(** What [butex_wake_except] calls: as above for the pthread waiters; the
    bthread waiters whose tid is not [t] are all made ready without a
    signal, last to first, and flushed. *)
Definition wake_except_calls (tls : option ptr) (t : bthread_t) (s : State)
           (l : list ptr) : list Event :=
  map (fun w => futex_wake_private w 1) (pthread_waiters_of s l) ++
  match filter (fun w => tid (waiter_at s w) <> t) (bthread_waiters_of s l) with
  | [] => []
  | front :: others =>
      let g := get_task_group tls (control (waiter_at s front)) in
      flat_map (nosignal_calls g s) (rev (front :: others)) ++ [flush_nosignal_tasks g]
  end.

(** ** Sample stores and collaborators *)

Definition blank_waiter : ButexWaiter :=
  mkButexWaiter 0 None 0 0 WAITER_STATE_NONE 0 0 0 0.

(** Nothing queued anywhere, every [container] NULL. *)
Definition empty_store : State :=
  mkState (fun _ => mkButex 0 0 []) (fun _ => blank_waiter)
          (fun _ => mkTaskMeta false false None)
          (fun _ => mkTaskGroup 0 0 false 0) 0 0 [].

(** A timer thread with nothing running, a single task group at
    address 7, and outside calls that leave EFAULT in [errno]. *)
Definition quiet_timer : list Event -> Z -> Z := fun _ _ => 0.
Definition only_group : ptr -> ptr := fun _ => 7.
Definition clobbering : Event -> Z -> Z := fun _ _ => 14.

(** Butex 100 with a pthread waiter 1 and a bthread waiter 2 (tid 42)
    queued in this order; butex 200 with a bthread waiter 3 (tid 43). *)
Definition queue_of (b : ptr) : list ptr :=
  if decide (b = 100) then [1; 2] else if decide (b = 200) then [3] else [].

Definition waiter_of (w : ptr) : ButexWaiter :=
  if decide (w = 1) then mkButexWaiter 0 (Some 100) 0 0 WAITER_STATE_NONE 0 100 0 0
  else if decide (w = 2) then mkButexWaiter 42 (Some 100) 9 0 WAITER_STATE_NONE 0 100 0 0
  else if decide (w = 3) then mkButexWaiter 43 (Some 200) 9 5 WAITER_STATE_TIMED 0 200 0 0
  else blank_waiter.

Definition busy_store : State :=
  mkState (fun b => mkButex 0 0 (queue_of b)) waiter_of
          (fun _ => mkTaskMeta false false None)
          (fun _ => mkTaskGroup 0 0 false 0) 0 0 [].

(** Every butex holds [x] in its value word and has no waiter. *)
Definition valued_store (x : Z) : State :=
  mkState (fun _ => mkButex x 0 []) (fun _ => blank_waiter)
          (fun _ => mkTaskMeta false false None)
          (fun _ => mkTaskGroup 0 0 false 0) 0 0 [].

(** One task group (at any address): it runs task 9, whose tid is 42,
    either as a bthread or in pthread mode; the task is interruptible
    and may already be stopped.  Nothing is queued. *)
Definition task_store (pthread_mode stopped : bool) : State :=
  mkState (fun _ => mkButex 0 0 []) (fun _ => blank_waiter)
          (fun _ => mkTaskMeta true stopped None)
          (fun _ => mkTaskGroup 9 42 pthread_mode 0) 0 0 [].

(** Task 9, stopped, has come back from the scheduler; its bthread
    waiter 50 was timed out meanwhile. *)
Definition woken_store : State :=
  with_task 9 (fun _ => mkTaskMeta true true (Some 50))
    (with_waiter 50
       (fun _ => mkButexWaiter 42 None 9 0 WAITER_STATE_TIMEDOUT 0 100 0 0)
       empty_store).

(** A timer thread that answers that the callback is running until [n]
    outside calls have been made. *)
Definition stubborn_timer (n : nat) : list Event -> Z -> Z :=
  fun tr _ => if decide (length tr < n)%nat then 1 else 0.

(** Task 9 has come back from the scheduler: the timer of its waiter 50
    is armed still (sleep id 5), and a stopper holds the waiter, having
    emptied [current_waiter]. *)
Definition resumed_store (stopped : bool) (st : WaiterState) : State :=
  with_task 9 (fun _ => mkTaskMeta true stopped None)
    (with_waiter 50 (fun _ => mkButexWaiter 42 None 9 5 st 0 100 0 0) empty_store).

(** The stopper puts waiter 50 back in [current_waiter] of task 9. *)
Definition stopper_done : State -> State :=
  with_task 9 (set_current_waiter (Some 50)).

(** Two plain pthreads wait on butex 100, with the waiters 1 and 6. *)
Definition pthread_pair_store : State :=
  mkState (fun b => mkButex 0 0 (if decide (b = 100) then [1; 6] else []))
          (fun w => if decide (w = 1 \/ w = 6)
                    then mkButexWaiter 0 (Some 100) 0 0 WAITER_STATE_NONE 0 100 0 0
                    else blank_waiter)
          (fun _ => mkTaskMeta false false None)
          (fun _ => mkTaskGroup 0 0 false 0) 0 0 [].

(** Butex 100 with one wake announced and still in flight. *)
Definition announced_store : State :=
  with_butex 100 (set_unlock_nref 1) empty_store.

(** Butex 100 with two wakes announced and still in flight. *)
Definition twice_announced_store : State :=
  with_butex 100 (set_unlock_nref 2) empty_store.

(** Butex 100 with four waiters in arrival order: a pthread waiter 1 and
    the bthread waiters 2 (tid 42), 4 (tid 44, with a timer, sleep id 6)
    and 5 (tid 45). *)
Definition crowd_of (b : ptr) : list ptr :=
  if decide (b = 100) then [1; 2; 4; 5] else [].

Definition crowd_waiter (w : ptr) : ButexWaiter :=
  if decide (w = 1) then mkButexWaiter 0 (Some 100) 0 0 WAITER_STATE_NONE 0 100 0 0
  else if decide (w = 2) then mkButexWaiter 42 (Some 100) 9 0 WAITER_STATE_NONE 0 100 0 0
  else if decide (w = 4) then mkButexWaiter 44 (Some 100) 8 6 WAITER_STATE_TIMED 0 100 0 0
  else if decide (w = 5) then mkButexWaiter 45 (Some 100) 6 0 WAITER_STATE_NONE 0 100 0 0
  else blank_waiter.

Definition crowded_store : State :=
  mkState (fun b => mkButex 0 0 (crowd_of b)) crowd_waiter
          (fun _ => mkTaskMeta false false None)
          (fun _ => mkTaskGroup 0 0 false 0) 0 0 [].

(** The bthread waiter 50 of task 9 as [butex_wait] prepares it for a
    timed wait on butex 100: the timer is armed (sleep id 5), the waiter
    is not queued yet. *)
Definition timed_store : State :=
  with_waiter 50
    (fun _ => mkButexWaiter 42 None 9 5 WAITER_STATE_TIMED 0 100 0 0)
    (task_store false false).

(** No other thread does anything while the call waits. *)
Definition nobody : Others :=
  mkOthers (fun s => s) (fun s => s) [] [] [] [] [].

(** The kernel gives up a futex wait at its deadline, nothing having
    happened meanwhile. *)
Definition kernel_timeout : FutexWait :=
  mkFutexWait (fun s => s) (-1) ETIMEDOUT.

(** ** Facts about the store *)

Lemma set_errno_same s : set_errno (errno s) s = s.
Proof. by destruct s. Qed.

Lemma insert_at {A} (f : ptr -> A) (k k' : ptr) (x : A) :
  (<[k := x]> f) k' = if decide (k = k') then x else f k'.
Proof. unfold insert, fn_insert. by destruct (decide (k = k')). Qed.

Lemma butex_at_with_waiter w f s : butex_at (with_waiter w f s) = butex_at s.
Proof. reflexivity. Qed.

Lemma waiter_at_with_waiter w f s w' :
  waiter_at (with_waiter w f s) w'
  = if decide (w = w') then f (waiter_at s w) else waiter_at s w'.
Proof. cbn. rewrite insert_at. by case_decide; subst. Qed.

Lemma waiter_at_with_waiter_eq w f s :
  waiter_at (with_waiter w f s) w = f (waiter_at s w).
Proof. rewrite waiter_at_with_waiter. by case_decide. Qed.

Lemma waiter_at_with_waiter_ne w f s w' :
  w <> w' -> waiter_at (with_waiter w f s) w' = waiter_at s w'.
Proof. intros. rewrite waiter_at_with_waiter. by case_decide. Qed.

Lemma waiter_at_RemoveFromList w s : waiter_at (RemoveFromList w s) = waiter_at s.
Proof. reflexivity. Qed.

Lemma waiters_RemoveFromList w s b :
  waiters (butex_at (RemoveFromList w s) b)
  = filter (fun x => x <> w) (waiters (butex_at s b)).
Proof. reflexivity. Qed.

Lemma waiters_Append b w s b' :
  waiters (butex_at (Append b w s) b')
  = if decide (b = b') then waiters (butex_at s b) ++ [w] else waiters (butex_at s b').
Proof. cbn. rewrite insert_at. by destruct (decide (b = b')). Qed.

Lemma filter_ne_fresh (w : ptr) (l : list ptr) :
  w ∉ l -> filter (fun x => x <> w) l = l.
Proof.
  induction l as [|x l IH]; [done|].
  intros Hw. apply not_elem_of_cons in Hw as [Hne Hl].
  rewrite filter_cons_True by congruence. by rewrite IH.
Qed.

Lemma filter_ne_head (w : ptr) (l : list ptr) :
  NoDup (w :: l) -> filter (fun x => x <> w) (w :: l) = l.
Proof.
  intros Hw%NoDup_cons_1_1.
  rewrite filter_cons_False by (intros ?; congruence).
  by apply filter_ne_fresh.
Qed.

(** Under the invariant a waiter sits in one list only. *)
Lemma wf_elsewhere s w b b' :
  wf s -> w ∈ waiters (butex_at s b) -> b' <> b -> w ∉ waiters (butex_at s b').
Proof.
  intros [Hc _] Hin Hne Hin'.
  apply Hc in Hin. apply Hc in Hin'. congruence.
Qed.

Lemma empty_store_wf : wf empty_store.
Proof.
  split.
  - intros w b. cbn. split; [by intros ?%elem_of_nil | done].
  - intros b. cbn. constructor.
Qed.

Lemma busy_store_wf : wf busy_store.
Proof.
  split.
  - intros w b. cbn. unfold queue_of, waiter_of.
    repeat case_decide; subst; cbn;
      rewrite ?elem_of_cons, ?elem_of_nil; split; intros; try done;
      try (simplify_eq; lia); try (destruct_or?; lia); try (right; left; lia);
      try (left; lia).
  - intros b. cbn. unfold queue_of.
    repeat case_decide; repeat constructor; rewrite ?elem_of_cons, ?elem_of_nil; lia.
Qed.

Lemma crowded_store_wf : wf crowded_store.
Proof.
  split.
  - intros w b. cbn. unfold crowd_of, crowd_waiter.
    repeat case_decide; subst; cbn;
      rewrite ?elem_of_cons, ?elem_of_nil; split; intros; try done;
      try (simplify_eq; lia); try (destruct_or?; lia); try (right; left; lia);
      try (left; lia); try (right; right; left; lia);
      try (right; right; right; left; lia).
  - intros b. cbn. unfold crowd_of.
    repeat case_decide; repeat constructor; rewrite ?elem_of_cons, ?elem_of_nil; lia.
Qed.

Lemma pthread_pair_store_wf : wf pthread_pair_store.
Proof.
  split.
  - intros w b. cbn.
    repeat case_decide; subst; cbn;
      rewrite ?elem_of_cons, ?elem_of_nil; split; intros; try done;
      try (simplify_eq; lia); try (destruct_or?; lia); try (right; left; lia);
      try (left; lia).
  - intros b. cbn.
    repeat case_decide; repeat constructor; rewrite ?elem_of_cons, ?elem_of_nil; lia.
Qed.

(** *** Outside calls leave the queues alone *)

(** [s'] has the lists, the [container] tags and the tids of [s]. *)
Definition same_queues (s s' : State) : Prop :=
  (forall b, waiters (butex_at s' b) = waiters (butex_at s b)) /\
  (forall w, container (waiter_at s' w) = container (waiter_at s w)) /\
  (forall w, tid (waiter_at s' w) = tid (waiter_at s w)).

Lemma same_queues_refl s : same_queues s s.
Proof. by repeat split. Qed.

Lemma same_queues_trans s1 s2 s3 :
  same_queues s1 s2 -> same_queues s2 s3 -> same_queues s1 s3.
Proof.
  intros (Hl & Hc & Ht) (Hl' & Hc' & Ht').
  repeat split; intros; [rewrite Hl' | rewrite Hc' | rewrite Ht']; auto.
Qed.

Lemma same_queues_with_waiter s w f :
  (forall W, container (f W) = container W) ->
  (forall W, tid (f W) = tid W) ->
  same_queues s (with_waiter w f s).
Proof.
  intros Hc Ht. repeat split; intros w'; cbn; rewrite insert_at;
    case_decide; subst; auto.
Qed.

Lemma same_queues_call e s : same_queues s (call e s).
Proof. by repeat split. Qed.

Lemma same_queues_note e s : same_queues s (note e s).
Proof. by repeat split. Qed.

Lemma same_queues_set_errno e s : same_queues s (set_errno e s).
Proof. by repeat split. Qed.

Lemma same_queues_add_waiter_count d s : same_queues s (add_waiter_count d s).
Proof. by repeat split. Qed.

Lemma same_queues_with_task t f s : same_queues s (with_task t f s).
Proof. by repeat split. Qed.

Lemma same_queues_wakeup_pthread pw s : same_queues s (wakeup_pthread pw s).
Proof.
  unfold wakeup_pthread.
  eapply same_queues_trans; [|apply same_queues_call].
  by apply same_queues_with_waiter.
Qed.

Lemma same_queues_unsleep w s : same_queues s (snd (unsleep_if_necessary w s)).
Proof.
  unfold unsleep_if_necessary. repeat case_decide; cbn [snd].
  - apply same_queues_refl.
  - apply same_queues_call.
  - eapply same_queues_trans; [apply same_queues_call|].
    by apply same_queues_with_waiter.
Qed.

Lemma same_queues_resume_bthread tls bbw s : same_queues s (resume_bthread tls bbw s).
Proof.
  unfold resume_bthread.
  destruct tls; (eapply same_queues_trans; [apply same_queues_unsleep|]);
    apply same_queues_call.
Qed.

Lemma same_queues_dispatch_front tls front s :
  same_queues s (dispatch_front tls front s).
Proof.
  unfold dispatch_front. case_decide.
  - apply same_queues_wakeup_pthread.
  - apply same_queues_resume_bthread.
Qed.

Lemma same_queues_butex_remove_ref arg s : same_queues s (butex_remove_ref arg s).
Proof.
  repeat split; intros; cbn; try done.
  rewrite insert_at. by case_decide; subst.
Qed.

Lemma wf_same_queues s s' : same_queues s s' -> wf s -> wf s'.
Proof.
  intros (Hl & Hc & _) [Hi Hn]. split.
  - intros w b. rewrite Hl, Hc. apply Hi.
  - intros b. rewrite Hl. apply Hn.
Qed.

(** *** List surgery and the invariant *)

Lemma wf_to_wf_but s w : wf s -> container (waiter_at s w) = None -> wf_but w s.
Proof.
  intros [Hi Hn] Hc. repeat split; try apply Hi; auto.
  intros b Hin%Hi. congruence.
Qed.

Lemma wf_but_RemoveFromList s w : wf s -> wf_but w (RemoveFromList w s).
Proof.
  intros [Hi Hn]. split; [|split].
  - intros w' b Hne. rewrite waiters_RemoveFromList, list_elem_of_filter.
    specialize (Hi w' b). cbn. tauto.
  - intros b. rewrite waiters_RemoveFromList, list_elem_of_filter. tauto.
  - intros b. rewrite waiters_RemoveFromList. apply list.NoDup_filter, Hn.
Qed.

Lemma wf_but_null s w : wf_but w s -> wf (with_waiter w (set_container None) s).
Proof.
  intros (Hi & Hw & Hn). split.
  - intros w' b. cbn. rewrite insert_at. case_decide; subst.
    + cbn. split; [by intros ?%Hw | done].
    + by apply Hi.
  - apply Hn.
Qed.

Lemma wf_but_enqueue s w b :
  wf_but w s -> wf (with_waiter w (set_container (Some b)) (Append b w s)).
Proof.
  intros (Hi & Hw & Hn). split.
  - intros w' b'.
    rewrite butex_at_with_waiter, waiters_Append, waiter_at_with_waiter.
    destruct (decide (b = b')) as [->|Hb]; destruct (decide (w = w')) as [->|Hne]; cbn.
    + rewrite elem_of_app, list_elem_of_singleton. tauto.
    + rewrite elem_of_app, list_elem_of_singleton.
      specialize (Hi w' b' (not_eq_sym Hne)).
      split; [intros [?|?]; [tauto|congruence] | tauto].
    + split; [by intros ?%Hw | congruence].
    + apply Hi. congruence.
  - intros b'. rewrite butex_at_with_waiter, waiters_Append.
    case_decide; subst; [|apply Hn].
    apply list.NoDup_app. split; [apply Hn|]. split; [|apply NoDup_singleton].
    intros x Hx ->%list_elem_of_singleton. by apply Hw in Hx.
Qed.

(** Popping a waiter: out of its list, [container] nulled. *)
Lemma wf_pop s w : wf s -> wf (with_waiter w (set_container None) (RemoveFromList w s)).
Proof. intros Hwf. by apply wf_but_null, wf_but_RemoveFromList. Qed.

(** What popping the head of [b] does to the lists and the tags. *)
Lemma pop_head_effect s b front rest :
  wf s -> waiters (butex_at s b) = front :: rest ->
  let s' := with_waiter front (set_container None) (RemoveFromList front s) in
  waiters (butex_at s' b) = rest /\
  (forall b', b' <> b -> waiters (butex_at s' b') = waiters (butex_at s b')) /\
  container (waiter_at s' front) = None /\
  (forall w, w <> front -> waiter_at s' w = waiter_at s w) /\
  tid (waiter_at s' front) = tid (waiter_at s front).
Proof.
  intros Hwf Hq s'. subst s'. repeat split.
  - rewrite butex_at_with_waiter, waiters_RemoveFromList, Hq. apply filter_ne_head.
    rewrite <- Hq. apply Hwf.
  - intros b' Hb.
    rewrite butex_at_with_waiter, waiters_RemoveFromList. apply filter_ne_fresh.
    eapply wf_elsewhere; eauto. rewrite Hq. apply list_elem_of_here.
  - by rewrite waiter_at_with_waiter_eq.
  - intros w Hw. by rewrite waiter_at_with_waiter_ne.
  - by rewrite waiter_at_with_waiter_eq.
Qed.

(** *** Dispatch *)

Lemma unsleep_trace w s :
  trace (snd (unsleep_if_necessary w s)) = trace s ++ unsleep_calls (waiter_at s w).
Proof.
  unfold unsleep_if_necessary, unsleep_calls.
  repeat case_decide; cbn; try done. by rewrite app_nil_r.
Qed.

Lemma unsleep_keeps w s w' :
  let W := waiter_at s w' in
  let W' := waiter_at (snd (unsleep_if_necessary w s)) w' in
  tid W' = tid W /\ control W' = control W /\ sig W' = sig W /\
  container W' = container W /\ waiter_state W' = waiter_state W /\
  task_meta W' = task_meta W.
Proof.
  unfold unsleep_if_necessary. repeat case_decide; cbn; try done.
  rewrite insert_at. by case_decide; subst.
Qed.

Lemma dispatch_front_trace tls front s :
  trace (dispatch_front tls front s)
  = trace s ++ resumption tls front (waiter_at s front).
Proof.
  unfold dispatch_front, resumption. case_decide; [done|].
  unfold resume_bthread, handoff.
  destruct (unsleep_keeps front s front) as (Ht & Hc & _).
  destruct tls; cbn; rewrite unsleep_trace, Ht, ?Hc; by rewrite <- app_assoc.
Qed.

Lemma dispatch_front_sig tls front s :
  tid (waiter_at s front) = 0 ->
  sig (waiter_at (dispatch_front tls front s) front) = SAFE_TO_DESTROY.
Proof.
  intros Ht. unfold dispatch_front. rewrite decide_True by done.
  unfold wakeup_pthread. cbn. rewrite insert_at. by case_decide.
Qed.

(** ** Wake *)

(** C5.  [butex_wake] on an empty queue returns 0 and leaves the store as
    it was.  Otherwise it returns 1; the queue of the butex has lost its
    head [front] and nothing else, every other queue is as before,
    [front]'s [container] is NULL and no other waiter's has changed, and
    [front] has been resumed by its own mechanism: a pthread waiter has
    [sig] set and a futex wake issued on it, a bthread waiter is handed
    to the scheduler (after its timer, if any, was unscheduled). *)
Theorem butex_wake_one tls arg s :
  wf s ->
  match waiters (butex_at s (container_of_value arg)) with
  | [] => butex_wake tls arg s = (0, s)
  | front :: rest =>
      exists s', butex_wake tls arg s = (1, s') /\
        waiters (butex_at s' (container_of_value arg)) = rest /\
        (forall b', b' <> container_of_value arg ->
           waiters (butex_at s' b') = waiters (butex_at s b')) /\
        container (waiter_at s' front) = None /\
        (forall w, w <> front ->
           container (waiter_at s' w) = container (waiter_at s w)) /\
        trace s' = trace s ++ resumption tls front (waiter_at s front) /\
        (tid (waiter_at s front) = 0 -> sig (waiter_at s' front) = SAFE_TO_DESTROY)
  end.
Proof.
  intros Hwf. unfold butex_wake, butex_wake_locked.
  destruct (waiters (butex_at s (container_of_value arg))) as [|front rest] eqn:Hq;
    [done|].
  eexists; split; [done|].
  destruct (pop_head_effect s _ front rest Hwf Hq) as (Hb & Hb' & Hc & Hw & Ht).
  set (s1 := with_waiter front (set_container None) (RemoveFromList front s)) in *.
  destruct (same_queues_dispatch_front tls front s1) as (Hl & Hcs & Hts).
  repeat split.
  - by rewrite Hl.
  - intros b' Hne. rewrite Hl. auto.
  - by rewrite Hcs.
  - intros w Hne. rewrite Hcs. by rewrite Hw.
  - rewrite dispatch_front_trace. subst s1. cbn [trace with_waiter RemoveFromList].
    f_equal. by rewrite waiter_at_with_waiter_eq.
  - intros Ht0. apply dispatch_front_sig. by rewrite Ht.
Qed.

(** ** Requeue *)

(** One turn of the moving loop: [x] goes from the head of [b] to the
    tail of [m]. *)
Lemma move_one_effect s b m x l :
  b <> m -> wf s -> waiters (butex_at s b) = x :: l ->
  let s1 := with_waiter x (set_container (Some m)) (Append m x (RemoveFromList x s)) in
  wf s1 /\
  waiters (butex_at s1 b) = l /\
  waiters (butex_at s1 m) = waiters (butex_at s m) ++ [x] /\
  (forall b', b' <> b -> b' <> m -> waiters (butex_at s1 b') = waiters (butex_at s b')) /\
  waiter_at s1 x = set_container (Some m) (waiter_at s x) /\
  (forall w, w <> x -> waiter_at s1 w = waiter_at s w) /\
  trace s1 = trace s.
Proof.
  intros Hbm Hwf Hq s1. subst s1.
  assert (Hx : x ∈ waiters (butex_at s b)) by (rewrite Hq; apply list_elem_of_here).
  split; [by apply wf_but_enqueue, wf_but_RemoveFromList|].
  rewrite butex_at_with_waiter. repeat split.
  - rewrite waiters_Append, decide_False by done.
    rewrite waiters_RemoveFromList, Hq. apply filter_ne_head.
    rewrite <- Hq. apply Hwf.
  - rewrite waiters_Append, decide_True by done.
    rewrite waiters_RemoveFromList. f_equal. apply filter_ne_fresh.
    eapply wf_elsewhere; eauto.
  - intros b' Hb Hm. rewrite waiters_Append, decide_False by done.
    rewrite waiters_RemoveFromList. apply filter_ne_fresh.
    eapply wf_elsewhere; eauto.
  - by rewrite waiter_at_with_waiter_eq.
  - intros w Hw. by rewrite waiter_at_with_waiter_ne.
Qed.

Lemma requeue_move_effect b m :
  b <> m ->
  forall l s, wf s -> waiters (butex_at s b) = l ->
  let s' := requeue_move (length l) b m s in
  wf s' /\
  waiters (butex_at s' b) = [] /\
  waiters (butex_at s' m) = waiters (butex_at s m) ++ l /\
  (forall b', b' <> b -> b' <> m -> waiters (butex_at s' b') = waiters (butex_at s b')) /\
  (forall w, w ∈ l -> waiter_at s' w = set_container (Some m) (waiter_at s w)) /\
  (forall w, w ∉ l -> waiter_at s' w = waiter_at s w) /\
  trace s' = trace s.
Proof.
  intros Hbm l. induction l as [|x l IH]; intros s Hwf Hq; cbn.
  - rewrite app_nil_r. split_and!; try done. by intros w ?%elem_of_nil.
  - rewrite Hq.
    destruct (move_one_effect s b m x l Hbm Hwf Hq) as (Hwf1 & Hb1 & Hm1 & Ho1 & Hx1 & Hw1 & Ht1).
    set (s1 := with_waiter x (set_container (Some m)) (Append m x (RemoveFromList x s))) in *.
    destruct (IH s1 Hwf1 Hb1) as (Hwf' & Hb' & Hm' & Ho' & Hin' & Hout' & Ht').
    assert (Hxl : x ∉ l).
    { apply NoDup_cons_1_1. rewrite <- Hq. apply Hwf. }
    split_and!.
    + done.
    + done.
    + by rewrite Hm', Hm1, <- app_assoc.
    + intros b' Hb Hm. rewrite Ho', Ho1 by done. done.
    + intros w [->|Hw]%elem_of_cons.
      * by rewrite Hout', Hx1.
      * rewrite Hin' by done. rewrite Hw1; [done|]. intros ->. done.
    + intros w Hw. apply not_elem_of_cons in Hw as [Hne Hw].
      rewrite Hout' by done. by apply Hw1.
    + by rewrite Ht', Ht1.
Qed.

(** C4.  [butex_requeue] between two distinct butexes: on an empty source
    queue it returns 0 and leaves the store as it was.  Otherwise it
    returns 1, the head [front] of the source has [container] NULL and is
    resumed as by [butex_wake]; the source queue is empty, the
    destination queue is what it was followed by the rest of the source
    queue in its order, each moved waiter's [container] is the
    destination, and no other queue or [container] has changed. *)
Theorem butex_requeue_moves tls arg arg2 s :
  arg <> arg2 -> wf s ->
  match waiters (butex_at s (container_of_value arg)) with
  | [] => butex_requeue tls arg arg2 s = Some (0, s)
  | front :: rest =>
      exists s', butex_requeue tls arg arg2 s = Some (1, s') /\
        waiters (butex_at s' (container_of_value arg)) = [] /\
        waiters (butex_at s' (container_of_value arg2))
          = waiters (butex_at s (container_of_value arg2)) ++ rest /\
        (forall b', b' <> container_of_value arg -> b' <> container_of_value arg2 ->
           waiters (butex_at s' b') = waiters (butex_at s b')) /\
        (forall w, w ∈ rest ->
           container (waiter_at s' w) = Some (container_of_value arg2)) /\
        container (waiter_at s' front) = None /\
        (forall w, w ∉ front :: rest ->
           container (waiter_at s' w) = container (waiter_at s w)) /\
        trace s' = trace s ++ resumption tls front (waiter_at s front) /\
        (tid (waiter_at s front) = 0 -> sig (waiter_at s' front) = SAFE_TO_DESTROY)
  end.
Proof.
  intros Hne Hwf. unfold butex_requeue, requeue_locked.
  assert (Hbm : container_of_value arg <> container_of_value arg2)
    by (unfold container_of_value, offsetof_Butex_value; lia).
  rewrite decide_False by done.
  set (b := container_of_value arg) in *. set (m := container_of_value arg2) in *.
  destruct (waiters (butex_at s b)) as [|front rest] eqn:Hq; [done|].
  eexists; split; [done|].
  destruct (pop_head_effect s b front rest Hwf Hq) as (Hb & Hb' & Hc & Hw & Ht).
  set (s1 := with_waiter front (set_container None) (RemoveFromList front s)) in *.
  assert (Hwf1 : wf s1) by by apply wf_pop.
  rewrite Hb.
  destruct (requeue_move_effect b m Hbm rest s1 Hwf1 Hb)
    as (Hwf2 & Hb2 & Hm2 & Ho2 & Hin2 & Hout2 & Ht2).
  set (s2 := requeue_move (length rest) b m s1) in *.
  destruct (same_queues_dispatch_front tls front s2) as (Hl & Hcs & Hts).
  assert (Hfr : front ∉ rest).
  { apply NoDup_cons_1_1. rewrite <- Hq. apply Hwf. }
  assert (Hf2 : waiter_at s2 front = set_container None (waiter_at s front)).
  { rewrite Hout2 by done. subst s1. by rewrite waiter_at_with_waiter_eq. }
  split_and!.
  - by rewrite Hl.
  - rewrite Hl, Hm2. f_equal. by apply Hb'.
  - intros b' H1 H2. rewrite Hl, Ho2 by done. by apply Hb'.
  - intros w Hw'. rewrite Hcs, Hin2 by done. done.
  - by rewrite Hcs, Hf2.
  - intros w Hw'. apply not_elem_of_cons in Hw' as [Hn1 Hn2].
    rewrite Hcs, Hout2 by done. by rewrite Hw.
  - rewrite dispatch_front_trace, Ht2, Hf2. done.
  - intros Ht0. apply dispatch_front_sig. by rewrite Hf2.
Qed.

(** ** Wake all *)

Lemma same_queues_wake_pthread_waiters l :
  forall n s, same_queues s (snd (wake_pthread_waiters l n s)).
Proof.
  induction l as [|x l IH]; intros n s; cbn.
  - apply same_queues_refl.
  - eapply same_queues_trans; [apply same_queues_wakeup_pthread | apply IH].
Qed.

Lemma same_queues_ready_nosignal_each g l :
  forall n s, same_queues s (snd (ready_nosignal_each g l n s)).
Proof.
  induction l as [|x l IH]; intros n s; cbn.
  - apply same_queues_refl.
  - eapply same_queues_trans; [apply same_queues_unsleep|].
    eapply same_queues_trans; [apply same_queues_call | apply IH].
Qed.

(** The draining loop keeps the invariant at every turn, and the fuel it
    is given, the length of the queue, lets it empty the queue. *)
Lemma wake_all_drain_effect b :
  forall l s bl pl, wf s -> waiters (butex_at s b) = l ->
  let r := wake_all_drain (length l) b s bl pl in
  wf (fst (fst r)) /\
  waiters (butex_at (fst (fst r)) b) = [] /\
  (forall w, w ∈ l -> container (waiter_at (fst (fst r)) w) = None) /\
  (forall w, w ∉ l -> waiter_at (fst (fst r)) w = waiter_at s w) /\
  (forall b', b' <> b -> waiters (butex_at (fst (fst r)) b') = waiters (butex_at s b')) /\
  snd (fst r) ++ snd r ≡ₚ bl ++ pl ++ l.
Proof.
  induction l as [|x l IH]; intros s bl pl Hwf Hq; cbn.
  - rewrite app_nil_r. split_and!; try done. by intros w ?%elem_of_nil.
  - rewrite Hq.
    destruct (pop_head_effect s b x l Hwf Hq) as (Hb & Hb' & Hc & Hw & Ht).
    set (s1 := with_waiter x (set_container None) (RemoveFromList x s)) in *.
    assert (Hwf1 : wf s1) by by apply wf_pop.
    assert (Hxl : x ∉ l).
    { apply NoDup_cons_1_1. rewrite <- Hq. apply Hwf. }
    case_decide.
    + destruct (IH s1 (bl ++ [x]) pl Hwf1 Hb) as (H1 & H2 & H3 & H4 & H5 & H6).
      split_and!; try done.
      * intros w [->|Hin]%elem_of_cons; [|by apply H3]. by rewrite H4.
      * intros w [Hne Hin]%not_elem_of_cons. rewrite H4 by done. by apply Hw.
      * intros b' Hne. rewrite H5 by done. by apply Hb'.
      * rewrite H6. rewrite <- !app_assoc. f_equiv. cbn.
        by rewrite <- Permutation_middle.
    + destruct (IH s1 bl (pl ++ [x]) Hwf1 Hb) as (H1 & H2 & H3 & H4 & H5 & H6).
      split_and!; try done.
      * intros w [->|Hin]%elem_of_cons; [|by apply H3]. by rewrite H4.
      * intros w [Hne Hin]%not_elem_of_cons. rewrite H4 by done. by apply Hw.
      * intros b' Hne. rewrite H5 by done. by apply Hb'.
      * rewrite H6. rewrite <- !app_assoc. do 2 f_equiv. cbn. done.
Qed.

Lemma butex_wake_all_impl_wf tls arg remove_ref s :
  wf s -> wf (snd (butex_wake_all_impl tls arg remove_ref s)).
Proof.
  intros Hwf. unfold butex_wake_all_impl.
  destruct (wake_all_drain_effect (container_of_value arg) _ s [] [] Hwf eq_refl)
    as (Hwf1 & _).
  destruct (wake_all_drain _ _ s [] []) as [[s1 bl] pl]. cbn [fst snd] in Hwf1.
  set (s2 := if remove_ref then butex_remove_ref arg s1 else s1).
  assert (Hwf2 : wf s2).
  { subst s2. destruct remove_ref; [|done].
    eapply wf_same_queues; [apply same_queues_butex_remove_ref | done]. }
  pose proof (same_queues_wake_pthread_waiters pl 0 s2) as H3.
  destruct (wake_pthread_waiters pl 0 s2) as [n s3]. cbn [snd] in H3.
  assert (Hwf3 : wf s3) by (eapply wf_same_queues; eauto).
  destruct bl as [|next others]; [done|].
  set (s4 := snd (unsleep_if_necessary next s3)).
  assert (Hwf4 : wf s4).
  { eapply wf_same_queues; [apply same_queues_unsleep | done]. }
  set (g := get_task_group tls (control (waiter_at s4 next))).
  pose proof (same_queues_ready_nosignal_each g (rev others) (n + 1) s4) as H5.
  destruct (ready_nosignal_each g (rev others) (n + 1) s4) as [n' s5]. cbn [snd] in H5.
  assert (Hwf5 : wf s5) by (eapply wf_same_queues; eauto).
  repeat case_decide; cbn [snd];
    repeat (eapply wf_same_queues; [apply same_queues_call|]); done.
Qed.

(** ** Wake all but one *)

Lemma wf_but_pop_other s w x :
  wf_but w s -> x <> w ->
  wf_but w (with_waiter x (set_container None) (RemoveFromList x s)).
Proof.
  intros (Hi & Hw & Hn) Hne. split_and!.
  - intros w' b Hw'.
    rewrite butex_at_with_waiter, waiters_RemoveFromList, list_elem_of_filter.
    rewrite waiter_at_with_waiter, waiter_at_RemoveFromList.
    specialize (Hi w' b Hw'). case_decide; subst; cbn.
    + split; [by intros [? _] | done].
    + split; [intros [_ ?]; tauto | intros ?; split; [congruence | tauto]].
  - intros b. rewrite butex_at_with_waiter, waiters_RemoveFromList, list_elem_of_filter.
    specialize (Hw b). tauto.
  - intros b. rewrite butex_at_with_waiter, waiters_RemoveFromList.
    apply list.NoDup_filter, Hn.
Qed.

Lemma wf_but_Append s w b :
  wf_but w s -> container (waiter_at s w) = Some b -> wf (Append b w s).
Proof.
  intros Hwb Hc.
  eapply wf_same_queues; [|apply (wf_but_enqueue s w b Hwb)].
  split_and!; intros; try done;
    rewrite waiter_at_with_waiter; case_decide; subst; cbn; congruence.
Qed.

Lemma wake_except_inv_nodup b t s ew : wake_except_inv b t s ew -> lists_nodup s.
Proof. destruct ew; cbn; [intros ((_ & _ & ?) & _) | intros ((_ & ?) & _)]; done. Qed.

(** A turn of the loop that sends the head [x] to a local list. *)
Lemma wake_except_pop_step b t s ew x l :
  wake_except_inv b t s ew -> waiters (butex_at s b) = x :: l ->
  (ew = None \/ tid (waiter_at s x) <> t) ->
  let s2 := with_waiter x (set_container None) (RemoveFromList x s) in
  wake_except_inv b t s2 ew /\ waiters (butex_at s2 b) = l /\
  (forall w, tid (waiter_at s2 w) = tid (waiter_at s w)).
Proof.
  intros Hinv Hq Hx s2.
  assert (Hnd : NoDup (x :: l)).
  { rewrite <- Hq. by eapply wake_except_inv_nodup. }
  assert (Hl : waiters (butex_at s2 b) = l).
  { subst s2. rewrite butex_at_with_waiter, waiters_RemoveFromList, Hq.
    by apply filter_ne_head. }
  assert (Ht : forall w, tid (waiter_at s2 w) = tid (waiter_at s w)).
  { intros w. subst s2. rewrite waiter_at_with_waiter. by case_decide; subst. }
  split_and!; try done.
  destruct ew as [w|]; unfold wake_except_inv in *.
  - destruct Hinv as (Hwb & Hc & Hno).
    assert (Hxw : x <> w).
    { intros ->. destruct Hwb as (_ & Hw & _). apply (Hw b).
      rewrite Hq. apply list_elem_of_here. }
    split_and!.
    + by apply wf_but_pop_other.
    + subst s2. by rewrite waiter_at_with_waiter_ne.
    + intros y Hy. rewrite Ht. apply Hno. rewrite Hq, Hl in *. by apply list_elem_of_further.
  - destruct Hinv as (Hwf & Hone). split; [by apply wf_pop|].
    intros Ht0 w1 w2 H1 H2. rewrite !Ht. rewrite Hl in *.
    apply Hone; [done| |]; rewrite Hq; by apply list_elem_of_further.
Qed.

(** The turn that sets the head [x] aside. *)
Lemma wake_except_skip_step b t s x l :
  wake_except_inv b t s None -> waiters (butex_at s b) = x :: l ->
  tid (waiter_at s x) = t -> t <> 0 ->
  let s1 := RemoveFromList x s in
  wake_except_inv b t s1 (Some x) /\ waiters (butex_at s1 b) = l.
Proof.
  intros (Hwf & Hone) Hq Hx Ht0 s1. specialize (Hone Ht0).
  assert (Hnd : NoDup (x :: l)) by (rewrite <- Hq; apply Hwf).
  assert (Hl : waiters (butex_at s1 b) = l).
  { subst s1. rewrite waiters_RemoveFromList, Hq. by apply filter_ne_head. }
  split; [|done]. unfold wake_except_inv. split_and!.
  - by apply wf_but_RemoveFromList.
  - apply Hwf. rewrite Hq. apply list_elem_of_here.
  - intros y Hy Hty. rewrite Hl in Hy.
    assert (y = x).
    { apply Hone; rewrite ?Hq; auto using list_elem_of_here, list_elem_of_further. }
    subst y. by apply NoDup_cons_1_1 in Hnd.
Qed.

Lemma wake_except_drain_effect b t :
  forall l s bl pl ew,
  wake_except_inv b t s ew -> waiters (butex_at s b) = l ->
  let r := wake_except_drain (length l) b t s bl pl ew in
  wake_except_inv b t (fst (fst (fst r))) (snd r) /\
  waiters (butex_at (fst (fst (fst r))) b) = [] /\
  (forall w, ew = Some w -> snd r = Some w) /\
  (forall w, w ∈ l -> tid (waiter_at s w) = t -> t <> 0 -> snd r = Some w).
Proof.
  induction l as [|x l IH]; intros s bl pl ew Hinv Hq;
    cbn [length wake_except_drain fst snd].
  - split_and!; try done. by intros w ?%elem_of_nil.
  - rewrite Hq. rewrite waiter_at_RemoveFromList.
    assert (Hpop : (ew = None \/ tid (waiter_at s x) <> t) ->
      forall bl' pl',
      let r := wake_except_drain (length l) b t
                 (with_waiter x (set_container None) (RemoveFromList x s)) bl' pl' ew in
      (tid (waiter_at s x) <> t \/ tid (waiter_at s x) = 0) ->
      wake_except_inv b t (fst (fst (fst r))) (snd r) /\
      waiters (butex_at (fst (fst (fst r))) b) = [] /\
      (forall w, ew = Some w -> snd r = Some w) /\
      (forall w, w ∈ x :: l -> tid (waiter_at s w) = t -> t <> 0 -> snd r = Some w)).
    { intros Hx bl' pl' r Hxt.
      destruct (wake_except_pop_step b t s ew x l Hinv Hq Hx) as (Hinv2 & Hl2 & Ht2).
      destruct (IH _ bl' pl' ew Hinv2 Hl2) as (H1 & H2 & H3 & H4).
      split_and!; try done.
      intros w [->|Hin]%elem_of_cons Hw Ht0.
      - destruct Hxt; congruence.
      - apply H4; try done. by rewrite Ht2. }
    assert (Hsome : forall w, ew = Some w -> tid (waiter_at s x) <> t).
    { intros w ->. destruct Hinv as (_ & _ & Hno). apply Hno. rewrite Hq.
      apply list_elem_of_here. }
    repeat case_decide.
    + apply Hpop; [|by left]. destruct ew; [right; eauto | by left].
    + destruct ew as [w|]; [by destruct (Hsome w eq_refl)|].
      destruct (wake_except_skip_step b t s x l Hinv Hq) as (Hinv1 & Hl1);
        [done | congruence |].
      destruct (IH _ bl pl (Some x) Hinv1 Hl1) as (H1 & H2 & H3 & H4).
      split_and!; try done.
      intros w Hin Hw Ht0. replace w with x; [by apply H3|].
      destruct Hinv as (_ & Hone).
      apply Hone; rewrite ?Hq; auto using list_elem_of_here.
    + apply Hpop; [|right; lia]. destruct ew; [right; eauto | by left].
Qed.

Lemma butex_wake_except_effect tls arg t s :
  wf s -> one_waiter_per_tid (container_of_value arg) t s ->
  let s' := snd (butex_wake_except tls arg t s) in
  wf s' /\
  forall w, w ∈ waiters (butex_at s (container_of_value arg)) ->
    tid (waiter_at s w) = t -> t <> 0 ->
    waiters (butex_at s' (container_of_value arg)) = [w] /\
    container (waiter_at s' w) = Some (container_of_value arg).
Proof.
  intros Hwf Hone. unfold butex_wake_except, wake_except_locked.
  set (b := container_of_value arg) in *.
  destruct (wake_except_drain_effect b t _ s [] [] None (conj Hwf Hone) eq_refl)
    as (Hinv & Hempty & _ & Hfound).
  destruct (wake_except_drain _ b t s [] [] None) as [[[s1 bl] pl] ew].
  cbn [fst snd] in *.
  set (s2 := match ew with Some w => Append b w s1 | None => s1 end).
  assert (Hs2 : wf s2 /\
    forall w, ew = Some w ->
      waiters (butex_at s2 b) = [w] /\ container (waiter_at s2 w) = Some b).
  { subst s2. destruct ew as [w|]; cbn in Hinv.
    - destruct Hinv as (Hwb & Hc & _). split; [by apply wf_but_Append|].
      intros w' [= <-]. rewrite waiters_Append, decide_True, Hempty by done. done.
    - split; [apply Hinv | done]. }
  assert (Hend : forall s3, same_queues s2 s3 ->
    wf s3 /\
    forall w, w ∈ waiters (butex_at s b) -> tid (waiter_at s w) = t -> t <> 0 ->
      waiters (butex_at s3 b) = [w] /\ container (waiter_at s3 w) = Some b).
  { intros s3 Hsame. split; [by eapply wf_same_queues; [|apply Hs2]|].
    intros w Hin Ht Ht0. destruct Hsame as (Hl & Hc & _). rewrite Hl, Hc.
    apply Hs2. by apply Hfound. }
  replace (match ew with Some w => (Append b w s1, bl, pl) | None => (s1, bl, pl) end)
    with (s2, bl, pl) by (subst s2; by destruct ew).
  pose proof (same_queues_wake_pthread_waiters pl 0 s2) as H3.
  destruct (wake_pthread_waiters pl 0 s2) as [n s3]. cbn [snd] in H3.
  destruct bl as [|front bl']; [by apply Hend|].
  set (g := get_task_group tls (control (waiter_at s3 front))).
  pose proof (same_queues_ready_nosignal_each g (rev (front :: bl')) n s3) as H4.
  destruct (ready_nosignal_each g (rev (front :: bl')) n s3) as [n' s4]. cbn [snd] in H4.
  case_decide; cbn [snd]; apply Hend.
  - eapply same_queues_trans; [exact H3|].
    eapply same_queues_trans; [exact H4|]. apply same_queues_call.
  - eapply same_queues_trans; [exact H3 | exact H4].
Qed.

(** ** Erase *)

Lemma erase_locked_effect bw s :
  let s' := erase_locked bw s in
  (forall b, waiters (butex_at s' b) = filter (fun x => x <> bw) (waiters (butex_at s b))) /\
  container (waiter_at s' bw) = None /\
  tid (waiter_at s' bw) = tid (waiter_at s bw) /\
  (tid (waiter_at s bw) <> 0 -> waiter_state (waiter_at s' bw) = WAITER_STATE_TIMEDOUT) /\
  (forall w, w <> bw -> waiter_at s' w = waiter_at s w).
Proof.
  unfold erase_locked. rewrite waiter_at_with_waiter_eq, waiter_at_RemoveFromList.
  cbn [tid set_container]. case_decide.
  - split_and!; try done.
    + rewrite !waiter_at_with_waiter_eq. done.
    + rewrite !waiter_at_with_waiter_eq. done.
    + rewrite !waiter_at_with_waiter_eq. done.
    + intros w Hw. by rewrite !waiter_at_with_waiter_ne.
  - split_and!; try done.
    + by rewrite waiter_at_with_waiter_eq.
    + by rewrite waiter_at_with_waiter_eq.
    + intros w Hw. by rewrite waiter_at_with_waiter_ne.
Qed.

Lemma erase_locked_wf bw s : wf s -> wf (erase_locked bw s).
Proof.
  intros Hwf. unfold erase_locked. case_decide; [|by apply wf_pop].
  eapply wf_same_queues; [|by apply wf_pop].
  by apply same_queues_with_waiter.
Qed.

(** The loop ends either on a NULL [container], or by erasing in the
    store some interference left behind. *)
Lemma erase_from_butex_loop_cases env bw :
  forall s,
  match erase_from_butex_loop env bw s with
  | (true, s1) =>
      (exists s0, s1 = erase_locked bw s0) /\ container (waiter_at s bw) <> None
  | (false, s1) =>
      container (waiter_at s1 bw) = None /\
      (container (waiter_at s bw) = None -> s1 = s)
  end.
Proof.
  induction env as [|f env IH]; intros s; cbn;
    destruct (container (waiter_at s bw)) as [b|] eqn:Hc; try by eauto.
  case_decide; [by eauto|].
  specialize (IH (f s)). destruct (erase_from_butex_loop env bw (f s)) as [[] s1].
  - split; [apply IH | done].
  - split; [apply IH | done].
Qed.

Lemma erase_from_butex_loop_wf env bw :
  Forall (fun f => forall s, wf s -> wf (f s)) env ->
  forall s, wf s -> wf (snd (erase_from_butex_loop env bw s)).
Proof.
  induction 1 as [|f env Hf _ IH]; intros s Hwf; cbn;
    destruct (container (waiter_at s bw)); cbn; auto using erase_locked_wf.
  case_decide; cbn; auto using erase_locked_wf.
Qed.

(** What follows the loop touches no queue, no tag, no waiter state. *)
Lemma erase_wakeup_keeps tls bw (doit : bool) s1 :
  let s2 :=
    if doit then
      if decide (tid (waiter_at s1 bw) <> 0)
      then call (ready_to_run (get_task_group tls (control (waiter_at s1 bw)))
                              (tid (waiter_at s1 bw))) s1
      else wakeup_pthread bw s1
    else s1 in
  same_queues s1 s2 /\
  (forall w, waiter_state (waiter_at s2 w) = waiter_state (waiter_at s1 w)).
Proof.
  destruct doit; [|split; [apply same_queues_refl | done]].
  case_decide.
  - split; [apply same_queues_call | done].
  - split; [apply same_queues_wakeup_pthread|].
    intros w. unfold wakeup_pthread. cbn. rewrite insert_at. by case_decide; subst.
Qed.

Lemma erase_from_butex_wf tls env bw wakeup s :
  Forall (fun f => forall s, wf s -> wf (f s)) env ->
  wf s -> wf (snd (erase_from_butex tls env bw wakeup s)).
Proof.
  intros Henv Hwf. unfold erase_from_butex.
  pose proof (erase_from_butex_loop_wf env bw Henv s Hwf) as H1.
  destruct (erase_from_butex_loop env bw s) as [erased s1]. cbn [snd] in *.
  destruct (erase_wakeup_keeps tls bw (erased && wakeup) s1) as [Hsame _].
  eapply wf_same_queues; [apply same_queues_set_errno|].
  eapply wf_same_queues; [exact Hsame | done].
Qed.

(** C9.  [erase_from_butex] on a waiter whose [container] is NULL
    returns false and leaves the store as it was.  When it returns true
    the waiter is in no list, its [container] is NULL and, if it is a
    bthread waiter, its state is TIMEDOUT.  With nobody interfering, a
    waiter tagged with [b] is erased: [b]'s list loses it and nothing
    else, the other lists are untouched.  Whatever happens, [errno] is
    the same after the call as before it. *)
Theorem erase_from_butex_contract tls env bw wakeup s :
  (container (waiter_at s bw) = None ->
     erase_from_butex tls env bw wakeup s = (false, s)) /\
  (forall s', erase_from_butex tls env bw wakeup s = (true, s') ->
     (forall b, bw ∉ waiters (butex_at s' b)) /\
     container (waiter_at s' bw) = None /\
     (tid (waiter_at s' bw) <> 0 ->
        waiter_state (waiter_at s' bw) = WAITER_STATE_TIMEDOUT)) /\
  (forall b, wf s -> container (waiter_at s bw) = Some b ->
     exists s', erase_from_butex tls [] bw wakeup s = (true, s') /\
       waiters (butex_at s' b) = filter (fun x => x <> bw) (waiters (butex_at s b)) /\
       (forall b', b' <> b -> waiters (butex_at s' b') = waiters (butex_at s b'))) /\
  errno (snd (erase_from_butex tls env bw wakeup s)) = errno s.
Proof.
  split_and!.
  - intros Hc. unfold erase_from_butex.
    pose proof (erase_from_butex_loop_cases env bw s) as Hl.
    destruct (erase_from_butex_loop env bw s) as [[] s1].
    + by destruct Hl as [_ []].
    + destruct Hl as [_ ->]; [|done]. cbn. by rewrite set_errno_same.
  - intros s'. unfold erase_from_butex.
    pose proof (erase_from_butex_loop_cases env bw s) as Hl.
    destruct (erase_from_butex_loop env bw s) as [[] s1]; [|done].
    intros [= <-]. destruct Hl as [[s0 ->] _].
    destruct (erase_locked_effect bw s0) as (Hq & Hc & Ht & Hst & _).
    destruct (erase_wakeup_keeps tls bw (true && wakeup) (erase_locked bw s0))
      as [(Hl & Hcs & Hts) Hws].
    cbn [butex_at waiter_at set_errno]. split_and!.
    + intros b. rewrite Hl, Hq, list_elem_of_filter. tauto.
    + by rewrite Hcs.
    + rewrite Hts, Hws, Ht. done.
  - intros b Hwf Hc. unfold erase_from_butex. cbn [erase_from_butex_loop].
    rewrite Hc. eexists; split; [done|].
    destruct (erase_locked_effect bw s) as (Hq & _).
    destruct (erase_wakeup_keeps tls bw (true && wakeup) (erase_locked bw s))
      as [(Hl & _) _].
    cbn [butex_at set_errno]. split.
    + by rewrite Hl, Hq.
    + intros b' Hb'. rewrite Hl, Hq. apply filter_ne_fresh.
      intros Hin. apply Hwf in Hin. congruence.
  - unfold erase_from_butex. by destruct (erase_from_butex_loop env bw s).
Qed.

(** ** The container invariant *)

Lemma container_null_iff s w :
  wf s ->
  (container (waiter_at s w) = None <-> forall b, w ∉ waiters (butex_at s b)).
Proof.
  intros [Hi _]. split.
  - intros Hc b Hin%Hi. congruence.
  - intros Hout. destruct (container (waiter_at s w)) as [b|] eqn:Hc; [|done].
    apply Hi in Hc. by apply Hout in Hc.
Qed.

Lemma wf_but_same pw s s' :
  (forall b, waiters (butex_at s' b) = waiters (butex_at s b)) ->
  (forall w, w <> pw -> container (waiter_at s' w) = container (waiter_at s w)) ->
  wf_but pw s -> wf_but pw s'.
Proof.
  intros Hl Hc (Hi & Hw & Hn). split_and!.
  - intros w b Hne. rewrite Hl, Hc by done. by apply Hi.
  - intros b. rewrite Hl. apply Hw.
  - intros b. rewrite Hl. apply Hn.
Qed.

Lemma wait_for_butex_wf g bw s :
  wf s -> container (waiter_at s bw) = None -> wf (wait_for_butex g bw s).
Proof.
  intros Hwf Hc. unfold wait_for_butex.
  destruct (_ && _ && _).
  - by apply wf_but_enqueue, wf_to_wf_but.
  - eapply wf_same_queues; [apply same_queues_call|].
    set (s1 := snd (unsleep_if_necessary bw s)).
    assert (Hwf1 : wf s1).
    { eapply wf_same_queues; [apply same_queues_unsleep | done]. }
    case_decide; [|done].
    eapply wf_same_queues; [|done]. by apply same_queues_with_waiter.
Qed.

Lemma butex_wait_from_pthread_enter_wf g b ev abstime now pw s :
  wf_but pw s ->
  match butex_wait_from_pthread_enter g b ev abstime now pw s with
  | (Sleeping _ _ _, s') =>
      wf s' /\ container (waiter_at s' pw) = Some b /\
      waiters (butex_at s' b) = waiters (butex_at s b) ++ [pw]
  | (_, s') => wf_but pw s'
  end.
Proof.
  intros Hwb. unfold butex_wait_from_pthread_enter.
  destruct (match abstime with Some _ => _ | None => _ end).
  { eapply wf_but_same; [| |done]; done. }
  set (s1 := with_waiter pw (fun W => set_sig NOT_SIGNALLED (set_tid 0 W)) s).
  assert (H1 : wf_but pw s1).
  { eapply wf_but_same; [| |done]; [done|].
    intros w Hw. subst s1. by rewrite waiter_at_with_waiter_ne. }
  assert (Hq1 : waiters (butex_at s1 b) = waiters (butex_at s b)) by done.
  assert (Hlocked : forall task sw s2,
    wf_but pw s2 -> waiters (butex_at s2 b) = waiters (butex_at s b) ->
    match (if decide (value (butex_at s2 b) = ev)
           then (Sleeping pw task sw,
                 add_waiter_count 1
                   (with_waiter pw (set_container (Some b)) (Append b pw s2)))
           else (Leaving task sw (-1), set_errno EWOULDBLOCK s2)) with
    | (Sleeping _ _ _, s') =>
        wf s' /\ container (waiter_at s' pw) = Some b /\
        waiters (butex_at s' b) = waiters (butex_at s b) ++ [pw]
    | (_, s') => wf_but pw s'
    end).
  { intros task sw s2 H2 Hq2. case_decide.
    - split_and!.
      + eapply wf_same_queues; [apply same_queues_add_waiter_count|].
        by apply wf_but_enqueue.
      + cbn [waiter_at add_waiter_count]. by rewrite waiter_at_with_waiter_eq.
      + cbn [butex_at add_waiter_count].
        by rewrite butex_at_with_waiter, waiters_Append, decide_True, Hq2.
    - eapply wf_but_same; [| |done]; done. }
  destruct g as [gp|]; [|by apply Hlocked].
  destruct (interruptible _); [|by apply Hlocked].
  destruct (stop _).
  - eapply wf_but_same; [| |exact H1]; done.
  - apply Hlocked; [|done]. eapply wf_but_same; [| |exact H1]; done.
Qed.

Lemma butex_wake_wf tls arg s : wf s -> wf (snd (butex_wake tls arg s)).
Proof.
  intros Hwf. unfold butex_wake, butex_wake_locked.
  destruct (waiters _) as [|front rest]; [done|]. cbn [snd].
  eapply wf_same_queues; [apply same_queues_dispatch_front|]. by apply wf_pop.
Qed.

Lemma butex_requeue_wf tls arg arg2 s :
  arg <> arg2 -> wf s ->
  exists n s', butex_requeue tls arg arg2 s = Some (n, s') /\ wf s'.
Proof.
  intros Hne Hwf. unfold butex_requeue, requeue_locked.
  assert (Hbm : container_of_value arg <> container_of_value arg2)
    by (unfold container_of_value, offsetof_Butex_value; lia).
  rewrite decide_False by done.
  destruct (waiters (butex_at s (container_of_value arg))) as [|front rest] eqn:Hq;
    [by eauto|].
  do 2 eexists; split; [done|].
  eapply wf_same_queues; [apply same_queues_dispatch_front|].
  set (s1 := with_waiter front (set_container None) (RemoveFromList front s)).
  by apply (requeue_move_effect _ _ Hbm _ s1); [apply wf_pop|].
Qed.

(** ** One wait per bthread *)

Lemma thins_refl s : thins s s.
Proof. split; [done|]. intros b w Hw. by exists b. Qed.

Lemma thins_trans s1 s2 s3 : thins s1 s2 -> thins s2 s3 -> thins s1 s3.
Proof.
  intros (Ht & Hq) (Ht' & Hq'). split.
  - intros w. by rewrite Ht', Ht.
  - intros b w Hw. destruct (Hq' b w Hw) as (b2 & Hw2). by apply (Hq b2).
Qed.

Lemma thins_same_queues s s1 s2 : thins s s1 -> same_queues s1 s2 -> thins s s2.
Proof.
  intros (Ht & Hq) (Hl & _ & Ht'). split.
  - intros w. by rewrite Ht', Ht.
  - intros b w Hw. apply (Hq b). by rewrite <- Hl.
Qed.

Lemma thins_one_wait s s' :
  thins s s' -> one_wait_per_bthread s -> one_wait_per_bthread s'.
Proof.
  intros (Ht & Hq) Hone b1 b2 w1 w2 H1 H2. rewrite !Ht.
  destruct (Hq b1 w1 H1) as (c1 & Hc1). destruct (Hq b2 w2 H2) as (c2 & Hc2).
  by apply (Hone c1 c2).
Qed.

Lemma thins_RemoveFromList x s : thins s (RemoveFromList x s).
Proof.
  split; [done|]. intros b w. rewrite waiters_RemoveFromList, list_elem_of_filter.
  intros [_ Hw]. by exists b.
Qed.

Lemma thins_with_waiter x f s :
  (forall W, tid (f W) = tid W) -> thins s (with_waiter x f s).
Proof.
  intros Hf. split.
  - intros w. rewrite waiter_at_with_waiter. by case_decide; subst.
  - intros b w Hw. by exists b.
Qed.

Lemma thins_pop x s :
  thins s (with_waiter x (set_container None) (RemoveFromList x s)).
Proof.
  eapply thins_trans; [apply thins_RemoveFromList | by apply thins_with_waiter].
Qed.

(** Putting back a waiter that was queued before. *)
Lemma thins_Append s s1 b w b0 :
  thins s s1 -> w ∈ waiters (butex_at s b0) -> thins s (Append b w s1).
Proof.
  intros (Ht & Hq) Hw. split; [done|].
  intros b' x. rewrite waiters_Append. case_decide; [|apply Hq].
  rewrite elem_of_app, list_elem_of_singleton. intros [Hx | ->]; [by apply (Hq b) | by exists b0].
Qed.

Lemma thins_butex_wake tls arg s : thins s (snd (butex_wake tls arg s)).
Proof.
  unfold butex_wake, butex_wake_locked.
  destruct (waiters _) as [|front rest]; [apply thins_refl|]. cbn [snd].
  eapply thins_same_queues; [apply thins_pop | apply same_queues_dispatch_front].
Qed.

Lemma thins_wake_all_drain b :
  forall fuel s bl pl, thins s (fst (fst (wake_all_drain fuel b s bl pl))).
Proof.
  induction fuel as [|fuel IH]; intros s bl pl; cbn [wake_all_drain];
    [apply thins_refl|].
  destruct (waiters (butex_at s b)) as [|bw rest]; [apply thins_refl|].
  case_decide; (eapply thins_trans; [apply thins_pop | apply IH]).
Qed.

Lemma thins_butex_wake_all_impl tls arg remove_ref s :
  thins s (snd (butex_wake_all_impl tls arg remove_ref s)).
Proof.
  unfold butex_wake_all_impl.
  pose proof (thins_wake_all_drain (container_of_value arg)
                (length (waiters (butex_at s (container_of_value arg)))) s [] []) as H1.
  destruct (wake_all_drain _ _ s [] []) as [[s1 bl] pl]. cbn [fst] in H1.
  set (s2 := if remove_ref then butex_remove_ref arg s1 else s1).
  assert (H2 : thins s s2).
  { subst s2. destruct remove_ref; [|done].
    eapply thins_same_queues; [done | apply same_queues_butex_remove_ref]. }
  pose proof (same_queues_wake_pthread_waiters pl 0 s2) as H3.
  destruct (wake_pthread_waiters pl 0 s2) as [n s3]. cbn [snd] in H3.
  assert (H3' : thins s s3) by (by eapply thins_same_queues).
  destruct bl as [|next others]; [done|].
  set (s4 := snd (unsleep_if_necessary next s3)).
  assert (H4 : thins s s4).
  { eapply thins_same_queues; [done | apply same_queues_unsleep]. }
  set (g := get_task_group tls (control (waiter_at s4 next))).
  pose proof (same_queues_ready_nosignal_each g (rev others) (n + 1) s4) as H5.
  destruct (ready_nosignal_each g (rev others) (n + 1) s4) as [n' s5]. cbn [snd] in H5.
  assert (H5' : thins s s5) by (by eapply thins_same_queues).
  repeat case_decide; cbn [snd];
    repeat (eapply thins_same_queues; [|apply same_queues_call]); done.
Qed.

(** The waiter [butex_wake_except] has set aside when its loop ends was
    in the queue when the loop began. *)
Lemma thins_wake_except_drain b t :
  forall fuel s bl pl ew,
  let r := wake_except_drain fuel b t s bl pl ew in
  thins s (fst (fst (fst r))) /\
  (forall w, snd r = Some w -> ew = Some w \/ w ∈ waiters (butex_at s b)).
Proof.
  induction fuel as [|fuel IH]; intros s bl pl ew; cbn [wake_except_drain].
  { split; [apply thins_refl | by left]. }
  destruct (waiters (butex_at s b)) as [|bw rest] eqn:Hq.
  { split; [apply thins_refl | by left]. }
  assert (Hsub : forall f w,
    w ∈ waiters (butex_at (with_waiter bw f (RemoveFromList bw s)) b) ->
    w ∈ waiters (butex_at s b)).
  { intros f w. rewrite butex_at_with_waiter, waiters_RemoveFromList, list_elem_of_filter.
    tauto. }
  repeat case_decide.
  - destruct (IH (with_waiter bw (set_container None) (RemoveFromList bw s))
                (bl ++ [bw]) pl ew) as [H1 H2].
    split; [eapply thins_trans; [apply thins_pop | exact H1]|].
    intros w Hw. destruct (H2 w Hw) as [?|Hin]; [by left | right; rewrite <- Hq; exact (Hsub _ w Hin)].
  - destruct (IH (RemoveFromList bw s) bl pl (Some bw)) as [H1 H2].
    split; [eapply thins_trans; [apply thins_RemoveFromList | exact H1]|].
    intros w Hw. right. rewrite <- Hq. destruct (H2 w Hw) as [[= <-]|Hin].
    + rewrite Hq. apply list_elem_of_here.
    + rewrite waiters_RemoveFromList, list_elem_of_filter in Hin. tauto.
  - destruct (IH (with_waiter bw (set_container None) (RemoveFromList bw s))
                bl (pl ++ [bw]) ew) as [H1 H2].
    split; [eapply thins_trans; [apply thins_pop | exact H1]|].
    intros w Hw. destruct (H2 w Hw) as [?|Hin]; [by left | right; rewrite <- Hq; exact (Hsub _ w Hin)].
Qed.

Lemma thins_butex_wake_except tls arg t s :
  thins s (snd (butex_wake_except tls arg t s)).
Proof.
  unfold butex_wake_except, wake_except_locked.
  set (b := container_of_value arg).
  destruct (thins_wake_except_drain b t (length (waiters (butex_at s b))) s [] [] None)
    as [H1 Hew].
  destruct (wake_except_drain _ b t s [] [] None) as [[[s1 bl] pl] ew].
  cbn [fst snd] in *.
  set (s2 := match ew with Some w => Append b w s1 | None => s1 end).
  assert (H2 : thins s s2).
  { subst s2. destruct ew as [w|]; [|done].
    destruct (Hew w eq_refl) as [?|Hin]; [done | by eapply thins_Append]. }
  replace (match ew with Some w => (Append b w s1, bl, pl) | None => (s1, bl, pl) end)
    with (s2, bl, pl) by (subst s2; by destruct ew).
  pose proof (same_queues_wake_pthread_waiters pl 0 s2) as H3.
  destruct (wake_pthread_waiters pl 0 s2) as [n s3]. cbn [snd] in H3.
  assert (H3' : thins s s3) by (by eapply thins_same_queues).
  destruct bl as [|front bl']; [done|].
  set (g := get_task_group tls (control (waiter_at s3 front))).
  pose proof (same_queues_ready_nosignal_each g (rev (front :: bl')) n s3) as H4.
  destruct (ready_nosignal_each g (rev (front :: bl')) n s3) as [n' s4].
  cbn [snd] in H4.
  assert (H4' : thins s s4) by (by eapply thins_same_queues).
  case_decide; cbn [snd]; [|done].
  eapply thins_same_queues; [done | apply same_queues_call].
Qed.

Lemma thins_requeue_move b m : forall fuel s, thins s (requeue_move fuel b m s).
Proof.
  induction fuel as [|fuel IH]; intros s; cbn [requeue_move]; [apply thins_refl|].
  destruct (waiters (butex_at s b)) as [|bw rest] eqn:Hq; [apply thins_refl|].
  eapply thins_trans; [|apply IH].
  eapply thins_trans; [|by apply thins_with_waiter].
  eapply thins_Append; [apply thins_RemoveFromList|].
  rewrite Hq. apply list_elem_of_here.
Qed.

Lemma thins_butex_requeue tls arg arg2 s n s' :
  butex_requeue tls arg arg2 s = Some (n, s') -> thins s s'.
Proof.
  unfold butex_requeue, requeue_locked. case_decide; [done|].
  destruct (waiters _) as [|front rest]; intros [= <- <-]; [apply thins_refl|].
  eapply thins_same_queues; [|apply same_queues_dispatch_front].
  eapply thins_trans; [apply thins_pop | apply thins_requeue_move].
Qed.

Lemma thins_erase_locked bw s : thins s (erase_locked bw s).
Proof.
  unfold erase_locked. case_decide; [|apply thins_pop].
  eapply thins_trans; [apply thins_pop | by apply thins_with_waiter].
Qed.

Lemma one_wait_erase_from_butex tls env bw wakeup s :
  Forall (fun f => forall s0, one_wait_per_bthread s0 -> one_wait_per_bthread (f s0)) env ->
  one_wait_per_bthread s ->
  one_wait_per_bthread (snd (erase_from_butex tls env bw wakeup s)).
Proof.
  intros Henv Hone. unfold erase_from_butex.
  assert (H1 : one_wait_per_bthread (snd (erase_from_butex_loop env bw s))).
  { revert s Hone. induction Henv as [|f env Hf _ IH]; intros s Hone; cbn;
      destruct (container (waiter_at s bw)); cbn; try done;
      try (by eapply thins_one_wait; [apply thins_erase_locked|]).
    case_decide; cbn; [|by apply IH, Hf].
    eapply thins_one_wait; [apply thins_erase_locked | by apply Hf]. }
  destruct (erase_from_butex_loop env bw s) as [erased s1]. cbn [snd] in *.
  destruct (erase_wakeup_keeps tls bw (erased && wakeup) s1) as [Hsame _].
  eapply thins_one_wait; [|exact H1].
  eapply thins_same_queues; [|apply same_queues_set_errno].
  eapply thins_same_queues; [apply thins_refl | exact Hsame].
Qed.

(** The enqueue of a bthread waiter, the caller having no waiter queued
    that carries its tid. *)
Lemma one_wait_wait_for_butex g bw s :
  (forall b w, w ∈ waiters (butex_at s b) ->
     tid (waiter_at s w) <> tid (waiter_at s bw)) ->
  one_wait_per_bthread s -> one_wait_per_bthread (wait_for_butex g bw s).
Proof.
  intros Hfresh Hone. unfold wait_for_butex.
  destruct (_ && _ && _).
  - set (b := initial_butex (waiter_at s bw)).
    assert (Ht : forall w, tid (waiter_at (with_waiter bw (set_container (Some b))
                                             (Append b bw s)) w) = tid (waiter_at s w)).
    { intros w. rewrite waiter_at_with_waiter. by case_decide; subst. }
    assert (Hq : forall b' w,
      w ∈ waiters (butex_at (with_waiter bw (set_container (Some b)) (Append b bw s)) b') ->
      w = bw \/ w ∈ waiters (butex_at s b')).
    { intros b' w. rewrite butex_at_with_waiter, waiters_Append.
      case_decide; subst; [|by right].
      rewrite elem_of_app, list_elem_of_singleton. tauto. }
    intros b1 b2 w1 w2 H1 H2. rewrite !Ht. intros Heq Hne.
    destruct (Hq b1 w1 H1) as [->|Hin1], (Hq b2 w2 H2) as [->|Hin2]; try done.
    + by destruct (Hfresh b2 w2 Hin2).
    + by destruct (Hfresh b1 w1 Hin1).
    + by apply (Hone b1 b2).
  - eapply thins_one_wait; [|exact Hone].
    eapply thins_same_queues; [|apply same_queues_call].
    set (s1 := snd (unsleep_if_necessary bw s)).
    assert (H1 : thins s s1).
    { eapply thins_same_queues; [apply thins_refl | apply same_queues_unsleep]. }
    case_decide; [|done].
    eapply thins_trans; [exact H1 | by apply thins_with_waiter].
Qed.

(** A waiter that joins with tid 0 asks nothing of the others. *)
Lemma one_wait_joined s s' pw :
  (forall w, w <> pw -> tid (waiter_at s' w) = tid (waiter_at s w)) ->
  tid (waiter_at s' pw) = 0 ->
  (forall b w, w ∈ waiters (butex_at s' b) -> w = pw \/ w ∈ waiters (butex_at s b)) ->
  one_wait_per_bthread s -> one_wait_per_bthread s'.
Proof.
  intros Ht H0 Hq Hone b1 b2 w1 w2 H1 H2 Heq Hne.
  destruct (decide (w1 = pw)) as [->|N1]; [congruence|].
  destruct (decide (w2 = pw)) as [->|N2]; [congruence|].
  rewrite !Ht in * by done.
  destruct (Hq b1 w1 H1) as [?|Hin1]; [done|].
  destruct (Hq b2 w2 H2) as [?|Hin2]; [done|].
  by apply (Hone b1 b2).
Qed.

(** The enqueue of a pthread waiter, whose tid is set to 0. *)
Lemma one_wait_pthread_enter g b ev abstime now pw s :
  one_wait_per_bthread s ->
  one_wait_per_bthread (snd (butex_wait_from_pthread_enter g b ev abstime now pw s)).
Proof.
  intros Hone. unfold butex_wait_from_pthread_enter.
  destruct (match abstime with Some _ => _ | None => _ end); [done|].
  set (s1 := with_waiter pw (fun W => set_sig NOT_SIGNALLED (set_tid 0 W)) s).
  assert (Hlocked : forall task sw s2,
    (forall w, waiter_at s2 w = waiter_at s1 w) ->
    (forall b', waiters (butex_at s2 b') = waiters (butex_at s b')) ->
    one_wait_per_bthread
      (snd (if decide (value (butex_at s2 b) = ev)
            then (Sleeping pw task sw,
                  add_waiter_count 1
                    (with_waiter pw (set_container (Some b)) (Append b pw s2)))
            else (Leaving task sw (-1), set_errno EWOULDBLOCK s2)))).
  { intros task sw s2 Hw Hq. apply (one_wait_joined s _ pw); [| | |done].
    - intros w Hne. case_decide; cbn [snd waiter_at add_waiter_count set_errno];
        rewrite ?waiter_at_with_waiter_ne by done; cbn [waiter_at Append with_butex];
        rewrite Hw; subst s1; by rewrite waiter_at_with_waiter_ne.
    - case_decide; cbn [snd waiter_at add_waiter_count set_errno];
        rewrite ?waiter_at_with_waiter_eq; cbn [waiter_at Append with_butex tid set_container];
        rewrite Hw; subst s1; by rewrite waiter_at_with_waiter_eq.
    - intros b' w. case_decide; cbn [snd butex_at add_waiter_count set_errno].
      + rewrite butex_at_with_waiter, waiters_Append.
        case_decide; subst; rewrite ?Hq; [|by right].
        rewrite elem_of_app, list_elem_of_singleton. tauto.
      + rewrite Hq. by right. }
  destruct g as [gp|]; [|by apply Hlocked].
  destruct (interruptible _); [|by apply Hlocked].
  destruct (stop _); [|by apply Hlocked].
  cbn [snd]. apply (one_wait_joined s _ pw); [| | |done].
  - intros w Hne. cbn [waiter_at set_errno]. subst s1. by rewrite waiter_at_with_waiter_ne.
  - cbn [waiter_at set_errno]. subst s1. by rewrite waiter_at_with_waiter_eq.
  - intros b' w Hin. by right.
Qed.

(** C3.  In a well-formed store - a waiter is in the list of [b] exactly
    when its [container] is [b], and no list holds a waiter twice - a
    waiter's [container] is NULL exactly when it is in no list, and each
    operation leaves the store well formed: the enqueue of a bthread
    waiter ([wait_for_butex]) and of a pthread waiter (whose record is
    new, so the invariant is asked of the others only), [butex_wake],
    [butex_wake_all], [butex_wake_except], [butex_requeue] between
    distinct butexes, and [erase_from_butex] (amid interference that
    itself keeps the store well formed).  [butex_wake_except] leaves the
    excluded waiter alone in the list, its [container] still the butex.

    [butex_wake_except] keeps one waiter back, the last it meets with the
    excluded tid; what it asks is that the excluded bthread have no
    second waiter in the queue.  Of the pthread waiters, whose tid is 0,
    nothing is asked, however many there are and whatever tid is
    excluded.  That a bthread has one waiter queued at most is itself
    kept by every operation: by the wakes, the requeue and the erase,
    which queue nothing new; by the enqueue of a pthread waiter, whose
    tid is 0; and by the enqueue of a bthread waiter, the caller having
    no waiter queued when it waits. *)
Theorem container_invariant_kept :
  (forall s w, wf s ->
     (container (waiter_at s w) = None <-> forall b, w ∉ waiters (butex_at s b))) /\
  (forall g bw s,
     wf s -> container (waiter_at s bw) = None -> wf (wait_for_butex g bw s)) /\
  (forall g b ev abstime now pw s task sw s',
     wf_but pw s ->
     butex_wait_from_pthread_enter g b ev abstime now pw s = (Sleeping pw task sw, s') ->
     wf s' /\ container (waiter_at s' pw) = Some b) /\
  (forall tls arg s, wf s -> wf (snd (butex_wake tls arg s))) /\
  (forall tls arg s, wf s -> wf (snd (butex_wake_all tls arg s))) /\
  (forall tls arg t s,
     wf s -> one_waiter_per_tid (container_of_value arg) t s ->
     wf (snd (butex_wake_except tls arg t s)) /\
     forall w, w ∈ waiters (butex_at s (container_of_value arg)) ->
       tid (waiter_at s w) = t -> t <> 0 ->
       waiters (butex_at (snd (butex_wake_except tls arg t s)) (container_of_value arg))
         = [w] /\
       container (waiter_at (snd (butex_wake_except tls arg t s)) w)
         = Some (container_of_value arg)) /\
  (forall tls arg arg2 s,
     arg <> arg2 -> wf s ->
     exists n s', butex_requeue tls arg arg2 s = Some (n, s') /\ wf s') /\
  (forall tls env bw wakeup s,
     Forall (fun f => forall s0, wf s0 -> wf (f s0)) env ->
     wf s -> wf (snd (erase_from_butex tls env bw wakeup s))) /\
  (forall s, one_wait_per_bthread s -> forall b t, one_waiter_per_tid b t s) /\
  (forall tls arg s, wf s ->
     one_waiter_per_tid (container_of_value arg) 0 s /\
     wf (snd (butex_wake_except tls arg 0 s))) /\
  (forall g bw s,
     (forall b w, w ∈ waiters (butex_at s b) ->
        tid (waiter_at s w) <> tid (waiter_at s bw)) ->
     one_wait_per_bthread s -> one_wait_per_bthread (wait_for_butex g bw s)) /\
  (forall g b ev abstime now pw s,
     one_wait_per_bthread s ->
     one_wait_per_bthread (snd (butex_wait_from_pthread_enter g b ev abstime now pw s))) /\
  (forall tls arg s,
     one_wait_per_bthread s -> one_wait_per_bthread (snd (butex_wake tls arg s))) /\
  (forall tls arg s,
     one_wait_per_bthread s -> one_wait_per_bthread (snd (butex_wake_all tls arg s))) /\
  (forall tls arg t s,
     one_wait_per_bthread s ->
     one_wait_per_bthread (snd (butex_wake_except tls arg t s))) /\
  (forall tls arg arg2 s n s',
     butex_requeue tls arg arg2 s = Some (n, s') ->
     one_wait_per_bthread s -> one_wait_per_bthread s') /\
  (forall tls env bw wakeup s,
     Forall (fun f => forall s0, one_wait_per_bthread s0 -> one_wait_per_bthread (f s0))
            env ->
     one_wait_per_bthread s ->
     one_wait_per_bthread (snd (erase_from_butex tls env bw wakeup s))).
Proof.
  split_and!.
  - intros s w. apply container_null_iff.
  - apply wait_for_butex_wf.
  - intros g b ev abstime now pw s task sw s' Hwb Heq.
    pose proof (butex_wait_from_pthread_enter_wf g b ev abstime now pw s Hwb) as H.
    rewrite Heq in H. tauto.
  - apply butex_wake_wf.
  - intros. by apply butex_wake_all_impl_wf.
  - intros. by apply butex_wake_except_effect.
  - apply butex_requeue_wf.
  - apply erase_from_butex_wf.
  - intros s Hone b t Ht0 w1 w2 H1 H2 T1 T2. apply (Hone b b); try done; congruence.
  - intros tls arg s Hwf.
    assert (H0 : one_waiter_per_tid (container_of_value arg) 0 s) by (by intros ?).
    split; [done|]. by apply butex_wake_except_effect.
  - apply one_wait_wait_for_butex.
  - apply one_wait_pthread_enter.
  - intros tls arg s. apply thins_one_wait, thins_butex_wake.
  - intros tls arg s. apply thins_one_wait, thins_butex_wake_all_impl.
  - intros tls arg t s. apply thins_one_wait, thins_butex_wake_except.
  - intros tls arg arg2 s n s' H. by apply thins_one_wait, (thins_butex_requeue tls arg arg2 s n).
  - apply one_wait_erase_from_butex.
Qed.

(** ** The result of a bthread wait *)

Lemma butex_wait_result_keeps bbw s :
  let s' := snd (butex_wait_result bbw s) in
  task_at s' = task_at s /\ waiter_at s' = waiter_at s /\ butex_at s' = butex_at s.
Proof. unfold butex_wait_result. by repeat case_match. Qed.

(** With no timer armed and the waiter still published, the two loops
    that precede the result end at once, with nobody's help. *)
Lemma butex_wait_resume_returns bbw s :
  sleep_id (waiter_at s bbw) = 0 ->
  current_waiter (task_at s (task_meta (waiter_at s bbw))) <> None ->
  butex_wait_resume [] [] bbw s
  = Some (butex_wait_result bbw
            (add_waiter_count (-1)
               (with_task (task_meta (waiter_at s bbw)) (set_current_waiter None) s))).
Proof.
  intros Hid Hcw. unfold butex_wait_resume, unsleep_spin, unsleep_if_necessary.
  rewrite decide_True by done. rewrite decide_False by lia.
  unfold take_current_waiter.
  by destruct (current_waiter (task_at s (task_meta (waiter_at s bbw)))).
Qed.

(** The loop on the timer ends, given the turns it takes the timer
    thread to finish the callback; the others having left alone what the
    waiter's owner alone writes. *)
Lemma unsleep_spin_ends bbw :
  forall n env s,
  callback_over_within n (sleep_id (waiter_at s bbw)) s ->
  (n <= length env)%nat ->
  Forall adds_to_trace env -> Forall (keeps_timer bbw) env ->
  exists s1, unsleep_spin env bbw s = Some s1 /\
    task_meta (waiter_at s1 bbw) = task_meta (waiter_at s bbw) /\
    forall t, Forall (keeps (fun s0 => current_waiter (task_at s0 t))) env ->
      current_waiter (task_at s1 t) = current_waiter (task_at s t).
Proof.
  induction n as [|n IH]; intros env s Hover Hn Hadd Hkeep;
    destruct env as [|f env]; cbn [unsleep_spin length] in *;
    unfold unsleep_if_necessary;
    destruct (decide (sleep_id (waiter_at s bbw) = 0)) as [Hid|Hid];
    try (rewrite decide_False by lia; by eexists);
    destruct (decide (unschedule (trace s) (sleep_id (waiter_at s bbw)) > 0))
      as [Hrun|Hrun];
    try (rewrite decide_False by lia; eexists; split; [done|];
         cbn [waiter_at call task_at];
         by rewrite ?waiter_at_with_waiter_eq);
    try (exfalso; specialize (Hover (trace s)); lia).
  rewrite decide_True by lia.
  set (s1 := call (timer_unschedule (sleep_id (waiter_at s bbw))) s).
  apply list.Forall_cons in Hadd as [Hf Hadd].
  apply list.Forall_cons in Hkeep as [Kf Hkeep].
  destruct (Kf s1) as [Kid Ktm].
  destruct (IH env (f s1)) as (s2 & Hs2 & Htm & Hcw); try done; try lia.
  - rewrite Kid. intros tr Htr. apply Hover.
    specialize (Hf s1). subst s1. cbn [trace call] in Hf.
    rewrite length_app in Hf. cbn [length] in Hf. lia.
  - exists s2. split; [done|]. split; [by rewrite Htm, Ktm|].
    intros t [Kc Henv]%list.Forall_cons. rewrite (Hcw t Henv). exact (Kc s1).
Qed.

(** The loop on [current_waiter] ends if the waiter is there, or if one
    of the turns it gives the stopper ends with the waiter put back. *)
Lemma take_current_waiter_ends t :
  forall env s,
  current_waiter (task_at s t) <> None \/ Exists (gives_back t) env ->
  exists s1, take_current_waiter env t s = Some s1.
Proof.
  induction env as [|f env IH]; intros s H; cbn [take_current_waiter];
    destruct (current_waiter (task_at s t)) eqn:Hcw; try (by eexists).
  - destruct H as [H|H]; [done | by apply Exists_nil in H].
  - apply IH. destruct H as [H|H]; [done|].
    apply List.Exists_cons in H as [H|H]; [left; apply H | by right].
Qed.

(** C2.  A bthread wait that went through the scheduler returns: the
    loop on the timer ends once the timer thread is through with the
    callback, and the loop on [current_waiter] once the waiter is
    there, put back by a stopper that had taken it if need be.  And the
    result it returns follows this order, read off the task and the
    waiter as they are on return: [stop] set gives -1 with ESTOP,
    whatever the waiter state; otherwise TIMEDOUT gives -1 with
    ETIMEDOUT; otherwise CANCELLED gives -1 with EWOULDBLOCK; otherwise
    the result is 0. *)
Theorem butex_wait_result_order env1 env2 bbw s :
  let t := task_meta (waiter_at s bbw) in
  (forall n,
     callback_over_within n (sleep_id (waiter_at s bbw)) s ->
     (n <= length env1)%nat ->
     Forall adds_to_trace env1 -> Forall (keeps_timer bbw) env1 ->
     Exists (gives_back t) env2 \/
       current_waiter (task_at s t) <> None /\
       Forall (keeps (fun s0 => current_waiter (task_at s0 t))) env1 ->
     exists rc s', butex_wait_resume env1 env2 bbw s = Some (rc, s')) /\
  (forall rc s',
     butex_wait_resume env1 env2 bbw s = Some (rc, s') ->
     let stopped := stop (task_at s' (task_meta (waiter_at s' bbw))) in
     let st := waiter_state (waiter_at s' bbw) in
     (stopped = true -> rc = -1 /\ errno s' = ESTOP) /\
     (stopped = false -> st = WAITER_STATE_TIMEDOUT -> rc = -1 /\ errno s' = ETIMEDOUT) /\
     (stopped = false -> st = WAITER_STATE_CANCELLED ->
        rc = -1 /\ errno s' = EWOULDBLOCK) /\
     (stopped = false -> st <> WAITER_STATE_TIMEDOUT -> st <> WAITER_STATE_CANCELLED ->
        rc = 0)).
Proof.
  intros t. split.
  - intros n Hover Hn Hadd Hkeep Hback. unfold butex_wait_resume.
    destruct (unsleep_spin_ends bbw n env1 s Hover Hn Hadd Hkeep) as (s1 & -> & Htm & Hcw).
    rewrite Htm. fold t.
    destruct (take_current_waiter_ends t env2 s1) as (s2 & ->).
    + destruct Hback as [Hback|[Hthere Hleft]]; [by right | left].
      by rewrite (Hcw t Hleft).
    + destruct (butex_wait_result bbw (add_waiter_count (-1) s2)) as [rc s'].
      by exists rc, s'.
  - intros rc s'. unfold butex_wait_resume.
    destruct (unsleep_spin env1 bbw s) as [s1|]; [|done].
    destruct (take_current_waiter env2 _ s1) as [s2|]; [|done].
    intros [= Hr]. set (s3 := add_waiter_count (-1) s2) in *.
    destruct (butex_wait_result_keeps bbw s3) as (Ht & Hw & _).
    rewrite Hr in Ht, Hw. cbn [snd] in Ht, Hw. cbv zeta. rewrite Ht, Hw.
    revert Hr. unfold butex_wait_result.
    destruct (stop _); [|repeat case_decide]; intros [= <- <-];
      cbn [errno set_errno]; split_and!; intros; try done; congruence.
Qed.

(** ** Deadlines that are too close *)

(** C6, as amended.  A wait that finds the value word equal to the
    expected value, and whose deadline is at most LEAST_SLEEP_US after
    now, returns -1 with ETIMEDOUT at once on either path: every waiter
    list is as before, no waiter other than the caller's own on-stack
    record has been written, nothing has been published in a task
    record, and no outside call (timer, scheduler, futex) was made. *)
Theorem wait_deadline_too_close tls arg ev t now nid bbw pw s :
  value (butex_at s (container_of_value arg)) = ev ->
  timespec_to_microseconds t - now <= LEAST_SLEEP_US ->
  let r := butex_wait_enter tls arg ev (Some t) now nid bbw pw s in
  fst r = Returned (-1) /\ errno (snd r) = ETIMEDOUT /\
  butex_at (snd r) = butex_at s /\
  (forall w, w <> bbw -> waiter_at (snd r) w = waiter_at s w) /\
  task_at (snd r) = task_at s /\
  trace (snd r) = trace s.
Proof.
  intros Hv Ht. unfold butex_wait_enter. rewrite decide_False by (intros ?; done).
  unfold butex_wait_checked, butex_wait_from_pthread_enter.
  rewrite bool_decide_eq_true_2 by done.
  destruct tls as [g|]; [|done].
  destruct (is_current_pthread_task _); [done|].
  rewrite decide_True by lia. cbn [fst snd]. split_and!; try done.
  intros w Hw. cbn [set_errno waiter_at].
  by rewrite !waiter_at_with_waiter_ne.
Qed.

(** ** Stop seen at the door of the pthread path *)

(** C10, as amended.  [butex_wait_from_pthread] called from within a task
    (its group is [gp]) that is interruptible and already stopped, with
    no deadline or with one more than LEAST_SLEEP_US away, returns -1
    with ESTOP at once: the task's [current_waiter] is as before, every
    waiter list is as before, and no outside call was made. *)
Theorem pthread_wait_stopped_at_entry gp b ev abstime now pw s :
  match abstime with
  | Some t => timespec_to_microseconds t - now > LEAST_SLEEP_US
  | None => True
  end ->
  interruptible (task_at s (current_task (group_at s gp))) = true ->
  stop (task_at s (current_task (group_at s gp))) = true ->
  let r := butex_wait_from_pthread_enter (Some gp) b ev abstime now pw s in
  fst r = Returned (-1) /\ errno (snd r) = ESTOP /\
  task_at (snd r) = task_at s /\ butex_at (snd r) = butex_at s /\
  (forall w, container (waiter_at (snd r) w) = container (waiter_at s w)) /\
  trace (snd r) = trace s.
Proof.
  intros Hd Hi Hs. unfold butex_wait_from_pthread_enter.
  replace (match abstime with Some t => _ | None => false end) with false.
  2:{ destruct abstime; [|done]. symmetry. apply bool_decide_eq_false. lia. }
  cbn [task_at group_at with_waiter]. rewrite Hi, Hs. cbn [fst snd].
  split_and!; try done.
  intros w. cbn [set_errno waiter_at]. rewrite waiter_at_with_waiter.
  by case_decide; subst.
Qed.

(** ** Creation and destruction *)

(** C8, as amended.  [butex_create], when the allocation succeeds,
    returns the address of the value word of the new butex (the butex
    address plus the offset of [value], which is 0); the new butex has
    [unlock_nref] 0 and no waiters, and its value word is what the
    storage held: [butex_create] does not write it.  No other butex
    changes.  When the allocation fails it returns NULL and changes
    nothing. *)
Theorem butex_create_handle fresh s :
  match fresh with
  | Some b =>
      exists s', butex_create fresh s = (Some (address_of_value b), s') /\
        container_of_value (address_of_value b) = b /\
        address_of_value b = b /\
        unlock_nref (butex_at s' b) = 0 /\
        waiters (butex_at s' b) = [] /\
        value (butex_at s' b) = value (butex_at s b) /\
        forall b', b' <> b -> butex_at s' b' = butex_at s b'
  | None => butex_create fresh s = (None, s)
  end.
Proof.
  destruct fresh as [b|]; [|done].
  eexists; split; [done|].
  unfold container_of_value, address_of_value, offsetof_Butex_value.
  cbn [butex_at with_butex]. rewrite !insert_at, !decide_True by done.
  split_and!; try done; try lia.
  intros b' Hb. by rewrite insert_at, decide_False.
Qed.

(** [butex_destruct] comes back only through a load of [unlock_nref]
    that saw 0; the fence and the destructor are what it does last. *)
Lemma butex_destruct_spin_sees_zero env b :
  forall first s s1,
  butex_destruct_spin env b first s = Some s1 -> unlock_nref (butex_at s1 b) = 0.
Proof.
  induction env as [|f env IH]; intros first s s1; cbn; case_decide; try done.
  - intros [= <-]. by destruct (decide (unlock_nref (butex_at s b) = 0)).
  - apply IH.
  - intros [= <-]. by destruct (decide (unlock_nref (butex_at s b) = 0)).
Qed.

Lemma butex_destruct_waits env b s s' :
  butex_destruct env (Some b) s = Some s' ->
  exists s1, unlock_nref (butex_at s1 b) = 0 /\
    s' = note (Butex_destructor b) (note atomic_thread_fence_acquire s1) /\
    (unlock_nref (butex_at s b) = 0 -> s1 = s).
Proof.
  unfold butex_destruct.
  destruct (butex_destruct_spin env b true s) as [s1|] eqn:Hspin; [|done].
  intros [= <-]. exists s1. split_and!; [|done|].
  - by eapply butex_destruct_spin_sees_zero.
  - intros Hz. destruct env; cbn in Hspin; rewrite decide_False in Hspin by lia;
      congruence.
Qed.

(** [butex_destroy] does not look at [unlock_nref] at all. *)
Lemma butex_destroy_at_once p s :
  butex_destroy (Some p) s
  = note (operator_delete (container_of_value p))
      (note (Butex_destructor (container_of_value p)) s).
Proof. reflexivity. Qed.

(** ** No lost wake-up *)

(** *** The flag system, explored *)

Lemma explored_all k : explored_on k (reached k) = true.
Proof. destruct k as [[] [] [] []]; vm_compute; reflexivity. Qed.

Lemma reach_grows k n : forall l a, a ∈ l -> a ∈ reach k n l.
Proof.
  induction n as [|n IH]; intros l a Ha; cbn; [done|].
  apply IH. rewrite elem_of_remove_dups, elem_of_app. by left.
Qed.

Lemma astart_reached k : astart ∈ reached k.
Proof. unfold reached. apply reach_grows, list_elem_of_here. Qed.

Lemma explored_on_facts k l a :
  explored_on k l = true -> a ∈ l ->
  (forall t, match amove k t a with
             | Goes a' => a' ∈ l
             | Stuck => True
             | Unforeseen => False
             end) /\
  (aquiescent k a = true -> asettled k a = true) /\
  aquiescent k (arun k closing a) = true.
Proof.
  unfold explored_on. intros He Ha.
  rewrite forallb_forall in He. apply list_elem_of_In in Ha.
  specialize (He a Ha). clear Ha.
  generalize dependent (arun k closing a). intros a2 He.
  apply andb_prop in He as [He Hclose]. apply andb_prop in He as [Hmoves Hq].
  split; [|split; [|exact Hclose]].
  - cbn [forallb] in Hmoves.
    apply andb_prop in Hmoves as [H1 H2]. apply andb_prop in H2 as [H2 _].
    intros []; [destruct (amove k Waker a) | destruct (amove k Waiter a)];
      try exact I; try discriminate;
      [by apply bool_decide_eq_true in H1 | by apply bool_decide_eq_true in H2].
  - intros Hqa. rewrite Hqa in Hq. exact Hq.
Qed.

Lemma reached_facts k a :
  a ∈ reached k ->
  (forall t, match amove k t a with
             | Goes a' => a' ∈ reached k
             | Stuck => True
             | Unforeseen => False
             end) /\
  (aquiescent k a = true -> asettled k a = true) /\
  aquiescent k (arun k closing a) = true.
Proof. exact (explored_on_facts k (reached k) a (explored_all k)). Qed.

Lemma arun_reached k sched : forall a, a ∈ reached k -> arun k sched a ∈ reached k.
Proof.
  induction sched as [|t sched IH]; intros a Ha; [exact Ha|].
  cbn [arun foldl]. apply IH.
  destruct (reached_facts k a Ha) as (Hmove & _). specialize (Hmove t).
  destruct (amove k t a); [exact Ha | exact Hmove | destruct Hmove].
Qed.

Lemma arun_app k l1 l2 a : arun k (l1 ++ l2) a = arun k l2 (arun k l1 a).
Proof. apply foldl_app. Qed.

(** *** Reading the trace *)

Lemma existsb_drop_snoc (f : Event -> bool) n l e :
  (n <= length l)%nat ->
  existsb f (drop n (l ++ [e])) = existsb f (drop n l) || f e.
Proof.
  intros Hn. rewrite drop_app_le by done. rewrite existsb_app. cbn.
  by rewrite orb_false_r.
Qed.

Lemma existsb_drop_all (f : Event -> bool) l : existsb f (drop (length l) l) = false.
Proof. by rewrite drop_all. Qed.

(** *** The flags follow the store *)

Section TwoThreadsFacts.

Variables tlsA tlsB : option ptr.
Variable h : ptr.
Variables v v' : Z.
Variables bbw pw : ptr.
Variable s0 : State.

(** A stores a value other than the one B expects, and a bthread has a
    tid other than 0. *)
Hypothesis new_value : v' <> v.
Hypothesis bthread_has_tid : pathB tlsB s0 = Bthread -> tidB tlsB s0 <> 0.

Local Abbreviation b := (container_of_value h).
Local Abbreviation k := (setting tlsB h v s0).
Local Abbreviation w := (waiterB tlsB bbw pw s0).
Local Abbreviation reads' := (reads tlsB h v v' bbw pw s0).
Local Abbreviation reads_pcB' := (reads_pcB tlsB h v bbw pw s0).
Local Abbreviation step' := (step tlsA tlsB h v v' bbw pw).

Lemma same_for_B_fields s s' x :
  same_for_B s s' ->
  let W := waiter_at s x in
  let W' := waiter_at s' x in
  tid W' = tid W /\ sleep_id W' = sleep_id W /\ task_meta W' = task_meta W /\
  waiter_state W' = waiter_state W /\ expected_value W' = expected_value W /\
  initial_butex W' = initial_butex W /\ sig W' = sig W /\ control W' = control W.
Proof.
  intros (Hw & _). specialize (Hw x). cbv zeta.
  destruct (waiter_at s x), (waiter_at s' x). cbn in *. by simplify_eq.
Qed.

Lemma reads_pcB_same_for_B c a s' pcA' eA' a' :
  same_for_B (mem c) s' ->
  apcB a' = apcB a -> sigset a' = sigset a ->
  reads_pcB' c a ->
  reads_pcB' (mkSys s' pcA' (pcB c) eA' (errnoB c)) a'.
Proof.
  intros Hsame HB Hsig. unfold reads_pcB. rewrite HB. cbn [mem pcB].
  pose proof (same_for_B_fields (mem c) s' bbw Hsame) as (H1 & H2 & H3 & H4 & H5 & H6 & _).
  pose proof (same_for_B_fields (mem c) s' pw Hsame) as (P1 & _ & _ & _ & _ & _ & P7 & _).
  destruct Hsame as (_ & Htask & Htrace).
  assert (Hrec : forall st, bthread_record tlsB h v bbw s0 (mem c) st ->
                            bthread_record tlsB h v bbw s0 s' st).
  { intros st. unfold bthread_record. cbv zeta. rewrite H1, H2, H3, H4, H5, H6, Htask.
    done. }
  destruct (apcB a) as [| | |ready cnc|p|rc|rc]; try done.
  - intros (g & ? & ? & ?). eauto.
  - intros (n & ? & ? & ? & ?). exists n. unfold resumed_since in *.
    rewrite Htrace. eauto.
  - intros (wpc & ? & Hwp & Hrecp). exists wpc. split_and!; [done| |].
    + destruct p; try done. destruct Hwp as (n & ? & ? & ?). exists n.
      unfold futex_woken_since in *. rewrite Htrace. done.
    + unfold pthread_record in *. cbv zeta. by rewrite P1, P7, Hsig, Htask.
  - by rewrite Htask.
Qed.

Lemma same_for_B_refl s : same_for_B s s.
Proof. done. Qed.

Lemma same_for_B_trans s1 s2 s3 :
  same_for_B s1 s2 -> same_for_B s2 s3 -> same_for_B s1 s3.
Proof.
  intros (H1 & H2 & H3) (H1' & H2' & H3'). split_and!; congruence.
Qed.

Lemma same_for_B_set_errno e s : same_for_B s (set_errno e s).
Proof. done. Qed.

Lemma same_for_B_with_butex x f s : same_for_B s (with_butex x f s).
Proof. done. Qed.

Lemma same_for_B_pop x s :
  same_for_B s (with_waiter x (set_container None) (RemoveFromList x s)).
Proof.
  split_and!; try done. intros y. rewrite waiter_at_with_waiter.
  by case_decide; subst.
Qed.

(** Opens [reads] into its seven parts. *)
Ltac reads_split :=
  unfold reads; cbn [mem pcA errnoB apcA stored queued errB];
  refine (conj _ (conj _ (conj _ (conj _ (conj _ (conj _ _)))))).

Lemma reads_pcB_event c a e s' pcA' eA' a' :
  waiter_at s' = waiter_at (mem c) -> task_at s' = task_at (mem c) ->
  trace s' = trace (mem c) ++ [e] ->
  apcB a' = bump (tidB tlsB s0) pw e (apcB a) -> sigset a' = sigset a ->
  reads_pcB' c a ->
  reads_pcB' (mkSys s' pcA' (pcB c) eA' (errnoB c)) a'.
Proof.
  intros Hw Htask Htrace HB Hsig. unfold reads_pcB. rewrite HB. cbn [mem pcB].
  assert (Hrec : forall st, bthread_record tlsB h v bbw s0 (mem c) st ->
                            bthread_record tlsB h v bbw s0 s' st).
  { intros st. unfold bthread_record. cbv zeta. by rewrite Hw, Htask. }
  assert (Hlen : forall n, (n <= length (trace (mem c)))%nat ->
                           (n <= length (trace s'))%nat).
  { intros n Hn. rewrite Htrace, length_app. lia. }
  destruct (apcB a) as [| | |ready cnc|p|rc|rc]; cbn [bump]; try done.
  - intros (g & ? & ? & ?). eauto.
  - intros (n & ? & Hn & Hr & ?). exists n. split_and!; auto.
    unfold resumed_since in *. by rewrite Htrace, existsb_drop_snoc, Hr.
  - intros (wpc & ? & Hwp & Hrecp).
    assert (Hrecp' : pthread_record tlsB pw s0 s' a').
    { unfold pthread_record in *. cbv zeta. by rewrite Hw, Hsig, Htask. }
    destruct p; try by (exists wpc).
    destruct Hwp as (n & ? & Hn & Hr). exists wpc. split_and!; [done| |done].
    exists n. split_and!; auto.
    unfold futex_woken_since in *. by rewrite Htrace, existsb_drop_snoc, Hr.
  - by rewrite Htask.
Qed.

(** What the path says about B. *)
Lemma on_bthread_path :
  pathB tlsB s0 = Bthread ->
  w = bbw /\ tidB tlsB s0 <> 0 /\
  exists g, tlsB = Some g /\ is_current_pthread_task (group_at s0 g) = false /\
    tidB tlsB s0 = current_tid (group_at s0 g) /\
    taskB tlsB s0 = current_task (group_at s0 g).
Proof.
  intros Hp. split_and!; [by unfold waiterB; rewrite Hp | by apply bthread_has_tid |].
  unfold pathB, tidB, taskB in *. destruct tlsB as [g|]; [|done].
  exists g. by destruct (is_current_pthread_task (group_at s0 g)).
Qed.

Lemma off_bthread_path :
  pathB tlsB s0 <> Bthread ->
  w = pw /\ tidB tlsB s0 = 0 /\
  match tlsB with
  | Some g => is_current_pthread_task (group_at s0 g) = true
  | None => True
  end.
Proof.
  intros Hp. unfold waiterB, pathB, tidB in *. destruct tlsB as [g|]; [|done].
  by destruct (is_current_pthread_task (group_at s0 g)).
Qed.

(** A's turn. *)
Lemma sim_waker c a :
  reads' c a ->
  match amove_waker k a with
  | Unforeseen => True
  | Stuck => step' Waker c = None
  | Goes a' => exists c', step' Waker c = Some c' /\ reads' c' a'
  end.
Proof.
  intros (Hg & Hfl & Hval & Hq & HpA & Herr & HpB).
  unfold amove_waker, step. rewrite HpA.
  destruct (apcA a) eqn:HA; cbn [concrete_pcA waker_step].
  - (* the store *)
    eexists; split; [done|]. reads_split.
    + done.
    + done.
    + cbn. by rewrite insert_at, decide_True.
    + cbn. rewrite insert_at, decide_True by done. done.
    + done.
    + done.
    + by eapply reads_pcB_same_for_B with (a := a).
  - (* the locked block of butex_wake *)
    unfold butex_wake_locked. cbn [butex_at set_errno]. rewrite Hq.
    destruct (queued a) eqn:Hqa.
    + eexists; split; [done|]. reads_split.
      * done.
      * done.
      * done.
      * rewrite butex_at_with_waiter, waiters_RemoveFromList. cbn [butex_at set_errno].
        rewrite Hq, filter_cons_False by (intros ?; done). done.
      * done.
      * done.
      * eapply reads_pcB_same_for_B with (a := a); try done.
        eapply same_for_B_trans; [apply same_for_B_set_errno | apply same_for_B_pop].
    + eexists; split; [done|]. unfold at_A. reads_split.
      * done.
      * done.
      * done.
      * by rewrite Hqa.
      * done.
      * done.
      * by eapply reads_pcB_same_for_B with (a := a).
  - (* the dispatch *)
    change (path k) with (pathB tlsB s0).
    pose proof on_bthread_path as Hon. pose proof off_bthread_path as Hoff.
    destruct (pathB tlsB s0) eqn:Hp.
    + destruct (Hon eq_refl) as (Hw & Htid & _).
      destruct (apcB a) as [| | |ready cnc| | |] eqn:HB; try done.
      unfold reads_pcB in HpB. rewrite HB in HpB.
      destruct HpB as (n & HpcB & Hn & Hr & Hrec).
      pose proof Hrec as (Ht & Hsl & _).
      rewrite Hw. cbn [waiter_at set_errno]. rewrite Ht, decide_False by done.
      eexists; split; [done|].
      unfold resume_bthread, unsleep_if_necessary. cbn [waiter_at set_errno].
      rewrite Hsl, decide_True by done. cbn [snd].
      set (e := match tlsA with
                | Some g => TaskGroup_exchange g (tid (waiter_at (mem c) bbw))
                | None => ready_to_run
                            (choose_one_group (control (waiter_at (mem c) bbw)))
                            (tid (waiter_at (mem c) bbw))
                end).
      replace (match tlsA with
               | Some g => call (TaskGroup_exchange g _) _
               | None => call _ _
               end) with (call e (set_errno (errnoA c) (mem c)))
        by (subst e; by destruct tlsA).
      assert (He : makes_ready (tidB tlsB s0) e = true).
      { subst e. destruct tlsA; cbn; by rewrite Ht, bool_decide_eq_true_2. }
      reads_split.
      * done.
      * done.
      * done.
      * done.
      * cbn. by rewrite Hw.
      * done.
      * eapply reads_pcB_event with (e := e) (a := a); try done.
        -- cbn [apcB]. rewrite HB. cbn [bump]. by rewrite He, orb_true_r.
        -- unfold reads_pcB. rewrite HB. eauto 10.
    + destruct Hoff as (Hw & Htid & _); [done|].
      destruct (apcB a) as [| | | |p| |] eqn:HB; try done.
      unfold reads_pcB in HpB. rewrite HB in HpB.
      destruct HpB as (wpc & HpcB & Hwp & Ht & Hsig & Hcw).
      rewrite Hw. cbn [waiter_at set_errno]. rewrite Ht, decide_True by done.
      eexists; split; [done|]. reads_split.
      * done.
      * done.
      * done.
      * done.
      * cbn. by rewrite Hw.
      * done.
      * unfold reads_pcB. cbn [apcB mem pcB]. rewrite ?HB. exists wpc.
        split_and!; [done| |].
        -- by destruct p.
        -- unfold pthread_record. cbv zeta. cbn [sigset].
           rewrite waiter_at_with_waiter_eq. done.
    + destruct Hoff as (Hw & Htid & _); [done|].
      destruct (apcB a) as [| | | |p| |] eqn:HB; try done.
      unfold reads_pcB in HpB. rewrite HB in HpB.
      destruct HpB as (wpc & HpcB & Hwp & Ht & Hsig & Hcw).
      rewrite Hw. cbn [waiter_at set_errno]. rewrite Ht, decide_True by done.
      eexists; split; [done|]. reads_split.
      * done.
      * done.
      * done.
      * done.
      * cbn. by rewrite Hw.
      * done.
      * unfold reads_pcB. cbn [apcB mem pcB]. rewrite ?HB. exists wpc.
        split_and!; [done| |].
        -- by destruct p.
        -- unfold pthread_record. cbv zeta. cbn [sigset].
           rewrite waiter_at_with_waiter_eq. done.
  - (* the futex wake *)
    change (path k) with (pathB tlsB s0).
    assert (Hev : pathB tlsB s0 <> Bthread -> forall a',
      apcB a' = bump (tidB tlsB s0) pw (futex_wake_private pw 1) (apcB a) ->
      sigset a' = sigset a -> stored a' = stored a -> queued a' = queued a ->
      errB a' = errB a -> apcA a' = aA_done 1 ->
      exists c', step' Waker c = Some c' /\ reads' c' a').
    { intros Hp a' E1 E2 E3 E4 E5 E6.
      destruct (off_bthread_path Hp) as (Hw & Htid & _).
      unfold step. rewrite HpA. cbn [concrete_pcA waker_step].
      eexists; split; [done|]. reads_split.
      - done.
      - done.
      - by rewrite E3.
      - by rewrite E4.
      - rewrite E6. cbn. by rewrite decide_False by done.
      - by rewrite E5.
      - eapply reads_pcB_event with (e := futex_wake_private pw 1) (a := a);
          try done. by rewrite Hw. }
    unfold step in Hev. rewrite HpA in Hev. cbn [concrete_pcA waker_step] in Hev.
    clear new_value bthread_has_tid.
    destruct (pathB tlsB s0) eqn:Hp; [done| |].
    all: destruct (apcB a) as [| | | |[]| |] eqn:HB; try done;
         apply Hev; cbn [apcB at_A sigset stored queued errB apcA]; try done;
         rewrite ?HB; cbn [bump]; try done;
         by rewrite bool_decide_eq_true_2, orb_true_r.
  - done.
Qed.

(** B's turn, one place of its program at a time. *)

Lemma value_test c a :
  reads' c a ->
  forall e, value (butex_at (set_errno e (mem c)) b) = v <-> value_is_v k a = true.
Proof.
  intros (_ & _ & Hval & _) e. cbn [butex_at set_errno]. rewrite Hval.
  unfold value_is_v. cbn [match0 setting]. destruct (stored a); cbn.
  - split; [by intros ?%new_value | done].
  - by rewrite bool_decide_eq_true.
Qed.

Lemma flags_with_task s t0 x :
  (forall t, stop (task_at s t) = stop (task_at s0 t) /\
             interruptible (task_at s t) = interruptible (task_at s0 t)) ->
  forall t, stop (task_at (with_task t0 (set_current_waiter x) s) t) = stop (task_at s0 t) /\
            interruptible (task_at (with_task t0 (set_current_waiter x) s) t)
            = interruptible (task_at s0 t).
Proof.
  intros Hfl t. cbn. rewrite insert_at. case_decide; subst; apply Hfl.
Qed.

Lemma current_waiter_with_task s t x :
  current_waiter (task_at (with_task t (set_current_waiter x) s) t) = x.
Proof. cbn. rewrite insert_at. by destruct (decide (t = t)). Qed.

Lemma sim_B_start c a :
  reads' c a -> apcB a = aB_start ->
  match amove_waiter k a with
  | Unforeseen => True
  | Stuck => step' Waiter c = None
  | Goes a' => exists c', step' Waiter c = Some c' /\ reads' c' a'
  end.
Proof.
  intros Hr HB. pose proof (value_test c a Hr (errnoB c)) as Hvt.
  destruct Hr as (Hg & Hfl & Hval & Hq & HpA & Herr & HpB).
  unfold reads_pcB in HpB. rewrite HB in HpB.
  unfold amove_waiter, step. rewrite HB, HpB. cbn [waiter_step].
  destruct (value_is_v k a) eqn:Hv.
  - rewrite decide_False by (intros Hne; by apply Hne, Hvt).
    eexists; split; [done|]. unfold at_B. by reads_split.
  - rewrite decide_True by (intros Heq%Hvt; done).
    eexists; split; [done|]. unfold at_B. reads_split; try done.
    by intros e [= <-].
Qed.

Lemma step_waiter_eq c :
  step' Waiter c
  = match waiter_step tlsB h v bbw pw (pcB c) (set_errno (errnoB c) (mem c)) with
    | Some (pc, s) => Some (mkSys s (pcA c) pc (errnoA c) (errno s))
    | None => None
    end.
Proof. reflexivity. Qed.

(** The block of [butex_wait_from_pthread] under the lock, entered with
    the pthread record initialised. *)
Lemma sim_B_locked c a s2 :
  reads' c a -> pathB tlsB s0 <> Bthread ->
  butex_at s2 = butex_at (mem c) -> group_at s2 = group_at s0 ->
  (forall t, stop (task_at s2 t) = stop (task_at s0 t) /\
             interruptible (task_at s2 t) = interruptible (task_at s0 t)) ->
  tid (waiter_at s2 pw) = 0 -> sig (waiter_at s2 pw) = NOT_SIGNALLED ->
  (set_waiter_local tlsB s0 = true ->
     current_waiter (task_at s2 (taskB tlsB s0)) = Some pw) ->
  errno s2 = errnoB c ->
  let r := if decide (value (butex_at s2 b) = v)
           then (Sleeping pw (task_local tlsB s0) (set_waiter_local tlsB s0),
                 add_waiter_count 1
                   (with_waiter pw (set_container (Some b)) (Append b pw s2)))
           else (Leaving (task_local tlsB s0) (set_waiter_local tlsB s0) (-1),
                 set_errno EWOULDBLOCK s2) in
  match (if queued a then Unforeseen
         else if value_is_v k a
              then Goes (mkAbs (apcA a) (aB_wp aWp_call) (stored a) true false (errB a))
              else Goes (at_B (aB_leaving (-1)) (Some EWOULDBLOCK) a)) with
  | Unforeseen => True
  | Stuck => False
  | Goes a' =>
      reads' (mkSys (snd r) (pcA c) (after_outcome (fst r)) (errnoA c) (errno (snd r))) a'
  end.
Proof.
  intros Hr Hp Hb2 Hg2 Hfl2 Ht2 Hs2 Hcw2 He2.
  pose proof (value_test c a Hr (errnoB c)) as Hvt.
  cbn [butex_at set_errno] in Hvt. rewrite <- Hb2 in Hvt.
  destruct Hr as (Hg & Hfl & Hval & Hq & HpA & Herr & HpB).
  destruct (off_bthread_path Hp) as (Hw & _).
  destruct (queued a) eqn:Hqa; [done|].
  destruct (value_is_v k a) eqn:Hv.
  - rewrite decide_True by by apply Hvt.
    cbn [fst snd after_outcome]. reads_split; try done.
    + cbn [butex_at add_waiter_count]. rewrite butex_at_with_waiter. cbn.
      rewrite insert_at. case_decide; [|done]. cbn. by rewrite Hb2.
    + cbn [butex_at add_waiter_count].
      rewrite butex_at_with_waiter, waiters_Append, decide_True, Hb2, Hq, Hw by done.
      done.
    + intros e He. cbn. rewrite He2. by apply Herr.
    + unfold reads_pcB. cbn [apcB mem pcB]. eexists. split_and!; [done|done|].
      unfold pthread_record. cbv zeta. cbn [sigset waiter_at add_waiter_count task_at].
      rewrite waiter_at_with_waiter_eq. cbn. done.
  - rewrite decide_False by (intros Heq%Hvt; done).
    cbn [fst snd after_outcome]. unfold at_B. reads_split; try done.
    + cbn. by rewrite Hb2.
    + cbn. by rewrite Hb2, Hq, Hqa.
    + by intros e [= <-].
Qed.

Lemma sim_B_checked c a :
  reads' c a -> apcB a = aB_checked ->
  match amove_waiter k a with
  | Unforeseen => True
  | Stuck => step' Waiter c = None
  | Goes a' => exists c', step' Waiter c = Some c' /\ reads' c' a'
  end.
Proof.
  intros Hr HB.
  pose proof (sim_B_locked c a) as Hlocked. specialize (fun s2 => Hlocked s2 Hr).
  pose proof on_bthread_path as Hon. pose proof off_bthread_path as Hoff.
  destruct Hr as (Hg & Hfl & Hval & Hq & HpA & Herr & HpB).
  unfold reads_pcB in HpB. rewrite HB in HpB.
  rewrite step_waiter_eq, HpB. unfold amove_waiter. rewrite HB.
  cbn [waiter_step]. cbv zeta in Hlocked.
  set (L := if queued a then Unforeseen else _) in *.
  change (path k) with (pathB tlsB s0).
  change (intrB k) with (interruptible (task_at s0 (taskB tlsB s0))).
  change (stopB k) with (stop (task_at s0 (taskB tlsB s0))).
  set (s := set_errno (errnoB c) (mem c)).
  set (s1 := with_waiter pw (fun W => set_sig NOT_SIGNALLED (set_tid 0 W)) s).
  assert (Hs1 : butex_at s1 = butex_at (mem c) /\ group_at s1 = group_at s0 /\
                (forall t, stop (task_at s1 t) = stop (task_at s0 t) /\
                   interruptible (task_at s1 t) = interruptible (task_at s0 t)) /\
                tid (waiter_at s1 pw) = 0 /\ sig (waiter_at s1 pw) = NOT_SIGNALLED /\
                errno s1 = errnoB c).
  { subst s1 s. split_and!; try done; by rewrite waiter_at_with_waiter_eq. }
  destruct Hs1 as (Hb1 & Hg1 & Hfl1 & Ht1 & Hsig1 & He1).
  unfold butex_wait_checked, butex_wait_from_pthread_enter.
  fold s. fold s1.
  unfold pathB, taskB, task_local, set_waiter_local in *.
  destruct tlsB as [g|].
  - change (group_at s g) with (group_at (mem c) g). rewrite Hg.
    destruct (is_current_pthread_task (group_at s0 g)) eqn:Hpt.
    + (* a task in pthread mode *)
      change (group_at s1 g) with (group_at (mem c) g). rewrite Hg.
      destruct (Hfl1 (current_task (group_at s0 g))) as [-> ->].
      destruct (interruptible (task_at s0 (current_task (group_at s0 g)))) eqn:Hi.
      * destruct (stop (task_at s0 (current_task (group_at s0 g)))) eqn:Hst.
        -- eexists; split; [done|]. cbn [after_outcome]. unfold at_B.
           reads_split; try done. by intros e [= <-].
        -- match goal with
           | |- context [with_task ?t ?f s1] =>
               specialize (Hlocked (with_task t f s1))
           end.
           destruct L; try done.
           ++ exfalso. apply Hlocked; try done.
              ** by apply flags_with_task.
              ** intros _. unfold taskB. apply current_waiter_with_task.
           ++ eexists. split; [|apply Hlocked; try done].
              ** unfold taskB. rewrite Hi. by destruct (decide _).
              ** by apply flags_with_task.
              ** intros _. unfold taskB. apply current_waiter_with_task.
      * specialize (Hlocked s1).
        assert (Hnot : interruptible (task_at s0 (taskB (Some g) s0)) = true ->
                       current_waiter (task_at s1 (taskB (Some g) s0)) = Some pw).
        { unfold taskB. by rewrite Hi. }
        destruct L; try done.
        -- exfalso. by apply Hlocked.
        -- eexists. split; [|by apply Hlocked]. unfold taskB. rewrite Hi.
           by destruct (decide _).
    + (* a bthread *)
      destruct (Hon eq_refl) as (Hw & Htid & g' & [= <-] & _).
      eexists; split; [done|]. cbn [after_outcome]. unfold at_B.
      reads_split; try done.
      * by apply flags_with_task.
      * unfold reads_pcB. cbn [apcB mem pcB]. exists g. split_and!; try done.
        unfold bthread_record, tidB, taskB. cbv zeta. rewrite Hpt.
        cbn [waiter_at task_at call with_task add_waiter_count].
        rewrite !waiter_at_with_waiter_eq. cbn.
        split_and!; try done. rewrite insert_at. by destruct (decide _).
  - specialize (Hlocked s1).
    destruct L; try done.
    + exfalso. by apply Hlocked.
    + eexists. split; [|by apply Hlocked]. by destruct (decide _).
Qed.

Lemma unsleep_if_necessary_idle x s :
  sleep_id (waiter_at s x) = 0 -> unsleep_if_necessary x s = (0, s).
Proof. intros Hs. unfold unsleep_if_necessary. by rewrite decide_True. Qed.

Lemma sim_B_remained c a :
  reads' c a -> apcB a = aB_remained ->
  match amove_waiter k a with
  | Unforeseen => True
  | Stuck => step' Waiter c = None
  | Goes a' => exists c', step' Waiter c = Some c' /\ reads' c' a'
  end.
Proof.
  intros Hr HB. pose proof (value_test c a Hr (errnoB c)) as Hvt.
  pose proof on_bthread_path as Hon.
  destruct Hr as (Hg & Hfl & Hval & Hq & HpA & Herr & HpB).
  unfold reads_pcB in HpB. rewrite HB in HpB.
  destruct HpB as (g & Htls & HpcB & Hrec).
  pose proof Hrec as (Ht & Hsl & Htm & Hst & Hex & Hib & Hcw).
  rewrite step_waiter_eq, HpcB. unfold amove_waiter. rewrite HB.
  cbn [waiter_step].
  change (path k) with (pathB tlsB s0).
  change (intrB k) with (interruptible (task_at s0 (taskB tlsB s0))).
  change (stopB k) with (stop (task_at s0 (taskB tlsB s0))).
  destruct (pathB tlsB s0) eqn:Hp; try done.
  destruct (Hon eq_refl) as (Hw & Htid & _).
  destruct (queued a) eqn:Hqa; [done|].
  set (s := set_errno (errnoB c) (mem c)).
  destruct (Hfl (taskB tlsB s0)) as [Hstop Hintr].
  unfold wait_for_butex.
  change (waiter_at s bbw) with (waiter_at (mem c) bbw).
  change (task_at s) with (task_at (mem c)).
  rewrite Hib, Hex, Htm, Hst, Hstop, Hintr.
  replace (bool_decide (value (butex_at s b) = v)) with (value_is_v k a).
  2:{ symmetry. destruct (value_is_v k a).
      - by apply bool_decide_eq_true_2, Hvt.
      - apply bool_decide_eq_false_2. by intros ?%Hvt. }
  rewrite (bool_decide_eq_true_2 (WAITER_STATE_NONE <> WAITER_STATE_TIMEDOUT)) by done.
  rewrite andb_true_r.
  destruct (value_is_v k a && _).
  - (* queued *)
    eexists; split; [done|]. reads_split.
    + done.
    + done.
    + rewrite butex_at_with_waiter. cbn. rewrite insert_at.
      by destruct (decide _).
    + rewrite butex_at_with_waiter, waiters_Append, decide_True by done.
      change (butex_at s) with (butex_at (mem c)). by rewrite Hq, Hw.
    + done.
    + done.
    + unfold reads_pcB. cbn [apcB mem pcB]. eexists. split_and!; [done| | |].
      * done.
      * unfold resumed_since. cbn [trace with_waiter Append with_butex].
        apply existsb_drop_all.
      * unfold bthread_record. cbv zeta. rewrite waiter_at_with_waiter_eq. done.
  - (* not queued: the task is made ready again *)
    rewrite unsleep_if_necessary_idle by done. cbn [snd].
    change (waiter_at s bbw) with (waiter_at (mem c) bbw).
    rewrite Hst. rewrite (decide_True (P := WAITER_STATE_NONE <> WAITER_STATE_TIMEDOUT))
      by done.
    rewrite waiter_at_with_waiter_eq. cbn [tid set_waiter_state].
    change (waiter_at s bbw) with (waiter_at (mem c) bbw). rewrite Ht.
    eexists; split; [done|]. unfold at_B. reads_split.
    + done.
    + done.
    + done.
    + by rewrite Hqa.
    + done.
    + done.
    + unfold reads_pcB. cbn [apcB mem pcB]. eexists. split_and!; [done| | |].
      * cbn. rewrite length_app. lia.
      * unfold resumed_since. cbn [trace call with_waiter set_errno].
        rewrite drop_app_le, drop_all by done. cbn.
        by rewrite bool_decide_eq_true_2.
      * unfold bthread_record. cbv zeta. cbn [waiter_at task_at call].
        rewrite waiter_at_with_waiter_eq. done.
Qed.

Lemma sim_B_suspended c a ready cnc :
  reads' c a -> apcB a = aB_suspended ready cnc ->
  match amove_waiter k a with
  | Unforeseen => True
  | Stuck => step' Waiter c = None
  | Goes a' => exists c', step' Waiter c = Some c' /\ reads' c' a'
  end.
Proof.
  intros Hr HB.
  destruct Hr as (Hg & Hfl & Hval & Hq & HpA & Herr & HpB).
  unfold reads_pcB in HpB. rewrite HB in HpB.
  destruct HpB as (n & HpcB & Hn & Hready & Hrec).
  pose proof Hrec as (Ht & Hsl & Htm & Hst & Hex & Hib & Hcw).
  rewrite step_waiter_eq, HpcB. unfold amove_waiter. rewrite HB.
  cbn [waiter_step].
  change (stopB k) with (stop (task_at s0 (taskB tlsB s0))).
  set (s := set_errno (errnoB c) (mem c)).
  change (waiter_at s bbw) with (waiter_at (mem c) bbw). rewrite Ht.
  change (resumed_since n (tidB tlsB s0) s)
    with (resumed_since n (tidB tlsB s0) (mem c)).
  rewrite Hready. destruct ready; [|done].
  rewrite butex_wait_resume_returns; [|done|].
  2:{ change (task_at s) with (task_at (mem c)).
      change (waiter_at s bbw) with (waiter_at (mem c) bbw). by rewrite Htm, Hcw. }
  change (waiter_at s bbw) with (waiter_at (mem c) bbw). rewrite Htm.
  set (s2 := add_waiter_count (-1)
               (with_task (taskB tlsB s0) (set_current_waiter None) s)).
  assert (Hfl2 : forall t, stop (task_at s2 t) = stop (task_at s0 t) /\
                   interruptible (task_at s2 t) = interruptible (task_at s0 t)).
  { subst s2. cbn [task_at add_waiter_count]. by apply flags_with_task. }
  unfold butex_wait_result.
  change (waiter_at s2 bbw) with (waiter_at (mem c) bbw).
  rewrite Htm, Hst. destruct (Hfl2 (taskB tlsB s0)) as [-> _].
  destruct (stop (task_at s0 (taskB tlsB s0))).
  - eexists; split; [done|]. unfold at_B. reads_split; try done.
    by intros e [= <-].
  - destruct cnc.
    + rewrite decide_False by done. rewrite decide_True by done.
      eexists; split; [done|]. unfold at_B. reads_split; try done.
      by intros e [= <-].
    + rewrite decide_False by done. rewrite decide_False by done.
      eexists; split; [done|]. unfold at_B. by reads_split.
Qed.

Lemma sim_B_wp c a p :
  reads' c a -> apcB a = aB_wp p ->
  match amove_waiter k a with
  | Unforeseen => True
  | Stuck => step' Waiter c = None
  | Goes a' => exists c', step' Waiter c = Some c' /\ reads' c' a'
  end.
Proof.
  intros Hr HB.
  destruct Hr as (Hg & Hfl & Hval & Hq & HpA & Herr & HpB).
  unfold reads_pcB in HpB. rewrite HB in HpB.
  destruct HpB as (wpc & HpcB & Hwp & Hrec).
  pose proof Hrec as (Ht & Hsig & Hcw).
  rewrite step_waiter_eq, HpcB. unfold amove_waiter. rewrite HB.
  set (s := set_errno (errnoB c) (mem c)).
  assert (Hrec' : forall e a', sigset a' = sigset a ->
            pthread_record tlsB pw s0 (set_errno e s) a').
  { intros e a' Hs. unfold pthread_record. cbv zeta. by rewrite Hs. }
  destruct p as [|woken|rc|rc]; cbn [reads_wp] in Hwp.
  - (* the call of futex_wait *)
    subst wpc. cbn [waiter_step wait_pthread_step].
    change (waiter_at s pw) with (waiter_at (mem c) pw). rewrite Hsig.
    destruct (sigset a) eqn:Hss.
    + rewrite decide_True by done.
      eexists; split; [done|]. unfold at_B. reads_split; try done.
      * by intros e [= <-].
      * unfold reads_pcB. cbn [apcB mem pcB]. eexists. split_and!; [done|done|].
        apply Hrec'. cbn. done.
    + rewrite decide_False by (intros Hne; by apply Hne).
      eexists; split; [done|]. unfold at_B. reads_split; try done.
      unfold reads_pcB. cbn [apcB mem pcB]. eexists. split_and!; [done| |].
      * eexists. split_and!; [done|done|]. unfold futex_woken_since.
        apply existsb_drop_all.
      * unfold pthread_record. cbv zeta. cbn [sigset]. by rewrite Hss.
  - (* asleep in the kernel *)
    destruct Hwp as (n & -> & Hn & Hwoken).
    cbn [waiter_step wait_pthread_step].
    change (futex_woken_since n pw s) with (futex_woken_since n pw (mem c)).
    rewrite Hwoken. destruct woken; [|done].
    eexists; split; [done|]. unfold at_B. reads_split; try done.
    unfold reads_pcB. cbn [apcB mem pcB]. eexists. by split_and!.
  - (* back from futex_wait *)
    subst wpc. cbn [waiter_step wait_pthread_step].
    change (waiter_at s pw) with (waiter_at (mem c) pw). rewrite Hsig.
    destruct (sigset a) eqn:Hss; [|done].
    rewrite decide_True by done.
    eexists; split; [done|]. unfold at_B. reads_split; try done.
    unfold reads_pcB. cbn [apcB mem pcB]. eexists. split_and!; [done|done|].
    unfold pthread_record. cbv zeta. cbn [sigset]. by rewrite Hss.
  - (* wait_pthread has returned *)
    subst wpc. cbn [waiter_step].
    eexists; split; [done|]. unfold at_B. reads_split; try done.
Qed.

Lemma sim_B_leaving c a rc :
  reads' c a -> apcB a = aB_leaving rc ->
  match amove_waiter k a with
  | Unforeseen => True
  | Stuck => step' Waiter c = None
  | Goes a' => exists c', step' Waiter c = Some c' /\ reads' c' a'
  end.
Proof.
  intros Hr HB.
  destruct Hr as (Hg & Hfl & Hval & Hq & HpA & Herr & HpB).
  unfold reads_pcB in HpB. rewrite HB in HpB. destruct HpB as (HpcB & Hcw).
  rewrite step_waiter_eq, HpcB. unfold amove_waiter. rewrite HB.
  cbn [waiter_step].
  change (path k) with (pathB tlsB s0).
  change (stopB k) with (stop (task_at s0 (taskB tlsB s0))).
  set (s := set_errno (errnoB c) (mem c)).
  unfold butex_wait_from_pthread_leave, task_local, set_waiter_local, pathB in *.
  destruct tlsB as [g|].
  - destruct (is_current_pthread_task (group_at s0 g)); [|done].
    set (t := taskB (Some g) s0) in *.
    assert (Htake : exists s1,
      (if interruptible (task_at s0 t) then take_current_waiter [] t s else Some s)
      = Some s1 /\ errno s1 = errnoB c /\ butex_at s1 = butex_at (mem c) /\
      group_at s1 = group_at (mem c) /\
      forall t', stop (task_at s1 t') = stop (task_at s0 t') /\
                 interruptible (task_at s1 t') = interruptible (task_at s0 t')).
    { destruct (interruptible (task_at s0 t)).
      - cbn [take_current_waiter]. change (task_at s t) with (task_at (mem c) t).
        rewrite Hcw by done. eexists. split_and!; try done.
        by apply flags_with_task.
      - by exists s. }
    destruct Htake as (s1 & -> & He1 & Hb1 & Hg1 & Hfl1).
    destruct (Hfl1 t) as [-> _].
    destruct (stop (task_at s0 t)).
    + eexists; split; [done|]. unfold at_B.
      reads_split; cbn [group_at butex_at set_errno errno];
        rewrite ?Hg1, ?Hb1; try done.
      by intros e [= <-].
    + eexists; split; [done|]. unfold at_B.
      reads_split; cbn [group_at butex_at set_errno errno];
        rewrite ?Hg1, ?Hb1; try done.
      intros e He. rewrite He1. by apply Herr.
  - eexists; split; [done|]. unfold at_B. by reads_split.
Qed.

(** Every turn of either thread. *)
Lemma simulation t c a :
  reads' c a ->
  match amove k t a with
  | Unforeseen => True
  | Stuck => step' t c = None
  | Goes a' => exists c', step' t c = Some c' /\ reads' c' a'
  end.
Proof.
  intros Hr. destruct t; [by apply sim_waker|]. cbn [amove].
  destruct (apcB a) eqn:HB.
  - by apply sim_B_start.
  - by apply sim_B_checked.
  - by apply sim_B_remained.
  - by eapply sim_B_suspended.
  - by eapply sim_B_wp.
  - by eapply sim_B_leaving.
  - destruct Hr as (_ & _ & _ & _ & _ & _ & HpB).
    unfold reads_pcB in HpB. rewrite HB in HpB.
    unfold amove_waiter. rewrite HB. by rewrite step_waiter_eq, HpB.
Qed.

(** *** Every interleaving *)

(** The queue of the butex is empty when the two threads start. *)
Hypothesis no_waiters : waiters (butex_at s0 b) = [].

Local Abbreviation run' := (run tlsA tlsB h v v' bbw pw).
Local Abbreviation quiescent' := (quiescent tlsA tlsB h v v' bbw pw).

Lemma reads_start : reads' (start s0) astart.
Proof. unfold start, astart. by reads_split. Qed.

Lemma run_reads sched :
  forall c a, reads' c a -> a ∈ reached k ->
  reads' (run' sched c) (arun k sched a) /\ arun k sched a ∈ reached k.
Proof.
  induction sched as [|t sched IH]; intros c a Hr Ha; [done|].
  cbn [run arun foldl]. fold (run' sched) (arun k sched).
  pose proof (simulation t c a Hr) as Hsim.
  destruct (reached_facts k a Ha) as (Hmove & _). specialize (Hmove t).
  destruct (amove k t a) as [|a'|]; [| |done].
  - rewrite Hsim. by apply IH.
  - destruct Hsim as (c' & -> & Hr'). by apply IH.
Qed.

Lemma quiescent_reads c a :
  reads' c a -> a ∈ reached k -> (quiescent' c <-> aquiescent k a = true).
Proof.
  intros Hr Ha. unfold quiescent, aquiescent.
  pose proof (simulation Waker c a Hr) as HA.
  pose proof (simulation Waiter c a Hr) as HB.
  destruct (reached_facts k a Ha) as (Hmove & _).
  pose proof (Hmove Waker) as MA. pose proof (Hmove Waiter) as MB.
  destruct (amove k Waker a), (amove k Waiter a); try done;
    repeat match goal with H : exists _, _ |- _ => destruct H as (? & ? & ?) end;
    split; try done; intros [? ?]; congruence.
Qed.

Lemma settled_reads c a :
  reads' c a -> asettled k a = true -> settled (task_stopped tlsB s0) w c.
Proof.
  intros (_ & _ & _ & _ & HpA & Herr & HpB). unfold asettled, reads_pcB in *.
  destruct (apcA a) as [| | | |ra]; try done.
  destruct (apcB a) as [| | | | | |rb]; try done.
  intros Hs. exists ra, (if decide (ra = 0) then None else Some w), rb.
  split_and!; [done|done|].
  apply orb_prop in Hs as [Hs|Hs]; [apply orb_prop in Hs as [Hs|Hs]|].
  - apply andb_prop in Hs as [Hs H3]. apply andb_prop in Hs as [H1 H2].
    apply bool_decide_eq_true in H1, H2, H3. left. split_and!; try done.
    by apply Herr.
  - apply bool_decide_eq_true in Hs. right; left. split; [done|].
    by rewrite decide_False by lia.
  - apply andb_prop in Hs as [Hs H4]. apply andb_prop in Hs as [Hs H3].
    apply andb_prop in Hs as [H1 H2].
    apply bool_decide_eq_true in H2, H3, H4.
    right; right. split_and!; [|done|by apply Herr].
    revert H1 H2. cbn [stopB path setting]. unfold task_stopped, pathB, taskB.
    by destruct tlsB.
Qed.


End TwoThreadsFacts.

(** ** Reference counts *)

Lemma with_butex_call b f e s : call e (with_butex b f s) = with_butex b f (call e s).
Proof. reflexivity. Qed.

Lemma with_butex_unsleep b f w s :
  unsleep_if_necessary w (with_butex b f s)
  = (fst (unsleep_if_necessary w s), with_butex b f (snd (unsleep_if_necessary w s))).
Proof. unfold unsleep_if_necessary. cbn. by repeat case_decide. Qed.

Lemma with_butex_dispatch_front b f tls front s :
  dispatch_front tls front (with_butex b f s) = with_butex b f (dispatch_front tls front s).
Proof.
  unfold dispatch_front. cbn [waiter_at with_butex]. case_decide; [done|].
  unfold resume_bthread. rewrite with_butex_unsleep. cbn [snd]. by destruct tls.
Qed.

Lemma with_butex_wake_pthread_waiters b f l :
  forall n s,
  wake_pthread_waiters l n (with_butex b f s)
  = (fst (wake_pthread_waiters l n s), with_butex b f (snd (wake_pthread_waiters l n s))).
Proof.
  induction l as [|x l IH]; intros n s; [done|].
  cbn [wake_pthread_waiters]. apply (IH (n + 1) (wakeup_pthread x s)).
Qed.

Lemma with_butex_ready_nosignal_each b f g l :
  forall n s,
  ready_nosignal_each g l n (with_butex b f s)
  = (fst (ready_nosignal_each g l n s), with_butex b f (snd (ready_nosignal_each g l n s))).
Proof.
  induction l as [|x l IH]; intros n s; [done|].
  cbn [ready_nosignal_each]. rewrite with_butex_unsleep. cbn [snd].
  apply (IH (n + 1)
           (call (ready_to_run_nosignal g (tid (waiter_at (snd (unsleep_if_necessary x s)) x)))
                 (snd (unsleep_if_necessary x s)))).
Qed.

Lemma wrap32_int32 z : is_int32 z -> wrap32 z = z.
Proof.
  unfold is_int32, wrap32. intros H.
  rewrite Z.mod_small by lia. lia.
Qed.

Lemma wrap32_is_int32 z : is_int32 (wrap32 z).
Proof.
  unfold is_int32, wrap32.
  pose proof (Z.mod_pos_bound (z + 2 ^ 31) (2 ^ 32) ltac:(lia)). lia.
Qed.

Lemma wrap32_succ_pred z : is_int32 z -> wrap32 (wrap32 (z + 1) - 1) = z.
Proof.
  unfold is_int32, wrap32. intros H.
  destruct (decide (z = 2 ^ 31 - 1)) as [->|Hne]; [reflexivity|].
  rewrite (Z.mod_small (z + 1 + 2 ^ 31)) by lia.
  rewrite Z.mod_small by lia. lia.
Qed.

Lemma wrap32_pred_succ z : is_int32 z -> wrap32 (wrap32 (z - 1) + 1) = z.
Proof.
  unfold is_int32, wrap32. intros H.
  destruct (decide (z = - 2 ^ 31)) as [->|Hne]; [reflexivity|].
  rewrite (Z.mod_small (z - 1 + 2 ^ 31)) by lia.
  rewrite Z.mod_small by lia. lia.
Qed.

Lemma same_store_refl s : same_store s s.
Proof. by repeat split. Qed.

(** Putting back into [b] the butex it holds changes nothing. *)
Lemma same_store_with_butex b f s :
  f (butex_at s b) = butex_at s b -> same_store s (with_butex b f s).
Proof.
  intros Hf. repeat split. intros b'. cbn. rewrite insert_at.
  case_decide; by subst.
Qed.

Lemma with_butex_twice b f g s :
  same_store (with_butex b (fun B => g (f B)) s) (with_butex b g (with_butex b f s)).
Proof.
  repeat split. intros b'. cbn. rewrite !insert_at. case_decide; [|done].
  by rewrite decide_True.
Qed.

Lemma same_store_trans s1 s2 s3 : same_store s1 s2 -> same_store s2 s3 -> same_store s1 s3.
Proof.
  intros (A1 & A2 & A3 & A4 & A5 & A6 & A7) (B1 & B2 & B3 & B4 & B5 & B6 & B7).
  repeat split; intros; congruence.
Qed.

Lemma same_store_sym s1 s2 : same_store s1 s2 -> same_store s2 s1.
Proof. intros (A1 & A2 & A3 & A4 & A5 & A6 & A7). repeat split; intros; congruence. Qed.

Lemma same_store_call e s s' : same_store s s' -> same_store (call e s) (call e s').
Proof. intros (A1 & A2 & A3 & A4 & A5 & A6 & A7). repeat split; cbn; intros; congruence. Qed.

Lemma same_store_with_waiter w f s s' :
  same_store s s' -> same_store (with_waiter w f s) (with_waiter w f s').
Proof.
  intros (A1 & A2 & A3 & A4 & A5 & A6 & A7). repeat split; cbn; intros; try congruence.
  rewrite !insert_at. case_decide; congruence.
Qed.

Lemma same_store_with_butex_both b f s s' :
  same_store s s' -> same_store (with_butex b f s) (with_butex b f s').
Proof.
  intros (A1 & A2 & A3 & A4 & A5 & A6 & A7). repeat split; cbn; intros; try congruence.
  rewrite !insert_at. case_decide; congruence.
Qed.

Lemma same_store_RemoveFromList w s s' :
  same_store s s' -> same_store (RemoveFromList w s) (RemoveFromList w s').
Proof.
  intros (A1 & A2 & A3 & A4 & A5 & A6 & A7). repeat split; cbn; intros; congruence.
Qed.

Lemma same_store_unsleep w s s' :
  same_store s s' ->
  fst (unsleep_if_necessary w s') = fst (unsleep_if_necessary w s) /\
  same_store (snd (unsleep_if_necessary w s)) (snd (unsleep_if_necessary w s')).
Proof.
  intros Hs. pose proof Hs as (A1 & A2 & A3 & A4 & A5 & A6 & A7).
  unfold unsleep_if_necessary. rewrite A2, A7.
  repeat case_decide; cbn [fst snd]; split; try done.
  - by apply same_store_call.
  - by apply same_store_with_waiter, same_store_call.
Qed.

Lemma same_store_dispatch_front tls front s s' :
  same_store s s' -> same_store (dispatch_front tls front s) (dispatch_front tls front s').
Proof.
  intros Hs. pose proof Hs as (A1 & A2 & A3 & A4 & A5 & A6 & A7).
  unfold dispatch_front. rewrite A2. case_decide.
  - unfold wakeup_pthread. by apply same_store_call, same_store_with_waiter.
  - unfold resume_bthread.
    destruct (same_store_unsleep front s s' Hs) as [_ Hu].
    pose proof Hu as (_ & U2 & _).
    destruct tls; rewrite U2; by apply same_store_call.
Qed.

Lemma same_store_butex_wake tls arg s s' :
  same_store s s' ->
  fst (butex_wake tls arg s') = fst (butex_wake tls arg s) /\
  same_store (snd (butex_wake tls arg s)) (snd (butex_wake tls arg s')).
Proof.
  intros Hs. pose proof Hs as (A1 & _).
  unfold butex_wake, butex_wake_locked. rewrite A1.
  destruct (waiters (butex_at s (container_of_value arg))) as [|front rest]; [done|].
  cbn [fst snd]. split; [done|].
  by apply same_store_dispatch_front, same_store_with_waiter, same_store_RemoveFromList.
Qed.


Lemma remove_ref_after_add_ref arg s :
  is_int32 (unlock_nref (butex_at s (container_of_value arg))) ->
  same_store s (butex_remove_ref arg (butex_add_ref_before_wake arg s)).
Proof.
  intros Hn. unfold butex_remove_ref, butex_add_ref_before_wake.
  eapply same_store_trans; [|apply with_butex_twice].
  apply same_store_with_butex. cbn. rewrite wrap32_succ_pred by done.
  by destruct (butex_at s (container_of_value arg)).
Qed.

(** X1.  On a reference count within the range of an [int], a
    [butex_remove_ref] undoes a [butex_add_ref_before_wake] and the other
    way round, also at the two ends of the range, where the count wraps:
    the store is what it was.  Either call leaves the count an [int]. *)
Theorem unlock_nref_round_trip arg s :
  is_int32 (unlock_nref (butex_at s (container_of_value arg))) ->
  same_store s (butex_remove_ref arg (butex_add_ref_before_wake arg s)) /\
  same_store s (butex_add_ref_before_wake arg (butex_remove_ref arg s)) /\
  is_int32 (unlock_nref (butex_at (butex_add_ref_before_wake arg s) (container_of_value arg))) /\
  is_int32 (unlock_nref (butex_at (butex_remove_ref arg s) (container_of_value arg))).
Proof.
  intros Hn. refine (conj _ (conj _ (conj _ _))).
  - by apply remove_ref_after_add_ref.
  - unfold butex_remove_ref, butex_add_ref_before_wake.
    eapply same_store_trans; [|apply with_butex_twice].
    apply same_store_with_butex. cbn. rewrite wrap32_pred_succ by done.
    by destruct (butex_at s (container_of_value arg)).
  - cbn. rewrite insert_at, decide_True by done. cbn. apply wrap32_is_int32.
  - cbn. rewrite insert_at, decide_True by done. cbn. apply wrap32_is_int32.
Qed.

Lemma RemoveFromList_with_butex w b f s :
  (forall l B, f (set_waiters l B) = set_waiters l (f B)) ->
  (forall B, waiters (f B) = waiters B) ->
  same_store (with_butex b f (RemoveFromList w s)) (RemoveFromList w (with_butex b f s)).
Proof.
  intros Hf Hw. repeat split. intros b'. cbn. rewrite !insert_at.
  case_decide; [|done]. subst. by rewrite Hf, Hw.
Qed.

Lemma butex_wake_with_butex tls arg b f s :
  (forall l B, f (set_waiters l B) = set_waiters l (f B)) ->
  (forall B, waiters (f B) = waiters B) ->
  fst (butex_wake tls arg (with_butex b f s)) = fst (butex_wake tls arg s) /\
  same_store (with_butex b f (snd (butex_wake tls arg s)))
             (snd (butex_wake tls arg (with_butex b f s))).
Proof.
  intros Hf Hw. unfold butex_wake, butex_wake_locked.
  assert (Hq : waiters (butex_at (with_butex b f s) (container_of_value arg))
               = waiters (butex_at s (container_of_value arg))).
  { cbn. rewrite insert_at. case_decide; [|done]. subst. apply Hw. }
  rewrite Hq.
  destruct (waiters (butex_at s (container_of_value arg))) as [|front rest];
    cbn [fst snd]; [split; [done | apply same_store_refl]|].
  split; [done|]. rewrite <- with_butex_dispatch_front.
  apply same_store_dispatch_front.
  change (with_butex b f (with_waiter front (set_container None) (RemoveFromList front s)))
    with (with_waiter front (set_container None) (with_butex b f (RemoveFromList front s))).
  by apply same_store_with_waiter, RemoveFromList_with_butex.
Qed.


Lemma same_words_refl s : same_words s s.
Proof. by intros b. Qed.

Lemma same_words_trans s1 s2 s3 : same_words s1 s2 -> same_words s2 s3 -> same_words s1 s3.
Proof. intros H1 H2 b. destruct (H1 b), (H2 b). split; congruence. Qed.

(** Whatever leaves [butex_at] alone. *)
Lemma same_words_butex_at s s' : butex_at s' = butex_at s -> same_words s s'.
Proof. intros H b. by rewrite H. Qed.

Lemma same_words_with_butex b f s :
  (forall B, value (f B) = value B /\ unlock_nref (f B) = unlock_nref B) ->
  same_words s (with_butex b f s).
Proof.
  intros Hf b'. cbn. rewrite insert_at. case_decide; [|done]. subst. apply Hf.
Qed.

Lemma same_words_RemoveFromList w s : same_words s (RemoveFromList w s).
Proof. by intros b. Qed.

Lemma same_words_Append b w s : same_words s (Append b w s).
Proof. by apply same_words_with_butex. Qed.

Lemma butex_at_unsleep w s : butex_at (snd (unsleep_if_necessary w s)) = butex_at s.
Proof. unfold unsleep_if_necessary. by repeat case_decide. Qed.

Lemma butex_at_dispatch_front tls front s : butex_at (dispatch_front tls front s) = butex_at s.
Proof.
  unfold dispatch_front, resume_bthread, wakeup_pthread. case_decide; [done|].
  destruct tls; cbn; apply butex_at_unsleep.
Qed.

Lemma same_words_butex_wake tls arg s : same_words s (snd (butex_wake tls arg s)).
Proof.
  unfold butex_wake, butex_wake_locked.
  destruct (waiters (butex_at s (container_of_value arg))) as [|front rest];
    cbn [snd]; [apply same_words_refl|].
  eapply same_words_trans; [|apply same_words_butex_at, butex_at_dispatch_front].
  by intros b.
Qed.

Lemma butex_wake_and_remove_ref_eq tls arg s :
  butex_wake_and_remove_ref tls arg s
  = (fst (butex_wake tls arg s), butex_remove_ref arg (snd (butex_wake tls arg s))).
Proof.
  unfold butex_wake_and_remove_ref, butex_wake, butex_wake_locked.
  destruct (waiters (butex_at s (container_of_value arg))) as [|front rest]; [done|].
  cbn [fst snd]. unfold butex_remove_ref. by rewrite with_butex_dispatch_front.
Qed.

Lemma butex_wake_all_and_remove_ref_eq tls arg s :
  butex_wake_all_and_remove_ref tls arg s
  = (fst (butex_wake_all tls arg s), butex_remove_ref arg (snd (butex_wake_all tls arg s))).
Proof.
  unfold butex_wake_all_and_remove_ref, butex_wake_all, butex_wake_all_impl.
  destruct (wake_all_drain _ _ _ _ _) as [[s1 bl] pl].
  unfold butex_remove_ref at 1. rewrite with_butex_wake_pthread_waiters.
  destruct (wake_pthread_waiters pl 0 s1) as [n s3]. cbn [fst snd].
  destruct bl as [|next others]; [done|].
  rewrite with_butex_unsleep. cbn [fst snd waiter_at with_butex].
  rewrite with_butex_ready_nosignal_each.
  destruct (ready_nosignal_each _ _ _ _) as [n' s5]. cbn [fst snd].
  repeat case_decide; reflexivity.
Qed.

(** X2.  [butex_wake_and_remove_ref] returns what [butex_wake] returns
    and leaves the store [butex_wake] leaves with one reference dropped:
    whichever way it goes (empty queue, pthread waiter, bthread waiter)
    it decrements [unlock_nref] once.  So, announced by
    [butex_add_ref_before_wake], it wakes as [butex_wake] does and leaves
    the reference count as it found it. *)
Theorem butex_wake_and_remove_ref_is_wake tls arg s :
  butex_wake_and_remove_ref tls arg s
  = (fst (butex_wake tls arg s), butex_remove_ref arg (snd (butex_wake tls arg s))) /\
  (is_int32 (unlock_nref (butex_at s (container_of_value arg))) ->
   fst (butex_wake_and_remove_ref tls arg (butex_add_ref_before_wake arg s))
   = fst (butex_wake tls arg s) /\
   same_store (snd (butex_wake tls arg s))
     (snd (butex_wake_and_remove_ref tls arg (butex_add_ref_before_wake arg s)))).
Proof.
  split; [apply butex_wake_and_remove_ref_eq|]. intros Hn.
  rewrite butex_wake_and_remove_ref_eq. cbn [fst snd].
  destruct (butex_wake_with_butex tls arg (container_of_value arg)
              (fun B => set_unlock_nref (wrap32 (unlock_nref B + 1)) B) s)
    as [Hfst Hsnd]; [done..|].
  split; [exact Hfst|].
  eapply same_store_trans; [|apply same_store_with_butex_both, Hsnd].
  apply remove_ref_after_add_ref.
  by destruct (same_words_butex_wake tls arg s (container_of_value arg)) as [_ ->].
Qed.

(** X3.  [butex_wake_all_and_remove_ref] returns what [butex_wake_all]
    returns and leaves the store [butex_wake_all] leaves with one
    reference dropped: whatever it finds in the queue, it decrements
    [unlock_nref] once. *)
Theorem butex_wake_all_and_remove_ref_is_wake_all tls arg s :
  butex_wake_all_and_remove_ref tls arg s
  = (fst (butex_wake_all tls arg s), butex_remove_ref arg (snd (butex_wake_all tls arg s))).
Proof. apply butex_wake_all_and_remove_ref_eq. Qed.

(** ** Construction and destruction in place *)

Lemma unlock_nref_remove_ref b s :
  unlock_nref (butex_at (butex_remove_ref (address_of_value b) s) b)
  = wrap32 (unlock_nref (butex_at s b) - 1).
Proof.
  unfold butex_remove_ref, address_of_value, container_of_value, offsetof_Butex_value.
  replace (b + 0 - 0) with b by lia. cbn. by rewrite insert_at, decide_True.
Qed.

Lemma trace_remove_ref arg s : trace (butex_remove_ref arg s) = trace s.
Proof. reflexivity. Qed.

(** The loop of [butex_destruct] against [n] wakes in flight, each of
    which drops its reference during one turn of the loop. *)
Lemma butex_destruct_spin_counts b :
  forall (n : nat) first s,
  unlock_nref (butex_at s b) = Z.of_nat n -> is_int32 (Z.of_nat n) ->
  exists s', butex_destruct_spin (replicate n (butex_remove_ref (address_of_value b)))
               b first s = Some s' /\
    unlock_nref (butex_at s' b) = 0 /\
    trace s' = trace s ++ (if first && negb (Nat.eqb n 0) then [LOG_WARNING] else [])
                       ++ replicate n cpu_relax.
Proof.
  induction n as [|n IH]; intros first s Hn Hr.
  - exists s. cbn. rewrite decide_False by lia.
    rewrite andb_false_r. cbn. by rewrite app_nil_r.
  - cbn [replicate butex_destruct_spin]. rewrite decide_True by lia.
    set (s2 := note cpu_relax (if first then note LOG_WARNING s else s)).
    destruct (IH false (butex_remove_ref (address_of_value b) s2)) as (s' & H1 & H2 & H3).
    { rewrite unlock_nref_remove_ref.
      replace (unlock_nref (butex_at s2 b)) with (Z.of_nat (S n))
        by (subst s2; by destruct first).
      rewrite wrap32_int32; [lia|]. unfold is_int32 in *. lia. }
    { unfold is_int32 in *. lia. }
    exists s'. split_and!; [done..|].
    rewrite H3, trace_remove_ref. subst s2. cbn [andb app].
    destruct first; cbn; rewrite <- ?app_assoc; done.
Qed.

Lemma butex_destruct_spin_short b :
  forall (m n : nat) first s,
  unlock_nref (butex_at s b) = Z.of_nat n -> is_int32 (Z.of_nat n) -> (m < n)%nat ->
  butex_destruct_spin (replicate m (butex_remove_ref (address_of_value b))) b first s = None.
Proof.
  induction m as [|m IH]; intros n first s Hn Hr Hm.
  - cbn. by rewrite decide_True by lia.
  - cbn [replicate butex_destruct_spin]. rewrite decide_True by lia.
    destruct n as [|n]; [lia|].
    apply (IH n); [|unfold is_int32 in *; lia|lia].
    rewrite unlock_nref_remove_ref.
    replace (unlock_nref (butex_at (note cpu_relax (if first then note LOG_WARNING s else s)) b))
      with (Z.of_nat (S n)) by (by destruct first).
    rewrite wrap32_int32; [lia|]. unfold is_int32 in *. lia.
Qed.

(** X4.  [butex_destruct] on a butex with [n] wakes announced and in
    flight, each of which drops its reference while the loop is turning:
    it comes back once all [n] references are gone and not before, having
    warned once if [n] is not 0 and not at all if it is, paused [n] times,
    and then fenced and run the destructor, in this order. *)
Theorem butex_destruct_waits_out_wakes (n : nat) b s :
  unlock_nref (butex_at s b) = Z.of_nat n -> is_int32 (Z.of_nat n) ->
  (exists s',
     butex_destruct (replicate n (butex_remove_ref (address_of_value b))) (Some b) s
     = Some s' /\
     unlock_nref (butex_at s' b) = 0 /\
     trace s' = trace s
                ++ match n with O => [] | S _ => LOG_WARNING :: replicate n cpu_relax end
                ++ [atomic_thread_fence_acquire; Butex_destructor b]) /\
  (forall m : nat, (m < n)%nat ->
     butex_destruct (replicate m (butex_remove_ref (address_of_value b))) (Some b) s = None).
Proof.
  intros Hn Hr. split.
  - destruct (butex_destruct_spin_counts b n true s Hn Hr) as (s1 & H1 & H2 & H3).
    unfold butex_destruct. rewrite H1. eexists. split; [done|]. split; [exact H2|].
    cbn [trace note]. rewrite H3. destruct n; cbn; rewrite <- ?app_assoc; done.
  - intros m Hm. unfold butex_destruct.
    by rewrite (butex_destruct_spin_short b m n true s Hn Hr Hm).
Qed.

(** X5.  [butex_construct] hands back the address of the value word of
    the butex it builds in [butex_memory], and from that handle the butex
    is found again; the butex has no waiter and no reference, whatever
    the memory held, and its value word is what the memory held.  On the
    new butex [butex_wake] and [butex_wake_all] find nobody, and
    [butex_destruct] comes back without spinning or warning. *)
Theorem butex_construct_fresh tls env butex_memory s :
  let h := fst (butex_construct butex_memory s) in
  let s' := snd (butex_construct butex_memory s) in
  container_of_value h = butex_memory /\
  unlock_nref (butex_at s' butex_memory) = 0 /\
  waiters (butex_at s' butex_memory) = [] /\
  value (butex_at s' butex_memory) = value (butex_at s butex_memory) /\
  (forall b', b' <> butex_memory -> butex_at s' b' = butex_at s b') /\
  butex_wake tls h s' = (0, s') /\
  butex_wake_all tls h s' = (0, s') /\
  butex_destruct env (Some butex_memory) s'
  = Some (note (Butex_destructor butex_memory) (note atomic_thread_fence_acquire s')).
Proof.
  intros h s'. subst h s'. unfold butex_construct. cbn [fst snd].
  assert (Hh : container_of_value (address_of_value butex_memory) = butex_memory).
  { unfold container_of_value, address_of_value, offsetof_Butex_value. lia. }
  assert (Hb : butex_at (with_butex butex_memory Butex_constructor s) butex_memory
               = mkButex (value (butex_at s butex_memory)) 0 []).
  { cbn. by rewrite insert_at, decide_True. }
  refine (conj Hh (conj _ (conj _ (conj _ (conj _ (conj _ (conj _ _))))))).
  - by rewrite Hb.
  - by rewrite Hb.
  - by rewrite Hb.
  - intros b' Hne. cbn. by rewrite insert_at, decide_False.
  - unfold butex_wake, butex_wake_locked. by rewrite Hh, Hb.
  - unfold butex_wake_all, butex_wake_all_impl. by rewrite Hh, Hb.
  - unfold butex_destruct. destruct env; cbn [butex_destruct_spin]; by rewrite Hb.
Qed.

(** ** The wake-ups of [butex_wake_all] and [butex_wake_except] *)

Lemma pthread_waiters_of_ext s s' l :
  (forall w, tid (waiter_at s' w) = tid (waiter_at s w)) ->
  pthread_waiters_of s' l = pthread_waiters_of s l.
Proof. intros H. apply list_filter_iff. intros w. by rewrite H. Qed.

Lemma bthread_waiters_of_ext s s' l :
  (forall w, tid (waiter_at s' w) = tid (waiter_at s w)) ->
  bthread_waiters_of s' l = bthread_waiters_of s l.
Proof. intros H. apply list_filter_iff. intros w. by rewrite H. Qed.

(** The draining loop sorts the queue into the two local lists, each in
    queue order, and changes no waiter but for its [container]. *)
Lemma wake_all_drain_lists b :
  forall l s bl pl, NoDup l -> waiters (butex_at s b) = l ->
  let r := wake_all_drain (length l) b s bl pl in
  snd (fst r) = bl ++ bthread_waiters_of s l /\
  snd r = pl ++ pthread_waiters_of s l /\
  (forall w, set_container None (waiter_at (fst (fst r)) w)
             = set_container None (waiter_at s w)) /\
  trace (fst (fst r)) = trace s /\
  same_words s (fst (fst r)).
Proof.
  induction l as [|x l IH]; intros s bl pl Hnd Hq; cbn [length wake_all_drain].
  - cbn. rewrite !app_nil_r. split_and!; try done.
  - rewrite Hq.
    set (s1 := with_waiter x (set_container None) (RemoveFromList x s)).
    assert (Hl : waiters (butex_at s1 b) = l).
    { subst s1. rewrite butex_at_with_waiter, waiters_RemoveFromList, Hq.
      by apply filter_ne_head. }
    assert (Hw : forall w, set_container None (waiter_at s1 w)
                           = set_container None (waiter_at s w)).
    { intros w. subst s1. rewrite waiter_at_with_waiter, waiter_at_RemoveFromList.
      case_decide; by subst. }
    assert (Ht : forall w, tid (waiter_at s1 w) = tid (waiter_at s w)).
    { intros w. exact (f_equal tid (Hw w)). }
    apply list.NoDup_cons in Hnd as [Hx Hnd].
    unfold bthread_waiters_of, pthread_waiters_of. rewrite Ht.
    case_decide.
    + destruct (IH s1 (bl ++ [x]) pl Hnd Hl) as (H1 & H2 & H3 & H4 & H5).
      rewrite filter_cons_True by done. rewrite filter_cons_False by tauto.
      rewrite H1, H2, (bthread_waiters_of_ext s s1), (pthread_waiters_of_ext s s1) by done.
      rewrite <- app_assoc.
      refine (conj eq_refl (conj eq_refl (conj _ (conj H4 _)))).
      * intros w. by rewrite H3.
      * eapply same_words_trans; [|exact H5]. by intros b'.
    + destruct (IH s1 bl (pl ++ [x]) Hnd Hl) as (H1 & H2 & H3 & H4 & H5).
      rewrite filter_cons_False by tauto. rewrite filter_cons_True by lia.
      rewrite H1, H2, (bthread_waiters_of_ext s s1), (pthread_waiters_of_ext s s1) by done.
      rewrite <- app_assoc.
      refine (conj eq_refl (conj eq_refl (conj _ (conj H4 _)))).
      * intros w. by rewrite H3.
      * eapply same_words_trans; [|exact H5]. by intros b'.
Qed.

Lemma kinds_length s l :
  (length (pthread_waiters_of s l) + length (bthread_waiters_of s l))%nat = length l.
Proof.
  unfold pthread_waiters_of, bthread_waiters_of.
  induction l as [|x l IH]; [done|].
  destruct (decide (tid (waiter_at s x) = 0)).
  - rewrite filter_cons_True, filter_cons_False by tauto. cbn. lia.
  - rewrite filter_cons_False, filter_cons_True by tauto. cbn. lia.
Qed.

Lemma wake_pthread_waiters_effect l :
  forall n s,
  let r := wake_pthread_waiters l n s in
  fst r = n + Z.of_nat (length l) /\
  trace (snd r) = trace s ++ map (fun w => futex_wake_private w 1) l /\
  (forall w, waiter_at (snd r) w
             = if decide (w ∈ l) then set_sig SAFE_TO_DESTROY (waiter_at s w)
               else waiter_at s w) /\
  butex_at (snd r) = butex_at s.
Proof.
  induction l as [|x l IH]; intros n s; cbn [wake_pthread_waiters length map].
  - cbn. rewrite app_nil_r. split_and!; try done; lia.
  - destruct (IH (n + 1) (wakeup_pthread x s)) as (H1 & H2 & H3 & H4).
    refine (conj _ (conj _ (conj _ _))).
    + rewrite H1. lia.
    + rewrite H2. cbn. by rewrite <- app_assoc.
    + intros w. rewrite H3. unfold wakeup_pthread. cbn [waiter_at call].
      rewrite waiter_at_with_waiter.
      destruct (decide (w ∈ l)) as [Hin|Hin], (decide (x = w)) as [->|Hne].
      * rewrite decide_True by apply list_elem_of_here. done.
      * rewrite decide_True by by apply list_elem_of_further. done.
      * rewrite decide_True by apply list_elem_of_here. done.
      * rewrite decide_False; [done|]. intros [?|?]%elem_of_cons; congruence.
    + by rewrite H4.
Qed.

Lemma unsleep_other w s w' :
  w' <> w -> waiter_at (snd (unsleep_if_necessary w s)) w' = waiter_at s w'.
Proof.
  intros Hne. unfold unsleep_if_necessary. repeat case_decide; cbn [snd]; try done.
  rewrite waiter_at_with_waiter_ne; done.
Qed.

Lemma unsleep_calls_ext W W' : sleep_id W' = sleep_id W -> unsleep_calls W' = unsleep_calls W.
Proof. unfold unsleep_calls. by intros ->. Qed.

Lemma nosignal_calls_ext g s s' w :
  tid (waiter_at s' w) = tid (waiter_at s w) ->
  sleep_id (waiter_at s' w) = sleep_id (waiter_at s w) ->
  nosignal_calls g s' w = nosignal_calls g s w.
Proof. unfold nosignal_calls. intros -> H. by rewrite (unsleep_calls_ext _ _ H). Qed.

(** Making the waiters of [l] ready one by one: each gets its timer
    unscheduled, if it has one, and one call of the scheduler. *)
Lemma ready_nosignal_each_effect g l :
  forall n s s0, NoDup l ->
  (forall w, w ∈ l -> tid (waiter_at s w) = tid (waiter_at s0 w) /\
                      sleep_id (waiter_at s w) = sleep_id (waiter_at s0 w)) ->
  let r := ready_nosignal_each g l n s in
  fst r = n + Z.of_nat (length l) /\
  trace (snd r) = trace s ++ flat_map (nosignal_calls g s0) l /\
  (forall w, tid (waiter_at (snd r) w) = tid (waiter_at s w) /\
             control (waiter_at (snd r) w) = control (waiter_at s w) /\
             sig (waiter_at (snd r) w) = sig (waiter_at s w) /\
             container (waiter_at (snd r) w) = container (waiter_at s w) /\
             waiter_state (waiter_at (snd r) w) = waiter_state (waiter_at s w)) /\
  (forall w, w ∉ l -> waiter_at (snd r) w = waiter_at s w) /\
  butex_at (snd r) = butex_at s.
Proof.
  induction l as [|x l IH]; intros n s s0 Hnd Hs0; cbn [ready_nosignal_each length flat_map].
  - cbn. rewrite app_nil_r. split_and!; try done; lia.
  - apply list.NoDup_cons in Hnd as [Hx Hnd].
    set (s1 := snd (unsleep_if_necessary x s)).
    set (s2 := call (ready_to_run_nosignal g (tid (waiter_at s1 x))) s1).
    destruct (unsleep_keeps x s x) as (Ktx & _).
    destruct (IH (n + 1) s2 s0 Hnd) as (H1 & H2 & H3 & H4 & H5).
    { intros w Hw. assert (w <> x) by (intros ->; done).
      subst s2 s1. cbn [waiter_at call]. rewrite unsleep_other by done.
      apply Hs0. by apply list_elem_of_further. }
    destruct (Hs0 x) as [Hs0t Hs0s]; [apply list_elem_of_here|].
    refine (conj _ (conj _ (conj _ (conj _ _)))).
    + rewrite H1. lia.
    + rewrite H2. subst s2. cbn [trace call]. subst s1. rewrite unsleep_trace.
      rewrite Ktx. unfold nosignal_calls.
      rewrite <- Hs0t, <- (unsleep_calls_ext _ _ Hs0s). by rewrite <- !app_assoc.
    + intros w. destruct (H3 w) as (A1 & A2 & A3 & A4 & A5).
      destruct (unsleep_keeps x s w) as (B1 & B2 & B3 & B4 & B5 & _).
      subst s2 s1. cbn [waiter_at call] in *.
      split_and!; congruence.
    + intros w [Hne Hw]%not_elem_of_cons. rewrite H4 by done.
      subst s2 s1. cbn [waiter_at call]. by apply unsleep_other.
    + rewrite H5. subst s2 s1. cbn [butex_at call]. apply butex_at_unsleep.
Qed.

Lemma rev_reverse {A} (l : list A) : rev l = reverse l.
Proof. unfold reverse. apply rev_alt. Qed.

Lemma NoDup_rev' (l : list ptr) : NoDup l -> NoDup (rev l).
Proof. rewrite rev_reverse. by rewrite reverse_Permutation. Qed.

Lemma handoff_eq tls g W :
  g = get_task_group tls (control W) ->
  (if decide (Some g = tls) then TaskGroup_exchange g (tid W) else ready_to_run g (tid W))
  = handoff tls W.
Proof.
  intros ->. unfold get_task_group, handoff. destruct tls as [g0|].
  - by rewrite decide_True.
  - by rewrite decide_False.
Qed.

(** Everything [butex_wake_all] does to a well-formed store. *)
Lemma butex_wake_all_run tls arg s :
  wf s ->
  let b := container_of_value arg in
  let l := waiters (butex_at s b) in
  let r := butex_wake_all tls arg s in
  fst r = Z.of_nat (length l) /\
  trace (snd r) = trace s ++ wake_all_calls tls s l /\
  waiters (butex_at (snd r) b) = [] /\
  (forall b', b' <> b -> waiters (butex_at (snd r) b') = waiters (butex_at s b')) /\
  (forall w, w ∈ l -> container (waiter_at (snd r) w) = None) /\
  (forall w, w ∉ l -> container (waiter_at (snd r) w) = container (waiter_at s w)) /\
  (forall w, w ∈ l -> tid (waiter_at s w) = 0 ->
     sig (waiter_at (snd r) w) = SAFE_TO_DESTROY) /\
  same_words s (snd r).
Proof.
  intros Hwf b l r. subst r. unfold butex_wake_all, butex_wake_all_impl.
  fold b. fold l.
  assert (Hnd : NoDup l) by apply Hwf.
  destruct (wake_all_drain_effect b l s [] [] Hwf eq_refl)
    as (_ & E1 & E2 & E3 & E4 & _).
  destruct (wake_all_drain_lists b l s [] [] Hnd eq_refl) as (L1 & L2 & L3 & L4 & L5).
  destruct (wake_all_drain (length l) b s [] []) as [[s1 bl] pl].
  cbn [fst snd app] in *. subst bl pl.
  destruct (wake_pthread_waiters_effect (pthread_waiters_of s l) 0 s1)
    as (P1 & P2 & P3 & P4).
  pose proof (same_queues_wake_pthread_waiters (pthread_waiters_of s l) 0 s1) as Q3.
  destruct (wake_pthread_waiters (pthread_waiters_of s l) 0 s1) as [n s3].
  cbn [fst snd] in *.
  assert (R3 : forall w, tid (waiter_at s3 w) = tid (waiter_at s w) /\
                         sleep_id (waiter_at s3 w) = sleep_id (waiter_at s w) /\
                         control (waiter_at s3 w) = control (waiter_at s w)).
  { intros w. rewrite P3.
    pose proof (f_equal tid (L3 w)) as T. pose proof (f_equal sleep_id (L3 w)) as S.
    pose proof (f_equal control (L3 w)) as C. cbn in T, S, C.
    case_decide; cbn; done. }
  assert (S3 : forall w, w ∈ l -> tid (waiter_at s w) = 0 ->
                         sig (waiter_at s3 w) = SAFE_TO_DESTROY).
  { intros w Hin Ht. rewrite P3, decide_True; [done|].
    unfold pthread_waiters_of. by apply list_elem_of_filter. }
  assert (Hend : forall n' s', same_queues s3 s' -> butex_at s' = butex_at s3 ->
    (forall w, sig (waiter_at s' w) = sig (waiter_at s3 w)) ->
    n' = Z.of_nat (length l) ->
    trace s' = trace s ++ wake_all_calls tls s l ->
    (n', s').1 = Z.of_nat (length l) /\
    trace (n', s').2 = trace s ++ wake_all_calls tls s l /\
    waiters (butex_at (n', s').2 b) = [] /\
    (forall b', b' <> b -> waiters (butex_at (n', s').2 b') = waiters (butex_at s b')) /\
    (forall w, w ∈ l -> container (waiter_at (n', s').2 w) = None) /\
    (forall w, w ∉ l -> container (waiter_at (n', s').2 w) = container (waiter_at s w)) /\
    (forall w, w ∈ l -> tid (waiter_at s w) = 0 ->
       sig (waiter_at (n', s').2 w) = SAFE_TO_DESTROY) /\
    same_words s (n', s').2).
  { intros n' s' Hq Hb Hsig Hn' Htr. cbn [fst snd].
    pose proof (same_queues_trans _ _ _ Q3 Hq) as (Ql & Qc & _).
    refine (conj Hn' (conj Htr (conj _ (conj _ (conj _ (conj _ (conj _ _))))))).
    - by rewrite Ql.
    - intros b' Hne. rewrite Ql. by apply E4.
    - intros w Hin. rewrite Qc. by apply E2.
    - intros w Hin. rewrite Qc. by rewrite E3.
    - intros w Hin Ht. rewrite Hsig. by apply S3.
    - intros b'. rewrite Hb, P4. apply L5. }
  pose proof (kinds_length s l) as Hlen.
  destruct (bthread_waiters_of s l) as [|next others] eqn:HB.
  { apply Hend; [apply same_queues_refl | done | done | cbn in Hlen; lia |].
    unfold wake_all_calls. by rewrite HB, P2, L4, app_nil_r. }
  assert (HndB : NoDup (next :: others)).
  { rewrite <- HB. by apply list.NoDup_filter. }
  apply list.NoDup_cons in HndB as [Hnext HndO].
  set (s4 := snd (unsleep_if_necessary next s3)).
  set (g := get_task_group tls (control (waiter_at s4 next))).
  destruct (unsleep_keeps next s3 next) as (K4t & K4c & _).
  assert (Hg : g = get_task_group tls (control (waiter_at s next))).
  { subst g. fold s4 in K4c. rewrite K4c. by destruct (R3 next) as (_ & _ & ->). }
  destruct (ready_nosignal_each_effect g (rev others) (n + 1) s4 s) as (N1 & N2 & N3 & N4 & N5).
  { by apply NoDup_rev'. }
  { intros w Hw. rewrite rev_reverse, elem_of_reverse in Hw.
    assert (w <> next) by (intros ->; done).
    subst s4. rewrite unsleep_other by done. destruct (R3 w) as (-> & -> & _). done. }
  pose proof (same_queues_ready_nosignal_each g (rev others) (n + 1) s4) as Q5.
  destruct (ready_nosignal_each g (rev others) (n + 1) s4) as [n5 s5].
  cbn [fst snd] in *.
  assert (Q4 : same_queues s3 s5).
  { eapply same_queues_trans; [apply same_queues_unsleep | exact Q5]. }
  assert (B5 : butex_at s5 = butex_at s3).
  { rewrite N5. apply butex_at_unsleep. }
  assert (G5 : forall w, sig (waiter_at s5 w) = sig (waiter_at s3 w)).
  { intros w. destruct (N3 w) as (_ & _ & -> & _). subst s4.
    by destruct (unsleep_keeps next s3 w) as (_ & _ & -> & _). }
  assert (T5 : tid (waiter_at s5 next) = tid (waiter_at s next)).
  { destruct (N3 next) as (-> & _). fold s4 in K4t. rewrite K4t.
    by destruct (R3 next) as (-> & _). }
  assert (Tr5 : trace s5 = trace s ++
    map (fun w => futex_wake_private w 1) (pthread_waiters_of s l) ++
    unsleep_calls (waiter_at s next) ++ flat_map (nosignal_calls g s) (rev others)).
  { rewrite N2. subst s4. rewrite unsleep_trace, P2, L4.
    rewrite (unsleep_calls_ext (waiter_at s3 next) (waiter_at s next))
      by (by destruct (R3 next) as (_ & -> & _)).
    by rewrite <- !app_assoc. }
  assert (Hn5 : n5 = Z.of_nat (length l)).
  { rewrite N1, P1, rev_reverse, length_reverse. cbn [length] in Hlen. lia. }
  assert (Hcalls : forall fl, 
    fl = match others with [] => [] | _ :: _ => [flush_nosignal_tasks g] end ->
    (trace s5 ++ fl) ++ [if decide (Some g = tls)
                         then TaskGroup_exchange g (tid (waiter_at s5 next))
                         else ready_to_run g (tid (waiter_at s5 next))]
    = trace s ++ wake_all_calls tls s l).
  { intros fl ->. unfold wake_all_calls. rewrite HB, T5, Tr5. cbv zeta. rewrite <- Hg.
    rewrite (handoff_eq tls g (waiter_at s next) Hg). by rewrite <- !app_assoc. }
  destruct others as [|o others'].
  - destruct (decide (n + 1 ≠ n5)) as [Hd|_];
      [cbn [rev length Z.of_nat] in N1; lia|].
    specialize (Hcalls [] eq_refl). rewrite app_nil_r in Hcalls.
    destruct (decide (Some g = tls)); apply Hend; try done;
      (eapply same_queues_trans; [exact Q4 | apply same_queues_call]).
  - destruct (decide (n + 1 ≠ n5)) as [_|Hd];
      [|rewrite N1, rev_reverse, length_reverse in Hd; cbn [length] in Hd; lia].
    specialize (Hcalls [flush_nosignal_tasks g] eq_refl).
    destruct (decide (Some g = tls)); apply Hend; try done;
      (eapply same_queues_trans; [exact Q4 |];
       eapply same_queues_trans; apply same_queues_call).
Qed.

(** X6.  On a well-formed store [butex_wake_all] returns the number of
    waiters it found in the queue.  It leaves that queue empty and every
    other queue as it was; each of the waiters found has [container]
    NULL, and [sig] set to SAFE_TO_DESTROY if it is a pthread waiter; no
    other waiter's [container] has changed, and no butex has had its
    value word or its reference count written. *)
Theorem butex_wake_all_wakes_all tls arg s :
  wf s ->
  let b := container_of_value arg in
  let l := waiters (butex_at s b) in
  let r := butex_wake_all tls arg s in
  fst r = Z.of_nat (length l) /\
  waiters (butex_at (snd r) b) = [] /\
  (forall b', b' <> b -> waiters (butex_at (snd r) b') = waiters (butex_at s b')) /\
  (forall w, w ∈ l -> container (waiter_at (snd r) w) = None) /\
  (forall w, w ∉ l -> container (waiter_at (snd r) w) = container (waiter_at s w)) /\
  (forall w, w ∈ l -> tid (waiter_at s w) = 0 ->
     sig (waiter_at (snd r) w) = SAFE_TO_DESTROY) /\
  same_words s (snd r).
Proof.
  intros Hwf b l r.
  destruct (butex_wake_all_run tls arg s Hwf) as (H1 & _ & H3 & H4 & H5 & H6 & H7 & H8).
  by split_and!.
Qed.

(** X7.  The calls [butex_wake_all] makes on a well-formed store, in
    the order it makes them: a futex wake on every pthread waiter of the
    queue, in queue order; then, if the queue holds bthread waiters, the
    timer of the first of them is unscheduled, the others are, from the
    last to the second, unscheduled and made ready without a signal, the
    group is flushed if there were others, and the first is handed over as
    [butex_wake] hands a waiter over (an exchange from a worker, ready to
    run otherwise).  Every waiter of the queue is resumed by one call. *)
Theorem butex_wake_all_calls tls arg s :
  wf s ->
  trace (snd (butex_wake_all tls arg s))
  = trace s ++ wake_all_calls tls s (waiters (butex_at s (container_of_value arg))).
Proof. intros Hwf. by destruct (butex_wake_all_run tls arg s Hwf) as (_ & H2 & _). Qed.

Lemma wake_except_drain_lists b t :
  forall l s bl pl ew, NoDup l -> waiters (butex_at s b) = l ->
  let r := wake_except_drain (length l) b t s bl pl ew in
  snd (fst (fst r))
  = bl ++ filter (fun w => tid (waiter_at s w) <> t) (bthread_waiters_of s l) /\
  snd (fst r) = pl ++ pthread_waiters_of s l /\
  (forall w, set_container None (waiter_at (fst (fst (fst r))) w)
             = set_container None (waiter_at s w)) /\
  trace (fst (fst (fst r))) = trace s /\
  same_words s (fst (fst (fst r))).
Proof.
  induction l as [|x l IH]; intros s bl pl ew Hnd Hq; cbn [length wake_except_drain].
  - cbn. rewrite !app_nil_r. by split_and!.
  - rewrite Hq. rewrite waiter_at_RemoveFromList.
    apply list.NoDup_cons in Hnd as [Hx Hnd].
    assert (Hl : waiters (butex_at (RemoveFromList x s) b) = l).
    { rewrite waiters_RemoveFromList, Hq. apply filter_ne_head.
      by apply list.NoDup_cons. }
    assert (Hstep : forall s1 bl' pl' ew',
      waiters (butex_at s1 b) = l ->
      (forall w, set_container None (waiter_at s1 w) = set_container None (waiter_at s w)) ->
      trace s1 = trace s -> same_words s s1 ->
      bl' ++ filter (fun w => tid (waiter_at s w) <> t) (bthread_waiters_of s l)
      = bl ++ filter (fun w => tid (waiter_at s w) <> t) (bthread_waiters_of s (x :: l)) ->
      pl' ++ pthread_waiters_of s l = pl ++ pthread_waiters_of s (x :: l) ->
      let r := wake_except_drain (length l) b t s1 bl' pl' ew' in
      snd (fst (fst r))
      = bl ++ filter (fun w => tid (waiter_at s w) <> t) (bthread_waiters_of s (x :: l)) /\
      snd (fst r) = pl ++ pthread_waiters_of s (x :: l) /\
      (forall w, set_container None (waiter_at (fst (fst (fst r))) w)
                 = set_container None (waiter_at s w)) /\
      trace (fst (fst (fst r))) = trace s /\
      same_words s (fst (fst (fst r)))).
    { intros s1 bl' pl' ew' Hl1 Hw1 Htr1 Hsw1 Hbl Hpl r.
      assert (Ht : forall w, tid (waiter_at s1 w) = tid (waiter_at s w)).
      { intros w. exact (f_equal tid (Hw1 w)). }
      destruct (IH s1 bl' pl' ew' Hnd Hl1) as (H1 & H2 & H3 & H4 & H5).
      subst r. rewrite H1, H2.
      rewrite (bthread_waiters_of_ext s s1), (pthread_waiters_of_ext s s1) by done.
      rewrite (list_filter_iff (fun w => tid (waiter_at s1 w) <> t)
                               (fun w => tid (waiter_at s w) <> t))
        by (intros w; by rewrite Ht).
      refine (conj Hbl (conj Hpl (conj _ (conj _ _)))).
      - intros w. by rewrite H3.
      - congruence.
      - by eapply same_words_trans. }
    assert (Hpop : forall w, set_container None
        (waiter_at (with_waiter x (set_container None) (RemoveFromList x s)) w)
        = set_container None (waiter_at s w)).
    { intros w. rewrite waiter_at_with_waiter, waiter_at_RemoveFromList.
      case_decide; by subst. }
    unfold bthread_waiters_of, pthread_waiters_of in *.
    repeat case_decide.
    + apply Hstep; try done.
      * rewrite (filter_cons_True _ x l) by done. rewrite filter_cons_True by done.
        by rewrite <- app_assoc.
      * by rewrite filter_cons_False by tauto.
    + apply Hstep; try done.
      * rewrite (filter_cons_True _ x l) by done. by rewrite filter_cons_False by tauto.
      * by rewrite filter_cons_False by tauto.
    + apply Hstep; try done.
      * by rewrite (filter_cons_False _ x l) by tauto.
      * rewrite filter_cons_True by lia. by rewrite <- app_assoc.
Qed.

Lemma elem_of_map_inv {A B} (f : A -> B) (l : list A) (y : B) :
  y ∈ map f l -> exists x, y = f x /\ x ∈ l.
Proof.
  induction l as [|a l IH]; cbn; [by intros ?%elem_of_nil|].
  intros [->|Hy]%elem_of_cons.
  - exists a. split; [done | apply list_elem_of_here].
  - destruct (IH Hy) as (x & -> & Hx). exists x. split; [done | by apply list_elem_of_further].
Qed.

Lemma nosignal_calls_shape g s l e :
  e ∈ flat_map (nosignal_calls g s) l ->
  (exists w, w ∈ l /\ e = ready_to_run_nosignal g (tid (waiter_at s w))) \/
  (exists id, e = timer_unschedule id).
Proof.
  induction l as [|x l IH]; cbn; [by intros ?%elem_of_nil|].
  intros [Hx|Hl]%elem_of_app.
  - unfold nosignal_calls, unsleep_calls in Hx. apply elem_of_app in Hx as [Hx|Hx].
    + case_decide; [by apply elem_of_nil in Hx|].
      apply list_elem_of_singleton in Hx. right. eauto.
    + apply list_elem_of_singleton in Hx. left. exists x.
      split; [apply list_elem_of_here | done].
  - destruct (IH Hl) as [(w & Hw & He)|Hid]; [left|by right].
    exists w. split; [by apply list_elem_of_further | done].
Qed.

(** X8.  On a well-formed store [butex_wake_except] returns the number
    of waiters of the queue other than the bthread waiters whose tid is
    the excluded one.  Its calls are: a futex wake on every pthread
    waiter, in queue order; then every bthread waiter with another tid,
    from the last to the first, has its timer unscheduled and is made
    ready without a signal, and the group is flushed.  No call hands the
    caller's worker over ([exchange], [ready_to_run]), and none names the
    excluded tid.  No value word and no reference count is written. *)
Theorem butex_wake_except_wakes_others tls arg excluded_bthread s :
  wf s ->
  let l := waiters (butex_at s (container_of_value arg)) in
  let others :=
    filter (fun w => tid (waiter_at s w) <> excluded_bthread) (bthread_waiters_of s l) in
  let r := butex_wake_except tls arg excluded_bthread s in
  fst r = Z.of_nat (length (pthread_waiters_of s l) + length others) /\
  trace (snd r) = trace s ++ wake_except_calls tls excluded_bthread s l /\
  (forall e, e ∈ wake_except_calls tls excluded_bthread s l ->
     (forall g t, e <> TaskGroup_exchange g t /\ e <> ready_to_run g t) /\
     (forall g, e <> ready_to_run_nosignal g excluded_bthread)) /\
  same_words s (snd r).
Proof.
  intros Hwf l others r. subst r.
  unfold butex_wake_except, wake_except_locked.
  set (b := container_of_value arg) in *. fold l.
  assert (Hnd : NoDup l) by apply Hwf.
  destruct (wake_except_drain_lists b excluded_bthread l s [] [] None Hnd eq_refl)
    as (L1 & L2 & L3 & L4 & L5).
  destruct (wake_except_drain (length l) b excluded_bthread s [] [] None)
    as [[[s1 bl] pl] ew].
  cbn [fst snd app] in *. fold others in L1. subst bl pl.
  set (s1' := match ew with Some w => Append b w s1 | None => s1 end).
  replace (match ew with
           | Some w => (Append b w s1, others, pthread_waiters_of s l)
           | None => (s1, others, pthread_waiters_of s l)
           end) with (s1', others, pthread_waiters_of s l)
    by (subst s1'; by destruct ew).
  assert (L3' : forall w, set_container None (waiter_at s1' w)
                          = set_container None (waiter_at s w)).
  { intros w. subst s1'. destruct ew; [exact (L3 w) | exact (L3 w)]. }
  assert (L4' : trace s1' = trace s) by (subst s1'; destruct ew; exact L4).
  assert (L5' : same_words s s1').
  { subst s1'. destruct ew; [|done].
    eapply same_words_trans; [exact L5 | apply same_words_Append]. }
  clearbody s1'. clear L3 L4 L5 s1 ew.
  destruct (wake_pthread_waiters_effect (pthread_waiters_of s l) 0 s1')
    as (P1 & P2 & P3 & P4).
  destruct (wake_pthread_waiters (pthread_waiters_of s l) 0 s1') as [n s3].
  cbn [fst snd] in *.
  assert (R3 : forall w, tid (waiter_at s3 w) = tid (waiter_at s w) /\
                         sleep_id (waiter_at s3 w) = sleep_id (waiter_at s w) /\
                         control (waiter_at s3 w) = control (waiter_at s w)).
  { intros w. rewrite P3.
    pose proof (f_equal tid (L3' w)) as T. pose proof (f_equal sleep_id (L3' w)) as S.
    pose proof (f_equal control (L3' w)) as C. cbn in T, S, C.
    case_decide; cbn; done. }
  assert (W3 : same_words s s3).
  { intros b'. rewrite P4. apply L5'. }
  assert (Hshape : forall e, e ∈ wake_except_calls tls excluded_bthread s l ->
     (forall g t, e <> TaskGroup_exchange g t /\ e <> ready_to_run g t) /\
     (forall g, e <> ready_to_run_nosignal g excluded_bthread)).
  { intros e. unfold wake_except_calls. fold others.
    intros [Hp|Hb]%elem_of_app.
    - apply elem_of_map_inv in Hp as (w & -> & _). by split_and!.
    - destruct others as [|front others'] eqn:HO; [by apply elem_of_nil in Hb|].
      cbv zeta in Hb. apply elem_of_app in Hb as [Hb|Hb].
      + apply nosignal_calls_shape in Hb as [(w & Hw & ->)|(id & ->)]; [|by split_and!].
        split; [intros; split; discriminate|]. intros g Heq. injection Heq as _ Ht.
        rewrite rev_reverse, elem_of_reverse, <- HO in Hw. subst others.
        apply list_elem_of_filter in Hw as [Hw _]. done.
      + apply list_elem_of_singleton in Hb as ->. by split_and!. }
  refine (conj _ (conj _ (conj Hshape _))).
  - destruct others as [|front others'] eqn:HO.
    + cbn [fst length]. lia.
    + destruct (ready_nosignal_each_effect
                  (get_task_group tls (control (waiter_at s3 front)))
                  (rev (front :: others')) n s3 s3) as (N1 & _); [| |].
      { apply NoDup_rev'. rewrite <- HO. subst others.
        by apply list.NoDup_filter, list.NoDup_filter. }
      { done. }
      destruct (ready_nosignal_each _ _ n s3) as [n5 s5]. cbn [fst] in N1.
      rewrite rev_reverse, length_reverse in N1.
      case_decide; cbn [fst]; lia.
  - unfold wake_except_calls. fold others.
    destruct others as [|front others'] eqn:HO.
    + cbn [snd]. by rewrite P2, L4', app_nil_r.
    + destruct (R3 front) as (_ & _ & Hc). rewrite Hc.
      set (g := get_task_group tls (control (waiter_at s front))).
      destruct (ready_nosignal_each_effect g (rev (front :: others')) n s3 s)
        as (N1 & N2 & _).
      { apply NoDup_rev'. rewrite <- HO. subst others.
        by apply list.NoDup_filter, list.NoDup_filter. }
      { intros w _. by destruct (R3 w) as (-> & -> & _). }
      destruct (ready_nosignal_each g _ n s3) as [n5 s5]. cbn [fst snd] in N1, N2.
      rewrite rev_reverse, length_reverse in N1. cbn [length] in N1.
      rewrite decide_True by lia. cbn [snd trace call].
      rewrite N2, P2, L4'. cbv zeta. by rewrite <- !app_assoc.
  - destruct others as [|front others'] eqn:HO; [done|].
    destruct (ready_nosignal_each_effect
                (get_task_group tls (control (waiter_at s3 front)))
                (rev (front :: others')) n s3 s3) as (_ & _ & _ & _ & N5); [| |].
    { apply NoDup_rev'. rewrite <- HO. subst others.
      by apply list.NoDup_filter, list.NoDup_filter. }
    { done. }
    destruct (ready_nosignal_each _ _ n s3) as [n5 s5]. cbn [snd] in N5.
    case_decide; cbn [snd]; intros b'; cbn [butex_at call]; rewrite N5; apply W3.
Qed.

(** ** Who takes a waiter off its queue *)

Lemma erase_from_butex_loop_null env bw s :
  container (waiter_at s bw) = None -> erase_from_butex_loop env bw s = (false, s).
Proof. intros Hc. destruct env; cbn; by rewrite Hc. Qed.

Lemma erase_from_butex_null tls env bw wakeup s :
  container (waiter_at s bw) = None -> erase_from_butex tls env bw wakeup s = (false, s).
Proof.
  intros Hc. unfold erase_from_butex. rewrite erase_from_butex_loop_null by done.
  cbn. by rewrite set_errno_same.
Qed.

Lemma erase_from_butex_true tls env bw wakeup s s1 :
  erase_from_butex tls env bw wakeup s = (true, s1) ->
  container (waiter_at s1 bw) = None.
Proof.
  unfold erase_from_butex.
  pose proof (erase_from_butex_loop_cases env bw s) as Hloop.
  destruct (erase_from_butex_loop env bw s) as [[] s0]; intros [= <-].
  destruct Hloop as [(s00 & ->) _].
  destruct (erase_wakeup_keeps tls bw (true && wakeup) (erase_locked bw s00))
    as [(_ & Hc & _) _].
  cbn [container waiter_at set_errno]. rewrite Hc.
  by destruct (erase_locked_effect bw s00) as (_ & ? & _).
Qed.

Lemma trace_erase_locked bw s : trace (erase_locked bw s) = trace s.
Proof. unfold erase_locked. by case_decide. Qed.

(** With nobody in the way the waiter is erased where it is. *)
Lemma erase_from_butex_alone tls bw wakeup s :
  container (waiter_at s bw) <> None ->
  erase_from_butex tls [] bw wakeup s
  = (true,
     set_errno (errno s)
       (if wakeup then
          if decide (tid (waiter_at s bw) <> 0)
          then call (ready_to_run (get_task_group tls (control (waiter_at s bw)))
                                  (tid (waiter_at s bw))) (erase_locked bw s)
          else wakeup_pthread bw (erase_locked bw s)
        else erase_locked bw s)).
Proof.
  intros Hc. unfold erase_from_butex. cbn [erase_from_butex_loop].
  destruct (container (waiter_at s bw)) as [b|]; [|done].
  cbn [andb]. destruct wakeup; [|done].
  assert (Ht : tid (waiter_at (erase_locked bw s) bw) = tid (waiter_at s bw)).
  { by destruct (erase_locked_effect bw s) as (_ & _ & ? & _). }
  assert (Hctl : control (waiter_at (erase_locked bw s) bw) = control (waiter_at s bw)).
  { unfold erase_locked. case_decide;
      rewrite ?waiter_at_with_waiter_eq; cbn; by rewrite ?waiter_at_with_waiter_eq. }
  by rewrite Ht, Hctl.
Qed.

(** X9.  "At most one thread may wake up the waiter."  Once
    [erase_from_butex] has returned true for a waiter, any later call on
    that waiter, from any thread and amid anything, returns false and
    does nothing.  The timer callback [erase_from_butex_and_wakeup], on a
    queued waiter and undisturbed, makes one call, which resumes the
    waiter by its own mechanism (ready to run on the caller's group, or
    one chosen, for a bthread; [sig] and a futex wake for a pthread),
    leaves [container] NULL and a bthread waiter TIMEDOUT, and leaves
    [errno] as it was; a second callback on that waiter does nothing. *)
Theorem erase_from_butex_wakes_once tls bw s :
  (forall env wakeup s1,
     erase_from_butex tls env bw wakeup s = (true, s1) ->
     forall tls' env' wakeup', erase_from_butex tls' env' bw wakeup' s1 = (false, s1)) /\
  (container (waiter_at s bw) <> None ->
   let W := waiter_at s bw in
   let s1 := erase_from_butex_and_wakeup tls [] bw s in
   trace s1 = trace s ++ [if decide (tid W = 0) then futex_wake_private bw 1
                          else ready_to_run (get_task_group tls (control W)) (tid W)] /\
   container (waiter_at s1 bw) = None /\
   (tid W <> 0 -> waiter_state (waiter_at s1 bw) = WAITER_STATE_TIMEDOUT) /\
   (tid W = 0 -> sig (waiter_at s1 bw) = SAFE_TO_DESTROY) /\
   errno s1 = errno s /\
   forall tls' env', erase_from_butex_and_wakeup tls' env' bw s1 = s1).
Proof.
  split.
  - intros env wakeup s1 H1 tls' env' wakeup'.
    apply erase_from_butex_null. by eapply erase_from_butex_true.
  - intros Hc W s1. subst s1. unfold erase_from_butex_and_wakeup.
    assert (Htrue := erase_from_butex_alone tls bw true s Hc).
    pose proof (erase_from_butex_true _ _ _ _ _ _ Htrue) as Hnull.
    rewrite Htrue in *. cbn [snd] in *. fold W in Hnull |- *.
    destruct (erase_locked_effect bw s) as (_ & _ & Ht & Hst & _). fold W in Ht, Hst.
    refine (conj _ (conj Hnull (conj _ (conj _ (conj eq_refl _))))).
    + cbn [trace set_errno].
      destruct (decide (tid W <> 0)).
      * rewrite decide_False by done. cbn [trace call]. by rewrite trace_erase_locked.
      * rewrite decide_True by lia. unfold wakeup_pthread. cbn [trace call with_waiter].
        by rewrite trace_erase_locked.
    + intros Hb. cbn [waiter_at set_errno]. rewrite decide_True by done.
      cbn [waiter_at call]. by apply Hst.
    + intros Hp. cbn [waiter_at set_errno]. rewrite decide_False by lia.
      unfold wakeup_pthread. cbn [waiter_at call]. by rewrite waiter_at_with_waiter_eq.
    + intros tls' env'. by rewrite erase_from_butex_null.
Qed.

Lemma butex_wake_nulls_front tls arg s front rest :
  waiters (butex_at s (container_of_value arg)) = front :: rest ->
  container (waiter_at (snd (butex_wake tls arg s)) front) = None.
Proof.
  intros Hq. unfold butex_wake, butex_wake_locked. rewrite Hq. cbn [snd].
  destruct (same_queues_dispatch_front tls front
              (with_waiter front (set_container None) (RemoveFromList front s)))
    as (_ & -> & _).
  by rewrite waiter_at_with_waiter_eq.
Qed.

(** X10.  A waiter that a wake has taken cannot be timed out or stopped
    any more.  After [butex_wake] has taken the head of the queue, and
    after [butex_wake_all] has taken every waiter of it,
    [erase_from_butex] on such a waiter returns false and leaves the
    store, waiter state included, as the wake left it.  The same holds
    when the wake falls between [erase_from_butex]'s load of [container]
    and its look under the lock: the call returns false, and the store
    is the one the waker left. *)
Theorem woken_waiter_is_not_erased tls tls' env arg wakeup s :
  (forall front rest,
     waiters (butex_at s (container_of_value arg)) = front :: rest ->
     erase_from_butex tls' env front wakeup (snd (butex_wake tls arg s))
     = (false, snd (butex_wake tls arg s))) /\
  (wf s ->
   forall w, w ∈ waiters (butex_at s (container_of_value arg)) ->
     erase_from_butex tls' env w wakeup (snd (butex_wake_all tls arg s))
     = (false, snd (butex_wake_all tls arg s))) /\
  (forall front rest,
     waiters (butex_at s (container_of_value arg)) = front :: rest ->
     container (waiter_at s front) <> None ->
     erase_from_butex tls' ((fun s0 => snd (butex_wake tls arg s0)) :: env) front wakeup s
     = (false, set_errno (errno s) (snd (butex_wake tls arg s)))).
Proof.
  refine (conj _ (conj _ _)).
  - intros front rest Hq. apply erase_from_butex_null.
    by eapply butex_wake_nulls_front.
  - intros Hwf w Hw. apply erase_from_butex_null.
    by destruct (butex_wake_all_run tls arg s Hwf) as (_ & _ & _ & _ & -> & _).
  - intros front rest Hq Hc. unfold erase_from_butex.
    cbn [erase_from_butex_loop].
    destruct (container (waiter_at s front)) as [b|] eqn:Hcb; [|done].
    rewrite (butex_wake_nulls_front tls arg s front rest Hq).
    rewrite decide_False by done.
    rewrite erase_from_butex_loop_null by by eapply butex_wake_nulls_front.
    done.
Qed.

(** What [butex_requeue] leaves behind when the source queue is not
    empty. *)
Lemma butex_requeue_moved tls arg arg2 s front rest :
  arg <> arg2 -> wf s ->
  waiters (butex_at s (container_of_value arg)) = front :: rest ->
  exists s', butex_requeue tls arg arg2 s = Some (1, s') /\ wf s' /\
    waiters (butex_at s' (container_of_value arg)) = [] /\
    waiters (butex_at s' (container_of_value arg2))
    = waiters (butex_at s (container_of_value arg2)) ++ rest /\
    (forall w, w ∈ rest -> container (waiter_at s' w) = Some (container_of_value arg2)).
Proof.
  intros Hne Hwf Hq. unfold butex_requeue, requeue_locked.
  assert (Hbm : container_of_value arg <> container_of_value arg2)
    by (unfold container_of_value, offsetof_Butex_value; lia).
  rewrite decide_False by done.
  set (b := container_of_value arg) in *. set (m := container_of_value arg2) in *.
  rewrite Hq. eexists; split; [done|].
  destruct (pop_head_effect s b front rest Hwf Hq) as (Hb & Hb' & Hc & Hw & Ht).
  set (s1 := with_waiter front (set_container None) (RemoveFromList front s)) in *.
  assert (Hwf1 : wf s1) by by apply wf_pop.
  rewrite Hb.
  destruct (requeue_move_effect b m Hbm rest s1 Hwf1 Hb)
    as (Hwf2 & Hb2 & Hm2 & Ho2 & Hin2 & Hout2 & Ht2).
  set (s2 := requeue_move (length rest) b m s1) in *.
  pose proof (same_queues_dispatch_front tls front s2) as Hsame.
  destruct Hsame as (Hl & Hcs & Hts).
  refine (conj _ (conj _ (conj _ _))).
  - eapply wf_same_queues; [apply same_queues_dispatch_front | done].
  - by rewrite Hl.
  - rewrite Hl, Hm2. f_equal. by apply Hb'.
  - intros w Hw'. rewrite Hcs, Hin2 by done. done.
Qed.

(** X11.  [erase_from_butex] and [butex_requeue] at once.  The waiter
    [bw] waits on the source butex behind the head of the queue;
    [erase_from_butex] loads its [container], and before it has the lock
    a [butex_requeue] moves [bw] to the destination.  The loop goes round,
    and [bw] is erased from the destination: the call returns true, the
    source queue is empty, the destination queue is what it was followed
    by the other waiters moved, [bw] is in no list with [container] NULL,
    and the store is well formed. *)
Theorem erase_from_butex_follows_requeue tls tls' arg arg2 bw wakeup s front rest :
  arg <> arg2 -> wf s ->
  waiters (butex_at s (container_of_value arg)) = front :: rest -> bw ∈ rest ->
  let requeue := fun s0 =>
    match butex_requeue tls' arg arg2 s0 with Some (_, s1) => s1 | None => s0 end in
  exists s', erase_from_butex tls [requeue] bw wakeup s = (true, s') /\
    waiters (butex_at s' (container_of_value arg)) = [] /\
    waiters (butex_at s' (container_of_value arg2))
    = waiters (butex_at s (container_of_value arg2)) ++ filter (fun x => x <> bw) rest /\
    container (waiter_at s' bw) = None /\
    (forall b, bw ∉ waiters (butex_at s' b)) /\
    wf s'.
Proof.
  intros Hne Hwf Hq Hbw requeue.
  assert (Hbm : container_of_value arg <> container_of_value arg2)
    by (unfold container_of_value, offsetof_Butex_value; lia).
  set (b := container_of_value arg) in *. set (m := container_of_value arg2) in *.
  destruct (butex_requeue_moved tls' arg arg2 s front rest Hne Hwf Hq)
    as (sr & Hr & Hwfr & Hbr & Hmr & Hcr).
  fold b m in Hbr, Hmr, Hcr.
  assert (Hrq : requeue s = sr) by (subst requeue; cbv beta; by rewrite Hr).
  assert (Hcb : container (waiter_at s bw) = Some b).
  { apply Hwf. rewrite Hq. by apply list_elem_of_further. }
  assert (Hloop : erase_from_butex_loop [requeue] bw s = (true, erase_locked bw sr)).
  { cbn [erase_from_butex_loop]. rewrite Hcb, Hrq, (Hcr bw Hbw).
    rewrite decide_False by congruence. done. }
  unfold erase_from_butex. rewrite Hloop.
  destruct (erase_wakeup_keeps tls bw (true && wakeup) (erase_locked bw sr))
    as [Hsame _].
  destruct (erase_locked_effect bw sr) as (El & Ec & _).
  eexists. split; [done|].
  pose proof (same_queues_trans _ _ _ Hsame (same_queues_set_errno (errno s) _))
    as (Ql & Qc & _).
  assert (Hwf' : wf (erase_locked bw sr)) by by apply erase_locked_wf.
  assert (Hout : forall b0, bw ∉ waiters (butex_at (erase_locked bw sr) b0)).
  { intros b0. rewrite El, list_elem_of_filter. tauto. }
  refine (conj _ (conj _ (conj _ (conj _ _)))).
  - by rewrite Ql, El, Hbr.
  - rewrite Ql, El, Hmr, list.filter_app. f_equal. apply filter_ne_fresh.
    eapply wf_elsewhere; [exact Hwf | | exact (not_eq_sym Hbm)].
    rewrite Hq. by apply list_elem_of_further.
  - by rewrite Qc.
  - intros b0. rewrite Ql. apply Hout.
  - eapply wf_same_queues; [|exact Hwf'].
    exact (same_queues_trans _ _ _ Hsame (same_queues_set_errno (errno s) _)).
Qed.

(** ** The remained function *)

Lemma wait_for_butex_cases g bw s :
  let W := waiter_at s bw in
  let b := initial_butex W in
  let T := task_at s (task_meta W) in
  let s' := wait_for_butex g bw s in
  (value (butex_at s b) = expected_value W /\
   waiter_state W <> WAITER_STATE_TIMEDOUT /\
   (stop T = false \/ interruptible T = false) /\
   container (waiter_at s' bw) = Some b /\
   waiters (butex_at s' b) = waiters (butex_at s b) ++ [bw] /\
   (forall b', b' <> b -> waiters (butex_at s' b') = waiters (butex_at s b')) /\
   waiter_at s' bw = set_container (Some b) W /\
   trace s' = trace s)
  \/
  ((value (butex_at s b) <> expected_value W \/
    waiter_state W = WAITER_STATE_TIMEDOUT \/
    (stop T = true /\ interruptible T = true)) /\
   container (waiter_at s' bw) = container W /\
   (forall b', waiters (butex_at s' b') = waiters (butex_at s b')) /\
   waiter_state (waiter_at s' bw)
   = (if decide (waiter_state W = WAITER_STATE_TIMEDOUT)
      then WAITER_STATE_TIMEDOUT else WAITER_STATE_CANCELLED) /\
   trace s' = trace s ++ unsleep_calls W ++ [ready_to_run g (tid W)]).
Proof.
  intros W b T s'. subst s'. unfold wait_for_butex. fold W. fold b. fold T.
  destruct (bool_decide (value (butex_at s b) = expected_value W)
            && bool_decide (waiter_state W <> WAITER_STATE_TIMEDOUT)
            && (negb (stop T) || negb (interruptible T))) eqn:Hcond.
  - left. apply andb_prop in Hcond as [Hcond Hst]. apply andb_prop in Hcond as [Hv Hw].
    apply bool_decide_eq_true in Hv, Hw.
    refine (conj Hv (conj Hw (conj _ (conj _ (conj _ (conj _ (conj _ eq_refl))))))).
    + destruct (stop T), (interruptible T); cbn in Hst; auto; discriminate.
    + by rewrite waiter_at_with_waiter_eq.
    + by rewrite butex_at_with_waiter, waiters_Append, decide_True.
    + intros b' Hne. by rewrite butex_at_with_waiter, waiters_Append, decide_False.
    + by rewrite waiter_at_with_waiter_eq.
  - right.
    destruct (unsleep_keeps bw s bw) as (Kt & _ & _ & Kc & Ks & _). fold W in Kt, Kc, Ks.
    pose proof (same_queues_unsleep bw s) as (Ql & _).
    set (s1 := snd (unsleep_if_necessary bw s)) in *.
    set (s2 := if decide (waiter_state (waiter_at s1 bw) <> WAITER_STATE_TIMEDOUT)
               then with_waiter bw (set_waiter_state WAITER_STATE_CANCELLED) s1
               else s1).
    assert (W2 : waiter_at s2 bw
                 = if decide (waiter_state W = WAITER_STATE_TIMEDOUT)
                   then waiter_at s1 bw
                   else set_waiter_state WAITER_STATE_CANCELLED (waiter_at s1 bw)).
    { subst s2. rewrite Ks.
      destruct (decide (waiter_state W = WAITER_STATE_TIMEDOUT)).
      - by rewrite decide_False by tauto.
      - rewrite decide_True by done. by rewrite waiter_at_with_waiter_eq. }
    assert (B2 : butex_at s2 = butex_at s1) by (subst s2; by case_decide).
    assert (T2 : trace s2 = trace s1) by (subst s2; by case_decide).
    clearbody s2.
    refine (conj _ (conj _ (conj _ (conj _ _)))).
    + apply andb_false_iff in Hcond as [Hcond|Hst].
      * apply andb_false_iff in Hcond as [Hv|Hw].
        -- left. by apply bool_decide_eq_false in Hv.
        -- right; left. apply bool_decide_eq_false in Hw.
           by destruct (decide (waiter_state W = WAITER_STATE_TIMEDOUT)).
      * right; right. destruct (stop T), (interruptible T); cbn in Hst; auto; discriminate.
    + cbn [waiter_at call]. rewrite W2. by case_decide; cbn; rewrite Kc.
    + intros b'. cbn [butex_at call]. by rewrite B2, Ql.
    + cbn [waiter_at call]. rewrite W2. case_decide; cbn; [by rewrite Ks | done].
    + cbn [trace call waiter_at]. rewrite W2, T2.
      replace (tid (if decide (waiter_state W = WAITER_STATE_TIMEDOUT)
                    then waiter_at s1 bw
                    else set_waiter_state WAITER_STATE_CANCELLED (waiter_at s1 bw)))
        with (tid W) by (by case_decide; cbn; rewrite Kt).
      subst s1. rewrite unsleep_trace. by rewrite <- app_assoc.
Qed.

(** X12.  [wait_for_butex] does one of two things, never both and never
    neither.  Either it queues the waiter: the waiter goes to the tail of
    the queue of its butex, is tagged with the butex, no call is made and
    nothing else in the record changes; this it does exactly when the
    value word still holds the expected value, the waiter is not TIMEDOUT
    and the task is not both stopped and interruptible.  Or it queues
    nothing, unschedules the waiter's timer if it has one, leaves the
    waiter CANCELLED (TIMEDOUT if it was) and makes the task ready to run
    on group [g]. *)
Theorem wait_for_butex_queues_or_wakes g bw s :
  let W := waiter_at s bw in
  let b := initial_butex W in
  let T := task_at s (task_meta W) in
  let s' := wait_for_butex g bw s in
  (value (butex_at s b) = expected_value W /\
   waiter_state W <> WAITER_STATE_TIMEDOUT /\
   (stop T = false \/ interruptible T = false) /\
   container (waiter_at s' bw) = Some b /\
   waiters (butex_at s' b) = waiters (butex_at s b) ++ [bw] /\
   (forall b', b' <> b -> waiters (butex_at s' b') = waiters (butex_at s b')) /\
   waiter_at s' bw = set_container (Some b) W /\
   trace s' = trace s)
  \/
  ((value (butex_at s b) <> expected_value W \/
    waiter_state W = WAITER_STATE_TIMEDOUT \/
    (stop T = true /\ interruptible T = true)) /\
   container (waiter_at s' bw) = container W /\
   (forall b', waiters (butex_at s' b') = waiters (butex_at s b')) /\
   waiter_state (waiter_at s' bw)
   = (if decide (waiter_state W = WAITER_STATE_TIMEDOUT)
      then WAITER_STATE_TIMEDOUT else WAITER_STATE_CANCELLED) /\
   trace s' = trace s ++ unsleep_calls W ++ [ready_to_run g (tid W)]).
Proof. apply wait_for_butex_cases. Qed.

(** X13.  A timer that fires before the waiter is queued is lost.  The
    callback [erase_from_butex_and_wakeup] finds [container] NULL and
    changes nothing: it does not mark the waiter TIMEDOUT and wakes
    nobody.  [wait_for_butex], coming after it, finds the waiter TIMED as
    [butex_wait] left it and, the value word and the task permitting,
    queues it: the waiter is on the queue and the timer has gone by. *)
Theorem timer_before_enqueue_is_lost tls env g bw s :
  container (waiter_at s bw) = None ->
  let W := waiter_at s bw in
  let b := initial_butex W in
  let T := task_at s (task_meta W) in
  erase_from_butex_and_wakeup tls env bw s = s /\
  (value (butex_at s b) = expected_value W ->
   waiter_state W = WAITER_STATE_TIMED ->
   (stop T = false \/ interruptible T = false) ->
   let s' := wait_for_butex g bw (erase_from_butex_and_wakeup tls env bw s) in
   container (waiter_at s' bw) = Some b /\
   waiters (butex_at s' b) = waiters (butex_at s b) ++ [bw] /\
   waiter_state (waiter_at s' bw) = WAITER_STATE_TIMED /\
   sleep_id (waiter_at s' bw) = sleep_id W /\
   trace s' = trace s).
Proof.
  intros Hc W b T.
  assert (Hid : erase_from_butex_and_wakeup tls env bw s = s).
  { unfold erase_from_butex_and_wakeup. by rewrite erase_from_butex_null. }
  split; [exact Hid|]. intros Hv Hst Hstop s'. subst s'. rewrite Hid.
  destruct (wait_for_butex_cases g bw s) as [H|H]; fold W b T in H.
  - destruct H as (_ & _ & _ & H1 & H2 & _ & H3 & H4).
    rewrite H3. cbn. by split_and!.
  - destruct H as ([Hn|[Hn|[Hn1 Hn2]]] & _).
    + done.
    + rewrite Hst in Hn. discriminate.
    + destruct Hstop; congruence.
Qed.

Lemma unsleep_spin_off_queue bbw env :
  Forall (untouched_off_queue bbw) env ->
  forall s s1, container (waiter_at s bbw) = None ->
  unsleep_spin env bbw s = Some s1 ->
  container (waiter_at s1 bbw) = None /\
  waiter_state (waiter_at s1 bbw) = waiter_state (waiter_at s bbw) /\
  task_meta (waiter_at s1 bbw) = task_meta (waiter_at s bbw).
Proof.
  induction 1 as [|f env Hf _ IH]; intros s s1 Hc; cbn [unsleep_spin];
    destruct (unsleep_keeps bbw s bbw) as (_ & _ & _ & Kc & Ks & Km);
    destruct (unsleep_if_necessary bbw s) as [rc s0]; cbn [snd] in *;
    case_decide; try done.
  - intros [= <-]. rewrite Kc, Ks, Km. done.
  - intros Hs. assert (Hc0 : container (waiter_at s0 bbw) = None) by congruence.
    destruct (IH (f s0) s1) as (H1 & H2 & H3); [by rewrite Hf | done |].
    rewrite Hf in H2, H3 by done. split_and!; congruence.
  - intros [= <-]. rewrite Kc, Ks, Km. done.
Qed.

Lemma take_current_waiter_off_queue bbw env :
  Forall (untouched_off_queue bbw) env ->
  forall t s s1, container (waiter_at s bbw) = None ->
  take_current_waiter env t s = Some s1 -> waiter_at s1 bbw = waiter_at s bbw.
Proof.
  induction 1 as [|f env Hf _ IH]; intros t s s1 Hc; cbn [take_current_waiter];
    destruct (current_waiter (task_at s t)); try done.
  - by intros [= <-].
  - by intros [= <-].
  - intros Hs. rewrite (IH t (f s) s1); [by apply Hf | by rewrite Hf | done].
Qed.

(** X14.  A bthread wait reports success only if its waiter was put on
    the queue.  The call has parked; nobody touches its waiter while the
    waiter is on no queue.  If [wait_for_butex] does not queue the waiter,
    the call returns -1, with ESTOP, ETIMEDOUT or EWOULDBLOCK, whatever
    happens until it runs again; so if it returns 0, [wait_for_butex]
    did queue the waiter on its butex. *)
Theorem bthread_wait_succeeds_only_if_queued tls E g bbw s rc s' :
  let s0 := before_enqueue E s in
  let s1 := wait_for_butex g bbw s0 in
  container (waiter_at s0 bbw) = None ->
  untouched_off_queue bbw (while_parked E) ->
  Forall (untouched_off_queue bbw) (timer_turns E) ->
  Forall (untouched_off_queue bbw) (stopper_turns E) ->
  butex_wait_rest tls E (Parked g bbw) s = Some (rc, s') ->
  (container (waiter_at s1 bbw) = None ->
   rc = -1 /\ (errno s' = ESTOP \/ errno s' = ETIMEDOUT \/ errno s' = EWOULDBLOCK)) /\
  (rc = 0 -> container (waiter_at s1 bbw) = Some (initial_butex (waiter_at s0 bbw))).
Proof.
  intros s0 s1 Hc0 Hp Ht Hs. cbn [butex_wait_rest]. fold s0. fold s1.
  unfold butex_wait_resume. intros Hrest.
  assert (Hfail : container (waiter_at s1 bbw) = None ->
    rc = -1 /\ (errno s' = ESTOP \/ errno s' = ETIMEDOUT \/ errno s' = EWOULDBLOCK)).
  { intros Hc1.
    assert (Hst : waiter_state (waiter_at s1 bbw) = WAITER_STATE_TIMEDOUT \/
                  waiter_state (waiter_at s1 bbw) = WAITER_STATE_CANCELLED).
    { destruct (wait_for_butex_cases g bbw s0) as [H|H]; fold s1 in H.
      - destruct H as (_ & _ & _ & H1 & _). congruence.
      - destruct H as (_ & _ & _ & -> & _). case_decide; auto. }
    set (s2 := while_parked E s1) in *.
    assert (W2 : waiter_at s2 bbw = waiter_at s1 bbw) by by apply Hp.
    destruct (unsleep_spin (timer_turns E) bbw s2) as [s3|] eqn:H3; [|done].
    destruct (unsleep_spin_off_queue bbw _ Ht s2 s3) as (C3 & S3 & M3);
      [congruence | done |].
    destruct (take_current_waiter (stopper_turns E) (task_meta (waiter_at s3 bbw)) s3)
      as [s4|] eqn:H4; [|done].
    pose proof (take_current_waiter_off_queue bbw _ Hs _ s3 s4 C3 H4) as W4.
    injection Hrest as Hres. unfold butex_wait_result in Hres.
    cbn [waiter_at add_waiter_count task_at] in Hres. rewrite W4, S3, W2 in Hres.
    destruct (stop _).
    - injection Hres as <- <-. auto.
    - destruct Hst as [Hst|Hst]; rewrite Hst in Hres.
      + rewrite decide_True in Hres by done. injection Hres as <- <-. auto.
      + rewrite decide_False, decide_True in Hres by done. injection Hres as <- <-. auto. }
  split; [exact Hfail|]. intros ->.
  destruct (wait_for_butex_cases g bbw s0) as [H|H]; fold s1 in H.
  - by destruct H as (_ & _ & _ & H1 & _).
  - destruct H as (_ & Hc1 & _). rewrite Hc0 in Hc1. destruct (Hfail Hc1). lia.
Qed.

(** ** Entering and leaving a wait *)

(** X15.  When the timer thread has stopped ([schedule] answers 0), a
    timed wait of a bthread on a matching value word, with a deadline far
    enough away, returns -1 with ESTOP at once: the timer was asked once,
    nothing was queued, nothing published in the task, the waiter counter
    not touched, and the scheduler not called. *)
Theorem butex_wait_timer_stopped g arg expected_value t now bbw pw s :
  is_current_pthread_task (group_at s g) = false ->
  value (butex_at s (container_of_value arg)) = expected_value ->
  timespec_to_microseconds t > now + LEAST_SLEEP_US ->
  let r := butex_wait_enter (Some g) arg expected_value (Some t) now 0 bbw pw s in
  fst r = Returned (-1) /\ errno (snd r) = ESTOP /\
  butex_at (snd r) = butex_at s /\ task_at (snd r) = task_at s /\
  butex_waiter_count (snd r) = butex_waiter_count s /\
  trace (snd r) = trace s ++ [timer_schedule bbw 0].
Proof.
  intros Hp Hv Ht r. subst r. unfold butex_wait_enter, butex_wait_checked.
  rewrite decide_False by (intros ?; done). rewrite Hp.
  rewrite decide_False by lia. rewrite decide_True by done.
  by split_and!.
Qed.

Lemma unsleep_spin_disarms bbw env :
  forall s s1, unsleep_spin env bbw s = Some s1 -> sleep_id (waiter_at s1 bbw) = 0.
Proof.
  induction env as [|f env IH]; intros s s1; cbn [unsleep_spin];
    unfold unsleep_if_necessary; repeat case_decide; try done;
    try (intros [= <-]; cbn [waiter_at call]; by rewrite ?waiter_at_with_waiter_eq);
    try apply IH; lia.
Qed.

Lemma take_current_waiter_takes env :
  forall t s s1, take_current_waiter env t s = Some s1 ->
  current_waiter (task_at s1 t) = None.
Proof.
  induction env as [|f env IH]; intros t s s1; cbn [take_current_waiter];
    destruct (current_waiter (task_at s t)); try done;
    try (intros [= <-]; cbn; by rewrite insert_at, decide_True).
  apply IH.
Qed.

Lemma take_current_waiter_keeps_timer bbw env :
  Forall (keeps_timer bbw) env ->
  forall t s s1, take_current_waiter env t s = Some s1 ->
  sleep_id (waiter_at s1 bbw) = sleep_id (waiter_at s bbw) /\
  task_meta (waiter_at s1 bbw) = task_meta (waiter_at s bbw).
Proof.
  induction 1 as [|f env Hf _ IH]; intros t s s1; cbn [take_current_waiter];
    destruct (current_waiter (task_at s t)); try done;
    try (by intros [= <-]).
  intros Hs. destruct (IH t (f s) s1 Hs) as [-> ->]. apply Hf.
Qed.

(** X16.  A wait does not return while somebody else may still use its
    on-stack waiter.  On the bthread path, when [butex_wait] returns after
    the scheduler has run it again, the waiter's timer handle is 0 (the
    timer was unscheduled, or found not running any more) and the task's
    [current_waiter] is NULL, taken when it was not NULL: no timer
    callback and no stopper holds the waiter.  On the pthread path, a
    caller that published its waiter returns with [current_waiter]
    NULL. *)
Theorem wait_returns_with_waiter_released bbw :
  (forall env1 env2 s rc s',
     Forall (keeps_timer bbw) env2 ->
     butex_wait_resume env1 env2 bbw s = Some (rc, s') ->
     sleep_id (waiter_at s' bbw) = 0 /\
     current_waiter (task_at s' (task_meta (waiter_at s' bbw))) = None) /\
  (forall env task rc s rc' s',
     butex_wait_from_pthread_leave env (Some task) true rc s = Some (rc', s') ->
     current_waiter (task_at s' task) = None).
Proof.
  split.
  - intros env1 env2 s rc s' Henv. unfold butex_wait_resume.
    destruct (unsleep_spin env1 bbw s) as [s1|] eqn:H1; [|done].
    destruct (take_current_waiter env2 (task_meta (waiter_at s1 bbw)) s1)
      as [s2|] eqn:H2; [|done].
    intros [= Hres].
    replace s' with (snd (butex_wait_result bbw (add_waiter_count (-1) s2)))
      by (by rewrite Hres).
    destruct (butex_wait_result_keeps bbw (add_waiter_count (-1) s2)) as (-> & -> & _).
    cbn [task_at waiter_at add_waiter_count].
    destruct (take_current_waiter_keeps_timer bbw env2 Henv _ s1 s2 H2) as [-> ->].
    split; [by eapply unsleep_spin_disarms|].
    by eapply take_current_waiter_takes.
  - intros env task rc s rc' s'. cbn [butex_wait_from_pthread_leave].
    destruct (take_current_waiter env task s) as [s1|] eqn:H1; [|done].
    pose proof (take_current_waiter_takes env task s s1 H1) as Hn.
    destruct (stop (task_at s1 task)); by intros [= <- <-].
Qed.

(** *** The waiter counter *)

Lemma count_unsleep w s :
  butex_waiter_count (snd (unsleep_if_necessary w s)) = butex_waiter_count s.
Proof. unfold unsleep_if_necessary. by repeat case_decide. Qed.

Lemma count_erase_locked bw s :
  butex_waiter_count (erase_locked bw s) = butex_waiter_count s.
Proof. unfold erase_locked. by case_decide. Qed.

Lemma count_erase_from_butex_loop env bw :
  Forall (keeps butex_waiter_count) env ->
  forall s, butex_waiter_count (snd (erase_from_butex_loop env bw s)) = butex_waiter_count s.
Proof.
  induction 1 as [|f env Hf _ IH]; intros s; cbn [erase_from_butex_loop];
    destruct (container (waiter_at s bw)); cbn [snd]; try done;
    try apply count_erase_locked.
  case_decide; cbn [snd]; [by rewrite count_erase_locked, Hf | by rewrite IH, Hf].
Qed.

Lemma count_erase_from_butex tls env bw wakeup s :
  Forall (keeps butex_waiter_count) env ->
  butex_waiter_count (snd (erase_from_butex tls env bw wakeup s)) = butex_waiter_count s.
Proof.
  intros Henv. unfold erase_from_butex.
  pose proof (count_erase_from_butex_loop env bw Henv s) as H.
  destruct (erase_from_butex_loop env bw s) as [erased s1]. cbn [snd] in *.
  rewrite <- H. destruct (erased && wakeup); [|done]. by case_decide.
Qed.

Lemma count_await_safe_to_destroy pw env :
  Forall (keeps butex_waiter_count) env ->
  forall s s1, await_safe_to_destroy env pw s = Some s1 ->
  butex_waiter_count s1 = butex_waiter_count s.
Proof.
  induction 1 as [|f env Hf _ IH]; intros s s1; cbn [await_safe_to_destroy];
    case_decide; try done; try (by intros [= <-]).
  intros Hs. by rewrite (IH _ _ Hs), Hf.
Qed.

Lemma count_wait_pthread tls pw futex erase_env spin_env :
  Forall (fun a => keeps butex_waiter_count (meanwhile a)) futex ->
  Forall (keeps butex_waiter_count) erase_env ->
  Forall (keeps butex_waiter_count) spin_env ->
  forall s rc s1, wait_pthread tls futex erase_env spin_env pw s = Some (rc, s1) ->
  butex_waiter_count s1 = butex_waiter_count s.
Proof.
  intros Hfu He Hs. induction Hfu as [|a futex Ha _ IH]; intros s rc s1; [done|].
  cbn [wait_pthread]. unfold futex_wait_private.
  set (s0 := set_errno _ (meanwhile a s)).
  assert (H0 : butex_waiter_count s0 = butex_waiter_count s) by (subst s0; apply Ha).
  case_decide; [by intros [= _ <-]|].
  case_decide; [|intros Hw; by rewrite (IH _ _ _ Hw)].
  pose proof (count_erase_from_butex tls erase_env pw false s0 He) as Hcnt.
  destruct (erase_from_butex tls erase_env pw false s0) as [[] s2]; cbn [snd] in Hcnt.
  - intros [= _ <-]. congruence.
  - destruct (await_safe_to_destroy spin_env pw s2) as [s3|] eqn:H3; [|done].
    intros [= _ <-]. rewrite (count_await_safe_to_destroy pw _ Hs _ _ H3). congruence.
Qed.

Lemma count_unsleep_spin bbw env :
  Forall (keeps butex_waiter_count) env ->
  forall s s1, unsleep_spin env bbw s = Some s1 ->
  butex_waiter_count s1 = butex_waiter_count s.
Proof.
  induction 1 as [|f env Hf _ IH]; intros s s1; cbn [unsleep_spin];
    pose proof (count_unsleep bbw s) as Hu;
    destruct (unsleep_if_necessary bbw s) as [rc s0]; cbn [snd] in Hu;
    case_decide; try done; try (intros [= <-]; done).
  intros Hs. by rewrite (IH _ _ Hs), Hf.
Qed.

Lemma count_take_current_waiter env :
  Forall (keeps butex_waiter_count) env ->
  forall t s s1, take_current_waiter env t s = Some s1 ->
  butex_waiter_count s1 = butex_waiter_count s.
Proof.
  induction 1 as [|f env Hf _ IH]; intros t s s1; cbn [take_current_waiter];
    destruct (current_waiter (task_at s t)); try done; try (by intros [= <-]).
  intros Hs. by rewrite (IH _ _ _ Hs), Hf.
Qed.

Lemma count_butex_wait_result bbw s :
  butex_waiter_count (snd (butex_wait_result bbw s)) = butex_waiter_count s.
Proof. unfold butex_wait_result. destruct (stop _); [done|]. by repeat case_decide. Qed.

Lemma count_wait_for_butex g bw s :
  butex_waiter_count (wait_for_butex g bw s) = butex_waiter_count s.
Proof.
  unfold wait_for_butex. destruct (_ && _); [done|].
  cbn [butex_waiter_count call]. case_decide; cbn; apply count_unsleep.
Qed.

Lemma count_leave env task set_waiter rc s rc' s' :
  Forall (keeps butex_waiter_count) env ->
  butex_wait_from_pthread_leave env task set_waiter rc s = Some (rc', s') ->
  butex_waiter_count s' = butex_waiter_count s.
Proof.
  intros Henv. unfold butex_wait_from_pthread_leave.
  destruct task as [t|]; [|by intros [= _ <-]].
  destruct set_waiter.
  - destruct (take_current_waiter env t s) as [s1|] eqn:H1; [|done].
    pose proof (count_take_current_waiter env Henv _ _ _ H1).
    destruct (stop _); intros [= _ <-]; done.
  - destruct (stop _); intros [= _ <-]; done.
Qed.

Lemma count_pthread_enter g b ev abstime now pw s :
  let r := butex_wait_from_pthread_enter g b ev abstime now pw s in
  butex_waiter_count (snd r) = butex_waiter_count s + counted (fst r).
Proof.
  unfold butex_wait_from_pthread_enter.
  destruct (match abstime with Some _ => _ | None => _ end); [cbn; lia|].
  destruct g as [gp|].
  - destruct (interruptible _); [destruct (stop _)|]; try case_decide; cbn; lia.
  - case_decide; cbn; lia.
Qed.

Lemma count_butex_wait_enter tls arg ev abstime now nid bbw pw s :
  let r := butex_wait_enter tls arg ev abstime now nid bbw pw s in
  butex_waiter_count (snd r) = butex_waiter_count s + counted (fst r).
Proof.
  unfold butex_wait_enter. case_decide; [cbn; lia|].
  unfold butex_wait_checked.
  destruct tls as [g|]; [|apply count_pthread_enter].
  destruct (is_current_pthread_task _); [apply count_pthread_enter|].
  destruct abstime as [t|]; [|cbn; lia].
  repeat case_decide; cbn; lia.
Qed.

Lemma count_butex_wait_rest tls E o s rc s' :
  every_turn (keeps butex_waiter_count) E ->
  butex_wait_rest tls E o s = Some (rc, s') ->
  butex_waiter_count s' = butex_waiter_count s - counted o.
Proof.
  intros (E1 & E2 & E3 & E4 & E5 & E6 & E7).
  destruct o as [rc0|g bbw|pw task sw|task sw rc0]; cbn [butex_wait_rest counted].
  - intros [= _ <-]. lia.
  - unfold butex_wait_resume.
    set (s2 := while_parked E _).
    assert (H2 : butex_waiter_count s2 = butex_waiter_count s).
    { subst s2. by rewrite E2, count_wait_for_butex, E1. }
    destruct (unsleep_spin (timer_turns E) bbw s2) as [s3|] eqn:H3; [|done].
    destruct (take_current_waiter _ _ s3) as [s4|] eqn:H4; [|done].
    intros [= Hres].
    replace s' with (snd (butex_wait_result bbw (add_waiter_count (-1) s4)))
      by (by rewrite Hres).
    rewrite count_butex_wait_result. cbn [butex_waiter_count add_waiter_count].
    rewrite (count_take_current_waiter _ E4 _ _ _ H4), (count_unsleep_spin _ _ E3 _ _ H3).
    lia.
  - destruct (wait_pthread tls _ _ _ pw s) as [[rc1 s1]|] eqn:H1; [|done].
    intros Hl. rewrite (count_leave _ _ _ _ _ _ _ E4 Hl).
    cbn [butex_waiter_count add_waiter_count].
    rewrite (count_wait_pthread _ _ _ _ _ E5 E6 E7 _ _ _ H1). lia.
  - intros Hl. rewrite (count_leave _ _ _ _ _ _ _ E4 Hl). lia.
Qed.

(** X17.  [butex_waiter_count] counts the waits in progress: whichever
    way a call to [butex_wait] goes (value mismatch, deadline too close,
    timer stopped, stop seen at entry, parked, asleep in the kernel), the
    counter has on return the value it had at the call, as far as the
    call itself goes; the other threads' own waits aside. *)
Theorem butex_waiter_count_balanced tls arg expected_value abstime now new_sleep_id
        bbw pw E s rc s' :
  every_turn (keeps butex_waiter_count) E ->
  butex_wait tls arg expected_value abstime now new_sleep_id bbw pw E s = Some (rc, s') ->
  butex_waiter_count s' = butex_waiter_count s.
Proof.
  intros HE. unfold butex_wait.
  pose proof (count_butex_wait_enter tls arg expected_value abstime now new_sleep_id
                bbw pw s) as Hin.
  destruct (butex_wait_enter _ _ _ _ _ _ _ _ s) as [o s1]. cbn [fst snd] in Hin.
  intros Hrest. rewrite (count_butex_wait_rest _ _ _ _ _ _ HE Hrest). lia.
Qed.

(** ** Asleep in the kernel *)

Lemma await_safe_to_destroy_sees pw env :
  forall s s1, await_safe_to_destroy env pw s = Some s1 ->
  sig (waiter_at s1 pw) = SAFE_TO_DESTROY.
Proof.
  induction env as [|f env IH]; intros s s1; cbn [await_safe_to_destroy];
    case_decide; try done.
  - intros [= <-]. by destruct (decide (sig (waiter_at s pw) = SAFE_TO_DESTROY)).
  - apply IH.
  - intros [= <-]. by destruct (decide (sig (waiter_at s pw) = SAFE_TO_DESTROY)).
Qed.

Lemma errno_erase_from_butex tls env bw wakeup s :
  errno (snd (erase_from_butex tls env bw wakeup s)) = errno s.
Proof. unfold erase_from_butex. by destruct (erase_from_butex_loop env bw s). Qed.

Lemma erase_from_butex_true_out tls env bw wakeup s s1 :
  erase_from_butex tls env bw wakeup s = (true, s1) ->
  forall b, bw ∉ waiters (butex_at s1 b).
Proof.
  unfold erase_from_butex.
  pose proof (erase_from_butex_loop_cases env bw s) as Hloop.
  destruct (erase_from_butex_loop env bw s) as [[] s0]; intros [= <-].
  destruct Hloop as [(s00 & ->) _].
  destruct (erase_wakeup_keeps tls bw (true && wakeup) (erase_locked bw s00))
    as [(Hl & _) _].
  intros b. cbn [butex_at set_errno]. rewrite Hl.
  destruct (erase_locked_effect bw s00) as (-> & _).
  rewrite list_elem_of_filter. tauto.
Qed.

(** X18.  [wait_pthread] returns in two cases only, whatever the kernel
    does: the waiter has been signalled ([sig] is no longer
    NOT_SIGNALLED); or the futex call failed with ETIMEDOUT and the
    waiter took itself off the queue, in which case [errno] is still
    ETIMEDOUT, [container] is NULL and the waiter is in no list.  A futex
    call that comes back for another reason with [sig] unchanged sends
    the loop round again.  What is returned is what the last futex call
    returned. *)
Theorem wait_pthread_returns tls futex erase_env spin_env pw s rc s' :
  wait_pthread tls futex erase_env spin_env pw s = Some (rc, s') ->
  (exists a, a ∈ futex /\ rc = futex_rc a) /\
  (sig (waiter_at s' pw) <> NOT_SIGNALLED \/
   (rc <> 0 /\ errno s' = ETIMEDOUT /\ container (waiter_at s' pw) = None /\
    forall b, pw ∉ waiters (butex_at s' b))).
Proof.
  revert s. induction futex as [|a futex IH]; intros s; [done|].
  cbn [wait_pthread]. unfold futex_wait_private.
  set (s0 := set_errno _ (meanwhile a s)).
  assert (Hhere : exists a0, a0 ∈ a :: futex /\ futex_rc a = futex_rc a0).
  { exists a. split; [apply list_elem_of_here | done]. }
  case_decide as Hsig.
  { intros [= <- <-]. split; [exact Hhere|]. left. congruence. }
  case_decide as Hto.
  - destruct (erase_from_butex tls erase_env pw false s0) as [[] s2] eqn:He.
    + intros [= <- <-]. split; [exact Hhere|]. right.
      destruct Hto as [Hrc Herr].
      refine (conj Hrc (conj _ (conj _ _))).
      * pose proof (errno_erase_from_butex tls erase_env pw false s0) as Hk.
        rewrite He in Hk. cbn [snd] in Hk. congruence.
      * by eapply erase_from_butex_true.
      * by eapply erase_from_butex_true_out.
    + destruct (await_safe_to_destroy spin_env pw s2) as [s3|] eqn:H3; [|done].
      intros [= <- <-]. split; [exact Hhere|]. left.
      rewrite (await_safe_to_destroy_sees pw _ _ _ H3). unfold SAFE_TO_DESTROY, NOT_SIGNALLED.
      lia.
  - intros Hrest. destruct (IH _ Hrest) as [(a0 & Ha0 & Hrc) Hcase].
    split; [|exact Hcase]. exists a0. split; [by apply list_elem_of_further | done].
Qed.

(** ** A wait from call to return *)

Lemma unsleep_spin_idle env bbw s :
  sleep_id (waiter_at s bbw) = 0 -> unsleep_spin env bbw s = Some s.
Proof.
  intros H. destruct env; cbn [unsleep_spin]; unfold unsleep_if_necessary;
    rewrite decide_True by done; by rewrite decide_False by lia.
Qed.

Lemma take_current_waiter_ready env t s :
  current_waiter (task_at s t) <> None ->
  take_current_waiter env t s = Some (with_task t (set_current_waiter None) s).
Proof.
  intros H. destruct env; cbn [take_current_waiter];
    by destruct (current_waiter (task_at s t)).
Qed.

(** A waiter with no timer armed and published still: the two waiting
    loops end at once, whoever else is about. *)
Lemma butex_wait_resume_ready env1 env2 bbw s :
  sleep_id (waiter_at s bbw) = 0 ->
  current_waiter (task_at s (task_meta (waiter_at s bbw))) <> None ->
  butex_wait_resume env1 env2 bbw s
  = Some (butex_wait_result bbw
            (add_waiter_count (-1)
               (with_task (task_meta (waiter_at s bbw)) (set_current_waiter None) s))).
Proof.
  intros Hs Hc. unfold butex_wait_resume.
  rewrite unsleep_spin_idle by done. by rewrite take_current_waiter_ready.
Qed.

Lemma task_at_with_task t f s t' :
  task_at (with_task t f s) t' = if decide (t = t') then f (task_at s t) else task_at s t'.
Proof. cbn. rewrite insert_at. by case_decide; subst. Qed.

Lemma butex_at_with_butex b f s b' :
  butex_at (with_butex b f s) b'
  = if decide (b = b') then f (butex_at s b) else butex_at s b'.
Proof. cbn. rewrite insert_at. by case_decide; subst. Qed.

(** A bthread waits without a deadline on an empty queue and is queued;
    another thread stores [v'] and calls [butex_wake]; the bthread runs
    again.  [stop] may be set if the task is not interruptible. *)
Lemma bthread_woken g tlsA arg expected v' now new_sleep_id bbw pw tt st fw et wt s :
  let b := container_of_value arg in
  let G := group_at s g in
  let T := task_at s (current_task G) in
  let E := mkOthers (fun s0 => s0)
             (fun s0 => snd (butex_wake tlsA arg (with_butex b (set_value v') s0)))
             tt st fw et wt in
  is_current_pthread_task G = false ->
  current_tid G <> 0 ->
  (stop T = false \/ interruptible T = false) ->
  value (butex_at s b) = expected ->
  (forall b', bbw ∉ waiters (butex_at s b')) ->
  waiters (butex_at s b) = [] ->
  exists s',
    butex_wait (Some g) arg expected None now new_sleep_id bbw pw E s
    = Some (if stop T then -1 else 0, s') /\
    (stop T = true -> errno s' = ESTOP) /\
    (forall b', waiters (butex_at s' b') = waiters (butex_at s b')) /\
    container (waiter_at s' bbw) = None /\
    value (butex_at s' b) = v' /\
    (forall t, task_at s' t
               = if decide (current_task G = t) then set_current_waiter None T
                 else task_at s t) /\
    butex_waiter_count s' = butex_waiter_count s /\
    trace s' = trace s ++ [set_remained_and_sched g bbw;
                           match tlsA with
                           | Some gA => TaskGroup_exchange gA (current_tid G)
                           | None => ready_to_run (choose_one_group (group_control G))
                                                  (current_tid G)
                           end].
Proof.
  intros b G T E Hp Htid Hstop Hv Hfresh Hq.
  unfold butex_wait, butex_wait_enter. fold b.
  rewrite decide_False by (intros ?; done).
  unfold butex_wait_checked. fold b G. rewrite Hp.
  cbn [butex_wait_rest E before_enqueue while_parked timer_turns stopper_turns].
  set (W1 := mkButexWaiter (current_tid G) None (current_task G) 0 WAITER_STATE_NONE
                           expected b (group_control G) (sig (waiter_at s bbw))).
  set (s1 := with_waiter bbw _ s).
  assert (HW1 : waiter_at s1 bbw = W1) by (subst s1; by rewrite waiter_at_with_waiter_eq).
  rewrite HW1. cbn [task_meta W1].
  set (sP := call _ (with_task _ _ (add_waiter_count 1 s1))).
  assert (HWP : waiter_at sP bbw = W1) by exact HW1.
  assert (HTP : task_at sP (current_task G) = set_current_waiter (Some bbw) T).
  { subst sP. cbn [task_at call]. by rewrite task_at_with_task, decide_True. }
  assert (H2 : wait_for_butex g bbw sP
               = with_waiter bbw (set_container (Some b)) (Append b bbw sP)).
  { unfold wait_for_butex. rewrite HWP. cbn [initial_butex expected_value waiter_state
      task_meta W1].
    replace (value (butex_at sP b)) with expected by (by rewrite <- Hv).
    rewrite !bool_decide_eq_true_2 by done. rewrite HTP. cbn [stop interruptible
      set_current_waiter].
    by destruct Hstop as [-> | ->]; rewrite ?orb_true_r. }
  rewrite H2.
  set (s2 := with_waiter bbw (set_container (Some b)) (Append b bbw sP)).
  set (s3 := with_butex b (set_value v') s2).
  assert (Hq3 : waiters (butex_at s3 b) = [bbw]).
  { subst s3. rewrite butex_at_with_butex, decide_True by done. cbn [waiters set_value].
    subst s2. rewrite butex_at_with_waiter, waiters_Append, decide_True by done.
    change (butex_at sP) with (butex_at s). by rewrite Hq. }
  unfold butex_wake, butex_wake_locked. fold b. rewrite Hq3. cbn [snd].
  set (s4 := with_waiter bbw (set_container None) (RemoveFromList bbw s3)).
  assert (HW4 : waiter_at s4 bbw = W1).
  { subst s4. rewrite waiter_at_with_waiter_eq, waiter_at_RemoveFromList.
    subst s3 s2. cbn [waiter_at with_butex]. rewrite waiter_at_with_waiter_eq.
    cbn [waiter_at Append with_butex]. by rewrite HWP. }
  assert (H5 : dispatch_front tlsA bbw s4
               = call (handoff tlsA W1) s4).
  { unfold dispatch_front. rewrite HW4. cbn [tid W1]. rewrite decide_False by done.
    unfold resume_bthread, unsleep_if_necessary. rewrite HW4. cbn [sleep_id W1].
    rewrite decide_True by done. cbn [snd]. rewrite HW4. by destruct tlsA. }
  rewrite H5. set (s5 := call (handoff tlsA W1) s4).
  assert (HW5 : waiter_at s5 bbw = W1) by exact HW4.
  assert (HT5 : forall t, task_at s5 t = task_at sP t) by done.
  rewrite butex_wait_resume_ready; rewrite ?HW5; cbn [sleep_id task_meta W1]; try done;
    [|by rewrite HT5, HTP].
  set (s6 := add_waiter_count (-1) (with_task _ _ s5)).
  assert (HW6 : waiter_at s6 bbw = W1) by exact HW5.
  assert (HT6 : forall t, task_at s6 t
                = if decide (current_task G = t) then set_current_waiter None T
                  else task_at s t).
  { intros t. subst s6. cbn [task_at add_waiter_count]. rewrite task_at_with_task.
    case_decide; [by rewrite HT5, HTP|].
    rewrite HT5. subst sP. cbn [task_at call]. by rewrite task_at_with_task, decide_False. }
  unfold butex_wait_result. rewrite HW6. cbn [task_meta waiter_state W1].
  rewrite HT6, decide_True by done. cbn [stop set_current_waiter].
  assert (Hall : forall s',
    (forall b', butex_at s' b' = butex_at s6 b') -> waiter_at s' = waiter_at s6 ->
    task_at s' = task_at s6 -> butex_waiter_count s' = butex_waiter_count s6 ->
    trace s' = trace s6 ->
    (forall b', waiters (butex_at s' b') = waiters (butex_at s b')) /\
    container (waiter_at s' bbw) = None /\
    value (butex_at s' b) = v' /\
    (forall t, task_at s' t
               = if decide (current_task G = t) then set_current_waiter None T
                 else task_at s t) /\
    butex_waiter_count s' = butex_waiter_count s /\
    trace s' = trace s ++ [set_remained_and_sched g bbw;
                           match tlsA with
                           | Some gA => TaskGroup_exchange gA (current_tid G)
                           | None => ready_to_run (choose_one_group (group_control G))
                                                  (current_tid G)
                           end]).
  { intros s' Eb Ew Et Ec Er. rewrite Ew, Et, Ec, Er.
    refine (conj _ (conj _ (conj _ (conj HT6 (conj _ _))))).
    - intros b'. rewrite Eb. subst s6 s5 s4. cbn [butex_at add_waiter_count with_task call].
      rewrite butex_at_with_waiter, waiters_RemoveFromList.
      subst s3. rewrite butex_at_with_butex.
      assert (Hs2 : forall b0, waiters (butex_at s2 b0)
                    = if decide (b = b0) then waiters (butex_at s b) ++ [bbw]
                      else waiters (butex_at s b0)).
      { intros b0. subst s2. by rewrite butex_at_with_waiter, waiters_Append. }
      destruct (decide (b = b')) as [<-|Hne].
      + cbn [waiters set_value]. rewrite Hs2, decide_True, Hq by done. cbn.
        by rewrite decide_False by (intros ?; done).
      + rewrite Hs2, decide_False by done. apply filter_ne_fresh, Hfresh.
    - by rewrite HW6.
    - rewrite Eb. subst s6 s5 s4. cbn [butex_at add_waiter_count with_task call].
      rewrite butex_at_with_waiter. cbn [butex_at RemoveFromList value set_waiters].
      subst s3. by rewrite butex_at_with_butex, decide_True.
    - subst s6 s5 s4 s3 s2 sP s1. cbn. lia.
    - subst s6 s5 s4 s3 s2 sP s1. cbn. unfold handoff. cbn [tid control W1].
      rewrite <- app_assoc. done. }
  destruct (stop T) eqn:HstopT.
  - exists (set_errno ESTOP s6). split; [done|]. split; [done|]. by apply Hall.
  - rewrite !decide_False by done.
    exists s6. split; [done|]. split; [done|]. by apply Hall.
Qed.

(** X19.  A bthread, not stopped, waits without a deadline on a butex
    with an empty queue whose value word holds the expected value;
    another thread then stores a new value and calls [butex_wake]; the
    scheduler runs the bthread again.  The wait returns 0.  In between
    the waiter was queued and the wake took it: the trace is the call of
    the scheduler by the waiter followed by the hand-over of the waiter's
    tid by the waker.  On return every queue is as at the call, the
    waiter is tagged with no butex, the task's [current_waiter] is NULL
    and the waiter counter is what it was. *)
Theorem bthread_wait_wake_round_trip g tlsA arg expected v' now new_sleep_id bbw pw
        tt st fw et wt s :
  let b := container_of_value arg in
  let G := group_at s g in
  let E := mkOthers (fun s0 => s0)
             (fun s0 => snd (butex_wake tlsA arg (with_butex b (set_value v') s0)))
             tt st fw et wt in
  is_current_pthread_task G = false ->
  current_tid G <> 0 ->
  stop (task_at s (current_task G)) = false ->
  value (butex_at s b) = expected ->
  (forall b', bbw ∉ waiters (butex_at s b')) ->
  waiters (butex_at s b) = [] ->
  exists s',
    butex_wait (Some g) arg expected None now new_sleep_id bbw pw E s = Some (0, s') /\
    (forall b', waiters (butex_at s' b') = waiters (butex_at s b')) /\
    container (waiter_at s' bbw) = None /\
    value (butex_at s' b) = v' /\
    current_waiter (task_at s' (current_task G)) = None /\
    butex_waiter_count s' = butex_waiter_count s /\
    trace s' = trace s ++ [set_remained_and_sched g bbw;
                           match tlsA with
                           | Some gA => TaskGroup_exchange gA (current_tid G)
                           | None => ready_to_run (choose_one_group (group_control G))
                                                  (current_tid G)
                           end].
Proof.
  intros b G E Hp Htid Hstop Hv Hfresh Hq.
  destruct (bthread_woken g tlsA arg expected v' now new_sleep_id bbw pw tt st fw et wt s
              Hp Htid (or_introl Hstop) Hv Hfresh Hq)
    as (s' & H1 & _ & H3 & H4 & H5 & H6 & H7 & H8).
  fold b G in H1, H3, H5, H6, H8. rewrite Hstop in H1.
  exists s'. split_and!; try done.
  by rewrite H6, decide_True.
Qed.

(** X20.  A bthread, not stopped, waits with a deadline far enough away
    on a butex with an empty queue whose value word holds the expected
    value; nobody wakes it, the timer fires and runs
    [erase_from_butex_and_wakeup], and the scheduler runs the bthread
    again once the callback is over.  The wait returns -1 with ETIMEDOUT.
    The trace is: the timer scheduled, the scheduler called, the task made
    ready by the timer callback, the timer unscheduled by the waiter.  On
    return every queue is as at the call, the waiter is tagged with no
    butex, its timer handle is 0, the task's [current_waiter] is NULL and
    the waiter counter is what it was. *)
Theorem bthread_wait_times_out g tlsT arg expected t now new_sleep_id bbw pw
        tt st fw et wt s :
  let b := container_of_value arg in
  let G := group_at s g in
  let E := mkOthers (fun s0 => s0) (erase_from_butex_and_wakeup tlsT [] bbw)
             tt st fw et wt in
  is_current_pthread_task G = false ->
  current_tid G <> 0 ->
  stop (task_at s (current_task G)) = false ->
  value (butex_at s b) = expected ->
  (forall b', bbw ∉ waiters (butex_at s b')) ->
  timespec_to_microseconds t > now + LEAST_SLEEP_US ->
  new_sleep_id <> 0 ->
  (forall tr, unschedule tr new_sleep_id <= 0) ->
  exists s',
    butex_wait (Some g) arg expected (Some t) now new_sleep_id bbw pw E s = Some (-1, s') /\
    errno s' = ETIMEDOUT /\
    (forall b', waiters (butex_at s' b') = waiters (butex_at s b')) /\
    container (waiter_at s' bbw) = None /\
    sleep_id (waiter_at s' bbw) = 0 /\
    current_waiter (task_at s' (current_task G)) = None /\
    butex_waiter_count s' = butex_waiter_count s /\
    trace s' = trace s ++ [timer_schedule bbw new_sleep_id;
                           set_remained_and_sched g bbw;
                           ready_to_run (get_task_group tlsT (group_control G))
                                        (current_tid G);
                           timer_unschedule new_sleep_id].
Proof.
  intros b G E Hp Htid Hstop Hv Hfresh Ht Hid Hun.
  unfold butex_wait, butex_wait_enter. fold b.
  rewrite decide_False by (intros ?; done).
  unfold butex_wait_checked. fold b G. rewrite Hp.
  rewrite decide_False by lia. rewrite decide_False by done.
  cbn [butex_wait_rest E before_enqueue while_parked timer_turns stopper_turns].
  set (W1 := mkButexWaiter (current_tid G) None (current_task G) new_sleep_id
                           WAITER_STATE_TIMED expected b (group_control G)
                           (sig (waiter_at s bbw))).
  set (s1 := with_waiter bbw (set_sleep_id new_sleep_id) _).
  assert (HW1 : waiter_at s1 bbw = W1).
  { subst s1. rewrite waiter_at_with_waiter_eq. cbn [waiter_at call].
    by rewrite !waiter_at_with_waiter_eq. }
  rewrite HW1. cbn [task_meta W1].
  set (sP := call _ (with_task _ _ (add_waiter_count 1 s1))).
  assert (HWP : waiter_at sP bbw = W1) by exact HW1.
  assert (HTP : task_at sP (current_task G)
                = set_current_waiter (Some bbw) (task_at s (current_task G))).
  { subst sP. cbn [task_at call]. by rewrite task_at_with_task, decide_True. }
  assert (H2 : wait_for_butex g bbw sP
               = with_waiter bbw (set_container (Some b)) (Append b bbw sP)).
  { unfold wait_for_butex. rewrite HWP. cbn [initial_butex expected_value waiter_state
      task_meta W1].
    replace (value (butex_at sP b)) with expected by (by rewrite <- Hv).
    rewrite !bool_decide_eq_true_2 by done. rewrite HTP. cbn [stop interruptible
      set_current_waiter]. by rewrite Hstop. }
  rewrite H2.
  set (s2 := with_waiter bbw (set_container (Some b)) (Append b bbw sP)).
  assert (HW2 : waiter_at s2 bbw = set_container (Some b) W1).
  { subst s2. rewrite waiter_at_with_waiter_eq. cbn [waiter_at Append with_butex].
    by rewrite HWP. }
  unfold erase_from_butex_and_wakeup.
  rewrite erase_from_butex_alone by (rewrite HW2; done).
  cbn [snd]. rewrite HW2. cbn [tid control set_container W1].
  rewrite decide_True by done.
  set (s3 := erase_locked bbw s2).
  assert (HW3 : waiter_at s3 bbw
                = set_waiter_state WAITER_STATE_TIMEDOUT W1).
  { subst s3. unfold erase_locked. rewrite waiter_at_with_waiter_eq.
    rewrite waiter_at_RemoveFromList, HW2. cbn [tid set_container W1].
    rewrite decide_True by done. rewrite !waiter_at_with_waiter_eq.
    by rewrite waiter_at_RemoveFromList, HW2. }
  set (s4 := set_errno (errno s2)
               (call (ready_to_run (get_task_group tlsT (group_control G)) (current_tid G))
                     s3)).
  assert (HW4 : waiter_at s4 bbw = set_waiter_state WAITER_STATE_TIMEDOUT W1) by exact HW3.
  assert (HT4 : forall t0, task_at s4 t0 = task_at sP t0).
  { intros t0. subst s4 s3. unfold erase_locked. by case_decide. }
  unfold butex_wait_resume.
  assert (Hspin : unsleep_spin tt bbw s4
                  = Some (with_waiter bbw (set_sleep_id 0)
                            (call (timer_unschedule new_sleep_id) s4))).
  { destruct tt; cbn [unsleep_spin]; unfold unsleep_if_necessary; rewrite HW4;
      cbn [sleep_id set_waiter_state W1]; rewrite decide_False by done;
      rewrite (decide_False (P := unschedule _ _ > 0)) by (specialize (Hun (trace s4)); lia);
      by rewrite decide_False by lia. }
  rewrite Hspin.
  set (s5 := with_waiter bbw (set_sleep_id 0) (call (timer_unschedule new_sleep_id) s4)).
  assert (HW5 : waiter_at s5 bbw
                = set_sleep_id 0 (set_waiter_state WAITER_STATE_TIMEDOUT W1)).
  { subst s5. rewrite waiter_at_with_waiter_eq. cbn [waiter_at call]. by rewrite HW4. }
  rewrite HW5. cbn [task_meta set_sleep_id set_waiter_state W1].
  assert (HT5 : forall t0, task_at s5 t0 = task_at sP t0) by exact HT4.
  rewrite take_current_waiter_ready by (by rewrite HT5, HTP).
  set (s6 := add_waiter_count (-1) (with_task _ _ s5)).
  assert (HW6 : waiter_at s6 bbw
                = set_sleep_id 0 (set_waiter_state WAITER_STATE_TIMEDOUT W1)) by exact HW5.
  assert (HT6 : task_at s6 (current_task G)
                = set_current_waiter None (task_at s (current_task G))).
  { subst s6. cbn [task_at add_waiter_count]. rewrite task_at_with_task, decide_True by done.
    by rewrite HT5, HTP. }
  unfold butex_wait_result. rewrite HW6.
  cbn [task_meta waiter_state set_sleep_id set_waiter_state W1].
  rewrite HT6. cbn [stop set_current_waiter]. rewrite Hstop.
  rewrite decide_True by done.
  exists (set_errno ETIMEDOUT s6). split; [done|]. split; [done|].
  cbn [butex_at waiter_at task_at butex_waiter_count trace set_errno].
  refine (conj _ (conj _ (conj _ (conj _ (conj _ _))))).
  - intros b'. subst s6 s5 s4. cbn [butex_at add_waiter_count with_task call set_errno].
    rewrite butex_at_with_waiter. cbn [butex_at call set_errno].
    subst s3. destruct (erase_locked_effect bbw s2) as (-> & _).
    subst s2. rewrite butex_at_with_waiter, waiters_Append.
    change (butex_at sP) with (butex_at s).
    destruct (decide (b = b')) as [<-|Hne].
    + rewrite list.filter_app. cbn. rewrite decide_False by (intros ?; done).
      rewrite app_nil_r. apply filter_ne_fresh, Hfresh.
    + apply filter_ne_fresh, Hfresh.
  - by rewrite HW6.
  - by rewrite HW6.
  - by rewrite HT6.
  - subst s6 s5 s4. cbn [butex_waiter_count add_waiter_count with_task with_waiter call
      set_errno]. subst s3. rewrite count_erase_locked. subst s2 sP s1. cbn. lia.
  - subst s6 s5 s4. cbn [trace add_waiter_count with_task with_waiter call set_errno].
    subst s3. rewrite trace_erase_locked. subst s2 sP s1. cbn.
    rewrite <- !app_assoc. done.
Qed.

(** ** What the operations leave alone *)

Section Frame.

Context {A : Type} (field : State -> A) (Hframed : framed field).

Local Ltac frame :=
  repeat first
    [ progress rewrite (proj1 Hframed)
    | progress rewrite (proj1 (proj2 Hframed))
    | progress rewrite (proj1 (proj2 (proj2 Hframed)))
    | progress rewrite (proj1 (proj2 (proj2 (proj2 Hframed))))
    | progress rewrite (proj1 (proj2 (proj2 (proj2 (proj2 Hframed)))))
    | progress rewrite (proj1 (proj2 (proj2 (proj2 (proj2 (proj2 Hframed))))))
    | progress rewrite (proj1 (proj2 (proj2 (proj2 (proj2 (proj2 (proj2 Hframed)))))))
    | progress rewrite (proj2 (proj2 (proj2 (proj2 (proj2 (proj2 (proj2 Hframed))))))) ].

Lemma frame_wakeup_pthread pw s : field (wakeup_pthread pw s) = field s.
Proof. unfold wakeup_pthread. by frame. Qed.

Lemma frame_unsleep w s : field (snd (unsleep_if_necessary w s)) = field s.
Proof. unfold unsleep_if_necessary. repeat case_decide; cbn [snd]; by frame. Qed.

Lemma frame_dispatch_front tls front s : field (dispatch_front tls front s) = field s.
Proof.
  unfold dispatch_front, resume_bthread. case_decide; [apply frame_wakeup_pthread|].
  destruct tls; frame; apply frame_unsleep.
Qed.

Lemma frame_butex_wake tls arg s : field (snd (butex_wake tls arg s)) = field s.
Proof.
  unfold butex_wake, butex_wake_locked.
  destruct (waiters _); cbn [snd]; [done|]. rewrite frame_dispatch_front. by frame.
Qed.

Lemma frame_wake_all_drain b :
  forall fuel s bl pl, field (fst (fst (wake_all_drain fuel b s bl pl))) = field s.
Proof.
  induction fuel as [|fuel IH]; intros s bl pl; cbn [wake_all_drain]; [done|].
  destruct (waiters _); [done|]. case_decide; rewrite IH; by frame.
Qed.

Lemma frame_wake_pthread_waiters l :
  forall n s, field (snd (wake_pthread_waiters l n s)) = field s.
Proof.
  induction l as [|x l IH]; intros n s; cbn [wake_pthread_waiters]; [done|].
  by rewrite IH, frame_wakeup_pthread.
Qed.

Lemma frame_ready_nosignal_each g l :
  forall n s, field (snd (ready_nosignal_each g l n s)) = field s.
Proof.
  induction l as [|x l IH]; intros n s; cbn [ready_nosignal_each]; [done|].
  rewrite IH. frame. apply frame_unsleep.
Qed.

Lemma frame_butex_wake_all tls arg s : field (snd (butex_wake_all tls arg s)) = field s.
Proof.
  unfold butex_wake_all, butex_wake_all_impl.
  pose proof (frame_wake_all_drain (container_of_value arg)
                (length (waiters (butex_at s (container_of_value arg)))) s [] []) as H1.
  destruct (wake_all_drain _ _ s [] []) as [[s1 bl] pl]. cbn [fst] in H1.
  pose proof (frame_wake_pthread_waiters pl 0 s1) as H3.
  destruct (wake_pthread_waiters pl 0 s1) as [n s3]. cbn [snd] in H3.
  destruct bl as [|next others]; [cbn [snd]; congruence|].
  set (s4 := snd (unsleep_if_necessary next s3)).
  assert (H4 : field s4 = field s) by (subst s4; rewrite frame_unsleep; congruence).
  pose proof (frame_ready_nosignal_each
                (get_task_group tls (control (waiter_at s4 next))) (rev others) (n + 1) s4)
    as H5.
  destruct (ready_nosignal_each _ (rev others) (n + 1) s4) as [n5 s5]. cbn [snd] in H5.
  repeat case_decide; cbn [snd]; frame; congruence.
Qed.

Lemma frame_wake_except_drain b t :
  forall fuel s bl pl ew,
  field (fst (fst (fst (wake_except_drain fuel b t s bl pl ew)))) = field s.
Proof.
  induction fuel as [|fuel IH]; intros s bl pl ew; cbn [wake_except_drain]; [done|].
  destruct (waiters _); [done|]. repeat case_decide; rewrite IH; by frame.
Qed.

Lemma frame_butex_wake_except tls arg t s :
  field (snd (butex_wake_except tls arg t s)) = field s.
Proof.
  unfold butex_wake_except, wake_except_locked.
  pose proof (frame_wake_except_drain (container_of_value arg) t
                (length (waiters (butex_at s (container_of_value arg)))) s [] [] None)
    as H1.
  destruct (wake_except_drain _ _ t s [] [] None) as [[[s1 bl] pl] ew]. cbn [fst] in H1.
  set (s1' := match ew with Some w => Append (container_of_value arg) w s1 | None => s1 end).
  replace (match ew with
           | Some w => (Append (container_of_value arg) w s1, bl, pl)
           | None => (s1, bl, pl)
           end) with (s1', bl, pl) by (subst s1'; by destruct ew).
  assert (H1' : field s1' = field s).
  { subst s1'. destruct ew; [|done]. by frame. }
  clearbody s1'.
  pose proof (frame_wake_pthread_waiters pl 0 s1') as H3.
  destruct (wake_pthread_waiters pl 0 s1') as [n s3]. cbn [snd] in H3.
  destruct bl as [|front bl']; [cbn [snd]; congruence|].
  pose proof (frame_ready_nosignal_each
                (get_task_group tls (control (waiter_at s3 front)))
                (rev (front :: bl')) n s3) as H5.
  destruct (ready_nosignal_each _ (rev (front :: bl')) n s3) as [n5 s5]. cbn [snd] in H5.
  case_decide; cbn [snd]; frame; congruence.
Qed.

Lemma frame_requeue_move b m :
  forall fuel s, field (requeue_move fuel b m s) = field s.
Proof.
  induction fuel as [|fuel IH]; intros s; cbn [requeue_move]; [done|].
  destruct (waiters _); [done|]. rewrite IH. by frame.
Qed.

Lemma frame_butex_requeue tls arg arg2 s n s' :
  butex_requeue tls arg arg2 s = Some (n, s') -> field s' = field s.
Proof.
  unfold butex_requeue, requeue_locked. case_decide; [done|].
  destruct (waiters _); [by intros [= _ <-]|].
  intros [= _ <-]. rewrite frame_dispatch_front, frame_requeue_move. by frame.
Qed.

Lemma frame_erase_locked bw s : field (erase_locked bw s) = field s.
Proof. unfold erase_locked. case_decide; by frame. Qed.

Lemma frame_erase_from_butex_loop env bw :
  Forall (keeps field) env ->
  forall s, field (snd (erase_from_butex_loop env bw s)) = field s.
Proof.
  induction 1 as [|f env Hf _ IH]; intros s; cbn [erase_from_butex_loop];
    destruct (container (waiter_at s bw)); cbn [snd]; try done;
    try apply frame_erase_locked.
  case_decide; cbn [snd]; [by rewrite frame_erase_locked, Hf | by rewrite IH, Hf].
Qed.

Lemma frame_erase_from_butex tls env bw wakeup s :
  Forall (keeps field) env ->
  field (snd (erase_from_butex tls env bw wakeup s)) = field s.
Proof.
  intros Henv. unfold erase_from_butex.
  pose proof (frame_erase_from_butex_loop env bw Henv s) as H.
  destruct (erase_from_butex_loop env bw s) as [erased s1]. cbn [snd] in *.
  rewrite <- H. frame. destruct (erased && wakeup); [|done].
  case_decide; [by frame | apply frame_wakeup_pthread].
Qed.

Lemma frame_wait_for_butex g bw s : field (wait_for_butex g bw s) = field s.
Proof.
  unfold wait_for_butex. destruct (_ && _); [by frame|].
  frame. case_decide; frame; apply frame_unsleep.
Qed.

Lemma frame_pthread_enter g b ev abstime now pw s :
  field (snd (butex_wait_from_pthread_enter g b ev abstime now pw s)) = field s.
Proof.
  unfold butex_wait_from_pthread_enter.
  destruct (match abstime with Some _ => _ | None => _ end); [cbn [snd]; by frame|].
  destruct g as [gp|].
  - destruct (interruptible _); [destruct (stop _)|]; try case_decide; cbn [snd]; by frame.
  - case_decide; cbn [snd]; by frame.
Qed.

Lemma frame_butex_wait_enter tls arg ev abstime now nid bbw pw s :
  field (snd (butex_wait_enter tls arg ev abstime now nid bbw pw s)) = field s.
Proof.
  unfold butex_wait_enter. case_decide; [cbn [snd]; by frame|].
  unfold butex_wait_checked.
  destruct tls as [g|]; [|apply frame_pthread_enter].
  destruct (is_current_pthread_task _); [apply frame_pthread_enter|].
  destruct abstime as [t|]; [|cbn [snd]; by frame].
  repeat case_decide; cbn [snd]; by frame.
Qed.

Lemma frame_unsleep_spin bbw env :
  Forall (keeps field) env ->
  forall s s1, unsleep_spin env bbw s = Some s1 -> field s1 = field s.
Proof.
  induction 1 as [|f env Hf _ IH]; intros s s1; cbn [unsleep_spin];
    pose proof (frame_unsleep bbw s) as Hu;
    destruct (unsleep_if_necessary bbw s) as [rc s0]; cbn [snd] in Hu;
    case_decide; try done; try (intros [= <-]; done).
  intros Hs. by rewrite (IH _ _ Hs), Hf.
Qed.

Lemma frame_take_current_waiter env :
  Forall (keeps field) env ->
  forall t s s1, take_current_waiter env t s = Some s1 -> field s1 = field s.
Proof.
  induction 1 as [|f env Hf _ IH]; intros t s s1; cbn [take_current_waiter];
    destruct (current_waiter (task_at s t)); try done;
    try (intros [= <-]; by frame).
  intros Hs. by rewrite (IH _ _ _ Hs), Hf.
Qed.

Lemma frame_butex_wait_result bbw s : field (snd (butex_wait_result bbw s)) = field s.
Proof.
  unfold butex_wait_result. destruct (stop _); [cbn [snd]; by frame|].
  repeat case_decide; cbn [snd]; by frame.
Qed.

Lemma frame_leave env task set_waiter rc s rc' s' :
  Forall (keeps field) env ->
  butex_wait_from_pthread_leave env task set_waiter rc s = Some (rc', s') ->
  field s' = field s.
Proof.
  intros Henv. unfold butex_wait_from_pthread_leave.
  destruct task as [t|]; [|by intros [= _ <-]].
  destruct set_waiter.
  - destruct (take_current_waiter env t s) as [s1|] eqn:H1; [|done].
    pose proof (frame_take_current_waiter env Henv _ _ _ H1).
    destruct (stop _); intros [= _ <-]; frame; done.
  - destruct (stop _); intros [= _ <-]; frame; done.
Qed.

Lemma frame_await_safe_to_destroy pw env :
  Forall (keeps field) env ->
  forall s s1, await_safe_to_destroy env pw s = Some s1 -> field s1 = field s.
Proof.
  induction 1 as [|f env Hf _ IH]; intros s s1; cbn [await_safe_to_destroy];
    case_decide; try done; try (by intros [= <-]).
  intros Hs. by rewrite (IH _ _ Hs), Hf.
Qed.

Lemma frame_wait_pthread tls pw futex erase_env spin_env :
  Forall (fun a => keeps field (meanwhile a)) futex ->
  Forall (keeps field) erase_env ->
  Forall (keeps field) spin_env ->
  forall s rc s1, wait_pthread tls futex erase_env spin_env pw s = Some (rc, s1) ->
  field s1 = field s.
Proof.
  intros Hfu He Hs. induction Hfu as [|a futex Ha _ IH]; intros s rc s1; [done|].
  cbn [wait_pthread]. unfold futex_wait_private.
  set (s0 := set_errno _ (meanwhile a s)).
  assert (H0 : field s0 = field s) by (subst s0; frame; apply Ha).
  case_decide; [by intros [= _ <-]|].
  case_decide; [|intros Hw; by rewrite (IH _ _ _ Hw)].
  pose proof (frame_erase_from_butex tls erase_env pw false s0 He) as Hcnt.
  destruct (erase_from_butex tls erase_env pw false s0) as [[] s2]; cbn [snd] in Hcnt.
  - intros [= _ <-]. congruence.
  - destruct (await_safe_to_destroy spin_env pw s2) as [s3|] eqn:H3; [|done].
    intros [= _ <-]. rewrite (frame_await_safe_to_destroy pw _ Hs _ _ H3). congruence.
Qed.

Lemma frame_butex_wait_rest tls E o s rc s' :
  every_turn (keeps field) E ->
  butex_wait_rest tls E o s = Some (rc, s') -> field s' = field s.
Proof.
  intros (E1 & E2 & E3 & E4 & E5 & E6 & E7).
  destruct o as [rc0|g bbw|pw task sw|task sw rc0]; cbn [butex_wait_rest].
  - by intros [= _ <-].
  - unfold butex_wait_resume.
    set (s2 := while_parked E _).
    assert (H2 : field s2 = field s).
    { subst s2. by rewrite E2, frame_wait_for_butex, E1. }
    destruct (unsleep_spin (timer_turns E) bbw s2) as [s3|] eqn:H3; [|done].
    destruct (take_current_waiter _ _ s3) as [s4|] eqn:H4; [|done].
    intros [= Hres].
    replace s' with (snd (butex_wait_result bbw (add_waiter_count (-1) s4)))
      by (by rewrite Hres).
    rewrite frame_butex_wait_result. frame.
    by rewrite (frame_take_current_waiter _ E4 _ _ _ H4), (frame_unsleep_spin _ _ E3 _ _ H3).
  - destruct (wait_pthread tls _ _ _ pw s) as [[rc1 s1]|] eqn:H1; [|done].
    intros Hl. rewrite (frame_leave _ _ _ _ _ _ _ E4 Hl). frame.
    by rewrite (frame_wait_pthread _ _ _ _ _ E5 E6 E7 _ _ _ H1).
  - intros Hl. by rewrite (frame_leave _ _ _ _ _ _ _ E4 Hl).
Qed.

Lemma frame_butex_wait tls arg ev abstime now nid bbw pw E s rc s' :
  every_turn (keeps field) E ->
  butex_wait tls arg ev abstime now nid bbw pw E s = Some (rc, s') -> field s' = field s.
Proof.
  intros HE. unfold butex_wait.
  pose proof (frame_butex_wait_enter tls arg ev abstime now nid bbw pw s) as Hin.
  destruct (butex_wait_enter _ _ _ _ _ _ _ _ s) as [o s1]. cbn [snd] in Hin.
  intros Hrest. by rewrite (frame_butex_wait_rest _ _ _ _ _ _ HE Hrest).
Qed.

Lemma frame_butex_destruct_spin env b :
  Forall (keeps field) env ->
  forall first s s1, butex_destruct_spin env b first s = Some s1 -> field s1 = field s.
Proof.
  induction 1 as [|f env Hf _ IH]; intros first s s1; cbn [butex_destruct_spin];
    case_decide; try done; try (by intros [= <-]).
  intros Hs. rewrite (IH _ _ _ Hs), Hf. destruct first; by frame.
Qed.

Lemma frame_butex_destruct env butex_memory s s' :
  Forall (keeps field) env ->
  butex_destruct env butex_memory s = Some s' -> field s' = field s.
Proof.
  intros Henv. destruct butex_memory as [b|]; cbn [butex_destruct]; [|by intros [= <-]].
  destruct (butex_destruct_spin env b true s) as [s1|] eqn:H1; [|done].
  intros [= <-]. frame. by eapply frame_butex_destruct_spin.
Qed.

End Frame.

Lemma framed_value b : framed (fun s => value (butex_at s b)).
Proof.
  unfold framed, Append. split_and!; intros; try done.
  rewrite butex_at_with_butex. by case_decide; subst.
Qed.

Lemma framed_unlock_nref b : framed (fun s => unlock_nref (butex_at s b)).
Proof.
  unfold framed, Append. split_and!; intros; try done.
  rewrite butex_at_with_butex. by case_decide; subst.
Qed.

Lemma framed_interruptible t : framed (fun s => interruptible (task_at s t)).
Proof.
  unfold framed. split_and!; intros; try done.
  rewrite task_at_with_task. by case_decide; subst.
Qed.

Lemma framed_stop t : framed (fun s => stop (task_at s t)).
Proof.
  unfold framed. split_and!; intros; try done.
  rewrite task_at_with_task. by case_decide; subst.
Qed.

Lemma value_remove_ref arg s b :
  value (butex_at (butex_remove_ref arg s) b) = value (butex_at s b).
Proof. unfold butex_remove_ref. rewrite butex_at_with_butex. by case_decide; subst. Qed.

(** X21.  The value word belongs to the user: nothing here writes it.
    Whatever the store and the arguments, the value word of every butex
    is the same after as before [butex_wake], [butex_wake_and_remove_ref],
    [butex_wake_all], [butex_wake_all_and_remove_ref],
    [butex_wake_except], [butex_requeue], [butex_add_ref_before_wake],
    [butex_remove_ref] and [butex_construct]; and after
    [butex_destruct], [erase_from_butex] and a whole [butex_wait], as far
    as these calls themselves go (the other threads, which run meanwhile,
    may store what they like). *)
Theorem value_word_is_not_written b :
  let word := fun s => value (butex_at s b) in
  (forall tls arg s, word (snd (butex_wake tls arg s)) = word s) /\
  (forall tls arg s, word (snd (butex_wake_and_remove_ref tls arg s)) = word s) /\
  (forall tls arg s, word (snd (butex_wake_all tls arg s)) = word s) /\
  (forall tls arg s, word (snd (butex_wake_all_and_remove_ref tls arg s)) = word s) /\
  (forall tls arg t s, word (snd (butex_wake_except tls arg t s)) = word s) /\
  (forall tls arg arg2 s n s',
     butex_requeue tls arg arg2 s = Some (n, s') -> word s' = word s) /\
  (forall arg s, word (butex_add_ref_before_wake arg s) = word s /\
                 word (butex_remove_ref arg s) = word s) /\
  (forall butex_memory s, word (snd (butex_construct butex_memory s)) = word s) /\
  (forall env butex_memory s s',
     Forall (keeps word) env -> butex_destruct env butex_memory s = Some s' ->
     word s' = word s) /\
  (forall tls env bw wakeup s,
     Forall (keeps word) env -> word (snd (erase_from_butex tls env bw wakeup s)) = word s) /\
  (forall tls arg expected abstime now new_sleep_id bbw pw E s rc s',
     every_turn (keeps word) E ->
     butex_wait tls arg expected abstime now new_sleep_id bbw pw E s = Some (rc, s') ->
     word s' = word s).
Proof.
  intros word. pose proof (framed_value b) as Hf. fold word in Hf.
  refine (conj _ (conj _ (conj _ (conj _ (conj _ (conj _ (conj _ (conj _ (conj _
           (conj _ _)))))))))).
  - intros. by apply frame_butex_wake.
  - intros. rewrite butex_wake_and_remove_ref_eq. cbn [snd]. subst word. cbv beta.
    rewrite value_remove_ref. by apply (frame_butex_wake _ Hf).
  - intros. by apply frame_butex_wake_all.
  - intros. rewrite butex_wake_all_and_remove_ref_eq. cbn [snd]. subst word. cbv beta.
    rewrite value_remove_ref. by apply (frame_butex_wake_all _ Hf).
  - intros. by apply frame_butex_wake_except.
  - intros tls arg arg2 s n s'. by apply frame_butex_requeue.
  - intros arg s. subst word. cbv beta. split; [|apply value_remove_ref].
    unfold butex_add_ref_before_wake. rewrite butex_at_with_butex. by case_decide; subst.
  - intros m s. subst word. cbv beta. unfold butex_construct. cbn [snd].
    rewrite butex_at_with_butex. by case_decide; subst.
  - intros env m s s'. by apply frame_butex_destruct.
  - intros. by apply frame_erase_from_butex.
  - intros tls arg expected abstime now nid bbw pw E s rc s' HE.
    by apply (frame_butex_wait _ Hf).
Qed.

(** X22.  [butex_wait_uninterruptible] puts the caller's [interruptible]
    flag back: when the call returns, every task's flag, the caller's
    included, is what it was at the call (the others leaving the flags
    alone meanwhile); and so is every task's [stop] flag, which a wait
    never writes. *)
Theorem butex_wait_uninterruptible_restores tls arg expected abstime now new_sleep_id
        bbw pw E s rc s' :
  (forall t, every_turn (keeps (fun s0 => interruptible (task_at s0 t))) E) ->
  (forall t, every_turn (keeps (fun s0 => stop (task_at s0 t))) E) ->
  butex_wait_uninterruptible tls arg expected abstime now new_sleep_id bbw pw E s
  = Some (rc, s') ->
  forall t, interruptible (task_at s' t) = interruptible (task_at s t) /\
            stop (task_at s' t) = stop (task_at s t).
Proof.
  intros HEi HEs. unfold butex_wait_uninterruptible.
  destruct tls as [g|].
  - set (caller := current_task (group_at s g)).
    set (s1 := with_task caller (set_interruptible false) s).
    destruct (butex_wait (Some g) arg expected abstime now new_sleep_id bbw pw E s1)
      as [[rc2 s2]|] eqn:Hw; [|done].
    intros [= <- <-] t.
    pose proof (frame_butex_wait _ (framed_interruptible t) _ _ _ _ _ _ _ _ _ _ _ _
                  (HEi t) Hw) as Hi.
    pose proof (frame_butex_wait _ (framed_stop t) _ _ _ _ _ _ _ _ _ _ _ _
                  (HEs t) Hw) as Hs.
    cbv beta in Hi, Hs. rewrite task_at_with_task.
    subst s1. rewrite task_at_with_task in Hi, Hs.
    destruct (decide (caller = t)) as [<-|Hne]; cbn in *; by rewrite ?Hi, ?Hs.
  - destruct (butex_wait None arg expected abstime now new_sleep_id bbw pw E s)
      as [[rc2 s2]|] eqn:Hw; [|done].
    intros [= <- <-] t.
    pose proof (frame_butex_wait _ (framed_interruptible t) _ _ _ _ _ _ _ _ _ _ _ _
                  (HEi t) Hw) as Hi.
    pose proof (frame_butex_wait _ (framed_stop t) _ _ _ _ _ _ _ _ _ _ _ _
                  (HEs t) Hw) as Hs.
    by split.
Qed.

(** X23.  An uninterruptible wait of a stopped task is not turned away:
    a stopped bthread that calls [butex_wait_uninterruptible] without a
    deadline, on a matching value word and an empty queue, is queued, and
    comes back only when a wake has taken its waiter, the trace being the
    waiter's call of the scheduler followed by the waker's hand-over.
    Then it returns -1 with ESTOP all the same, [stop] being looked at on
    the way out whatever [interruptible] says.  Its [interruptible] flag
    is what it was at the call, every queue and the waiter counter as
    well. *)
Theorem uninterruptible_wait_of_stopped_task g tlsA arg expected v' now new_sleep_id
        bbw pw tt st fw et wt s :
  let b := container_of_value arg in
  let G := group_at s g in
  let T := task_at s (current_task G) in
  let E := mkOthers (fun s0 => s0)
             (fun s0 => snd (butex_wake tlsA arg (with_butex b (set_value v') s0)))
             tt st fw et wt in
  is_current_pthread_task G = false ->
  current_tid G <> 0 ->
  stop T = true ->
  value (butex_at s b) = expected ->
  (forall b', bbw ∉ waiters (butex_at s b')) ->
  waiters (butex_at s b) = [] ->
  exists s',
    butex_wait_uninterruptible (Some g) arg expected None now new_sleep_id bbw pw E s
    = Some (-1, s') /\
    errno s' = ESTOP /\
    trace s' = trace s ++ [set_remained_and_sched g bbw;
                           match tlsA with
                           | Some gA => TaskGroup_exchange gA (current_tid G)
                           | None => ready_to_run (choose_one_group (group_control G))
                                                  (current_tid G)
                           end] /\
    (forall b', waiters (butex_at s' b') = waiters (butex_at s b')) /\
    container (waiter_at s' bbw) = None /\
    interruptible (task_at s' (current_task G)) = interruptible T /\
    stop (task_at s' (current_task G)) = true /\
    butex_waiter_count s' = butex_waiter_count s.
Proof.
  intros b G T E Hp Htid Hstop Hv Hfresh Hq.
  unfold butex_wait_uninterruptible. fold G.
  set (s1 := with_task (current_task G) (set_interruptible false) s).
  assert (HT1 : task_at s1 (current_task G) = set_interruptible false T).
  { subst s1. by rewrite task_at_with_task, decide_True. }
  destruct (bthread_woken g tlsA arg expected v' now new_sleep_id bbw pw tt st fw et wt s1)
    as (s2 & H1 & H2 & H3 & H4 & _ & H6 & H7 & H8); try done.
  { change (group_at s1 g) with G. rewrite HT1. by right. }
  change (group_at s1 g) with G in H1, H2, H6, H8.
  rewrite HT1 in H1, H2, H6. cbn [stop set_interruptible] in H1, H2.
  rewrite Hstop in H1. fold b E in H1. rewrite H1.
  eexists. split; [done|].
  cbn [errno trace butex_at waiter_at butex_waiter_count with_task].
  refine (conj (H2 Hstop) (conj H8 (conj H3 (conj H4 (conj _ (conj _ H7)))))).
  - rewrite task_at_with_task, decide_True by done. done.
  - rewrite task_at_with_task, decide_True by done. cbn.
    rewrite H6, decide_True by done. cbn. exact Hstop.
Qed.

(** ** First come, first served *)

Lemma butex_wake_pops tls arg s x l :
  wf s -> waiters (butex_at s (container_of_value arg)) = x :: l ->
  let s' := snd (butex_wake tls arg s) in
  wf s' /\ waiters (butex_at s' (container_of_value arg)) = l /\
  container (waiter_at s' x) = None /\
  (forall w, w <> x -> container (waiter_at s' w) = container (waiter_at s w)) /\
  fst (butex_wake tls arg s) = 1.
Proof.
  intros Hwf Hq s'. subst s'.
  pose proof (butex_wake_wf tls arg s Hwf) as Hwf'.
  unfold butex_wake, butex_wake_locked in *. rewrite Hq in *. cbn [fst snd] in *.
  destruct (pop_head_effect s _ x l Hwf Hq) as (Hb & _ & Hc & Hw & _).
  destruct (same_queues_dispatch_front tls x
              (with_waiter x (set_container None) (RemoveFromList x s)))
    as (Ql & Qc & _).
  refine (conj Hwf' (conj _ (conj _ (conj _ eq_refl)))).
  - by rewrite Ql.
  - by rewrite Qc.
  - intros w Hne. rewrite Qc. by rewrite Hw.
Qed.

(** X24.  The queue is served in order.  On a well-formed store, a
    waiter with [n] waiters before it in the queue is still queued, and
    at the head, after [n] calls of [butex_wake]; the next call takes it.
    With [wait_for_butex] queueing at the tail, a waiter is woken after
    those that were queued before it and before those queued after it. *)
Theorem butex_wake_is_first_come_first_served tls arg s before w after :
  wf s ->
  waiters (butex_at s (container_of_value arg)) = before ++ w :: after ->
  let s' := butex_wake_times (length before) tls arg s in
  waiters (butex_at s' (container_of_value arg)) = w :: after /\
  container (waiter_at s' w) = Some (container_of_value arg) /\
  fst (butex_wake tls arg s') = 1 /\
  container (waiter_at (snd (butex_wake tls arg s')) w) = None /\
  waiters (butex_at (snd (butex_wake tls arg s')) (container_of_value arg)) = after.
Proof.
  revert s. induction before as [|x before IH]; intros s Hwf Hq; cbn [length butex_wake_times].
  - cbn [app] in Hq. cbv zeta.
    destruct (butex_wake_pops tls arg s w after Hwf Hq) as (_ & H2 & H3 & _ & H5).
    split_and!; try done. apply Hwf. rewrite Hq. apply list_elem_of_here.
  - cbn [app] in Hq.
    destruct (butex_wake_pops tls arg s x (before ++ w :: after) Hwf Hq)
      as (H1 & H2 & _). by apply IH.
Qed.

(** ** The pthread path *)

(** X25.  ESTOP has priority on the pthread path as well.  The last
    stretch of [butex_wait_from_pthread], from [if (task)] on, returns:
    at once when the caller did not publish its waiter, and otherwise
    once the waiter is in [current_waiter], put back by a stopper that
    had taken it if need be.  Called from within a task, the task's
    [stop] flag decides what it returns: set, -1 with ESTOP, whatever
    the wait itself came to (woken, timed out, value changed) and
    whether the task is interruptible or not; clear, what the wait came
    to.  Called from no task, it returns what the wait came to and
    leaves the store as it is. *)
Theorem pthread_wait_result_order env task set_waiter rc s :
  match task with
  | Some t =>
      ((set_waiter = true ->
        current_waiter (task_at s t) <> None \/ Exists (gives_back t) env) ->
       exists rc' s',
         butex_wait_from_pthread_leave env task set_waiter rc s = Some (rc', s')) /\
      (forall rc' s',
         butex_wait_from_pthread_leave env task set_waiter rc s = Some (rc', s') ->
         (stop (task_at s' t) = true -> rc' = -1 /\ errno s' = ESTOP) /\
         (stop (task_at s' t) = false -> rc' = rc) /\
         (set_waiter = true -> current_waiter (task_at s' t) = None))
  | None => butex_wait_from_pthread_leave env task set_waiter rc s = Some (rc, s)
  end.
Proof.
  unfold butex_wait_from_pthread_leave. destruct task as [t|]; [|done]. split.
  - intros Hback.
    assert (Hs1 : exists s1,
      (if set_waiter then take_current_waiter env t s else Some s) = Some s1).
    { destruct set_waiter; [|by eexists]. by apply take_current_waiter_ends, Hback. }
    destruct Hs1 as (s1 & ->). destruct (stop (task_at s1 t)); by eexists _, _.
  - intros rc' s'.
    destruct (if set_waiter then take_current_waiter env t s else Some s) as [s1|] eqn:H1;
      [|done].
    assert (Hcw : set_waiter = true -> current_waiter (task_at s1 t) = None).
    { intros ->. by eapply take_current_waiter_takes. }
    destruct (stop (task_at s1 t)) eqn:Hs; intros [= <- <-];
      cbn [task_at set_errno errno]; rewrite Hs; by split_and!.
Qed.

(** X26.  A plain pthread waits on a butex with an empty queue whose
    value word holds the expected value.  If, while it sleeps in the
    kernel, another thread stores a new value and calls [butex_wake], and
    the futex call then returns 0, the wait returns 0: the waker has set
    [sig] to SAFE_TO_DESTROY and issued one futex wake on it.  If instead
    the futex call fails with ETIMEDOUT and nobody has come, the wait
    takes its waiter off the queue itself and returns -1 with ETIMEDOUT,
    having woken nobody.  Either way every queue, the waiter counter and
    the rest of the trace are as at the call, and the waiter is tagged
    with no butex. *)
Theorem pthread_wait_round_trips tlsA arg expected v' t now new_sleep_id bbw pw
        bq wp tt st et wt s :
  let b := container_of_value arg in
  let woken := mkOthers bq wp tt st
      [mkFutexWait (fun s0 => snd (butex_wake tlsA arg (with_butex b (set_value v') s0)))
                   0 0] et wt in
  let timed_out := mkOthers bq wp tt st
      [mkFutexWait (fun s0 => s0) (-1) ETIMEDOUT] [] wt in
  value (butex_at s b) = expected ->
  (forall b', pw ∉ waiters (butex_at s b')) ->
  waiters (butex_at s b) = [] ->
  (exists s',
     butex_wait None arg expected None now new_sleep_id bbw pw woken s = Some (0, s') /\
     sig (waiter_at s' pw) = SAFE_TO_DESTROY /\
     container (waiter_at s' pw) = None /\
     (forall b', waiters (butex_at s' b') = waiters (butex_at s b')) /\
     butex_waiter_count s' = butex_waiter_count s /\
     errno s' = errno s /\
     trace s' = trace s ++ [futex_wake_private pw 1]) /\
  (timespec_to_microseconds t - now > LEAST_SLEEP_US ->
   exists s',
     butex_wait None arg expected (Some t) now new_sleep_id bbw pw timed_out s
     = Some (-1, s') /\
     errno s' = ETIMEDOUT /\
     sig (waiter_at s' pw) = NOT_SIGNALLED /\
     container (waiter_at s' pw) = None /\
     (forall b', waiters (butex_at s' b') = waiters (butex_at s b')) /\
     butex_waiter_count s' = butex_waiter_count s /\
     trace s' = trace s).
Proof.
  intros b woken timed_out Hv Hfresh Hq.
  set (W1 := set_sig NOT_SIGNALLED (set_tid 0 (waiter_at s pw))).
  set (s1 := with_waiter pw (fun W => set_sig NOT_SIGNALLED (set_tid 0 W)) s).
  set (sS := add_waiter_count 1 (with_waiter pw (set_container (Some b)) (Append b pw s1))).
  assert (HWS : waiter_at sS pw = set_container (Some b) W1).
  { subst sS. cbn [waiter_at add_waiter_count]. rewrite waiter_at_with_waiter_eq.
    cbn [waiter_at Append with_butex]. subst s1. by rewrite waiter_at_with_waiter_eq. }
  assert (HqS : forall b', waiters (butex_at sS b')
                = if decide (b = b') then [pw] else waiters (butex_at s b')).
  { intros b'. subst sS. cbn [butex_at add_waiter_count].
    rewrite butex_at_with_waiter, waiters_Append.
    change (butex_at s1) with (butex_at s). case_decide; [by rewrite Hq | done]. }
  assert (Henter : forall abstime,
    match abstime with
    | Some t0 => timespec_to_microseconds t0 - now > LEAST_SLEEP_US
    | None => True
    end ->
    butex_wait_enter None arg expected abstime now new_sleep_id bbw pw s
    = (Sleeping pw None false, sS)).
  { intros abstime Hab. unfold butex_wait_enter. fold b.
    rewrite decide_False by (intros ?; done).
    unfold butex_wait_checked, butex_wait_from_pthread_enter. fold b.
    replace (match abstime with
             | Some t0 => bool_decide (timespec_to_microseconds t0 - now <= LEAST_SLEEP_US)
             | None => false
             end) with false
      by (destruct abstime; [by rewrite bool_decide_eq_false_2 by lia | done]).
    fold s1. change (butex_at s1) with (butex_at s). by rewrite decide_True. }
  split.
  - unfold butex_wait. rewrite (Henter None I).
    cbn [butex_wait_rest woken futex_waits eraser_turns waker_turns stopper_turns
         wait_pthread futex_wait_private meanwhile futex_rc futex_errno].
    rewrite (decide_True (P := 0 = 0)) by done.
    set (s2 := with_butex b (set_value v') sS).
    assert (Hq2 : waiters (butex_at s2 b) = [pw]).
    { subst s2. rewrite butex_at_with_butex, decide_True by done. cbn [waiters set_value].
      by rewrite HqS, decide_True. }
    unfold butex_wake, butex_wake_locked. fold b. rewrite Hq2. cbn [snd].
    set (s3 := with_waiter pw (set_container None) (RemoveFromList pw s2)).
    assert (HW3 : waiter_at s3 pw = set_container None W1).
    { subst s3. rewrite waiter_at_with_waiter_eq, waiter_at_RemoveFromList.
      subst s2. cbn [waiter_at with_butex]. rewrite HWS. done. }
    unfold dispatch_front. rewrite HW3. cbn [tid W1 set_sig set_tid set_container].
    rewrite (decide_True (P := 0 = 0)) by done. unfold wakeup_pthread.
    set (s4 := set_errno (errno sS) (call _ (with_waiter pw (set_sig SAFE_TO_DESTROY) s3))).
    assert (HW4 : waiter_at s4 pw = set_sig SAFE_TO_DESTROY (set_container None W1)).
    { subst s4. cbn [waiter_at set_errno call]. by rewrite waiter_at_with_waiter_eq, HW3. }
    rewrite HW4. cbn [sig set_sig]. rewrite decide_True by done.
    cbn [butex_wait_from_pthread_leave].
    eexists. split; [done|].
    cbn [waiter_at butex_at butex_waiter_count errno trace add_waiter_count].
    refine (conj _ (conj _ (conj _ (conj _ (conj _ _))))).
    + by rewrite HW4.
    + by rewrite HW4.
    + intros b'. subst s4. cbn [butex_at set_errno call].
      rewrite butex_at_with_waiter. subst s3.
      rewrite butex_at_with_waiter, waiters_RemoveFromList.
      subst s2. rewrite butex_at_with_butex.
      destruct (decide (b = b')) as [<-|Hne].
      * cbn [waiters set_value]. rewrite HqS, decide_True, Hq by done. cbn.
        by rewrite decide_False by (intros ?; done).
      * rewrite HqS, decide_False by done. apply filter_ne_fresh, Hfresh.
    + subst s4 s3 s2 sS. cbn. lia.
    + done.
    + subst s4 s3 s2 sS s1. cbn. done.
  - intros Ht. unfold butex_wait. rewrite (Henter (Some t) Ht).
    cbn [butex_wait_rest timed_out futex_waits eraser_turns waker_turns stopper_turns
         wait_pthread futex_wait_private meanwhile futex_rc futex_errno].
    rewrite (decide_False (P := -1 = 0)) by done.
    set (s2 := set_errno ETIMEDOUT sS).
    assert (HW2 : waiter_at s2 pw = set_container (Some b) W1) by exact HWS.
    rewrite HW2. cbn [sig set_container W1 set_sig].
    rewrite decide_False by (intros ?; done).
    rewrite decide_True by (split; [lia | done]).
    rewrite erase_from_butex_alone by (rewrite HW2; done).
    cbn [butex_wait_from_pthread_leave].
    eexists. split; [done|].
    cbn [waiter_at butex_at butex_waiter_count errno trace add_waiter_count set_errno].
    destruct (erase_locked_effect pw s2) as (El & Ec & _ & _ & _).
    assert (Hsig : sig (waiter_at (erase_locked pw s2) pw) = NOT_SIGNALLED).
    { unfold erase_locked. rewrite waiter_at_with_waiter_eq, waiter_at_RemoveFromList, HW2.
      cbn [tid set_container W1 set_sig set_tid]. rewrite decide_False by (intros ?; done).
      by rewrite waiter_at_with_waiter_eq, waiter_at_RemoveFromList, HW2. }
    refine (conj eq_refl (conj Hsig (conj Ec (conj _ (conj _ _))))).
    + intros b'. rewrite El. change (butex_at s2) with (butex_at sS). rewrite HqS.
      case_decide; subst.
      * cbn. rewrite decide_False by (intros ?; done). by rewrite Hq.
      * apply filter_ne_fresh, Hfresh.
    + rewrite count_erase_locked. subst s2 sS. cbn. lia.
    + rewrite trace_erase_locked. done.
Qed.

End Runtime.

(** ** The theorems at work on the sample stores *)

Local Abbreviation us := (fun x : Z => x).

Lemma busy_store_one_wait_per_bthread : one_wait_per_bthread busy_store.
Proof.
  intros b1 b2 w1 w2 H1 H2 Ht Hne. cbn in H1, H2. unfold queue_of in H1, H2.
  repeat case_decide; subst;
    repeat (apply elem_of_cons in H1 as [->|H1]); try (by apply elem_of_nil in H1);
    repeat (apply elem_of_cons in H2 as [->|H2]); try (by apply elem_of_nil in H2);
    try done; vm_compute in Ht, Hne; congruence.
Qed.

(** [butex_wake] on butex 100: the pthread waiter 1 leaves the queue and
    gets its futex wake. *)
Lemma butex_wake_one_witness :
  wf busy_store /\
  exists s', butex_wake quiet_timer only_group clobbering None 100 busy_store = (1, s') /\
    waiters (butex_at s' 100) = [2] /\
    container (waiter_at s' 1) = None /\
    trace s' = [futex_wake_private 1 1] /\
    sig (waiter_at s' 1) = SAFE_TO_DESTROY.
Proof.
  split; [exact busy_store_wf|].
  destruct (butex_wake_one quiet_timer only_group clobbering None 100 busy_store
              busy_store_wf) as (s' & H1 & H2 & _ & H4 & _ & H6 & H7).
  exists s'. split_and!; [exact H1 | exact H2 | exact H4 | exact H6 | by apply H7].
Defined.

(** [butex_requeue] from butex 100 to butex 200: waiter 1 is woken,
    waiter 2 goes behind waiter 3. *)
Lemma butex_requeue_moves_witness :
  100 <> 200 /\ wf busy_store /\
  exists s', butex_requeue quiet_timer only_group clobbering None 100 200 busy_store
             = Some (1, s') /\
    waiters (butex_at s' 100) = [] /\
    waiters (butex_at s' 200) = [3; 2] /\
    container (waiter_at s' 2) = Some 200 /\
    container (waiter_at s' 1) = None.
Proof.
  assert (Hne : 100 <> 200) by lia.
  split; [exact Hne|]. split; [exact busy_store_wf|].
  destruct (butex_requeue_moves quiet_timer only_group clobbering None 100 200 busy_store
              Hne busy_store_wf) as (s' & H1 & H2 & H3 & _ & H5 & H6 & _).
  exists s'. split_and!; [exact H1 | exact H2 | exact H3 | | exact H6].
  apply H5, list_elem_of_here.
Defined.

(** The invariant after [butex_wake_except] on butex 100 with tid 42
    excluded: waiter 2 is back in the queue, still tagged, and no
    bthread has two waiters queued.  With two pthread waiters in the
    queue and tid 0 excluded, both are woken and the store is well
    formed. *)
Lemma container_invariant_kept_witness :
  wf busy_store /\ one_wait_per_bthread busy_store /\
  one_waiter_per_tid 100 42 busy_store /\
  wf (snd (butex_wake_except quiet_timer only_group clobbering None 100 42 busy_store)) /\
  waiters (butex_at
             (snd (butex_wake_except quiet_timer only_group clobbering None 100 42
                     busy_store)) 100) = [2] /\
  container (waiter_at
               (snd (butex_wake_except quiet_timer only_group clobbering None 100 42
                       busy_store)) 2) = Some 100 /\
  one_wait_per_bthread
    (snd (butex_wake_except quiet_timer only_group clobbering None 100 42 busy_store)) /\
  wf (snd (butex_wake_all quiet_timer only_group clobbering None 200 busy_store)) /\
  wf pthread_pair_store /\
  wf (snd (butex_wake_except quiet_timer only_group clobbering None 100 0
             pthread_pair_store)) /\
  waiters (butex_at
             (snd (butex_wake_except quiet_timer only_group clobbering None 100 0
                     pthread_pair_store)) 100) = [].
Proof.
  destruct (container_invariant_kept quiet_timer only_group clobbering Z us)
    as (_ & _ & _ & _ & Hall & Hexc & _ & _ & Hper & Hzero & _ & _ & _ & _ & Hkept & _).
  pose proof (Hper busy_store busy_store_one_wait_per_bthread 100 42) as Hone.
  split; [exact busy_store_wf|]. split; [exact busy_store_one_wait_per_bthread|].
  split; [exact Hone|].
  destruct (Hexc None 100 42 busy_store busy_store_wf Hone) as (Hwf & Hback).
  destruct (Hback 2) as (H1 & H2); [|reflexivity|lia|].
  { apply list_elem_of_further, list_elem_of_here. }
  split_and!;
    [exact Hwf | exact H1 | exact H2
    | exact (Hkept None 100 42 busy_store busy_store_one_wait_per_bthread)
    | exact (Hall None 200 busy_store busy_store_wf)
    | exact pthread_pair_store_wf
    | exact (proj2 (Hzero None 100 pthread_pair_store pthread_pair_store_wf))
    | reflexivity].
Defined.

(** [erase_from_butex] on the queued waiter 2: erased from butex 100,
    [errno] as before although the wake-up call overwrote it. *)
Lemma erase_from_butex_contract_witness :
  wf busy_store /\ container (waiter_at busy_store 2) = Some 100 /\
  (exists s', erase_from_butex only_group clobbering None [] 2 true busy_store = (true, s') /\
     waiters (butex_at s' 100) = [1]) /\
  errno (snd (erase_from_butex only_group clobbering None [] 2 true busy_store))
  = errno busy_store.
Proof.
  split; [exact busy_store_wf|]. split; [reflexivity|].
  destruct (erase_from_butex_contract only_group clobbering None [] 2 true busy_store)
    as (_ & _ & Herase & Herrno).
  split; [|exact Herrno].
  destruct (Herase 100 busy_store_wf eq_refl) as (s' & H1 & H2 & _).
  exists s'. split; [exact H1 | exact H2].
Defined.

(** Task 9 runs again while the timer thread is still in the callback
    of its waiter 50 and a stopper holds the waiter: the wait returns
    after two turns of its first loop and one of its second.  Stopped,
    it gets ESTOP though the waiter has timed out; not stopped, it gets
    ETIMEDOUT for a waiter timed out, EWOULDBLOCK for one cancelled, and
    0 for one that was woken. *)
Lemma butex_wait_result_order_witness :
  (forall stopped st,
     callback_over_within (stubborn_timer 2) 2
       (sleep_id (waiter_at (resumed_store stopped st) 50)) (resumed_store stopped st)) /\
  (2 <= length [fun s : State => s; fun s : State => s])%nat /\
  Forall adds_to_trace [fun s : State => s; fun s : State => s] /\
  Forall (keeps_timer 50) [fun s : State => s; fun s : State => s] /\
  Exists (gives_back 9) [stopper_done] /\
  (exists s',
     butex_wait_resume (stubborn_timer 2) clobbering [fun s => s; fun s => s]
       [stopper_done] 50 (resumed_store true WAITER_STATE_TIMEDOUT) = Some (-1, s') /\
     errno s' = ESTOP) /\
  (exists s',
     butex_wait_resume (stubborn_timer 2) clobbering [fun s => s; fun s => s]
       [stopper_done] 50 (resumed_store false WAITER_STATE_TIMEDOUT) = Some (-1, s') /\
     errno s' = ETIMEDOUT) /\
  (exists s',
     butex_wait_resume (stubborn_timer 2) clobbering [fun s => s; fun s => s]
       [stopper_done] 50 (resumed_store false WAITER_STATE_CANCELLED) = Some (-1, s') /\
     errno s' = EWOULDBLOCK) /\
  (exists s',
     butex_wait_resume (stubborn_timer 2) clobbering [fun s => s; fun s => s]
       [stopper_done] 50 (resumed_store false WAITER_STATE_NONE) = Some (0, s') /\
     trace s' = [timer_unschedule 5; timer_unschedule 5; timer_unschedule 5]).
Proof.
  assert (H1 : forall stopped st,
             callback_over_within (stubborn_timer 2) 2
               (sleep_id (waiter_at (resumed_store stopped st) 50))
               (resumed_store stopped st)).
  { intros stopped st tr Htr. unfold stubborn_timer.
    cbn [trace resumed_store] in Htr. cbn in Htr. case_decide; lia. }
  assert (H2 : (2 <= length [fun s : State => s; fun s : State => s])%nat)
    by (cbn; lia).
  assert (H3 : Forall adds_to_trace [fun s : State => s; fun s : State => s])
    by (repeat constructor).
  assert (H4 : Forall (keeps_timer 50) [fun s : State => s; fun s : State => s])
    by (repeat constructor).
  assert (H5 : Exists (gives_back 9) [stopper_done]).
  { apply List.Exists_cons_hd. intros s. unfold stopper_done. cbn.
    rewrite insert_at, decide_True by done. discriminate. }
  refine (conj H1 (conj H2 (conj H3 (conj H4 (conj H5 _))))).
  pose proof (fun stopped st =>
    butex_wait_result_order (stubborn_timer 2) clobbering
      [fun s => s; fun s => s] [stopper_done] 50 (resumed_store stopped st))
    as Hthm.
  refine (conj _ (conj _ (conj _ _))).
  - destruct (Hthm true WAITER_STATE_TIMEDOUT) as [Hret Hord].
    destruct (Hret 2%nat (H1 _ _) H2 H3 H4 (or_introl H5)) as (rc & s' & Hrun).
    destruct (Hord rc s' Hrun) as (Hstop & _).
    pose proof Hrun as Hc. vm_compute in Hc. injection Hc as <- <-.
    eexists. split; [exact Hrun|]. apply Hstop. reflexivity.
  - destruct (Hthm false WAITER_STATE_TIMEDOUT) as [Hret Hord].
    destruct (Hret 2%nat (H1 _ _) H2 H3 H4 (or_introl H5)) as (rc & s' & Hrun).
    destruct (Hord rc s' Hrun) as (_ & Htimed & _).
    pose proof Hrun as Hc. vm_compute in Hc. injection Hc as <- <-.
    eexists. split; [exact Hrun|]. apply Htimed; reflexivity.
  - destruct (Hthm false WAITER_STATE_CANCELLED) as [Hret Hord].
    destruct (Hret 2%nat (H1 _ _) H2 H3 H4 (or_introl H5)) as (rc & s' & Hrun).
    destruct (Hord rc s' Hrun) as (_ & _ & Hcancelled & _).
    pose proof Hrun as Hc. vm_compute in Hc. injection Hc as <- <-.
    eexists. split; [exact Hrun|]. apply Hcancelled; reflexivity.
  - destruct (Hthm false WAITER_STATE_NONE) as [Hret Hord].
    destruct (Hret 2%nat (H1 _ _) H2 H3 H4 (or_introl H5)) as (rc & s' & Hrun).
    pose proof Hrun as Hc. vm_compute in Hc. injection Hc as <- <-.
    eexists. split; [exact Hrun | reflexivity].
Defined.

(** A deadline one microsecond away, on a matching value word: from a
    plain pthread, and from a bthread (group 7), whose on-stack waiter 50
    is left in no list. *)
Lemma wait_deadline_too_close_witness :
  value (butex_at empty_store (container_of_value 100)) = 0 /\
  value (butex_at (task_store false false) (container_of_value 100)) = 0 /\
  us 1001 - 1000 <= LEAST_SLEEP_US /\
  (fst (butex_wait_enter clobbering Z us None 100 0 (Some 1001) 1000 5 50 51 empty_store)
   = Returned (-1) /\
   errno (snd (butex_wait_enter clobbering Z us None 100 0 (Some 1001) 1000 5 50 51
                 empty_store)) = ETIMEDOUT) /\
  (fst (butex_wait_enter clobbering Z us (Some 7) 100 0 (Some 1001) 1000 5 50 51
          (task_store false false)) = Returned (-1) /\
   errno (snd (butex_wait_enter clobbering Z us (Some 7) 100 0 (Some 1001) 1000 5 50 51
                 (task_store false false))) = ETIMEDOUT /\
   butex_at (snd (butex_wait_enter clobbering Z us (Some 7) 100 0 (Some 1001) 1000 5
                    50 51 (task_store false false)))
   = butex_at (task_store false false)).
Proof.
  assert (H1 : value (butex_at empty_store (container_of_value 100)) = 0) by reflexivity.
  assert (H1' : value (butex_at (task_store false false) (container_of_value 100)) = 0)
    by reflexivity.
  assert (H2 : us 1001 - 1000 <= LEAST_SLEEP_US) by (unfold LEAST_SLEEP_US; lia).
  split; [exact H1|]. split; [exact H1'|]. split; [exact H2|].
  destruct (wait_deadline_too_close clobbering Z us None 100 0 1001 1000 5 50 51
              empty_store H1 H2) as (H3 & H4 & _).
  destruct (wait_deadline_too_close clobbering Z us (Some 7) 100 0 1001 1000 5 50 51
              (task_store false false) H1' H2) as (H5 & H6 & H7 & _).
  split; [split; [exact H3 | exact H4] | split; [exact H5 | split; [exact H6 | exact H7]]].
Defined.

(** A stopped, interruptible task in pthread mode, waiting without a
    deadline. *)
Lemma pthread_wait_stopped_at_entry_witness :
  interruptible (task_at (task_store true true)
                   (current_task (group_at (task_store true true) 7))) = true /\
  stop (task_at (task_store true true)
          (current_task (group_at (task_store true true) 7))) = true /\
  fst (butex_wait_from_pthread_enter Z us (Some 7) 100 0 None 1000 51
         (task_store true true)) = Returned (-1) /\
  errno (snd (butex_wait_from_pthread_enter Z us (Some 7) 100 0 None 1000 51
                (task_store true true))) = ESTOP.
Proof.
  split; [reflexivity|]. split; [reflexivity|].
  destruct (pthread_wait_stopped_at_entry Z us 7 100 0 None 1000 51
              (task_store true true) I eq_refl eq_refl) as (H1 & H2 & _).
  split; [exact H1 | exact H2].
Defined.


(** The same threads with A's store and wake falling between B's look at
    the value and B's turn under the lock: B is not queued and comes back
    with EWOULDBLOCK. *)
Example late_waiter_sees_new_value :
  let c := run quiet_timer only_group clobbering Z us None (Some 7) 100 0 1 50 51
             [Waiter; Waiter; Waker; Waker; Waiter; Waiter]
             (start (task_store false false)) in
  pcA c = A_done 0 None /\ pcB c = B_done (-1) /\ errnoB c = EWOULDBLOCK /\
  waiters (butex_at (mem c) 100) = [].
Proof. cbv zeta. split_and!; vm_compute; reflexivity. Qed.

(** A pthread waiter that goes to sleep in the kernel before A's futex
    wake comes back with 0. *)
Example pthread_waiter_woken_from_sleep :
  let c := run quiet_timer only_group clobbering Z us None None 100 0 1 50 51
             [Waiter; Waiter; Waiter; Waker; Waker; Waker; Waker;
              Waiter; Waiter; Waiter; Waiter]
             (start (valued_store 0)) in
  pcA c = A_done 1 (Some 51) /\ pcB c = B_done 0 /\
  sig (waiter_at (mem c) 51) = SAFE_TO_DESTROY.
Proof. cbv zeta. split_and!; vm_compute; reflexivity. Qed.

(** A pthread waiter whose [sig] is already set when it reaches the
    kernel does not sleep: [futex_wait] fails with EAGAIN, and the waiter
    hands that -1 on although it was found and signalled. *)
Example pthread_waiter_signalled_before_sleep :
  let c := run quiet_timer only_group clobbering Z us None None 100 0 1 50 51
             [Waiter; Waiter; Waker; Waker; Waker; Waiter; Waiter; Waiter;
              Waiter; Waker]
             (start (valued_store 0)) in
  pcA c = A_done 1 (Some 51) /\ pcB c = B_done (-1) /\ errnoB c = EWOULDBLOCK.
Proof. cbv zeta. split_and!; vm_compute; reflexivity. Qed.

(** ** Where the specification says more than the code does *)


(** C6 as stated.  The value word is 5, the caller expects 7, and the
    deadline has passed: the call returns EWOULDBLOCK, not ETIMEDOUT. *)
Lemma mismatch_comes_before_deadline :
  us 1000 - 1000 <= LEAST_SLEEP_US /\
  fst (butex_wait_enter clobbering Z us None 100 7 (Some 1000) 1000 5 50 51
         (valued_store 5)) = Returned (-1) /\
  errno (snd (butex_wait_enter clobbering Z us None 100 7 (Some 1000) 1000 5 50 51
                (valued_store 5))) = EWOULDBLOCK /\
  errno (snd (butex_wait_enter clobbering Z us None 100 7 (Some 1000) 1000 5 50 51
                (valued_store 5))) <> ETIMEDOUT.
Proof. split_and!; try reflexivity; vm_compute; congruence. Qed.

(** C10 as stated.  The task is interruptible and stopped, and the
    deadline has passed: the call returns ETIMEDOUT, not ESTOP. *)
Lemma deadline_comes_before_stop :
  interruptible (task_at (task_store true true)
                   (current_task (group_at (task_store true true) 7))) = true /\
  stop (task_at (task_store true true)
          (current_task (group_at (task_store true true) 7))) = true /\
  fst (butex_wait_from_pthread_enter Z us (Some 7) 100 0 (Some 1000) 1000 51
         (task_store true true)) = Returned (-1) /\
  errno (snd (butex_wait_from_pthread_enter Z us (Some 7) 100 0 (Some 1000) 1000 51
                (task_store true true))) = ETIMEDOUT /\
  errno (snd (butex_wait_from_pthread_enter Z us (Some 7) 100 0 (Some 1000) 1000 51
                (task_store true true))) <> ESTOP.
Proof. split_and!; try reflexivity; vm_compute; congruence. Qed.

(** C8 as stated.  The storage handed out held 7 where the value word
    goes: after [butex_create] the value word is 7, not 0. *)
Lemma butex_create_leaves_value :
  fst (butex_create (Some 100) (valued_store 7)) = Some 100 /\
  value (butex_at (snd (butex_create (Some 100) (valued_store 7))) 100) = 7 /\
  value (butex_at (snd (butex_create (Some 100) (valued_store 7))) 100) <> 0.
Proof. split_and!; try reflexivity; vm_compute; congruence. Qed.

(** ** Where the code says less than the specification *)

(** C7.  With a wake announced on butex 100 ([unlock_nref] is 1),
    [butex_destroy] frees the butex at once: no load of [unlock_nref],
    no warning, no fence.  [butex_destruct] in the same store does not
    come back until the announced wake has dropped its reference, and
    then warns, fences and destroys. *)
Lemma butex_destroy_does_not_wait :
  unlock_nref (butex_at announced_store 100) = 1 /\
  trace (butex_destroy (Some 100) announced_store)
  = [Butex_destructor 100; operator_delete 100] /\
  unlock_nref (butex_at (butex_destroy (Some 100) announced_store) 100) = 1 /\
  butex_destruct [] (Some 100) announced_store = None /\
  (exists s', butex_destruct [butex_remove_ref 100] (Some 100) announced_store = Some s' /\
     trace s' = [LOG_WARNING; cpu_relax; atomic_thread_fence_acquire;
                 Butex_destructor 100]).
Proof. split_and!; try reflexivity. eexists. split; reflexivity. Qed.


(** ** More of the code at work on the sample stores *)

(** Another thread, no worker, stores 1 in butex 100 and wakes one
    waiter. *)
Local Abbreviation store_and_wake :=
  (fun s0 : State =>
     snd (butex_wake quiet_timer only_group clobbering None 100
            (with_butex (container_of_value 100) (set_value 1) s0))).

(** One wake is announced on butex 100: announcing another and taking
    it back, in either order, gives the store back. *)
Lemma unlock_nref_round_trip_witness :
  is_int32 (unlock_nref (butex_at announced_store (container_of_value 100))) /\
  same_store announced_store
    (butex_remove_ref 100 (butex_add_ref_before_wake 100 announced_store)) /\
  same_store announced_store
    (butex_add_ref_before_wake 100 (butex_remove_ref 100 announced_store)).
Proof.
  assert (H : is_int32 (unlock_nref (butex_at announced_store (container_of_value 100))))
    by (vm_compute; split; [discriminate | reflexivity]).
  split; [exact H|].
  destruct (unlock_nref_round_trip 100 announced_store H) as (H1 & H2 & _).
  split; [exact H1 | exact H2].
Defined.

(** Announce, then wake and take the announcement back, on butex 100 of
    the busy store: one waiter woken, and the store [butex_wake] alone
    would have left. *)
Lemma butex_wake_and_remove_ref_is_wake_witness :
  is_int32 (unlock_nref (butex_at busy_store (container_of_value 100))) /\
  fst (butex_wake_and_remove_ref quiet_timer only_group clobbering None 100
         (butex_add_ref_before_wake 100 busy_store)) = 1 /\
  same_store
    (snd (butex_wake quiet_timer only_group clobbering None 100 busy_store))
    (snd (butex_wake_and_remove_ref quiet_timer only_group clobbering None 100
            (butex_add_ref_before_wake 100 busy_store))).
Proof.
  assert (H : is_int32 (unlock_nref (butex_at busy_store (container_of_value 100))))
    by (vm_compute; split; [discriminate | reflexivity]).
  split; [exact H|].
  exact (proj2 (butex_wake_and_remove_ref_is_wake quiet_timer only_group clobbering
                  None 100 busy_store) H).
Defined.

(** Two wakes still in flight on butex 100: the destructor runs once
    both have let go, after a warning and two turns of the spin loop;
    with one of them missing it does not return. *)
Lemma butex_destruct_waits_out_wakes_witness :
  unlock_nref (butex_at twice_announced_store 100) = Z.of_nat 2 /\
  is_int32 (Z.of_nat 2) /\
  (exists s',
     butex_destruct [butex_remove_ref 100; butex_remove_ref 100] (Some 100)
       twice_announced_store = Some s' /\
     unlock_nref (butex_at s' 100) = 0 /\
     trace s' = [LOG_WARNING; cpu_relax; cpu_relax;
                 atomic_thread_fence_acquire; Butex_destructor 100]) /\
  butex_destruct [butex_remove_ref 100] (Some 100) twice_announced_store = None.
Proof.
  assert (H1 : unlock_nref (butex_at twice_announced_store 100) = Z.of_nat 2)
    by reflexivity.
  assert (H2 : is_int32 (Z.of_nat 2))
    by (vm_compute; split; [discriminate | reflexivity]).
  split; [exact H1|]. split; [exact H2|].
  destruct (butex_destruct_waits_out_wakes 2 100 twice_announced_store H1 H2)
    as [Hrun Hstuck].
  split; [exact Hrun|].
  apply (Hstuck 1%nat). lia.
Defined.

(** [butex_wake_all] on the crowded butex 100: four waiters woken, the
    queue empty, the pthread waiter signalled. *)
Lemma butex_wake_all_wakes_all_witness :
  wf crowded_store /\
  fst (butex_wake_all quiet_timer only_group clobbering None 100 crowded_store) = 4 /\
  waiters (butex_at
             (snd (butex_wake_all quiet_timer only_group clobbering None 100
                     crowded_store)) 100) = [] /\
  container (waiter_at
               (snd (butex_wake_all quiet_timer only_group clobbering None 100
                       crowded_store)) 4) = None /\
  sig (waiter_at
         (snd (butex_wake_all quiet_timer only_group clobbering None 100
                 crowded_store)) 1) = SAFE_TO_DESTROY.
Proof.
  split; [exact crowded_store_wf|].
  destruct (butex_wake_all_wakes_all quiet_timer only_group clobbering None 100
              crowded_store crowded_store_wf) as (H1 & H2 & _ & H4 & _ & H6 & _).
  split; [exact H1|]. split; [exact H2|]. split.
  - apply H4. change (4 ∈ [1; 2; 4; 5]).
    do 2 apply list_elem_of_further. apply list_elem_of_here.
  - apply H6; [apply list_elem_of_here | reflexivity].
Defined.

(** The calls of that [butex_wake_all], from a thread that is no worker:
    the futex wake, the later bthreads last first without a signal (the
    timer of waiter 4 stopped before), one flush, and the first bthread
    made ready. *)
Lemma butex_wake_all_calls_witness :
  wf crowded_store /\
  trace (snd (butex_wake_all quiet_timer only_group clobbering None 100 crowded_store))
  = [futex_wake_private 1 1;
     ready_to_run_nosignal 7 45;
     timer_unschedule 6;
     ready_to_run_nosignal 7 44;
     flush_nosignal_tasks 7;
     ready_to_run 7 42].
Proof.
  split; [exact crowded_store_wf|].
  exact (butex_wake_all_calls quiet_timer only_group clobbering None 100
           crowded_store crowded_store_wf).
Defined.

(** [butex_wake_except] with tid 44 excluded, from the worker of group
    3: three waiters woken, none of them run in place. *)
Lemma butex_wake_except_wakes_others_witness :
  wf crowded_store /\
  fst (butex_wake_except quiet_timer only_group clobbering (Some 3) 100 44
         crowded_store) = 3 /\
  trace (snd (butex_wake_except quiet_timer only_group clobbering (Some 3) 100 44
                crowded_store))
  = [futex_wake_private 1 1;
     ready_to_run_nosignal 3 45;
     ready_to_run_nosignal 3 42;
     flush_nosignal_tasks 3].
Proof.
  split; [exact crowded_store_wf|].
  destruct (butex_wake_except_wakes_others quiet_timer only_group clobbering
              (Some 3) 100 44 crowded_store crowded_store_wf) as (H1 & H2 & _).
  split; [exact H1 | exact H2].
Defined.

(** Waiter 4 is third in the queue of butex 100: after two calls of
    [butex_wake] it is the head, and the third call wakes it. *)
Lemma butex_wake_is_first_come_first_served_witness :
  wf crowded_store /\
  waiters (butex_at crowded_store (container_of_value 100)) = [1; 2] ++ 4 :: [5] /\
  waiters (butex_at
             (butex_wake_times quiet_timer only_group clobbering 2 None 100
                crowded_store) 100) = [4; 5] /\
  container (waiter_at
               (snd (butex_wake quiet_timer only_group clobbering None 100
                       (butex_wake_times quiet_timer only_group clobbering 2 None 100
                          crowded_store))) 4) = None.
Proof.
  assert (Hq : waiters (butex_at crowded_store (container_of_value 100))
               = [1; 2] ++ 4 :: [5]) by reflexivity.
  split; [exact crowded_store_wf|]. split; [exact Hq|].
  destruct (butex_wake_is_first_come_first_served quiet_timer only_group clobbering
              None 100 crowded_store [1; 2] 4 [5] crowded_store_wf Hq)
    as (H1 & _ & _ & H4 & _).
  split; [exact H1 | exact H4].
Defined.

(** The timer callback on the queued bthread waiter 2: it is erased,
    marked TIMEDOUT and made ready once; a second callback, from any
    thread, changes nothing. *)
Lemma erase_from_butex_wakes_once_witness :
  container (waiter_at busy_store 2) <> None /\
  trace (erase_from_butex_and_wakeup only_group clobbering None [] 2 busy_store)
  = [ready_to_run 7 42] /\
  waiter_state
    (waiter_at (erase_from_butex_and_wakeup only_group clobbering None [] 2 busy_store) 2)
  = WAITER_STATE_TIMEDOUT /\
  erase_from_butex_and_wakeup only_group clobbering (Some 3) [] 2
    (erase_from_butex_and_wakeup only_group clobbering None [] 2 busy_store)
  = erase_from_butex_and_wakeup only_group clobbering None [] 2 busy_store.
Proof.
  assert (H : container (waiter_at busy_store 2) <> None) by discriminate.
  split; [exact H|].
  destruct (proj2 (erase_from_butex_wakes_once only_group clobbering None 2 busy_store) H)
    as (H1 & _ & H3 & _ & _ & H6).
  split; [exact H1|]. split; [apply H3; discriminate|].
  exact (H6 (Some 3) []).
Defined.

(** Waiter 1 heads the queue of butex 100.  Once [butex_wake] or
    [butex_wake_all] has run, erasing it does nothing; and an eraser that
    [butex_wake] overtakes between its read of [container] and the lock
    gives up. *)
Lemma woken_waiter_is_not_erased_witness :
  waiters (butex_at busy_store (container_of_value 100)) = 1 :: [2] /\
  wf busy_store /\
  container (waiter_at busy_store 1) <> None /\
  erase_from_butex only_group clobbering (Some 3) [] 1 true
    (snd (butex_wake quiet_timer only_group clobbering None 100 busy_store))
  = (false, snd (butex_wake quiet_timer only_group clobbering None 100 busy_store)) /\
  erase_from_butex only_group clobbering (Some 3) [] 2 true
    (snd (butex_wake_all quiet_timer only_group clobbering None 100 busy_store))
  = (false, snd (butex_wake_all quiet_timer only_group clobbering None 100 busy_store)) /\
  fst (erase_from_butex only_group clobbering (Some 3)
         [fun s0 => snd (butex_wake quiet_timer only_group clobbering None 100 s0)]
         1 true busy_store) = false.
Proof.
  assert (Hq : waiters (butex_at busy_store (container_of_value 100)) = 1 :: [2])
    by reflexivity.
  assert (Hc : container (waiter_at busy_store 1) <> None) by discriminate.
  split; [exact Hq|]. split; [exact busy_store_wf|]. split; [exact Hc|].
  destruct (woken_waiter_is_not_erased quiet_timer only_group clobbering None (Some 3)
              [] 100 true busy_store) as (H1 & H2 & H3).
  split; [exact (H1 1 [2] Hq)|]. split.
  - apply (H2 busy_store_wf). apply list_elem_of_further, list_elem_of_here.
  - rewrite (H3 1 [2] Hq Hc). reflexivity.
Defined.

(** Waiter 2 waits on butex 100 behind waiter 1.  Its eraser reads
    [container], a [butex_requeue] to butex 200 slips in, and the eraser
    follows the waiter there: it takes it out of the queue of butex 200. *)
Lemma erase_from_butex_follows_requeue_witness :
  100 <> 200 /\ wf busy_store /\
  waiters (butex_at busy_store (container_of_value 100)) = 1 :: [2] /\
  2 ∈ [2] /\
  exists s',
    erase_from_butex only_group clobbering None
      [fun s0 => match butex_requeue quiet_timer only_group clobbering None 100 200 s0 with
                 | Some (_, s1) => s1
                 | None => s0
                 end] 2 true busy_store = (true, s') /\
    waiters (butex_at s' (container_of_value 100)) = [] /\
    waiters (butex_at s' (container_of_value 200)) = [3] /\
    container (waiter_at s' 2) = None.
Proof.
  assert (Hne : 100 <> 200) by lia.
  assert (Hq : waiters (butex_at busy_store (container_of_value 100)) = 1 :: [2])
    by reflexivity.
  assert (Hin : 2 ∈ [2]) by apply list_elem_of_here.
  split; [exact Hne|]. split; [exact busy_store_wf|]. split; [exact Hq|].
  split; [exact Hin|].
  destruct (erase_from_butex_follows_requeue quiet_timer only_group clobbering None None
              100 200 2 true busy_store 1 [2] Hne busy_store_wf Hq Hin)
    as (s' & H1 & H2 & H3 & H4 & _).
  exists s'. split; [exact H1|]. split; [exact H2|]. split; [exact H3 | exact H4].
Defined.

(** The timer of the prepared waiter 50 fires before the waiter is
    queued: the callback changes nothing, and [wait_for_butex] then
    queues the waiter on butex 100, its timer spent. *)
Lemma timer_before_enqueue_is_lost_witness :
  container (waiter_at timed_store 50) = None /\
  value (butex_at timed_store 100) = expected_value (waiter_at timed_store 50) /\
  waiter_state (waiter_at timed_store 50) = WAITER_STATE_TIMED /\
  stop (task_at timed_store 9) = false /\
  erase_from_butex_and_wakeup only_group clobbering None [] 50 timed_store = timed_store /\
  waiters (butex_at
             (wait_for_butex quiet_timer clobbering 7 50
                (erase_from_butex_and_wakeup only_group clobbering None [] 50 timed_store))
             100) = [50] /\
  trace (wait_for_butex quiet_timer clobbering 7 50
           (erase_from_butex_and_wakeup only_group clobbering None [] 50 timed_store))
  = [].
Proof.
  assert (Hc : container (waiter_at timed_store 50) = None) by reflexivity.
  assert (Hv : value (butex_at timed_store 100) = expected_value (waiter_at timed_store 50))
    by reflexivity.
  assert (Ht : waiter_state (waiter_at timed_store 50) = WAITER_STATE_TIMED)
    by reflexivity.
  assert (Hs : stop (task_at timed_store 9) = false) by reflexivity.
  split; [exact Hc|]. split; [exact Hv|]. split; [exact Ht|]. split; [exact Hs|].
  destruct (timer_before_enqueue_is_lost quiet_timer only_group clobbering None [] 7 50
              timed_store Hc) as [H1 H2].
  split; [exact H1|].
  destruct (H2 Hv Ht (or_introl Hs)) as (_ & H4 & _ & _ & H7).
  split; [exact H4 | exact H7].
Defined.

(** Task 9 is stopped when its bthread parks on butex 100: the waiter is
    refused by [wait_for_butex], and the wait fails with ESTOP. *)
Lemma bthread_wait_succeeds_only_if_queued_witness :
  exists rc s',
    butex_wait quiet_timer only_group clobbering Z us (Some 7) 100 0 None 0 0 50 51
      nobody (task_store false true) = Some (rc, s') /\
    rc = -1 /\
    (errno s' = ESTOP \/ errno s' = ETIMEDOUT \/ errno s' = EWOULDBLOCK).
Proof.
  destruct (butex_wait quiet_timer only_group clobbering Z us (Some 7) 100 0 None 0 0
              50 51 nobody (task_store false true)) as [[rc s']|] eqn:Hrun;
    [|exfalso; vm_compute in Hrun; discriminate Hrun].
  exists rc, s'. split; [reflexivity|].
  refine (proj1 (bthread_wait_succeeds_only_if_queued quiet_timer only_group clobbering
                   (Some 7) nobody 7 50
                   (snd (butex_wait_enter clobbering Z us (Some 7) 100 0 None 0 0 50 51
                           (task_store false true)))
                   rc s' _ _ _ _ Hrun) _).
  - reflexivity.
  - intros s _. reflexivity.
  - constructor.
  - constructor.
  - reflexivity.
Defined.

(** A timed wait of a bthread whose timer thread has stopped: the call
    returns -1 with ESTOP at once, nothing queued or counted. *)
Lemma butex_wait_timer_stopped_witness :
  is_current_pthread_task (group_at (task_store false false) 7) = false /\
  value (butex_at (task_store false false) (container_of_value 100)) = 0 /\
  us 5000 > 1000 + LEAST_SLEEP_US /\
  fst (butex_wait_enter clobbering Z us (Some 7) 100 0 (Some 5000) 1000 0 50 51
         (task_store false false)) = Returned (-1) /\
  errno (snd (butex_wait_enter clobbering Z us (Some 7) 100 0 (Some 5000) 1000 0 50 51
                (task_store false false))) = ESTOP /\
  trace (snd (butex_wait_enter clobbering Z us (Some 7) 100 0 (Some 5000) 1000 0 50 51
                (task_store false false))) = [timer_schedule 50 0].
Proof.
  assert (H1 : is_current_pthread_task (group_at (task_store false false) 7) = false)
    by reflexivity.
  assert (H2 : value (butex_at (task_store false false) (container_of_value 100)) = 0)
    by reflexivity.
  assert (H3 : us 5000 > 1000 + LEAST_SLEEP_US) by (unfold LEAST_SLEEP_US; lia).
  split; [exact H1|]. split; [exact H2|]. split; [exact H3|].
  destruct (butex_wait_timer_stopped clobbering Z us 7 100 0 5000 1000 50 51
              (task_store false false) H1 H2 H3) as (R1 & R2 & _ & _ & _ & R6).
  split; [exact R1|]. split; [exact R2 | exact R6].
Defined.

(** Task 9 comes back from the scheduler in the woken store: when
    [butex_wait] returns, the waiter has no timer and the task no
    current waiter. *)
Lemma wait_returns_with_waiter_released_witness :
  Forall (keeps_timer 50) [] /\
  exists rc s',
    butex_wait_resume quiet_timer clobbering [] [] 50 woken_store = Some (rc, s') /\
    sleep_id (waiter_at s' 50) = 0 /\
    current_waiter (task_at s' (task_meta (waiter_at s' 50))) = None.
Proof.
  assert (H : Forall (keeps_timer 50) []) by constructor.
  split; [exact H|].
  eexists _, _. split; [reflexivity|].
  exact (proj1 (wait_returns_with_waiter_released quiet_timer clobbering 50)
           [] [] woken_store _ _ H eq_refl).
Defined.

(** A thread that is no worker waits on butex 100 until the deadline:
    it was counted while asleep and is not when the call returns. *)
Lemma butex_waiter_count_balanced_witness :
  every_turn (keeps butex_waiter_count)
    (mkOthers (fun s => s) (fun s => s) [] [] [kernel_timeout] [] []) /\
  exists rc s',
    butex_wait quiet_timer only_group clobbering Z us None 100 0 (Some 5000) 1000 0 50 51
      (mkOthers (fun s => s) (fun s => s) [] [] [kernel_timeout] [] [])
      empty_store = Some (rc, s') /\
    butex_waiter_count s' = butex_waiter_count empty_store.
Proof.
  assert (H : every_turn (keeps butex_waiter_count)
                (mkOthers (fun s => s) (fun s => s) [] [] [kernel_timeout] [] [])).
  { unfold every_turn. cbn.
    repeat split; try constructor; try (intros s; reflexivity); constructor. }
  split; [exact H|].
  destruct (butex_wait quiet_timer only_group clobbering Z us None 100 0 (Some 5000)
              1000 0 50 51
              (mkOthers (fun s => s) (fun s => s) [] [] [kernel_timeout] [] [])
              empty_store) as [[rc s']|] eqn:Hrun;
    [|exfalso; vm_compute in Hrun; discriminate Hrun].
  exists rc, s'. split; [reflexivity|].
  exact (butex_waiter_count_balanced quiet_timer only_group clobbering Z us None 100 0
           (Some 5000) 1000 0 50 51 _ empty_store rc s' H Hrun).
Defined.

(** The queued pthread waiter 1 sleeps to the deadline: [wait_pthread]
    gives the result of the futex call, having taken the waiter off its
    queue itself. *)
Lemma wait_pthread_returns_witness :
  exists rc s',
    wait_pthread only_group clobbering None [kernel_timeout] [] [] 1 busy_store
    = Some (rc, s') /\
    (exists a, a ∈ [kernel_timeout] /\ rc = futex_rc a) /\
    (sig (waiter_at s' 1) <> NOT_SIGNALLED \/
     rc <> 0 /\ errno s' = ETIMEDOUT /\ container (waiter_at s' 1) = None /\
     forall b, 1 ∉ waiters (butex_at s' b)).
Proof.
  destruct (wait_pthread only_group clobbering None [kernel_timeout] [] [] 1 busy_store)
    as [[rc s']|] eqn:Hrun; [|exfalso; vm_compute in Hrun; discriminate Hrun].
  exists rc, s'. split; [reflexivity|].
  exact (wait_pthread_returns only_group clobbering None [kernel_timeout] [] [] 1
           busy_store rc s' Hrun).
Defined.

(** Task 9 leaves a pthread-mode wait whose futex call had succeeded,
    a stopper holding its waiter until the first turn it is given:
    stopped, the task gets -1 with ESTOP; not stopped, it gets the 0 of
    the futex call.  A thread that runs no task gets what the wait came
    to, here a timeout. *)
Lemma pthread_wait_result_order_witness :
  Exists (gives_back 9) [stopper_done] /\
  (exists s',
     butex_wait_from_pthread_leave [stopper_done] (Some 9) true 0
       (resumed_store true WAITER_STATE_NONE) = Some (-1, s') /\
     errno s' = ESTOP /\ current_waiter (task_at s' 9) = None) /\
  (exists s',
     butex_wait_from_pthread_leave [stopper_done] (Some 9) true 0
       (resumed_store false WAITER_STATE_NONE) = Some (0, s') /\
     current_waiter (task_at s' 9) = None) /\
  butex_wait_from_pthread_leave [] None false (-1) (set_errno ETIMEDOUT empty_store)
  = Some (-1, set_errno ETIMEDOUT empty_store).
Proof.
  assert (H : Exists (gives_back 9) [stopper_done]).
  { apply List.Exists_cons_hd. intros s. unfold stopper_done. cbn.
    rewrite insert_at, decide_True by done. discriminate. }
  split; [exact H|].
  pose proof (fun stopped =>
    pthread_wait_result_order [stopper_done] (Some 9) true 0
      (resumed_store stopped WAITER_STATE_NONE)) as Hthm.
  cbv beta iota in Hthm.
  refine (conj _ (conj _ _)).
  - destruct (Hthm true) as [Hret Hord].
    destruct (Hret (fun _ => or_intror H)) as (rc' & s' & Hrun).
    destruct (Hord rc' s' Hrun) as (Hstop & _ & Htaken).
    pose proof Hrun as Hc. vm_compute in Hc. injection Hc as <- <-.
    eexists. split; [exact Hrun|]. split; [apply Hstop; reflexivity | by apply Htaken].
  - destruct (Hthm false) as [Hret Hord].
    destruct (Hret (fun _ => or_intror H)) as (rc' & s' & Hrun).
    destruct (Hord rc' s' Hrun) as (_ & Hclear & Htaken).
    pose proof Hrun as Hc. vm_compute in Hc. injection Hc as <- <-.
    eexists. split; [exact Hrun | by apply Htaken].
  - exact (pthread_wait_result_order [] None false (-1) (set_errno ETIMEDOUT empty_store)).
Defined.

(** The bthread of task 9 waits on butex 100 while its value is 0; a
    thread that is no worker stores 1 and calls [butex_wake]: the wait
    returns 0, the bthread having been made ready once. *)
Lemma bthread_wait_wake_round_trip_witness :
  is_current_pthread_task (group_at (task_store false false) 7) = false /\
  current_tid (group_at (task_store false false) 7) <> 0 /\
  stop (task_at (task_store false false)
          (current_task (group_at (task_store false false) 7))) = false /\
  value (butex_at (task_store false false) (container_of_value 100)) = 0 /\
  (forall b', 50 ∉ waiters (butex_at (task_store false false) b')) /\
  waiters (butex_at (task_store false false) (container_of_value 100)) = [] /\
  exists s',
    butex_wait quiet_timer only_group clobbering Z us (Some 7) 100 0 None 0 0 50 51
      (mkOthers (fun s0 => s0) store_and_wake [] [] [] [] [])
      (task_store false false) = Some (0, s') /\
    value (butex_at s' (container_of_value 100)) = 1 /\
    container (waiter_at s' 50) = None /\
    trace s' = [set_remained_and_sched 7 50; ready_to_run 7 42].
Proof.
  assert (H1 : is_current_pthread_task (group_at (task_store false false) 7) = false)
    by reflexivity.
  assert (H2 : current_tid (group_at (task_store false false) 7) <> 0) by discriminate.
  assert (H3 : stop (task_at (task_store false false)
                       (current_task (group_at (task_store false false) 7))) = false)
    by reflexivity.
  assert (H4 : value (butex_at (task_store false false) (container_of_value 100)) = 0)
    by reflexivity.
  assert (H5 : forall b', 50 ∉ waiters (butex_at (task_store false false) b'))
    by (intros b'; apply not_elem_of_nil).
  assert (H6 : waiters (butex_at (task_store false false) (container_of_value 100)) = [])
    by reflexivity.
  refine (conj H1 (conj H2 (conj H3 (conj H4 (conj H5 (conj H6 _)))))).
  destruct (bthread_wait_wake_round_trip quiet_timer only_group clobbering Z us 7 None
              100 0 1 0 0 50 51 [] [] [] [] [] (task_store false false)
              H1 H2 H3 H4 H5 H6) as (s' & R1 & _ & R3 & R4 & _ & _ & R7).
  exists s'. split; [exact R1|]. split; [exact R4|]. split; [exact R3 | exact R7].
Defined.

(** The same wait with a deadline and nobody waking: the timer fires
    while the bthread is parked, and the wait returns -1 with ETIMEDOUT,
    the waiter off the queue and its timer handle cleared. *)
Lemma bthread_wait_times_out_witness :
  is_current_pthread_task (group_at (task_store false false) 7) = false /\
  current_tid (group_at (task_store false false) 7) <> 0 /\
  stop (task_at (task_store false false)
          (current_task (group_at (task_store false false) 7))) = false /\
  value (butex_at (task_store false false) (container_of_value 100)) = 0 /\
  (forall b', 50 ∉ waiters (butex_at (task_store false false) b')) /\
  us 5000 > 1000 + LEAST_SLEEP_US /\
  5 <> 0 /\
  (forall tr, quiet_timer tr 5 <= 0) /\
  exists s',
    butex_wait quiet_timer only_group clobbering Z us (Some 7) 100 0 (Some 5000) 1000 5
      50 51
      (mkOthers (fun s0 => s0)
         (erase_from_butex_and_wakeup only_group clobbering None [] 50)
         [] [] [] [] [])
      (task_store false false) = Some (-1, s') /\
    errno s' = ETIMEDOUT /\
    container (waiter_at s' 50) = None /\
    sleep_id (waiter_at s' 50) = 0 /\
    trace s' = [timer_schedule 50 5; set_remained_and_sched 7 50;
                ready_to_run 7 42; timer_unschedule 5].
Proof.
  assert (H1 : is_current_pthread_task (group_at (task_store false false) 7) = false)
    by reflexivity.
  assert (H2 : current_tid (group_at (task_store false false) 7) <> 0) by discriminate.
  assert (H3 : stop (task_at (task_store false false)
                       (current_task (group_at (task_store false false) 7))) = false)
    by reflexivity.
  assert (H4 : value (butex_at (task_store false false) (container_of_value 100)) = 0)
    by reflexivity.
  assert (H5 : forall b', 50 ∉ waiters (butex_at (task_store false false) b'))
    by (intros b'; apply not_elem_of_nil).
  assert (H6 : us 5000 > 1000 + LEAST_SLEEP_US) by (unfold LEAST_SLEEP_US; lia).
  assert (H7 : 5 <> 0) by discriminate.
  assert (H8 : forall tr, quiet_timer tr 5 <= 0) by (intros tr; unfold quiet_timer; lia).
  refine (conj H1 (conj H2 (conj H3 (conj H4 (conj H5 (conj H6 (conj H7 (conj H8 _)))))))).
  destruct (bthread_wait_times_out quiet_timer only_group clobbering Z us 7 None
              100 0 5000 1000 5 50 51 [] [] [] [] [] (task_store false false)
              H1 H2 H3 H4 H5 H6 H7 H8) as (s' & R1 & R2 & _ & R4 & R5 & _ & _ & R8).
  exists s'. split; [exact R1|]. split; [exact R2|]. split; [exact R4|].
  split; [exact R5 | exact R8].
Defined.

(** An eraser of waiter 2 that is overtaken by an announcement of a
    wake on butex 100: the announcement leaves the value word alone, and
    so does the whole call. *)
Lemma value_word_is_not_written_witness :
  Forall (keeps (fun s => value (butex_at s 100))) [butex_add_ref_before_wake 100] /\
  value (butex_at
           (snd (erase_from_butex only_group clobbering None
                   [butex_add_ref_before_wake 100] 2 true busy_store)) 100)
  = value (butex_at busy_store 100).
Proof.
  destruct (value_word_is_not_written quiet_timer only_group clobbering Z us 100)
    as (_ & _ & _ & _ & _ & _ & Href & _ & _ & Herase & _).
  assert (H : Forall (keeps (fun s => value (butex_at s 100)))
                [butex_add_ref_before_wake 100]).
  { constructor; [|constructor]. intros s. exact (proj1 (Href 100 s)). }
  split; [exact H|].
  exact (Herase None [butex_add_ref_before_wake 100] 2 true busy_store H).
Defined.

Lemma waker_keeps_interruptible t :
  keeps (fun s => interruptible (task_at s t))
    store_and_wake.
Proof.
  intros s.
  exact (frame_butex_wake quiet_timer only_group clobbering _
           (framed_interruptible clobbering t)
           None 100 (with_butex (container_of_value 100) (set_value 1) s)).
Qed.

Lemma waker_keeps_stop t :
  keeps (fun s => stop (task_at s t))
    store_and_wake.
Proof.
  intros s.
  exact (frame_butex_wake quiet_timer only_group clobbering _ (framed_stop clobbering t)
           None 100 (with_butex (container_of_value 100) (set_value 1) s)).
Qed.

(** Task 9, interruptible, waits uninterruptibly on butex 100 and is
    woken: it is interruptible again when the call returns, and no task
    has been stopped. *)
Lemma butex_wait_uninterruptible_restores_witness :
  exists rc s',
    butex_wait_uninterruptible quiet_timer only_group clobbering Z us (Some 7) 100 0
      None 0 0 50 51
      (mkOthers (fun s0 => s0) store_and_wake [] [] [] [] [])
      (task_store false false) = Some (rc, s') /\
    interruptible (task_at s' 9) = true /\ stop (task_at s' 9) = false.
Proof.
  destruct (butex_wait_uninterruptible quiet_timer only_group clobbering Z us (Some 7)
              100 0 None 0 0 50 51
              (mkOthers (fun s0 => s0) store_and_wake [] [] [] [] [])
              (task_store false false)) as [[rc s']|] eqn:Hrun;
    [|exfalso; vm_compute in Hrun; discriminate Hrun].
  exists rc, s'. split; [reflexivity|].
  refine (butex_wait_uninterruptible_restores quiet_timer only_group clobbering Z us
            (Some 7) 100 0 None 0 0 50 51
            (mkOthers (fun s0 => s0) store_and_wake [] [] [] [] [])
            (task_store false false) rc s' _ _ Hrun 9).
  - intros t. unfold every_turn. cbn.
    refine (conj _ (conj (waker_keeps_interruptible t) _)); [by intros s|].
    repeat split; constructor.
  - intros t. unfold every_turn. cbn.
    refine (conj _ (conj (waker_keeps_stop t) _)); [by intros s|].
    repeat split; constructor.
Defined.

(** The same wait by a task that is stopped: it parks all the same, and
    once woken it returns -1 with ESTOP, still stopped and interruptible
    again. *)
Lemma uninterruptible_wait_of_stopped_task_witness :
  is_current_pthread_task (group_at (task_store false true) 7) = false /\
  current_tid (group_at (task_store false true) 7) <> 0 /\
  stop (task_at (task_store false true)
          (current_task (group_at (task_store false true) 7))) = true /\
  value (butex_at (task_store false true) (container_of_value 100)) = 0 /\
  (forall b', 50 ∉ waiters (butex_at (task_store false true) b')) /\
  waiters (butex_at (task_store false true) (container_of_value 100)) = [] /\
  exists s',
    butex_wait_uninterruptible quiet_timer only_group clobbering Z us (Some 7) 100 0
      None 0 0 50 51
      (mkOthers (fun s0 => s0) store_and_wake [] [] [] [] [])
      (task_store false true) = Some (-1, s') /\
    errno s' = ESTOP /\
    trace s' = [set_remained_and_sched 7 50; ready_to_run 7 42] /\
    interruptible (task_at s' 9) = true.
Proof.
  assert (H1 : is_current_pthread_task (group_at (task_store false true) 7) = false)
    by reflexivity.
  assert (H2 : current_tid (group_at (task_store false true) 7) <> 0) by discriminate.
  assert (H3 : stop (task_at (task_store false true)
                       (current_task (group_at (task_store false true) 7))) = true)
    by reflexivity.
  assert (H4 : value (butex_at (task_store false true) (container_of_value 100)) = 0)
    by reflexivity.
  assert (H5 : forall b', 50 ∉ waiters (butex_at (task_store false true) b'))
    by (intros b'; apply not_elem_of_nil).
  assert (H6 : waiters (butex_at (task_store false true) (container_of_value 100)) = [])
    by reflexivity.
  refine (conj H1 (conj H2 (conj H3 (conj H4 (conj H5 (conj H6 _)))))).
  destruct (uninterruptible_wait_of_stopped_task quiet_timer only_group clobbering Z us
              7 None 100 0 1 0 0 50 51 [] [] [] [] [] (task_store false true)
              H1 H2 H3 H4 H5 H6) as (s' & R1 & R2 & R3 & _ & _ & R6 & _).
  exists s'. split; [exact R1|]. split; [exact R2|]. split; [exact R3 | exact R6].
Defined.

(** A thread that is no worker waits on butex 100 of the empty store.
    Woken during its futex call it returns 0; left alone until the
    deadline it returns -1 with ETIMEDOUT, having taken its waiter off
    the queue itself. *)
Lemma pthread_wait_round_trips_witness :
  value (butex_at empty_store (container_of_value 100)) = 0 /\
  (forall b', 51 ∉ waiters (butex_at empty_store b')) /\
  waiters (butex_at empty_store (container_of_value 100)) = [] /\
  us 5000 - 1000 > LEAST_SLEEP_US /\
  (exists s',
     butex_wait quiet_timer only_group clobbering Z us None 100 0 None 1000 0 50 51
       (mkOthers (fun s0 => s0) (fun s0 => s0) [] []
          [mkFutexWait store_and_wake 0 0] [] [])
       empty_store = Some (0, s') /\
     sig (waiter_at s' 51) = SAFE_TO_DESTROY /\
     trace s' = [futex_wake_private 51 1]) /\
  (exists s',
     butex_wait quiet_timer only_group clobbering Z us None 100 0 (Some 5000) 1000 0 50 51
       (mkOthers (fun s0 => s0) (fun s0 => s0) [] [] [kernel_timeout] [] [])
       empty_store = Some (-1, s') /\
     errno s' = ETIMEDOUT /\
     container (waiter_at s' 51) = None /\
     trace s' = []).
Proof.
  assert (H1 : value (butex_at empty_store (container_of_value 100)) = 0) by reflexivity.
  assert (H2 : forall b', 51 ∉ waiters (butex_at empty_store b'))
    by (intros b'; apply not_elem_of_nil).
  assert (H3 : waiters (butex_at empty_store (container_of_value 100)) = [])
    by reflexivity.
  assert (H4 : us 5000 - 1000 > LEAST_SLEEP_US) by (unfold LEAST_SLEEP_US; lia).
  refine (conj H1 (conj H2 (conj H3 (conj H4 _)))).
  destruct (pthread_wait_round_trips quiet_timer only_group clobbering Z us None 100 0 1
              5000 1000 0 50 51 (fun s0 => s0) (fun s0 => s0) [] [] [] [] empty_store
              H1 H2 H3) as [(s1 & A1 & A2 & _ & _ & _ & _ & A7) Hlate].
  destruct (Hlate H4) as (s2 & B1 & B2 & _ & B4 & _ & _ & B7).
  split.
  - exists s1. split; [exact A1|]. split; [exact A2 | exact A7].
  - exists s2. split; [exact B1|]. split; [exact B2|]. split; [exact B4 | exact B7].
Defined.
